(* ===== verification/_CoqProject ===== *)
-Q . S2P
Prelude.v
GoStrings.v
Paths.v
Flags.v
Prog.v
Host.v
Data.v
Config.v
AppInit.v
Messages.v
Platform.v
RefPlatform.v
SqliteQueries.v
Migrations.v
Smtp.v
KeyManager.v
World.v
Machine.v
Password.v
Tokens.v
TokenKeys.v
Interfaces.v
RateLimiter.v
Revocation.v
EmailCode.v
OAuthStates.v
SqliteStores.v
ServiceAccount.v
SqliteAccounts.v
SqliteAudit.v
App.v
ConfiguredBootstrap.v
Handlers.v
PasswordLogin.v
EmailLogin.v
OAuthLogin.v
Authorization.v
ServiceAccountsApi.v
Session.v
UserManagement.v
UserLifecycle.v
Server.v
Lasting.v
Startup.v
Cli.v
