(* ===== verification/Prelude.v ===== *)
(** * A verification library for identra

    identra (src/) is an identity server written in Go: it registers users, logs
    them in with a password, a code sent by mail or a GitHub account, issues and
    renews JSON web tokens, and lets service accounts manage users, accounts and
    an audit log.  This library models the program as Rocq definitions that read
    like the Go code, and proves what makes it correct.

    ** How the program is put together

    cmd/identra is one command.  `identra serve` finds and loads its
    configuration (internal/bootstrap, internal/config), starts a service
    (internal/app: open and migrate the SQLite file, bootstrap the configured
    service account, load or create the signing key, connect the Redis stores and
    the mailer), and serves eight gRPC services, all implemented by one
    [Service] (internal/identra) on top of interfaces for its collaborators:
    SQLite stores (internal/store/sqlite), Redis stores and limiters
    (internal/cache), token and password code (internal/security) and service
    account credentials (internal/serviceaccount).  The other sub-commands
    bootstrap the first service account offline or are clients of the RPCs.

    ** How it is modelled

    A program that leaves the goroutine is a [prog W A] (Prog.v): a finite tree of
    atomic actions on a state [W], one per SQL statement or transaction, Redis
    command or script, system call, SMTP command, read of the clock or of the
    random source.  The same term is run sequentially ([run], [wp]), stopped
    anywhere ([trace], [wpc]) and interleaved with others ([pool_step]).
    [guarantees R] says that each single action of it respects R, and [claims]
    that it can only win by taking something that can be taken once; [timed R] is
    [guarantees R] for actions that rely on the time read before, [establishes φ]
    that a good answer leaves φ behind, and [barred ψ] that there is none while ψ
    holds.  These carry the theorems about concurrent requests.  Go's error returns are the type
    [result] with the notation [try x := m catch h in k].  Errors are values
    with identity ([errors_Is]) and text.

    There are three states.  [World] (World.v) is what the requests share: the
    tables, Redis, the key ring, the clock and the counter of external actions
    which indexes the oracles for faults and randomness.  [Host] (Host.v) is the
    machine: files with their mode and whether they were synced, directories,
    standard output.  [DbFile] (Migrations.v) is the schema of the database file
    with its version and open transaction.  [Machine] (Machine.v) puts them
    together with the number of open database connections; it is what the service's
    cleanup acts on, so that closing a service is closing the connection that
    buildStores opened.

    ** Files

    Prelude.v      errors, [result], Go's equality notation, shared lemmas
    GoStrings.v    strings, strconv, hex and base64 (bytes and UTF-8)
    Paths.v        path/filepath on Unix
    Flags.v        package flag
    Prog.v         programs, their rules, interleavings
    Host.v         the process's machine, with faults
    Data.v         the structs of the domain, the tables and the tokens
    Messages.v     gen/go/identra/v1: the protobuf messages
    Platform.v     classes for what is not under src/; RefPlatform.v an instance
    Config.v       internal/config, internal/bootstrap/config*.go
    AppInit.v      internal/bootstrap/init.go, log.go, config_log.go
    SqliteQueries.v  internal/store/sqlite/sqlitedb and the inline statements
    Migrations.v   internal/store/sqlite/database.go, migrations/*.sql
    Smtp.v         internal/mail/smtp/mailer.go with net/smtp's client
    KeyManager.v   internal/security/jwks.go
    World.v        the state the requests share
    Machine.v      what a process runs against; opening and closing the database
    Password.v     internal/security/password.go
    Tokens.v       internal/security/tokens.go
    TokenKeys.v    internal/app/tokens.go
    Interfaces.v   internal/identra: persistence.go, collaborators.go,
                   service.go, service_factory.go
    RateLimiter.v, Revocation.v, EmailCode.v, OAuthStates.v
                   internal/cache, internal/oauth/state_store.go
    SqliteStores.v   internal/store/sqlite/store.go
    ServiceAccount.v internal/serviceaccount/bootstrap.go
    SqliteAccounts.v internal/store/sqlite/service_accounts.go
    SqliteAudit.v    internal/store/sqlite/audit.go
    App.v          internal/app: cache.go, oauth.go, stores.go, identra.go
    ConfiguredBootstrap.v  what bootstrapServiceAccount of App.v guarantees
    Handlers.v     what the handlers share
    PasswordLogin.v  internal/identra/service_password.go
    EmailLogin.v     internal/identra/service_email_code.go
    OAuthLogin.v     service_oauth.go, user_info_provider.go, service_login_info.go
    Authorization.v, ServiceAccountsApi.v
                   internal/identra/service_accounts.go
    Session.v      internal/identra/service_tokens.go
    UserManagement.v user_management.go, audit.go, system.go, service_jwks.go
    UserLifecycle.v  theorems that span user management, logins and sessions
    Server.v       the dispatch of every RPC, and the request identifier
                   (internal/bootstrap/interceptors.go)
    Lasting.v      what a successful call puts an end to, under any traffic
    Startup.v      internal/app: identra.go, stores.go, mailer.go; database.go's Open
    Cli.v          cmd/identra

    A component promises what its clients rely on through a class, which the
    implementation's file discharges and the client's theorems assume:
    [RevocationSpec] (Session.v against Revocation.v), [OneShotStates]
    (OAuthLogin.v against OAuthStates.v), [OneShotCodes] (EmailLogin.v against
    EmailCode.v), [LimiterSpec] (PasswordLogin.v against RateLimiter.v), and
    [collaborators] of Server.v, which the [deployed] services, those internal/app
    builds, satisfy.

    ** What the theorems show

    Sessions and tokens: once a refresh token was used or revoked, no call that
    starts later succeeds with it, whatever runs at the same time, up to the
    millisecond of Redis's clock ([Lasting.session_ends]); calls that overlap can
    both succeed ([Session.concurrent_refresh_double_spend]); what a token pair contains, that
    the three kinds of token are never taken for each other.
    Logins: a login answers only to a password that verifies, a stored code, or a
    state that was handed out, and links an OAuth login to the account GitHub
    named; codes and OAuth states win at most once under any
    interleaving; guesses per key and window are bounded; registration, deletion
    and reset behave as their names say, through every kind of login.  What a call
    leaves to a later one is stated on the rows that call made ([user_kept],
    [account_kept]), not on the whole database: other requests may come between.
    A listing goes through every user once when no two were created at the same
    time; SQLite leaves the order of equal times open, per query.
    Service accounts: creation, exchange, rotation, disabling and authorisation;
    bootstrap is atomic and happens once; management is authorised and audited.
    The server as a whole: under any interleaving of any requests with any faults
    the tables keep their keys, unique columns and references, and rows are never
    removed ([Server.server_invariant]).
    Keys: the ring keeps at most one active key, refines an abstract ring, and
    rotation publishes the old key, and the tokens it signed verify, until it is
    retired; the key file is written
    all or nothing even if the process is killed, and a restart loads the same
    key.
    Starting and stopping: migrations take a file from any known version to the
    current one in steps that survive a kill; starting gives the deployed service
    or closes the database again; the configuration search ends; validation is
    equivalent to a declarative description; every command closes what it opened;
    the main loop returns after a signal; a bootstrap prints a secret that works, or
    the account that had the name.
    Mail: the dialogue is the protocol's, and credentials are sent only after TLS
    or to the machine itself.

    ** Fuel and bounds

    Fuel appears in four places, each with a theorem or a definition that it is
    enough: the digits of a number (its bit length), Flags.Parse (one turn per
    argument and one more), findRootWorkdir (one per path element and one more;
    [AppInit.findRootWorkdir_spec] shows it never runs out), and ParseDuration
    (the length of the text).  Everything else is structural.  int is 64 bits and
    wraps ([wrap_int64]); page sizes are uint32; times and durations are
    nanoseconds in Z.

    ** What is a parameter

    What is not under src/ is an operation of a class with its documented laws:
    the order SQLite gives rows that compare equal, in each query, and the
    constraint messages of its driver, Redis's key space, RSA, Argon2, SHA-256,
    golang-jwt, encoding/json, the GitHub API and oauth2 (Platform.v); viper (Config.v); the mail server's replies (Smtp.v); the
    environment and faults of the machine (Host.v); gRPC connections, protojson
    and the events a serving process sees (Cli.v); Unicode tables (GoStrings.v).
    [ref_platform], [ref_os], [ref_viper] and others are instances, on which the
    closed instances of the theorems compute.

    ** Not modelled

    internal/cache/redis/cache.go, a typed cache nothing uses; the gRPC transport,
    its interceptor for access logs, the health and reflection services; log
    output beyond the records of the configuration (slog calls in handlers have no
    effect on the state); generated stubs; internal/bootstrap/signals.go, one call
    of the standard library whose effect is an event of the serving loop;
    internal/buildinfo, three strings set by the linker; tests and the
    architecture tests of internal/arch.  Contexts are modelled by their metadata:
    cancellation and deadlines appear as faults of the calls that observe them. *)

From stdpp Require Export base tactics option list strings gmap numbers relations sorting.
From stdpp Require Import options.

(** ** Go's error values

    A Go [error] is compared by identity with a few exported sentinels
    ([errors.Is]) and rendered as a message ([Error()]).  The constructors are
    the sentinels the program declares or compares with, [errors.New] for an
    anonymous error that carries only its message, [fmt.Errorf] with a [%w]
    verb at its end, and the gRPC status errors the handlers return. *)

(** google.golang.org/grpc/codes, the codes the program uses. *)
Inductive code :=
  | InvalidArgument | NotFound | AlreadyExists | PermissionDenied
  | ResourceExhausted | FailedPrecondition | Internal | Unauthenticated.

#[export] Instance code_eq_dec : EqDecision code.
Proof. solve_decision. Defined.

Inductive error :=
  (* internal/identra/user.go *)
  | identra_ErrNotFound
  | identra_ErrAlreadyExists
  (* internal/serviceaccount/bootstrap.go *)
  | sa_ErrAlreadyExists
  | sa_ErrBootstrapCompleted
  | sa_ErrNotFound
  | sa_ErrInvalidCredential
  (* database/sql, go-redis and golang-jwt sentinels *)
  | sql_ErrNoRows
  | goredis_Nil
  | jwt_ErrTokenInvalidClaims
  (* an *fs.PathError with ENOENT *)
  | os_ErrNotExist (op path : string)
  (* anonymous errors *)
  | errors_New (msg : string)
  | fmt_Errorf (prefix : string) (wrapped : error)
  | status_Error (c : code) (msg : string).

#[export] Instance error_eq_dec : EqDecision error.
Proof. solve_decision. Defined.

(** The values of Go's [(T, error)] pairs: by convention the value is only
    meaningful when the error is nil. *)
Inductive result (A : Type) : Type :=
  | Ok (a : A)
  | Err (e : error).
Arguments Ok {A} a.
Arguments Err {A} e.

#[export] Instance result_eq_dec `{EqDecision A} : EqDecision (result A).
Proof. solve_decision. Defined.

#[export] Instance result_bind : MBind result := λ A B f r,
  match r with Ok a => f a | Err e => Err e end.
#[export] Instance result_fmap : FMap result := λ A B f r,
  match r with Ok a => Ok (f a) | Err e => Err e end.

Definition is_Ok {A} (r : result A) : bool :=
  match r with Ok _ => true | Err _ => false end.

(** [errors.Is]: identity along the chain of wrapped errors. *)
Fixpoint errors_Is (e target : error) : bool :=
  bool_decide (e = target) ||
  match e with fmt_Errorf _ e' => errors_Is e' target | _ => false end.

Definition code_name (c : code) : string :=
  match c with
  | InvalidArgument => "InvalidArgument" | NotFound => "NotFound"
  | AlreadyExists => "AlreadyExists" | PermissionDenied => "PermissionDenied"
  | ResourceExhausted => "ResourceExhausted"
  | FailedPrecondition => "FailedPrecondition"
  | Internal => "Internal" | Unauthenticated => "Unauthenticated"
  end.

(** [err.Error()]. *)
Fixpoint error_Error (e : error) : string :=
  match e with
  | identra_ErrNotFound => "resource not found"
  | identra_ErrAlreadyExists => "resource already exists"
  | sa_ErrAlreadyExists => "service account already exists"
  | sa_ErrBootstrapCompleted => "service-account bootstrap has already completed"
  | sa_ErrNotFound => "service account not found"
  | sa_ErrInvalidCredential => "invalid service-account credential"
  | sql_ErrNoRows => "sql: no rows in result set"
  | goredis_Nil => "redis: nil"
  | jwt_ErrTokenInvalidClaims => "token has invalid claims"
  | os_ErrNotExist op path => op +:+ " " +:+ path +:+ ": no such file or directory"
  | errors_New msg => msg
  | fmt_Errorf prefix e' => prefix +:+ ": " +:+ error_Error e'
  | status_Error c msg =>
      "rpc error: code = " +:+ code_name c +:+ " desc = " +:+ msg
  end.

Lemma errors_Is_refl e : errors_Is e e = true.
Proof. destruct e; cbn [errors_Is]; by rewrite bool_decide_eq_true_2. Qed.

Lemma errors_Is_New msg target :
  errors_Is (errors_New msg) target = bool_decide (errors_New msg = target).
Proof. cbn [errors_Is]. by rewrite orb_false_r. Qed.

(** ** Automation shared by the development *)

Declare Scope go_scope.
Delimit Scope go_scope with go.

(** [s == t] is Go's string comparison. *)
Notation "s == t" := (bool_decide (s = t :> string)) (at level 70) : go_scope.

Create HintDb go.
Create Rewrite HintDb go.

(** Case analysis on the matches and conditionals of a goal or a hypothesis,
    with the equations simplified as they appear. *)
Ltac go_simpl :=
  repeat (simplify_eq/=; try case_match; simplify_eq/=).

(** As [go_simpl], turning boolean tests into propositions. *)
Ltac go_cases :=
  repeat (simplify_eq/=; first
    [ case_bool_decide | case_decide | case_match ]; simplify_eq/=).

(** ** Generic lemmas on lists *)

Section lists.
Context {A : Type}.
Implicit Types l : list A.

(** Replace the elements that satisfy [p] by their image: SQL's UPDATE. *)
Definition map_if (p : A → bool) (f : A → A) l : list A :=
  map (λ x, if p x then f x else x) l.

Lemma length_map_if p f l : length (map_if p f l) = length l.
Proof. apply length_map. Qed.

Lemma elem_of_map_if p f l y :
  y ∈ map_if p f l ↔ ∃ x, x ∈ l ∧ y = if p x then f x else x.
Proof. unfold map_if. rewrite list_elem_of_fmap. naive_solver. Qed.

(** A field that [f] leaves alone is left alone by [map_if]. *)
Lemma map_if_fmap {B} (g : A → B) p f l :
  (∀ x, x ∈ l → p x = true → g (f x) = g x) → g <$> map_if p f l = g <$> l.
Proof.
  intros Hg. unfold map_if. rewrite <-list_fmap_compose.
  apply list_fmap_ext; intros i x Hx; simpl. destruct (p x) eqn:Hp; [|done].
  apply Hg; [by eapply list_elem_of_lookup_2 | done].
Qed.

Lemma map_if_none p f l : (∀ x, x ∈ l → p x = false) → map_if p f l = l.
Proof.
  intros Hp. unfold map_if. rewrite <-(list_fmap_id l) at 2.
  apply list_fmap_ext; intros i x Hx; simpl.
  by rewrite Hp by (by eapply list_elem_of_lookup_2).
Qed.

(** Two entries of a list without duplicate keys that share a key are equal. *)
Lemma NoDup_fmap_inj {B} (g : A → B) l x y :
  NoDup (g <$> l) → x ∈ l → y ∈ l → g x = g y → x = y.
Proof.
  induction l as [|z l IH]; simpl; [by rewrite elem_of_nil|].
  rewrite NoDup_cons, !elem_of_cons. intros [Hz Hl] [->|Hx] [->|Hy] Hg; auto.
  - destruct Hz. rewrite Hg. by apply list_elem_of_fmap_2.
  - destruct Hz. rewrite <-Hg. by apply list_elem_of_fmap_2.
Qed.

(** [List.find], the first row a WHERE clause selects. *)
Lemma find_Some_elem p l x : find p l = Some x → x ∈ l ∧ p x = true.
Proof. intros H%find_some. by rewrite list_elem_of_In. Qed.

Lemma find_None_elem p l x : find p l = None → x ∈ l → p x = false.
Proof. intros H. rewrite list_elem_of_In. by apply find_none. Qed.

Lemma find_unique p l x :
  x ∈ l → p x = true → (∀ y, y ∈ l → p y = true → y = x) → find p l = Some x.
Proof.
  intros Hx Hp Hu. destruct (find p l) as [y|] eqn:Hf.
  - apply find_Some_elem in Hf as [??]. f_equal; auto.
  - by rewrite (find_None_elem _ _ _ Hf Hx) in Hp.
Qed.

Lemma existsb_true p l : existsb p l = true ↔ ∃ x, x ∈ l ∧ p x = true.
Proof. rewrite existsb_exists. by setoid_rewrite list_elem_of_In. Qed.

Lemma existsb_false p l : existsb p l = false ↔ ∀ x, x ∈ l → p x = false.
Proof.
  split.
  - intros H x Hx. apply not_true_iff_false. intros Hp.
    apply not_true_iff_false in H. apply H, existsb_true. eauto.
  - intros H. apply not_true_iff_false. rewrite existsb_true.
    intros (x & Hx & Hp). by rewrite H in Hp.
Qed.
End lists.

#[export] Hint Rewrite @length_map_if : go.

(** Absence as a boolean, for evaluation. *)
Definition is_None {A} (o : option A) : bool :=
  match o with Some _ => false | None => true end.

Lemma is_None_true {A} (o : option A) : is_None o = true → o = None.
Proof. by destruct o. Qed.
