(* ===== verification/GoStrings.v ===== *)
(** * The parts of Go's strings, strconv, encoding/hex and encoding/base64
    packages the program uses, over byte strings.

    A Go string is a [string]: a sequence of bytes ([ascii]).  Functions that
    look at runes are modelled on the UTF-8 encoding.  The places where Go consults the
    Unicode tables for non-ASCII text are operations of the class [Unicode]. *)

From S2P Require Import Prelude.
From Stdlib Require Import Ascii ZifyN Zify.

Abbreviation s2l := String.list_ascii_of_string.
Abbreviation l2s := String.string_of_list_ascii.

(** unicode.ToLower and unicode.SimpleFold over text that is not ASCII. *)
Class Unicode := {
  unicode_ToLower : string → string;
  unicode_EqualFold : string → string → bool;
  (* strconv.Quote of text that is not ASCII *)
  unicode_Quote : string → string;
}.

Definition byte_val (c : ascii) : N := N_of_ascii c.

(** ** White space *)

(** unicode.IsSpace, by the length of the UTF-8 encoding: U+0009..U+000D and
    U+0020; U+0085 and U+00A0; U+1680, U+2000..U+200A, U+2028, U+2029, U+202F,
    U+205F and U+3000. *)
Definition space1 (a : ascii) : bool :=
  let n := byte_val a in ((9 <=? n) && (n <=? 13) || (n =? 32))%N.
Definition space2 (a b : ascii) : bool :=
  ((byte_val a =? 194) && ((byte_val b =? 133) || (byte_val b =? 160)))%N.
Definition space3 (a b c : ascii) : bool :=
  let x := byte_val a in let y := byte_val b in let z := byte_val c in
  (((x =? 225) && (y =? 154) && (z =? 128))
   || ((x =? 226) && (y =? 128) &&
        ((z <=? 138) && (128 <=? z) || (z =? 168) || (z =? 169) || (z =? 175)))
   || ((x =? 226) && (y =? 129) && (z =? 159))
   || ((x =? 227) && (y =? 128) && (z =? 128)))%N.

Section trim.
Variables (s2 : ascii → ascii → bool) (s3 : ascii → ascii → ascii → bool).

(** Drop the white space a byte sequence starts with. *)
Fixpoint trim_front (l : list ascii) : list ascii :=
  match l with
  | [] => []
  | a :: l1 =>
      if space1 a then trim_front l1 else
      match l1 with
      | [] => l
      | b :: l2 =>
          if s2 a b then trim_front l2 else
          match l2 with
          | [] => l
          | c :: l3 => if s3 a b c then trim_front l3 else l
          end
      end
  end.

(** No white space at the front. *)
Definition front_clean (l : list ascii) : Prop :=
  match l with
  | [] => True
  | a :: l1 => space1 a = false ∧
      match l1 with
      | [] => True
      | b :: l2 => s2 a b = false ∧
          match l2 with [] => True | c :: _ => s3 a b c = false end
      end
  end.

Lemma trim_front_clean_id l : front_clean l → trim_front l = l.
Proof.
  destruct l as [|a [|b [|c l]]]; simpl; intros; destruct_and?; try done;
    repeat match goal with H : _ = false |- _ => rewrite H end; done.
Qed.

Lemma trim_front_clean l : front_clean (trim_front l).
Proof.
  induction l as [l IH] using (induction_ltof1 _ length). unfold ltof in IH.
  destruct l as [|a [|b [|c l]]]; simpl in *; try done.
  - destruct (space1 a) eqn:?; simpl; auto.
  - destruct (space1 a) eqn:?; [apply (IH [b]); simpl; lia|].
    destruct (s2 a b) eqn:?; simpl; auto.
  - destruct (space1 a) eqn:?; [apply (IH (b :: c :: l)); simpl; lia|].
    destruct (s2 a b) eqn:?; [apply (IH (c :: l)); simpl; lia|].
    destruct (s3 a b c) eqn:?; [apply IH; lia|]. simpl. auto.
Qed.

Lemma trim_front_suffix l : trim_front l `suffix_of` l.
Proof.
  induction l as [l IH] using (induction_ltof1 _ length). unfold ltof in IH.
  destruct l as [|a [|b [|c l]]]; simpl in *; try done.
  - destruct (space1 a); [apply suffix_nil|done].
  - destruct (space1 a); [by apply suffix_cons_r, (IH [b]); simpl; lia|].
    destruct (s2 a b); [apply suffix_nil|done].
  - destruct (space1 a); [apply suffix_cons_r, (IH (b :: c :: l)); simpl; lia|].
    destruct (s2 a b); [apply suffix_cons_r, suffix_cons_r, (IH (c :: l)); simpl; lia|].
    destruct (s3 a b c); [do 3 apply suffix_cons_r; apply IH; lia|done].
Qed.

(** A prefix of a clean sequence is clean. *)
Lemma front_clean_prefix l k : front_clean l → k `prefix_of` l → front_clean k.
Proof.
  intros Hl [t ->]. destruct k as [|a [|b [|c k]]]; simpl in *; naive_solver.
Qed.
End trim.

(** strings.TrimSpace. *)
Definition trim_left (l : list ascii) : list ascii := trim_front space2 space3 l.
Definition trim_right (l : list ascii) : list ascii :=
  reverse (trim_front (λ a b, space2 b a) (λ a b c, space3 c b a) (reverse l)).
Definition TrimSpace (s : string) : string := l2s (trim_right (trim_left (s2l s))).

Lemma trim_right_prefix l : trim_right l `prefix_of` l.
Proof.
  unfold trim_right. rewrite <-(reverse_involutive l) at 2.
  apply prefix_suffix_reverse. rewrite !reverse_involutive. apply trim_front_suffix.
Qed.

Lemma trim_right_idem l : trim_right (trim_right l) = trim_right l.
Proof.
  unfold trim_right. rewrite reverse_involutive. f_equal.
  apply trim_front_clean_id, trim_front_clean.
Qed.

Lemma TrimSpace_idem s : TrimSpace (TrimSpace s) = TrimSpace s.
Proof.
  unfold TrimSpace. rewrite String.list_ascii_of_string_of_list_ascii. f_equal.
  rewrite <-(trim_right_idem (trim_left (s2l s))) at 2. f_equal.
  apply trim_front_clean_id.
  eapply front_clean_prefix; [apply trim_front_clean|apply trim_right_prefix].
Qed.

(** strings.Fields. *)
Definition flush (cur : list ascii) (r : list string) : list string :=
  match cur with [] => r | _ => l2s (reverse cur) :: r end.

Fixpoint fields (cur l : list ascii) : list string :=
  match l with
  | [] => flush cur []
  | a :: l1 =>
      if space1 a then flush cur (fields [] l1) else
      match l1 with
      | [] => fields (a :: cur) l1
      | b :: l2 =>
          if space2 a b then flush cur (fields [] l2) else
          match l2 with
          | [] => fields (a :: cur) l1
          | c :: l3 =>
              if space3 a b c then flush cur (fields [] l3)
              else fields (a :: cur) l1
          end
      end
  end.
Definition Fields (s : string) : list string := fields [] (s2l s).

(** ** Prefixes, suffixes, substrings *)

Definition HasPrefix (s pre : string) : bool := String.prefix pre s.

Definition HasSuffix (s suf : string) : bool :=
  bool_decide (s2l suf `suffix_of` s2l s).

Definition TrimSuffix (s suf : string) : string :=
  if HasSuffix s suf
  then l2s (take (String.length s - String.length suf) (s2l s)) else s.

Fixpoint Contains (s sub : string) : bool :=
  String.prefix sub s || match s with
                         | EmptyString => false
                         | String _ s' => Contains s' sub
                         end.

(** strings.Split with a one-byte separator. *)
Fixpoint split_go (sep : ascii) (cur l : list ascii) : list string :=
  match l with
  | [] => [l2s (reverse cur)]
  | c :: l' => if bool_decide (c = sep) then l2s (reverse cur) :: split_go sep [] l'
               else split_go sep (c :: cur) l'
  end.
Definition Split (s : string) (sep : ascii) : list string := split_go sep [] (s2l s).

Fixpoint Join (l : list string) (sep : string) : string :=
  match l with
  | [] => ""
  | [s] => s
  | s :: l' => s +:+ sep +:+ Join l' sep
  end.

(** The part of a string before the first occurrence of a byte, and whether
    the byte occurs (strings.IndexByte and slicing). *)
Fixpoint cut_before (c : ascii) (s : string) : string * bool :=
  match s with
  | EmptyString => (EmptyString, false)
  | String d s' =>
      if bool_decide (c = d) then (EmptyString, true)
      else let '(p, b) := cut_before c s' in (String d p, b)
  end.

Lemma HasPrefix_spec s pre : HasPrefix s pre = true ↔ ∃ r, s = pre +:+ r.
Proof.
  unfold HasPrefix. revert s. induction pre as [|c pre IH]; intros s; simpl.
  - split; [by exists s|destruct s; done].
  - destruct s as [|d s]; simpl.
    + split; [done|intros [r Hr]; done].
    + destruct (ascii_dec c d) as [->|Hne].
      * rewrite IH. split; intros [r Hr]; exists r; [by rewrite Hr|by injection Hr].
      * split; [done|intros [r Hr]; by injection Hr].
Qed.

Lemma string_app_cons c s t : String c s +:+ t = String c (s +:+ t).
Proof. reflexivity. Qed.

Lemma string_app_inj_r p s t : p +:+ s = p +:+ t → s = t.
Proof. apply (inj (String.append p)). Qed.

Lemma string_app_assoc s t u : (s +:+ t) +:+ u = s +:+ (t +:+ u).
Proof. induction s as [|c s IH]; [done|]. by rewrite !string_app_cons, IH. Qed.

Lemma s2l_app s t : s2l (s +:+ t) = s2l s ++ s2l t.
Proof.
  induction s as [|c s IH]; [done|]. rewrite string_app_cons. cbn. by rewrite IH.
Qed.

Lemma l2s_app l k : l2s (l ++ k) = l2s l +:+ l2s k.
Proof. induction l as [|c l IH]; [done|]. cbn. by rewrite IH. Qed.

Lemma length_s2l s : length (s2l s) = String.length s.
Proof. induction s as [|c s IH]; cbn; by rewrite ?IH. Qed.

Lemma string_length_app s t :
  String.length (s +:+ t) = String.length s + String.length t.
Proof.
  induction s as [|c s IH]; [done|]. rewrite string_app_cons. cbn. by rewrite IH.
Qed.

Lemma HasSuffix_spec s suf : HasSuffix s suf = true ↔ ∃ r, s = r +:+ suf.
Proof.
  unfold HasSuffix. rewrite bool_decide_eq_true. split.
  - intros [k Hk]. exists (l2s k).
    rewrite <-(String.string_of_list_ascii_of_string s), Hk, l2s_app.
    by rewrite String.string_of_list_ascii_of_string.
  - intros [r ->]. rewrite s2l_app. by apply suffix_app_r.
Qed.

Lemma TrimSuffix_app r suf : TrimSuffix (r +:+ suf) suf = r.
Proof.
  unfold TrimSuffix. replace (HasSuffix (r +:+ suf) suf) with true
    by (symmetry; apply HasSuffix_spec; by exists r).
  rewrite s2l_app, string_length_app, take_app_length'.
  - apply String.string_of_list_ascii_of_string.
  - rewrite length_s2l. lia.
Qed.

(** ** Case *)

Definition is_ascii (c : ascii) : bool := (byte_val c <? 128)%N.

Definition ascii_lower (c : ascii) : ascii :=
  if ((65 <=? byte_val c) && (byte_val c <=? 90))%N
  then ascii_of_N (byte_val c + 32) else c.

Definition ToLower `{Unicode} (s : string) : string :=
  if forallb is_ascii (s2l s) then l2s (map ascii_lower (s2l s))
  else unicode_ToLower s.

(** strings.EqualFold: byte by byte until a byte that is not ASCII. *)
Fixpoint EqualFold `{Unicode} (s t : string) : bool :=
  match s, t with
  | EmptyString, EmptyString => true
  | String c s', String d t' =>
      if is_ascii c && is_ascii d
      then if bool_decide (ascii_lower c = ascii_lower d) then EqualFold s' t' else false
      else unicode_EqualFold s t
  | _, _ => false
  end.

(** ** strconv and fmt: decimal numbers on 64-bit integers *)

Definition min_int64 : Z := - 2 ^ 63.
Definition max_int64 : Z := 2 ^ 63 - 1.

Definition digit (d : Z) : ascii := ascii_of_N (Z.to_N (48 + d)).

Fixpoint digits (fuel : nat) (n : Z) (acc : list ascii) : list ascii :=
  match fuel with
  | O => acc
  | S f => let acc' := digit (n mod 10) :: acc in
           if n <? 10 then acc' else digits f (n / 10) acc'
  end%Z.

(** A number has at most [log2 n + 1] decimal digits. *)
Definition digits_fuel (n : Z) : nat := S (Z.to_nat (Z.log2 n)).

Definition Itoa (z : Z) : string :=
  if (z <? 0)%Z then String "-" (l2s (digits (digits_fuel (- z)) (- z) []))
  else l2s (digits (digits_fuel z) z []).

Definition digit_val (c : ascii) : option Z :=
  let n := (Z.of_N (byte_val c) - 48)%Z in
  if ((0 <=? n) && (n <=? 9))%Z then Some n else None.

Fixpoint parse_digits (acc : Z) (l : list ascii) : option Z :=
  match l with
  | [] => Some acc
  | c :: l' => d ← digit_val c; parse_digits (acc * 10 + d)%Z l'
  end.

Definition in_int64 (z : Z) : bool := ((min_int64 <=? z) && (z <=? max_int64))%Z.

(** strconv.Atoi: an optional sign and at least one digit, in the range of a
    64-bit int; [None] for its error. *)
Definition parse_signed (neg : bool) (l : list ascii) : option Z :=
  match l with
  | [] => None
  | _ => n ← parse_digits 0 l;
         let z := if neg then (- n)%Z else n in
         if in_int64 z then Some z else None
  end.

Definition Atoi (s : string) : option Z :=
  match s2l s with
  | [] => None
  | c :: l => if bool_decide (c = "-"%char) then parse_signed true l
              else if bool_decide (c = "+"%char) then parse_signed false l
              else parse_signed false (c :: l)
  end.

(** fmt.Sprintf with the verb %0wd on a number that is not negative. *)
Definition pad_zeros (w : nat) (z : Z) : string :=
  let s := Itoa z in l2s (replicate (w - String.length s) "0"%char) +:+ s.

Lemma digit_val_digit d : (0 ≤ d ≤ 9)%Z → digit_val (digit d) = Some d.
Proof.
  intros Hd. unfold digit_val, digit, byte_val.
  rewrite N_ascii_embedding by lia.
  replace (Z.of_N (Z.to_N (48 + d)) - 48)%Z with d by lia.
  by rewrite (proj2 (Z.leb_le 0 d)), (proj2 (Z.leb_le d 9)) by lia.
Qed.

Lemma parse_digits_digits fuel n acc :
  (0 ≤ n < 10 ^ Z.of_nat fuel)%Z → 0 < fuel →
  ∃ k, (0 ≤ k)%Z ∧ ∀ a, parse_digits a (digits fuel n acc) = parse_digits (a * 10 ^ k + n)%Z acc.
Proof.
  revert n acc. induction fuel as [|f IH]; intros n acc Hn Hf; [lia|].
  cbn [digits]. pose proof (Z.mod_pos_bound n 10 ltac:(lia)) as Hm.
  destruct (Z.ltb_spec n 10).
  - exists 1%Z. split; [lia|]. intros a. cbn [parse_digits].
    rewrite Z.mod_small by lia. rewrite digit_val_digit by lia. simpl. f_equal; lia.
  - assert (0 < f) by (destruct f; [simpl in Hn; lia|lia]).
    destruct (IH (n / 10)%Z (digit (n mod 10) :: acc)) as (k & Hk & HIH); [|lia|].
    { rewrite Nat2Z.inj_succ, Z.pow_succ_r in Hn by lia.
      split; [apply Z.div_pos; lia|apply Z.div_lt_upper_bound; lia]. }
    exists (Z.succ k). split; [lia|]. intros a. rewrite HIH. cbn [parse_digits].
    rewrite digit_val_digit by lia. simpl. f_equal.
    rewrite Z.pow_succ_r by lia. pose proof (Z.div_mod n 10). lia.
Qed.

Lemma digits_fuel_enough n : (0 ≤ n)%Z → (n < 10 ^ Z.of_nat (digits_fuel n))%Z.
Proof.
  intros Hn. unfold digits_fuel. destruct (decide (n = 0)%Z) as [->|Hne]; [done|].
  rewrite Nat2Z.inj_succ, Z2Nat.id by apply Z.log2_nonneg.
  pose proof (Z.log2_spec n ltac:(lia)) as [_ Hlt].
  eapply Z.lt_le_trans; [exact Hlt|]. apply Z.pow_le_mono_l. lia.
Qed.

Lemma digits_nonempty fuel n acc : digits (S fuel) n acc ≠ [].
Proof.
  revert n acc. induction fuel as [|f IH]; intros n acc; cbn [digits].
  - by destruct (n <? 10)%Z.
  - destruct (n <? 10)%Z; [done|]. apply IH.
Qed.

Lemma parse_Itoa n :
  (0 ≤ n)%Z → parse_digits 0 (digits (digits_fuel n) n []) = Some n.
Proof.
  intros Hn. destruct (parse_digits_digits (digits_fuel n) n []) as (k & Hk & H).
  - split; [lia|]. by apply digits_fuel_enough.
  - unfold digits_fuel; lia.
  - rewrite H. done.
Qed.

Lemma digits_head fuel n acc c l :
  (0 ≤ n)%Z → digits (S fuel) n acc = c :: l →
  ∃ d, (0 ≤ d ≤ 9)%Z ∧ c = digit d.
Proof.
  revert n acc. induction fuel as [|f IH]; intros n acc Hn; cbn [digits].
  - pose proof (Z.mod_pos_bound n 10 ltac:(lia)).
    destruct (n <? 10)%Z; intros [= <- <-]; exists (n mod 10)%Z; split; (lia || done).
  - destruct (Z.ltb_spec n 10).
    + intros [= <- <-]. exists (n mod 10)%Z. split; [|done]. rewrite Z.mod_small; lia.
    + apply IH, Z.div_pos; lia.
Qed.

Lemma digit_not_sign d : (0 ≤ d ≤ 9)%Z → digit d ≠ "-"%char ∧ digit d ≠ "+"%char.
Proof.
  intros Hd. pose proof (digit_val_digit d Hd) as H.
  split; intros Heq; rewrite Heq in H; vm_compute in H; done.
Qed.

Lemma parse_signed_digits (neg : bool) n :
  (0 ≤ n)%Z → in_int64 (if neg then (- n)%Z else n) = true →
  parse_signed neg (digits (digits_fuel n) n []) = Some (if neg then (- n)%Z else n).
Proof.
  intros Hn Hin. pose proof (parse_Itoa n Hn) as Hp. unfold parse_signed.
  destruct (digits (digits_fuel n) n []) eqn:Hd; [by apply digits_nonempty in Hd|].
  by rewrite Hp; simpl; rewrite Hin.
Qed.

(** Rendering an int and parsing it back. *)
Lemma Atoi_Itoa z : (min_int64 ≤ z ≤ max_int64)%Z → Atoi (Itoa z) = Some z.
Proof.
  intros Hz.
  assert (Hin : in_int64 z = true).
  { unfold in_int64. by rewrite !(proj2 (Z.leb_le _ _)) by lia. }
  unfold Itoa, Atoi. destruct (Z.ltb_spec z 0).
  - cbn [String.list_ascii_of_string].
    rewrite String.list_ascii_of_string_of_list_ascii, bool_decide_eq_true_2 by done.
    by rewrite parse_signed_digits; rewrite ?Z.opp_involutive; try lia.
  - rewrite String.list_ascii_of_string_of_list_ascii.
    assert (0 ≤ z)%Z as Hp%(λ H, parse_signed_digits false z H Hin) by lia. revert Hp.
    destruct (digits (digits_fuel z) z []) as [|c l] eqn:Hd; [done|].
    destruct (digits_head _ z _ _ _ ltac:(lia) Hd) as (d & Hd9 & ->).
    destruct (digit_not_sign d Hd9). by rewrite !bool_decide_eq_false_2 by done.
Qed.

Lemma Itoa_not_empty z : Itoa z ≠ "".
Proof.
  unfold Itoa. destruct (z <? 0)%Z; [done|].
  destruct (digits (digits_fuel z) z []) eqn:Hd; [|done].
  by apply digits_nonempty in Hd.
Qed.

(** Atoi only returns 64-bit integers. *)
Lemma parse_signed_range neg l z :
  parse_signed neg l = Some z → (min_int64 ≤ z ≤ max_int64)%Z.
Proof.
  destruct l as [|c l]; [done|]. unfold parse_signed.
  destruct (parse_digits 0 (c :: l)) as [n|]; simpl; [|done].
  destruct (in_int64 _) eqn:Hin; [|done]. intros [= <-].
  apply andb_true_iff in Hin as [?%Z.leb_le ?%Z.leb_le]. done.
Qed.

Lemma Atoi_range s z : Atoi s = Some z → (min_int64 ≤ z ≤ max_int64)%Z.
Proof.
  unfold Atoi. destruct (s2l s) as [|c l]; [done|].
  repeat case_bool_decide; apply parse_signed_range.
Qed.

(** ** Hexadecimal and base64 *)

Definition hex_digit (n : N) : ascii :=
  ascii_of_N (if (n <? 10)%N then 48 + n else 87 + n).

(** hex.EncodeToString. *)
Definition hex_encode (s : string) : string :=
  l2s (c ← s2l s; [hex_digit (byte_val c / 16); hex_digit (byte_val c mod 16)]).

Definition b64_std : string :=
  "ABCDEFGHIJKLMNOPQRSTUVWXYZabcdefghijklmnopqrstuvwxyz0123456789+/".
Definition b64_url : string :=
  "ABCDEFGHIJKLMNOPQRSTUVWXYZabcdefghijklmnopqrstuvwxyz0123456789-_".

Definition b64_char (alphabet : string) (n : N) : ascii :=
  default "A"%char (String.get (N.to_nat n) alphabet).

(** EncodeToString of base64.RawStdEncoding and base64.RawURLEncoding: groups
    of six bits, no padding. *)
Fixpoint b64_encode_go (alphabet : string) (l : list ascii) : list ascii :=
  let ch := b64_char alphabet in
  match l with
  | [] => []
  | [a] => let x := byte_val a in [ch (x / 4)%N; ch ((x mod 4) * 16)%N]
  | [a; b] =>
      let x := byte_val a in let y := byte_val b in
      [ch (x / 4)%N; ch ((x mod 4) * 16 + y / 16)%N; ch ((y mod 16) * 4)%N]
  | a :: b :: c :: l' =>
      let x := byte_val a in let y := byte_val b in let z := byte_val c in
      ch (x / 4)%N :: ch ((x mod 4) * 16 + y / 16)%N
      :: ch ((y mod 16) * 4 + z / 64)%N :: ch (z mod 64)%N
      :: b64_encode_go alphabet l'
  end.
Definition b64_encode (alphabet s : string) : string :=
  l2s (b64_encode_go alphabet (s2l s)).

Example b64_example : b64_encode b64_std "identra" = "aWRlbnRyYQ".
Proof. reflexivity. Qed.
Example hex_example : hex_encode "Go!" = "476f21".
Proof. reflexivity. Qed.
Example trim_example :
  TrimSpace (l2s (map ascii_of_nat [194; 160; 32; 97; 32; 98; 226; 128; 138; 9])) = "a b".
Proof. reflexivity. Qed.
Example itoa_example : (Itoa (-120), Atoi "+0042", Atoi "1_0", Atoi "9223372036854775808")
  = ("-120", Some 42%Z, None, None).
Proof. reflexivity. Qed.
Example pad_example : pad_zeros 6 4217 = "004217".
Proof. reflexivity. Qed.

(** The output of hex.EncodeToString is ASCII. *)
Lemma hex_encode_ascii s : forallb is_ascii (s2l (hex_encode s)) = true.
Proof.
  unfold hex_encode. rewrite String.list_ascii_of_string_of_list_ascii.
  apply forallb_forall. intros c Hc%list_elem_of_In.
  apply list_elem_of_bind in Hc as (b & Hc & _).
  assert (∀ n, (n < 16)%N → is_ascii (hex_digit n) = true) as Hd.
  { intros n Hn. unfold is_ascii, hex_digit, byte_val.
    destruct (N.ltb_spec n 10); rewrite N_ascii_embedding by lia; apply N.ltb_lt; lia. }
  assert (byte_val b < 256)%N by apply N_ascii_bounded.
  rewrite !elem_of_cons, elem_of_nil in Hc. destruct Hc as [->|[->|[]]]; apply Hd.
  - apply N.Div0.div_lt_upper_bound; lia.
  - apply N.mod_lt. lia.
Qed.

(** Strings under two prefixes, neither a prefix of the other, differ. *)
Lemma prefix_apart p q a b :
  HasPrefix p q = false → HasPrefix q p = false → p +:+ a ≠ q +:+ b.
Proof.
  unfold HasPrefix. revert q. induction p as [|c p IH]; intros q; [by destruct q|].
  destruct q as [|d q]; [done|]. cbn [String.prefix].
  rewrite !string_app_cons. destruct (ascii_dec d c) as [->|Hne].
  - destruct (ascii_dec c c) as [_|?]; [|done]. intros H1 H2 [= H]. by eapply IH.
  - intros _ _ [= ? ?]. by destruct Hne.
Qed.

Lemma HasPrefix_app p a : HasPrefix (p +:+ a) p = true.
Proof. apply HasPrefix_spec. by exists a. Qed.

Lemma HasPrefix_apart k p q :
  HasPrefix k p = true → HasPrefix p q = false → HasPrefix q p = false → HasPrefix k q = false.
Proof.
  intros [a ->]%HasPrefix_spec Hp Hq. apply not_true_iff_false.
  intros [b Hb]%HasPrefix_spec. by eapply prefix_apart.
Qed.

(** ** base64 decoding *)

Fixpoint index_of (c : ascii) (l : list ascii) : option N :=
  match l with
  | [] => None
  | d :: l' => if bool_decide (c = d) then Some 0%N else N.succ <$> index_of c l'
  end.

Definition b64_val (alphabet : string) (c : ascii) : option N := index_of c (s2l alphabet).

Definition is_newline (c : ascii) : bool :=
  bool_decide (c = "010"%char) || bool_decide (c = "013"%char).

(** Three bytes from four groups of six bits; what is left over of an
    incomplete group is ignored, one group alone is an error. *)
Fixpoint b64_bytes (l : list N) : option (list ascii) :=
  match l with
  | [] => Some []
  | [_] => None
  | [a; b] => Some [ascii_of_N (a * 4 + b / 16)]
  | [a; b; c] => Some [ascii_of_N (a * 4 + b / 16); ascii_of_N ((b mod 16) * 16 + c / 4)]
  | a :: b :: c :: d :: l' =>
      (λ r, ascii_of_N (a * 4 + b / 16) :: ascii_of_N ((b mod 16) * 16 + c / 4)
            :: ascii_of_N ((c mod 4) * 64 + d) :: r) <$> b64_bytes l'
  end%N.

(** DecodeString of an encoding without padding: carriage returns and newlines
    are skipped. *)
Definition b64_decode (alphabet s : string) : option string :=
  l2s <$> (mapM (b64_val alphabet) (List.filter (λ c, negb (is_newline c)) (s2l s)) ≫= b64_bytes).

(** An alphabet of 64 distinct characters, none of them a newline. *)
Definition b64_alphabet (alphabet : string) : Prop :=
  ∀ n, (n < 64)%N →
    b64_val alphabet (b64_char alphabet n) = Some n ∧ is_newline (b64_char alphabet n) = false.

Lemma b64_std_alphabet : b64_alphabet b64_std.
Proof.
  assert (forallb (λ n, bool_decide (b64_val b64_std (b64_char b64_std n) = Some n) &&
    negb (is_newline (b64_char b64_std n))) (N.of_nat <$> seq 0 64) = true) as H by reflexivity.
  intros n Hn. rewrite forallb_forall in H. specialize (H n).
  destruct (andb_prop _ _ (H ltac:(apply list_elem_of_In, list_elem_of_fmap; exists (N.to_nat n);
    rewrite elem_of_seq; lia))) as [?%bool_decide_eq_true ?%negb_true_iff]. done.
Qed.

(** The groups of six bits EncodeToString writes. *)
Fixpoint b64_groups (l : list ascii) : list N :=
  match l with
  | [] => []
  | [a] => let x := byte_val a in [x / 4; (x mod 4) * 16]
  | [a; b] => let x := byte_val a in let y := byte_val b in
              [x / 4; (x mod 4) * 16 + y / 16; (y mod 16) * 4]
  | a :: b :: c :: l' =>
      let x := byte_val a in let y := byte_val b in let z := byte_val c in
      x / 4 :: (x mod 4) * 16 + y / 16 :: (y mod 16) * 4 + z / 64 :: z mod 64 :: b64_groups l'
  end%N.

(** Induction three bytes at a time. *)
Lemma list_ind3 {A} (Q : list A → Prop) :
  Q [] → (∀ a, Q [a]) → (∀ a b, Q [a; b]) → (∀ a b c l, Q l → Q (a :: b :: c :: l)) → ∀ l, Q l.
Proof.
  intros H0 H1 H2 H3 l. induction l as [l IH] using (induction_ltof1 _ length). unfold ltof in IH.
  destruct l as [|a [|b [|c l]]]; auto. apply H3, IH. simpl. lia.
Qed.

Lemma b64_encode_groups alphabet l :
  b64_encode_go alphabet l = b64_char alphabet <$> b64_groups l.
Proof.
  induction l as [|a|a b|a b c l IH] using list_ind3; [done..|].
  cbn [b64_encode_go b64_groups fmap list_fmap]. by rewrite IH.
Qed.

Lemma byte_val_bound c : (byte_val c < 256)%N.
Proof. apply N_ascii_bounded. Qed.

#[local] Ltac bits :=
  repeat match goal with c : ascii |- _ =>
    lazymatch goal with _ : (byte_val c < 256)%N |- _ => fail | _ => idtac end;
    pose proof (byte_val_bound c) end;
  zify; Z.div_mod_to_equations; lia.

Lemma b64_groups_bound l : Forall (λ n, (n < 64)%N) (b64_groups l).
Proof.
  induction l as [|a|a b|a b c l IH] using list_ind3; cbn [b64_groups];
    repeat (apply Forall_cons; split); try done; bits.
Qed.

Lemma b64_bytes_groups l : b64_bytes (b64_groups l) = Some l.
Proof.
  assert (∀ c n, n = byte_val c → ascii_of_N n = c) as Hc.
  { intros c n ->. apply ascii_N_embedding. }
  induction l as [|a|a b|a b c l IH] using list_ind3; [done|..];
    cbn [b64_groups b64_bytes]; rewrite ?IH; simpl; repeat f_equal; apply Hc; bits.
Qed.

Lemma b64_decode_encode alphabet s :
  b64_alphabet alphabet → b64_decode alphabet (b64_encode alphabet s) = Some s.
Proof.
  intros Ha. unfold b64_decode, b64_encode.
  rewrite String.list_ascii_of_string_of_list_ascii, b64_encode_groups.
  assert (∀ l, Forall (λ n, (n < 64)%N) l →
    mapM (b64_val alphabet) (List.filter (λ c, negb (is_newline c)) (b64_char alphabet <$> l)) = Some l)
    as Hm.
  { intros l Hl.
    assert (List.filter (λ c, negb (is_newline c)) (b64_char alphabet <$> l) = b64_char alphabet <$> l) as ->.
    { induction Hl as [|n l Hn _ IH]; [done|]. simpl. rewrite (proj2 (Ha n Hn)). simpl. by f_equal. }
    apply mapM_Some_2, Forall2_fmap_l, Forall_Forall2_diag.
    eapply Forall_impl; [exact Hl|]. intros n Hn. apply (Ha n Hn). }
  rewrite Hm by apply b64_groups_bound. simpl. rewrite b64_bytes_groups. simpl.
  by rewrite String.string_of_list_ascii_of_string.
Qed.

(** ** strconv.Quote

    Printable ASCII stands for itself, with the quote and the backslash escaped;
    the control characters that have one use a short escape, the others \xNN. *)
Definition quote_char (c : ascii) : list ascii :=
  let n := byte_val c in
  if bool_decide (n = 34 ∨ n = 92)%N then ["\"%char; c]
  else if ((32 <=? n) && (n <? 127))%N then [c]
  else match n with
       | 7 => ["\"; "a"] | 8 => ["\"; "b"] | 9 => ["\"; "t"] | 10 => ["\"; "n"]
       | 11 => ["\"; "v"] | 12 => ["\"; "f"] | 13 => ["\"; "r"]
       | _ => ["\"; "x"; hex_digit (n / 16); hex_digit (n mod 16)]
       end%N%char.

Definition Quote `{Unicode} (s : string) : string :=
  if forallb is_ascii (s2l s)
  then l2s (["034"%char] ++ (c ← s2l s; quote_char c) ++ ["034"%char])
  else unicode_Quote s.

(** ** The 64-bit int *)

Definition wrap_int64 (z : Z) : Z := ((z + 2 ^ 63) mod 2 ^ 64 - 2 ^ 63)%Z.

Lemma wrap_int64_id z : (min_int64 ≤ z ≤ max_int64)%Z → wrap_int64 z = z.
Proof. unfold wrap_int64, min_int64, max_int64. intros H. rewrite Z.mod_small; lia. Qed.

(** ** Text without white space *)

(** ASCII that is not white space, which TrimSpace leaves alone. *)
Definition plain (c : ascii) : bool := is_ascii c && negb (space1 c).
Definition plain_string (s : string) : Prop := Forall (λ c, plain c = true) (s2l s).

Lemma plain_spec c : plain c = true → (byte_val c < 128)%N ∧ space1 c = false.
Proof.
  unfold plain, is_ascii. intros [H%N.ltb_lt Hs]%andb_true_iff. split; [done|].
  by apply negb_true_iff.
Qed.

Lemma plain_front_clean s2 s3 l :
  (∀ a b, (byte_val a < 128)%N → (byte_val b < 128)%N → s2 a b = false) →
  (∀ a b c, (byte_val a < 128)%N → (byte_val b < 128)%N → (byte_val c < 128)%N → s3 a b c = false) →
  Forall (λ c, plain c = true) l → front_clean s2 s3 l.
Proof.
  intros H2 H3 Hl. destruct l as [|a [|b [|c l]]]; simpl; [done|..];
    repeat match goal with H : Forall _ (_ :: _) |- _ => apply Forall_cons in H as [?%plain_spec H] end;
    destruct_and?; split_and?; eauto.
Qed.

Lemma TrimSpace_plain s : plain_string s → TrimSpace s = s.
Proof.
  intros Hs. unfold TrimSpace, trim_left, trim_right.
  assert (∀ a b, (byte_val a < 128)%N → (byte_val b < 128)%N → space2 a b = false) as H2.
  { intros a b Ha Hb. unfold space2. by rewrite (proj2 (N.eqb_neq (byte_val a) _)) by lia. }
  assert (∀ a b c, (byte_val a < 128)%N → (byte_val b < 128)%N → (byte_val c < 128)%N →
    space3 a b c = false) as H3.
  { intros a b c Ha Hb Hc. unfold space3. by rewrite !(proj2 (N.eqb_neq (byte_val a) _)) by lia. }
  rewrite (trim_front_clean_id space2 space3) by (apply plain_front_clean; [exact H2|exact H3|exact Hs]).
  rewrite trim_front_clean_id, reverse_involutive; [apply String.string_of_list_ascii_of_string|].
  apply plain_front_clean; auto. by apply Forall_reverse.
Qed.

Lemma plain_app s t : plain_string s → plain_string t → plain_string (s +:+ t).
Proof. unfold plain_string. rewrite s2l_app. by apply Forall_app_2. Qed.

(** What base64 writes is plain, for an alphabet that is. *)
Lemma b64_encode_plain alphabet s :
  (∀ n, (n < 64)%N → plain (b64_char alphabet n) = true) → plain_string (b64_encode alphabet s).
Proof.
  intros Ha. unfold plain_string, b64_encode.
  rewrite String.list_ascii_of_string_of_list_ascii, b64_encode_groups, Forall_fmap.
  eapply Forall_impl; [apply b64_groups_bound|]. intros n Hn. by apply Ha.
Qed.

Lemma b64_url_plain n : (n < 64)%N → plain (b64_char b64_url n) = true.
Proof.
  intros Hn. assert (forallb (λ i, plain (b64_char b64_url (N.of_nat i))) (seq 0 64) = true) as H
    by reflexivity.
  rewrite forallb_forall in H. rewrite <-(N2Nat.id n). apply H, in_seq. lia.
Qed.

(** ** Splitting and joining *)

Section split.
Context (sep : ascii).
Implicit Types l k : list ascii.

Definition no_sep (s : string) : Prop := sep ∉ s2l s.

Lemma split_go_none cur l : sep ∉ l → split_go sep cur l = [l2s (reverse cur ++ l)].
Proof.
  revert cur. induction l as [|c l IH]; intros cur Hl; cbn [split_go].
  - by rewrite app_nil_r.
  - apply not_elem_of_cons in Hl as [Hc Hl]. rewrite bool_decide_eq_false_2 by done.
    rewrite IH by done. by rewrite reverse_cons, <-app_assoc.
Qed.

Lemma split_go_sep cur l k :
  split_go sep cur (l ++ sep :: k) = split_go sep cur l ++ split_go sep [] k.
Proof.
  revert cur. induction l as [|c l IH]; intros cur; cbn [split_go app].
  - by rewrite bool_decide_eq_true_2.
  - case_bool_decide; [by rewrite IH|apply IH].
Qed.

Lemma Split_none s : no_sep s → Split s sep = [s].
Proof.
  intros Hs. unfold Split. rewrite split_go_none by done. rewrite reverse_nil. cbn [app].
  by rewrite String.string_of_list_ascii_of_string.
Qed.

Lemma Split_sep s t : Split (s +:+ String sep "" +:+ t) sep = Split s sep ++ Split t sep.
Proof. unfold Split. rewrite s2l_app. apply split_go_sep. Qed.

Lemma Join_cons c d cs :
  Join (c :: d :: cs) (String sep "") = c +:+ String sep "" +:+ Join (d :: cs) (String sep "").
Proof. done. Qed.

Lemma Split_Join cs : cs ≠ [] → Forall no_sep cs → Split (Join cs (String sep "")) sep = cs.
Proof.
  induction cs as [|c [|d cs] IH]; intros Hne Hcs; [done| |].
  - cbn [Join]. apply Split_none. by inversion Hcs.
  - inversion Hcs as [|?? Hc Hds]; subst.
    rewrite Join_cons, Split_sep, Split_none, IH by done. done.
Qed.

Lemma Join_snoc cs c :
  cs ≠ [] → Join (cs ++ [c]) (String sep "") = Join cs (String sep "") +:+ String sep "" +:+ c.
Proof.
  induction cs as [|d [|e cs] IH]; intros Hne; [done|done|].
  change ((d :: e :: cs) ++ [c]) with (d :: e :: (cs ++ [c])). rewrite !Join_cons.
  specialize (IH ltac:(done)). cbn [app] in IH. rewrite IH.
  by rewrite !string_app_assoc.
Qed.
End split.

(** A text without white space is one field. *)
Lemma plain_space23 a b c :
  plain a = true → plain b = true → space2 a b = false ∧ space3 a b c = false.
Proof.
  intros [Ha _]%plain_spec _. unfold space2, space3. split.
  - by rewrite (proj2 (N.eqb_neq (byte_val a) _)) by lia.
  - by rewrite !(proj2 (N.eqb_neq (byte_val a) _)) by lia.
Qed.

Lemma fields_plain cur l :
  Forall (λ c, plain c = true) l → fields cur l = flush (reverse l ++ cur) [].
Proof.
  intros Hl. revert cur. induction Hl as [|a l Ha Hl IH]; intros cur; [done|].
  assert (fields cur (a :: l) = fields (a :: cur) l) as ->.
  { cbn [fields]. rewrite (proj2 (plain_spec a Ha)). destruct Hl as [|b l Hb Hl]; [done|].
    destruct l as [|c l]; by rewrite !(proj1 (plain_space23 a b a Ha Hb)),
      ?(proj2 (plain_space23 a b _ Ha Hb)). }
  rewrite IH, reverse_cons, <-app_assoc. done.
Qed.

Lemma Fields_plain s : s ≠ "" → plain_string s → Fields s = [s].
Proof.
  intros Hne Hs. unfold Fields. rewrite fields_plain by done. rewrite app_nil_r.
  unfold flush. destruct (reverse (s2l s)) as [|a l] eqn:Hr.
  - apply (f_equal reverse) in Hr. rewrite reverse_involutive in Hr. by destruct s.
  - by rewrite <-Hr, reverse_involutive, String.string_of_list_ascii_of_string.
Qed.

(** Decimal text consists of digits. *)
Lemma Itoa_digits z :
  (0 ≤ z)%Z → Forall (λ c, ∃ d, (0 ≤ d ≤ 9)%Z ∧ c = digit d) (s2l (Itoa z)).
Proof.
  intros Hz. unfold Itoa. rewrite (proj2 (Z.ltb_ge z 0)) by lia.
  rewrite String.list_ascii_of_string_of_list_ascii.
  set (Q := λ c, ∃ d, (0 ≤ d ≤ 9)%Z ∧ c = digit d).
  assert (∀ fuel n acc, (0 ≤ n)%Z → Forall Q acc → Forall Q (digits fuel n acc)) as Hd;
    [|by apply Hd].
  intros fuel. induction fuel as [|fuel IH]; intros n acc Hn Hacc; simpl; [done|].
  pose proof (Z.mod_pos_bound n 10 eq_refl) as Hm.
  assert (Forall Q (digit (n mod 10) :: acc)) as Hacc'.
  { constructor; [|done]. exists (n mod 10)%Z. split; [lia|done]. }
  case_match; [done|]. apply IH; [by apply Z.div_pos|done].
Qed.

Lemma digit_forall (p : ascii → bool) :
  forallb (λ k, p (digit (Z.of_nat k))) (seq 0 10) = true → ∀ d, (0 ≤ d ≤ 9)%Z → p (digit d) = true.
Proof.
  intros Hall d Hd. rewrite forallb_forall in Hall. rewrite <-(Z2Nat.id d) by lia.
  apply Hall, in_seq. lia.
Qed.

Lemma Itoa_forall (p : ascii → bool) z :
  (0 ≤ z)%Z → forallb (λ k, p (digit (Z.of_nat k))) (seq 0 10) = true →
  Forall (λ c, p c = true) (s2l (Itoa z)).
Proof.
  intros Hz Hp. eapply Forall_impl; [by apply Itoa_digits|].
  intros c (d & Hd & ->). by apply digit_forall.
Qed.

(** It has no white space. *)
Lemma Itoa_plain z : (0 ≤ z)%Z → plain_string (Itoa z).
Proof. intros Hz. by apply Itoa_forall. Qed.

Lemma Itoa_no_sep sep z :
  (0 ≤ z)%Z → forallb (λ k, negb (bool_decide (digit (Z.of_nat k) = sep))) (seq 0 10) = true →
  no_sep sep (Itoa z).
Proof.
  intros Hz Hp Hin.
  pose proof (Itoa_forall (λ c, negb (bool_decide (c = sep))) z Hz Hp) as Hall.
  rewrite Forall_forall in Hall. specialize (Hall sep Hin). cbn in Hall.
  by rewrite bool_decide_eq_true_2 in Hall.
Qed.
