(* ===== verification/Paths.v ===== *)
(** * path/filepath on Unix

    [Clean], [Dir] and [Join] as the start-up code uses them
    (internal/app/tokens.go, internal/bootstrap/init.go,
    internal/store/sqlite/database.go).  A path is cleaned by a pass over its
    elements with a stack; the lemmas show that a cleaned path is the text of a
    list of elements, that cleaning it again changes nothing and that [Dir]
    drops the last element. *)

From S2P Require Import Prelude GoStrings.
From Stdlib Require Import Ascii.

Definition slash : ascii := "/".

Definition rooted (path : string) : bool := HasPrefix path "/".

(** [out] is the stack of the elements kept so far, the last one first. *)
Definition clean_step (root : bool) (out : list string) (elem : string) : list string :=
  if ((elem == "") || (elem == "."))%go then out
  else if (elem == "..")%go then
    match out with
    | [] => if root then [] else [elem]
    | top :: rest => if (top == "..")%go then elem :: out else rest
    end
  else elem :: out.

Definition components (path : string) : list string :=
  reverse (fold_left (clean_step (rooted path)) (Split path slash) []).

Definition render (root : bool) (cs : list string) : string :=
  if root then "/" +:+ Join cs "/"
  else match cs with [] => "." | _ => Join cs "/" end.

Definition Clean (path : string) : string := render (rooted path) (components path).

(** The part of a path up to its last slash. *)
Fixpoint after_slash (l : list ascii) : list ascii :=
  match l with
  | [] => []
  | c :: l' => if bool_decide (c = slash) then l else after_slash l'
  end.
Definition Dir (path : string) : string :=
  Clean (l2s (reverse (after_slash (reverse (s2l path))))).

(** filepath.Join of two elements. *)
Definition Join2 (a b : string) : string :=
  if (a == "")%go then if (b == "")%go then "" else Clean b
  else Clean (a +:+ "/" +:+ b).

(** ** The text of a list of elements *)

Abbreviation no_slash := (no_sep slash).
Definition ordinary (s : string) : Prop := no_slash s ∧ s ≠ "" ∧ s ≠ "." ∧ s ≠ "..".
(** What a cleaned path consists of. *)
Definition clean_list (root : bool) (cs : list string) : Prop :=
  ∃ n ds, cs = replicate n ".." ++ ds ∧ Forall ordinary ds ∧ (root = true → n = 0%nat).

Lemma clean_list_no_slash root cs : clean_list root cs → Forall no_slash cs.
Proof.
  intros (n & ds & -> & Hds & _). apply Forall_app; split.
  - apply Forall_replicate. unfold no_sep. cbn. set_solver.
  - eapply Forall_impl; [exact Hds|]. by intros s [].
Qed.

Lemma clean_list_nonempty root cs : clean_list root cs → Forall (λ c, c ≠ "") cs.
Proof.
  intros (n & ds & -> & Hds & _). apply Forall_app; split.
  - by apply Forall_replicate.
  - eapply Forall_impl; [exact Hds|]. by intros s (_ & H & _).
Qed.

Lemma clean_list_snoc_inv root cs c : clean_list root (cs ++ [c]) → clean_list root cs.
Proof.
  intros (n & ds & Heq & Hds & Hroot). destruct ds as [|d ds _] using rev_ind.
  - rewrite app_nil_r in Heq. destruct n as [|n]; [by destruct cs|].
    rewrite replicate_S_end in Heq. apply app_inj_tail in Heq as [-> _].
    exists n, []. rewrite app_nil_r. split_and!; [done|done|]. intros H. by specialize (Hroot H).
  - rewrite app_assoc in Heq. apply app_inj_tail in Heq as [-> _].
    exists n, ds. apply Forall_app in Hds as [Hds _]. done.
Qed.

(** ** Cleaning *)

Lemma fold_clean root cs out :
  Forall ordinary cs → fold_left (clean_step root) cs out = reverse cs ++ out.
Proof.
  revert out. induction cs as [|c cs IH]; intros out; [done|].
  intros [(_ & H1 & H2 & H3) Hcs]%Forall_cons. cbn [fold_left].
  unfold clean_step at 2. rewrite !bool_decide_eq_false_2 by done. cbn [orb].
  rewrite IH by done. by rewrite reverse_cons, <-app_assoc.
Qed.

Lemma fold_clean_up n out :
  Forall (λ c, c = "..") out →
  fold_left (clean_step false) (replicate n "..") out = replicate n ".." ++ out.
Proof.
  revert out. induction n as [|n IH]; intros out Hout; [done|]. cbn [replicate fold_left].
  assert (clean_step false out ".." = ".." :: out) as ->.
  { destruct out as [|o out]; [done|]. apply Forall_cons in Hout as [-> _]. done. }
  rewrite IH by (by constructor). change (".." :: out) with ([".."] ++ out).
  rewrite app_assoc, <-replicate_S_end. done.
Qed.

Lemma fold_clean_list root cs :
  clean_list root cs → fold_left (clean_step root) cs [] = reverse cs.
Proof.
  intros (n & ds & -> & Hds & Hroot). rewrite fold_left_app, reverse_app.
  destruct root.
  - rewrite (Hroot eq_refl). cbn [replicate fold_left]. by rewrite fold_clean.
  - rewrite fold_clean_up, app_nil_r, fold_clean by done. by rewrite reverse_replicate.
Qed.

Lemma clean_step_list root cs elem :
  no_slash elem → clean_list root cs →
  clean_list root (reverse (clean_step root (reverse cs) elem)).
Proof.
  intros Helem Hcs. unfold clean_step.
  destruct (decide (elem = "")) as [->|H1].
  { rewrite bool_decide_eq_true_2 by done. cbn [orb]. by rewrite reverse_involutive. }
  destruct (decide (elem = ".")) as [->|H2].
  { rewrite orb_comm, bool_decide_eq_true_2 by done. cbn [orb]. by rewrite reverse_involutive. }
  rewrite !(bool_decide_eq_false_2 (elem = _)) by done. cbn [orb].
  case_bool_decide as H3.
  - subst elem. destruct cs as [|c cs _] using rev_ind.
    + cbn. destruct root; [by exists 0%nat, []|by exists 1%nat, []].
    + rewrite reverse_snoc. case_bool_decide as Hc.
      * subst c. destruct Hcs as (n & ds & Heq & Hds & Hroot).
        destruct ds as [|d ds _] using rev_ind.
        -- rewrite app_nil_r in Heq. exists (S n), []. rewrite app_nil_r. split_and!; [|done|].
           ++ by rewrite !reverse_cons, reverse_involutive, Heq, replicate_S_end.
           ++ intros H. rewrite (Hroot H) in Heq. by destruct cs.
        -- rewrite app_assoc in Heq. apply app_inj_tail in Heq as [_ <-].
           apply Forall_app in Hds as [_ Hd]. rewrite Forall_singleton in Hd.
           by destruct Hd as (_ & _ & _ & Hd).
      * rewrite reverse_involutive. by eapply clean_list_snoc_inv.
  - rewrite reverse_cons, reverse_involutive. destruct Hcs as (n & ds & -> & Hds & Hroot).
    exists n, (ds ++ [elem]). rewrite <-app_assoc. split_and!; [done| |done].
    apply Forall_app; split; [done|]. by apply Forall_singleton.
Qed.

Lemma split_go_parts cur l : slash ∉ cur → Forall no_slash (split_go slash cur l).
Proof.
  revert cur. induction l as [|c l IH]; intros cur Hcur; cbn [split_go].
  - constructor; [|done]. unfold no_sep. rewrite String.list_ascii_of_string_of_list_ascii.
    by rewrite elem_of_reverse.
  - case_bool_decide as Hc.
    + constructor; [|apply IH; set_solver]. unfold no_sep.
      by rewrite String.list_ascii_of_string_of_list_ascii, elem_of_reverse.
    + apply IH. set_solver.
Qed.

Lemma components_clean path : clean_list (rooted path) (components path).
Proof.
  unfold components. generalize (split_go_parts [] (s2l path) ltac:(set_solver)).
  fold (Split path slash). generalize (rooted path) as root, (Split path slash) as l.
  intros root l Hl.
  assert (clean_list root (reverse (@nil string))) as H0 by (by exists 0%nat, []).
  revert H0. generalize (@nil string) as out.
  induction Hl as [|elem l Helem _ IH]; intros out Hout; [done|]. cbn [fold_left].
  apply IH. rewrite <-(reverse_involutive out) at 1. by apply clean_step_list.
Qed.

Lemma rooted_app s t : s ≠ "" → rooted (s +:+ t) = rooted s.
Proof.
  intros Hs. destruct s as [|a s]; [done|]. unfold rooted, HasPrefix.
  rewrite string_app_cons. cbn [String.prefix]. destruct (ascii_dec _ a); [|done].
  by destruct s; destruct t.
Qed.

Lemma render_nonempty root cs : clean_list root cs → render root cs ≠ "".
Proof.
  intros Hcs. pose proof (clean_list_nonempty _ _ Hcs) as Hne.
  destruct root; [done|]. destruct cs as [|c cs]; [done|].
  apply Forall_cons in Hne as [Hc _]. destruct c as [|a c]; [done|]. by destruct cs.
Qed.

Lemma rooted_render root cs : clean_list root cs → rooted (render root cs) = root.
Proof.
  intros Hcs. destruct root; [by apply (HasPrefix_app "/")|].
  pose proof (clean_list_no_slash _ _ Hcs) as Hns. pose proof (clean_list_nonempty _ _ Hcs) as Hne.
  unfold render. destruct cs as [|c cs]; [done|].
  apply Forall_cons in Hns as [Hc _]. apply Forall_cons in Hne as [Hne _].
  assert (rooted c = false) as Hroot.
  { destruct c as [|a c]; [done|]. unfold rooted, HasPrefix. cbn [String.prefix].
    destruct (ascii_dec _ a) as [<-|]; [|done]. destruct Hc. cbn. set_solver. }
  destruct cs; [exact Hroot|]. cbn [Join]. by rewrite rooted_app.
Qed.

Lemma components_text root cs text :
  rooted text = root → Split text slash = (if root then [""] else []) ++ cs →
  clean_list root cs → components text = cs.
Proof.
  intros Hr Hs Hcs. unfold components. rewrite Hr, Hs, fold_left_app.
  replace (fold_left (clean_step root) (if root then [""] else []) []) with (@nil string)
    by (by destruct root).
  by rewrite fold_clean_list, reverse_involutive.
Qed.

Lemma components_render root cs : clean_list root cs → components (render root cs) = cs.
Proof.
  intros Hcs. pose proof (rooted_render root cs Hcs) as Hr.
  pose proof (clean_list_no_slash _ _ Hcs) as Hns. destruct cs as [|c cs].
  - by destruct root.
  - apply (components_text root); [done| |done]. unfold render. destruct root.
    + change ("/" +:+ Join (c :: cs) "/") with ("" +:+ "/" +:+ Join (c :: cs) "/").
      by rewrite Split_sep, (Split_Join slash).
    + by rewrite (Split_Join slash).
Qed.

Lemma Clean_render root cs : clean_list root cs → Clean (render root cs) = render root cs.
Proof. intros Hcs. unfold Clean. by rewrite rooted_render, components_render. Qed.

Lemma Clean_idem path : Clean (Clean path) = Clean path.
Proof. apply Clean_render, components_clean. Qed.

(** ** Parent directories *)

Lemma after_slash_app l k : slash ∉ l → after_slash (l ++ slash :: k) = slash :: k.
Proof.
  induction l as [|c l IH]; intros Hl; cbn [app after_slash]; [by rewrite bool_decide_eq_true_2|].
  rewrite bool_decide_eq_false_2 by set_solver. apply IH. set_solver.
Qed.

Lemma after_slash_none l : slash ∉ l → after_slash l = [].
Proof.
  induction l as [|c l IH]; intros Hl; cbn [after_slash]; [done|].
  rewrite bool_decide_eq_false_2 by set_solver. apply IH. set_solver.
Qed.

Lemma Dir_slash s c : no_slash c → Dir (s +:+ "/" +:+ c) = Clean (s +:+ "/").
Proof.
  intros Hc. unfold Dir. rewrite !s2l_app. cbn [s2l String.list_ascii_of_string app].
  rewrite reverse_app, reverse_cons, <-app_assoc. cbn [app].
  rewrite after_slash_app by (by rewrite elem_of_reverse).
  f_equal. rewrite reverse_cons, reverse_involutive, l2s_app.
  by rewrite String.string_of_list_ascii_of_string.
Qed.

Lemma Dir_no_slash c : no_slash c → Dir c = ".".
Proof. intros Hc. unfold Dir. by rewrite after_slash_none by (by rewrite elem_of_reverse). Qed.

(** The directory of a cleaned path: without its last element. *)
Lemma Dir_render root cs c :
  clean_list root (cs ++ [c]) → Dir (render root (cs ++ [c])) = render root cs.
Proof.
  intros Hcs. pose proof (clean_list_snoc_inv _ _ _ Hcs) as Hcs'.
  pose proof (clean_list_no_slash _ _ Hcs) as Hns.
  apply Forall_app in Hns as [Hns Hc]. rewrite Forall_singleton in Hc.
  destruct cs as [|d cs].
  - cbn [app]. destruct root.
    + change (render true [c]) with ("" +:+ "/" +:+ c). by rewrite Dir_slash.
    + by apply Dir_no_slash.
  - assert (Clean (render root (d :: cs) +:+ "/") = render root (d :: cs)) as Hclean.
    { unfold Clean. assert (rooted (render root (d :: cs) +:+ "/") = root) as Hr.
      { rewrite rooted_app by (by apply render_nonempty). by apply rooted_render. }
      rewrite Hr. f_equal. unfold components. rewrite Hr.
      change "/" with ("/" +:+ "") at 1. rewrite Split_sep, fold_left_app.
      pose proof (components_render _ _ Hcs') as Hcomp. unfold components in Hcomp.
      rewrite rooted_render in Hcomp by done.
      change (Split "" slash) with [""]. cbn [fold_left]. exact Hcomp. }
    rewrite <-Hclean. destruct root; unfold render.
    + rewrite (Join_snoc slash) by done. rewrite <-string_app_assoc. by apply Dir_slash.
    + change ((d :: cs) ++ [c]) with (d :: cs ++ [c]). cbn [app].
      change (d :: cs ++ [c]) with ((d :: cs) ++ [c]). rewrite (Join_snoc slash) by done.
      by apply Dir_slash.
Qed.

Lemma Dir_render_nil root : Dir (render root []) = render root [].
Proof. by destruct root. Qed.

(** ** A name in a directory *)

Definition in_dir (dir name : string) : string :=
  (if HasSuffix dir "/" then dir else dir +:+ "/") +:+ name.

Lemma clean_list_snoc root cs name :
  clean_list root cs → ordinary name → clean_list root (cs ++ [name]).
Proof.
  intros (n & ds & -> & Hds & Hroot) Hname. exists n, (ds ++ [name]).
  rewrite <-app_assoc. split_and!; [done| |done]. apply Forall_app. by rewrite Forall_singleton.
Qed.

Lemma render_snoc root cs name :
  cs ≠ [] → render root (cs ++ [name]) = render root cs +:+ "/" +:+ name.
Proof.
  intros Hcs. unfold render. destruct root.
  - by rewrite (Join_snoc slash) by done.
  - destruct cs as [|c cs]; [done|]. cbn [app].
    change (c :: cs ++ [name]) with ((c :: cs) ++ [name]). by rewrite (Join_snoc slash) by done.
Qed.

Lemma no_slash_suffix s c : no_slash c → c ≠ "" → HasSuffix (s +:+ c) "/" = false.
Proof.
  intros Hc Hne. apply not_true_iff_false. intros [r Hr]%HasSuffix_spec.
  apply (f_equal (λ s, last (s2l s))) in Hr. rewrite !s2l_app, !last_app in Hr. cbn in Hr.
  destruct (last (s2l c)) as [a|] eqn:Ha.
  - injection Hr as ->. apply Hc. by apply last_Some_elem_of.
  - apply last_None in Ha. by destruct c.
Qed.

Lemma Clean_in_dir root cs name :
  clean_list root cs → ordinary name →
  Clean (in_dir (render root cs) name) = render root (cs ++ [name]).
Proof.
  intros Hcs Hname. pose proof (clean_list_snoc _ _ _ Hcs Hname) as Hcs'.
  pose proof Hname as (Hns & Hne & _).
  destruct cs as [|c cs _] using rev_ind; [destruct root|].
  - rewrite <-(Clean_render true _ Hcs'). done.
  - change (in_dir (render false []) name) with ("." +:+ "/" +:+ name). unfold Clean.
    assert (rooted ("." +:+ "/" +:+ name) = false) as Hr by reflexivity.
    rewrite Hr. f_equal. unfold components. rewrite Hr.
    rewrite Split_sep, (Split_none _ name) by done. change (Split "." slash) with ["."].
    rewrite fold_left_app. cbn [fold_left]. change (clean_step false [] ".") with (@nil string).
    pose proof (fold_clean_list false [name] Hcs') as Hf. cbn [fold_left] in Hf. by rewrite Hf.
  - rewrite <-(Clean_render _ _ Hcs'), (render_snoc _ (cs ++ [c])) by (by destruct cs).
    unfold in_dir. pose proof (clean_list_no_slash _ _ Hcs) as Hs.
    pose proof (clean_list_nonempty _ _ Hcs) as He.
    rewrite Forall_app, Forall_singleton in Hs, He. destruct Hs as [_ Hs], He as [_ He].
    assert (∃ s, render root (cs ++ [c]) = s +:+ c) as [s Hs'].
    { destruct cs as [|d cs]; [by destruct root; [exists "/"|exists ""]|].
      rewrite render_snoc by done. eexists (_ +:+ "/"). by rewrite string_app_assoc. }
    rewrite Hs', no_slash_suffix by done. by rewrite string_app_assoc.
Qed.
