(* ===== verification/Flags.v ===== *)
(** * Command-line flags

    Go's package flag, as the identra command uses it: a flag set holds the
    current value of each flag; [Parse] takes flags off the front of the arguments
    until something that is not one.  The parsers of unsigned numbers and of
    durations are operations of the class [FlagText]. *)

From S2P Require Import Prelude GoStrings.
From Stdlib Require Import Ascii.

Class FlagText := {
  (* strconv.ParseUint(s, 0, 64) and time.ParseDuration *)
  flag_ParseUint : string → option Z;
  flag_ParseDuration : string → option Z;
}.

Inductive FlagValue :=
  | FString (s : string)
  | FBool (b : bool)
  | FUint (z : Z)
  | FDuration (z : Z)
  | FList (l : list string).

Abbreviation FlagSet := (gmap string FlagValue).

(** strconv.ParseBool. *)
Definition ParseBool (s : string) : option bool :=
  if bool_decide (s ∈ ["1"; "t"; "T"; "true"; "TRUE"; "True"]) then Some true
  else if bool_decide (s ∈ ["0"; "f"; "F"; "false"; "FALSE"; "False"]) then Some false
  else None.

Section flags.
Context `{FlagText}.

(** Value.Set; a list is the program's stringList, whose Set appends. *)
Definition set_flag (v : FlagValue) (text : string) : option FlagValue :=
  match v with
  | FString _ => Some (FString text)
  | FBool _ => FBool <$> ParseBool text
  | FUint _ => FUint <$> flag_ParseUint text
  | FDuration _ => FDuration <$> flag_ParseDuration text
  | FList l => Some (FList (l ++ [text]))
  end.

Definition is_bool_flag (v : FlagValue) : bool := match v with FBool _ => true | _ => false end.

(** The name and the value around the first = that is not in front. *)
Fixpoint cut_equals (l : list ascii) : list ascii * option (list ascii) :=
  match l with
  | [] => ([], None)
  | c :: l' => if bool_decide (c = "="%char) then ([], Some l')
               else let '(n, v) := cut_equals l' in (c :: n, v)
  end.

Definition flag_name (s : string) : string * option string :=
  match s2l s with
  | [] => ("", None)
  | c :: l => let '(n, v) := cut_equals l in (l2s (c :: n), l2s <$> v)
  end.

Inductive parse_step :=
  | Done (args : list string)
  | Next (flags : FlagSet) (args : list string)
  | Failed (err : error).

Definition ErrHelp : error := errors_New "flag: help requested".

(** The flag [name], its value given with = or not. *)
Definition apply_flag (flags : FlagSet) (name : string) (value : option string)
    (args : list string) : parse_step :=
  match flags !! name with
  | None =>
      if ((name == "help") || (name == "h"))%go then Failed ErrHelp
      else Failed (errors_New ("flag provided but not defined: -" +:+ name))
  | Some v =>
      if is_bool_flag v then
        match set_flag v (default "true" value) with
        | Some v' => Next (<[name := v']> flags) args
        | None => Failed (errors_New ("invalid boolean value for -" +:+ name))
        end
      else
        match value, args with
        | None, [] => Failed (errors_New ("flag needs an argument: -" +:+ name))
        | Some text, _ =>
            match set_flag v text with
            | Some v' => Next (<[name := v']> flags) args
            | None => Failed (errors_New ("invalid value for flag -" +:+ name))
            end
        | None, text :: args =>
            match set_flag v text with
            | Some v' => Next (<[name := v']> flags) args
            | None => Failed (errors_New ("invalid value for flag -" +:+ name))
            end
        end
  end.

Definition flag_text (flags : FlagSet) (s rest : string) (args : list string) : parse_step :=
  match rest with
  | EmptyString => Failed (errors_New ("bad flag syntax: " +:+ s))
  | String c _ =>
      if bool_decide (c = "-"%char) || bool_decide (c = "="%char)
      then Failed (errors_New ("bad flag syntax: " +:+ s))
      else let '(name, value) := flag_name rest in apply_flag flags name value args
  end.

Definition parse_one (flags : FlagSet) (args : list string) : parse_step :=
  match args with
  | [] => Done []
  | s :: rest =>
      match s with
      | String c (String d t) =>
          if negb (bool_decide (c = "-"%char)) then Done args
          else if bool_decide (d = "-"%char)
          then match t with
               | EmptyString => Done rest
               | _ => flag_text flags s t rest
               end
          else flag_text flags s (String d t) rest
      | _ => Done args
      end
  end.

Fixpoint parse_all (fuel : nat) (flags : FlagSet) (args : list string)
    : option (result (FlagSet * list string)) :=
  match fuel with
  | O => None
  | S fuel =>
      match parse_one flags args with
      | Done args => Some (Ok (flags, args))
      | Next flags args => parse_all fuel flags args
      | Failed err => Some (Err err)
      end
  end.

(** A turn for every argument, and one to see there are none left. *)
Definition Parse (flags : FlagSet) (args : list string) : result (FlagSet * list string) :=
  default (Err (errors_New "flag: no result")) (parse_all (S (length args)) flags args).

(** ** Termination *)

Lemma apply_flag_consumes flags name value args flags' args' :
  apply_flag flags name value args = Next flags' args' → (length args' ≤ length args)%nat.
Proof.
  unfold apply_flag. destruct (flags !! name) as [v|]; [|by case_match].
  destruct (is_bool_flag v).
  - destruct (set_flag _ _); [|done]. by intros [= <- <-].
  - destruct value as [text|], args as [|a args]; try done.
    all: destruct (set_flag _ _); [|done]; intros [= <- <-]; cbn; lia.
Qed.

Lemma parse_one_consumes flags args flags' args' :
  parse_one flags args = Next flags' args' → (length args' < length args)%nat.
Proof.
  assert (∀ s rest t, flag_text flags s rest t = Next flags' args' → (length args' ≤ length t)%nat) as Hft.
  { intros s rest t. unfold flag_text. destruct rest as [|c rest]; [done|].
    destruct (_ || _); [done|]. destruct (flag_name _). apply apply_flag_consumes. }
  destruct args as [|s rest]; [done|]. cbn [parse_one]. destruct s as [|c [|d t]]; [done|done|].
  destruct (negb _); [done|]. intros Hn. cbn [length]. apply Nat.lt_succ_r.
  destruct (bool_decide (d = _)); [destruct t; [done|]|]; by eapply Hft.
Qed.

Lemma parse_all_ends fuel flags args : (length args < fuel)%nat → parse_all fuel flags args ≠ None.
Proof.
  revert flags args. induction fuel as [|fuel IH]; intros flags args Hf; [lia|]. cbn [parse_all].
  destruct (parse_one flags args) as [args'|flags' args'|err] eqn:Hp; [done| |done].
  apply parse_one_consumes in Hp. apply IH. lia.
Qed.

(** More fuel gives the same answer. *)
Lemma parse_all_mono fuel fuel' flags args r :
  parse_all fuel flags args = Some r → (fuel ≤ fuel')%nat → parse_all fuel' flags args = Some r.
Proof.
  revert fuel' flags args. induction fuel as [|fuel IH]; intros fuel' flags args Hr Hle; [done|].
  destruct fuel' as [|fuel']; [lia|]. cbn [parse_all] in *.
  destruct (parse_one flags args); [done| |done]. apply IH; [done|lia].
Qed.

Lemma Parse_step flags args :
  Parse flags args = match parse_one flags args with
                     | Done args => Ok (flags, args)
                     | Next flags args => Parse flags args
                     | Failed err => Err err
                     end.
Proof.
  unfold Parse at 1. cbn [parse_all].
  destruct (parse_one flags args) as [args'|flags' args'|err] eqn:Hp; [done| |done].
  unfold Parse. apply parse_one_consumes in Hp.
  destruct (parse_all (S (length args')) flags' args') as [r|] eqn:Hr.
  - by rewrite (parse_all_mono _ (length args) _ _ _ Hr) by lia.
  - by apply parse_all_ends in Hr; [|lia].
Qed.

(** ** What was written is read back *)

(** A name that can be written as a flag. *)
Definition good_name (name : string) : Prop :=
  name ≠ "" ∧ "="%char ∉ s2l name ∧ HasPrefix name "-" = false.

(** --name=value *)
Definition written_flag (nv : string * string) : string := "--" +:+ nv.1 +:+ "=" +:+ nv.2.

(** The flag set after the settings, in order. *)
Fixpoint set_flags (flags : FlagSet) (settings : list (string * string)) : option FlagSet :=
  match settings with
  | [] => Some flags
  | (name, text) :: settings =>
      v ← flags !! name; v' ← set_flag v text; set_flags (<[name := v']> flags) settings
  end.

Lemma cut_equals_at l v : "="%char ∉ l → cut_equals (l ++ "="%char :: v) = (l, Some v).
Proof.
  induction l as [|c l IH]; intros Hl; [done|]. cbn [app cut_equals].
  apply not_elem_of_cons in Hl as [Hc Hl]. rewrite bool_decide_eq_false_2 by done. by rewrite IH.
Qed.

Lemma flag_name_written name value :
  good_name name → flag_name (name +:+ "=" +:+ value) = (name, Some value).
Proof.
  intros (Hne & Heq & _). destruct name as [|c n]; [done|]. unfold flag_name.
  rewrite !s2l_app. cbn [s2l app String.list_ascii_of_string].
  cbn [String.list_ascii_of_string] in Heq. apply not_elem_of_cons in Heq as [_ Heq].
  rewrite cut_equals_at by done. cbn. by rewrite !String.string_of_list_ascii_of_string.
Qed.

Lemma parse_one_written flags name value v v' args :
  good_name name → flags !! name = Some v → set_flag v value = Some v' →
  parse_one flags (written_flag (name, value) :: args) = Next (<[name := v']> flags) args.
Proof.
  intros Hname Hv Hset. pose proof Hname as (Hne & Heq & Hpre).
  unfold written_flag. cbn [fst snd]. destruct name as [|c n]; [done|].
  change ("--" +:+ String c n +:+ "=" +:+ value)
    with (String "-" (String "-" (String c n +:+ "=" +:+ value))).
  cbn [parse_one]. rewrite !bool_decide_eq_true_2 by done. cbn [negb].
  rewrite string_app_cons. unfold flag_text.
  assert (c ≠ "-"%char) as H1.
  { intros ->. unfold HasPrefix in Hpre. cbn in Hpre. by destruct n. }
  assert (c ≠ "="%char) as H2 by (intros ->; apply Heq; left).
  rewrite !bool_decide_eq_false_2 by done. cbn [orb]. rewrite <-string_app_cons.
  rewrite flag_name_written by done. unfold apply_flag. rewrite Hv. cbn [default from_option id].
  destruct (is_bool_flag v); by rewrite Hset.
Qed.

(** Flags written as --name=value are read back: parsing them in front of
    other arguments sets each, in order, and leaves the other arguments as they
    are, whether after "--" or because the first is not a flag. *)
Theorem Parse_written flags settings flags' args
    (Hnames : Forall (λ nv, good_name nv.1) settings)
    (Hset : set_flags flags settings = Some flags') :
  Parse flags ((written_flag <$> settings) ++ "--" :: args) = Ok (flags', args) ∧
  (match args with a :: _ => HasPrefix a "-" = false | [] => True end →
   Parse flags ((written_flag <$> settings) ++ args) = Ok (flags', args)).
Proof.
  revert flags Hset. induction Hnames as [|[name text] settings Hname _ IH]; intros flags Hset.
  - injection Hset as ->. split; [by rewrite Parse_step|].
    rewrite Parse_step. destruct args as [|a args]; [done|]. cbn [app fmap list_fmap parse_one].
    destruct a as [|c [|d t]]; [done|done|]. intros Ha.
    destruct (decide (c = "-"%char)) as [->|Hc]; [by cbn in Ha|]. by rewrite bool_decide_eq_false_2.
  - cbn [set_flags] in Hset. destruct (flags !! name) as [v|] eqn:Hv; [|done]. cbn in Hset.
    destruct (set_flag v text) as [v'|] eqn:Hs; [|done]. cbn in Hset.
    destruct (IH _ Hset) as [IH1 IH2]. cbn [fmap list_fmap app].
    rewrite !(Parse_step flags), !(parse_one_written _ _ _ _ _ _ Hname Hv Hs). auto.
Qed.
End flags.

(** ** Closed instances *)

Section instances.

Definition decimal_flags : FlagText := {| flag_ParseUint s := Atoi s; flag_ParseDuration _ := None |}.
#[local] Existing Instance decimal_flags.

Lemma Parse_written_witness :
  Parse {["name" := FString ""; "scope" := FList []]}
    ["--name=ci"; "--scope=a.read"; "--scope=a.write"; "--"; "rest"] =
    Ok ({["name" := FString "ci"; "scope" := FList ["a.read"; "a.write"]]}, ["rest"]).
Proof.
  assert (Forall (λ nv : string * string, good_name nv.1)
    [("name", "ci"); ("scope", "a.read"); ("scope", "a.write")]) as Hn.
  { repeat constructor; try done; cbn; apply (bool_decide_unpack _); by vm_compute. }
  exact (proj1 (Parse_written {["name" := FString ""; "scope" := FList []]}
    [("name", "ci"); ("scope", "a.read"); ("scope", "a.write")]
    {["name" := FString "ci"; "scope" := FList ["a.read"; "a.write"]]} ["rest"] Hn eq_refl)).
Defined.
End instances.
