(* ===== verification/Prog.v ===== *)
(** * Programs as sequences of atomic actions

    A handler of the service is a [prog]: a finite tree of atomic actions on a
    shared state, each one a call that leaves the goroutine (a SQL statement or
    transaction, a Redis command or script, a read of the clock or of the
    random source, an HTTP or SMTP exchange).  The same term has

    - a sequential meaning, [run], used for the functional theorems, with the
      weakest-precondition rules [wp];
    - an interruptible meaning, [trace], the states a crash can leave, with the
      rules [wpc];
    - an interleaved meaning, [pool_step] on a pool of programs that share the
      state, used for the concurrency theorems, with the rely-guarantee style
      predicate [guarantees]: every atomic action of the program relates the
      state before it and after it by a given relation. *)

From S2P Require Import Prelude.

Section prog.
Context {W : Type}.

Inductive prog (A : Type) : Type :=
  | Ret (a : A)
  | Act (B : Type) (op : W → B * W) (k : B → prog A).
Arguments Ret {A} a.
Arguments Act {A B} op k.

Fixpoint prog_bind {A B} (m : prog A) (f : A → prog B) : prog B :=
  match m with
  | Ret a => f a
  | Act op k => Act op (λ b, prog_bind (k b) f)
  end.

(** One atomic action. *)
Definition act {B} (op : W → B * W) : prog B := Act op (λ b, Ret b).

Fixpoint run {A} (m : prog A) (w : W) : A * W :=
  match m with
  | Ret a => (a, w)
  | Act op k => let '(b, w') := op w in run (k b) w'
  end.

Lemma run_bind {A B} (m : prog A) (f : A → prog B) w :
  run (prog_bind m f) w = let '(a, w') := run m w in run (f a) w'.
Proof.
  revert w. induction m as [a|C op k IH]; intros w; [done|]. simpl.
  destruct (op w) as [b w']. apply IH.
Qed.

(** ** Weakest preconditions *)

Definition wp {A} (m : prog A) (Q : A → W → Prop) (w : W) : Prop :=
  let '(a, w') := run m w in Q a w'.

Lemma wp_ret {A} (a : A) Q w : Q a w → wp (Ret a) Q w.
Proof. done. Qed.

Lemma wp_act {B} (op : W → B * W) Q w :
  Q (op w).1 (op w).2 → wp (act op) Q w.
Proof. unfold wp. simpl. by destruct (op w). Qed.

Lemma wp_bind {A B} (m : prog A) (f : A → prog B) Q w :
  wp m (λ a w', wp (f a) Q w') w → wp (prog_bind m f) Q w.
Proof. unfold wp. rewrite run_bind. by destruct (run m w). Qed.

Lemma wp_mono {A} (m : prog A) (Q Q' : A → W → Prop) w :
  wp m Q w → (∀ a w', Q a w' → Q' a w') → wp m Q' w.
Proof. unfold wp. destruct (run m w). auto. Qed.

Lemma wp_and {A} (m : prog A) (Q Q' : A → W → Prop) w :
  wp m Q w → wp m Q' w → wp m (λ a w', Q a w' ∧ Q' a w') w.
Proof. unfold wp. destruct (run m w). auto. Qed.

Lemma wp_run {A} (m : prog A) (Q : A → W → Prop) w a w' :
  wp m Q w → run m w = (a, w') → Q a w'.
Proof. unfold wp. intros H Hr. by rewrite Hr in H. Qed.

(** ** Guarantees *)

(** Every atomic action of the program takes a state to one that [R]
    relates it to, whatever happened before it. *)
Inductive guarantees (R : relation W) {A} : prog A → Prop :=
  | guarantees_ret a : guarantees R (Ret a)
  | guarantees_act {B} (op : W → B * W) k :
      (∀ w, R w (op w).2) → (∀ b, guarantees R (k b)) →
      guarantees R (Act op k).

Lemma guarantees_bind R {A B} (m : prog A) (f : A → prog B) :
  guarantees R m → (∀ a, guarantees R (f a)) → guarantees R (prog_bind m f).
Proof.
  intros Hm Hf. induction Hm as [a|C op k Hop Hk IH]; simpl; [auto|].
  by constructor.
Qed.

Lemma guarantees_op R {B} (op : W → B * W) :
  (∀ w, R w (op w).2) → guarantees R (act op).
Proof. intros H. constructor; [done|]. intros b. constructor. Qed.

Lemma guarantees_mono (R R' : relation W) {A} (m : prog A) :
  (∀ w w', R w w' → R' w w') → guarantees R m → guarantees R' m.
Proof. intros HR. induction 1; constructor; auto. Qed.

Lemma guarantees_run R `{!PreOrder R} {A} (m : prog A) w :
  guarantees R m → R w (run m w).2.
Proof.
  intros Hm. revert w. induction Hm as [a|C op k Hop Hk IH]; intros w; simpl.
  - reflexivity.
  - specialize (Hop w). destruct (op w) as [b w']. simpl in Hop.
    etrans; [exact Hop|]. apply IH.
Qed.

(** ** Crashes *)

(** The states a program goes through, the one it starts in and the one it
    ends in included: where it can be stopped. *)
Fixpoint trace {A} (m : prog A) (w : W) : list W :=
  match m with
  | Ret _ => [w]
  | Act op k => let '(b, w') := op w in w :: trace (k b) w'
  end.

(** [wpc m I Q w]: [I] holds all along, and [Q] at the end. *)
Definition wpc {A} (m : prog A) (I : W → Prop) (Q : A → W → Prop) (w : W) : Prop :=
  Forall I (trace m w) ∧ wp m Q w.

Lemma wpc_ret {A} (a : A) I Q w : I w → Q a w → wpc (Ret a) I Q w.
Proof. split; [by constructor|done]. Qed.

Lemma wpc_act {B} (op : W → B * W) I Q w :
  I w → I (op w).2 → Q (op w).1 (op w).2 → wpc (act op) I Q w.
Proof.
  intros H1 H2 H3. split; [|by apply wp_act]. simpl.
  destruct (op w) as [b w']. by repeat constructor.
Qed.

Lemma trace_bind {A B} (m : prog A) (f : A → prog B) w I :
  Forall I (trace m w) → Forall I (trace (f (run m w).1) (run m w).2) →
  Forall I (trace (prog_bind m f) w).
Proof.
  revert w. induction m as [a|C op k IH]; intros w; simpl; [done|].
  destruct (op w) as [b w'] eqn:Hop. rewrite Forall_cons. intros [Hw Hk] Hf.
  constructor; [done|]. by apply IH.
Qed.

Lemma wpc_bind {A B} (m : prog A) (f : A → prog B) I Q w :
  wpc m I (λ a w', wpc (f a) I Q w') w → wpc (prog_bind m f) I Q w.
Proof.
  intros [HI HQ]. unfold wp in HQ. destruct (run m w) as [a w'] eqn:Hm.
  destruct HQ as [HI' HQ]. split.
  - apply trace_bind; by rewrite ?Hm.
  - unfold wp. rewrite run_bind, Hm. exact HQ.
Qed.

Lemma wpc_mono {A} (m : prog A) I (Q Q' : A → W → Prop) w :
  wpc m I Q w → (∀ a w', Q a w' → Q' a w') → wpc m I Q' w.
Proof. intros [HI HQ] H. split; [done|]. by eapply wp_mono. Qed.

(** ** Interleaving *)

(** A pool of programs: finished ones are [Ret].  A step runs the next
    atomic action of one of them. *)
Definition step_one {A} (m : prog A) (w : W) : prog A * W :=
  match m with
  | Ret a => (Ret a, w)
  | Act op k => let '(b, w') := op w in (k b, w')
  end.

Definition pool_at {A} (i : nat) (c : list (prog A) * W) : list (prog A) * W :=
  match c.1 !! i with
  | Some m => let '(m', w') := step_one m c.2 in (<[i := m']> c.1, w')
  | None => c
  end.

(** Run a schedule: the list of the threads to step, in order. *)
Definition schedule {A} (sch : list nat) (c : list (prog A) * W) : list (prog A) * W :=
  fold_left (λ c i, pool_at i c) sch c.

Inductive pool_step {A} : relation (list (prog A) * W) :=
  | pool_step_intro ms i m m' w w' :
      ms !! i = Some m → step_one m w = (m', w') →
      pool_step (ms, w) (<[i := m']> ms, w').

Lemma pool_at_step {A} i (c : list (prog A) * W) : rtc pool_step c (pool_at i c).
Proof.
  destruct c as [ms w]. unfold pool_at; simpl.
  destruct (ms !! i) as [m|] eqn:Hm; [|done].
  destruct (step_one m w) as [m' w'] eqn:Hs. apply rtc_once. by econstructor.
Qed.

Lemma schedule_steps {A} sch (c : list (prog A) * W) : rtc pool_step c (schedule sch c).
Proof.
  revert c. induction sch as [|i sch IH]; intros c; [done|]. simpl.
  etrans; [apply pool_at_step|apply IH].
Qed.

(** Everything a pool of well-behaved programs does, under any interleaving,
    is within the reflexive and transitive relation they all guarantee. *)
Lemma pool_step_guarantees R {A} (c c' : list (prog A) * W) :
  reflexive _ R → pool_step c c' → Forall (guarantees R) c.1 →
  R c.2 c'.2 ∧ Forall (guarantees R) c'.1.
Proof.
  intros Hrefl [ms i m m' w w' Hi Hs] Hms; simpl in *.
  pose proof (Forall_lookup_1 _ _ _ _ Hms Hi) as Hm.
  destruct Hm as [a|B op k Hop Hk]; simpl in Hs.
  - simplify_eq. split; [apply Hrefl|]. by rewrite list_insert_id.
  - specialize (Hop w). destruct (op w) as [b w1]. simplify_eq. split; [done|].
    apply Forall_insert; auto.
Qed.

Lemma pool_guarantees R `{!PreOrder R} {A} (c c' : list (prog A) * W) :
  rtc pool_step c c' → Forall (guarantees R) c.1 → R c.2 c'.2.
Proof.
  intros Hs. induction Hs as [c|c1 c2 c3 Hs _ IH]; intros Hc; [reflexivity|].
  destruct (pool_step_guarantees R _ _ (reflexivity (R:=R)) Hs Hc) as [HR Hc2].
  etrans; [exact HR|by apply IH].
Qed.
End prog.

Arguments prog W A : clear implicits.
Arguments Ret {W A} a.
Arguments Act {W A B} op k.

#[export] Instance prog_mbind W : MBind (prog W) := λ A B f m, prog_bind m f.

(** Bind notation: [x ← m ; k] of stdpp. *)

Lemma wp_mbind {W A B} (m : prog W A) (f : A → prog W B) Q w :
  wp m (λ a w', wp (f a) Q w') w → wp (m ≫= f) Q w.
Proof. apply wp_bind. Qed.

Lemma run_mbind {W A B} (m : prog W A) (f : A → prog W B) w :
  run (m ≫= f) w = let '(a, w') := run m w in run (f a) w'.
Proof. apply run_bind. Qed.

Lemma guarantees_mbind {W} R {A B} (m : prog W A) (f : A → prog W B) :
  guarantees R m → (∀ a, guarantees R (f a)) → guarantees R (m ≫= f).
Proof. apply guarantees_bind. Qed.

#[export] Hint Resolve guarantees_mbind guarantees_ret : go.

(** ** Error returns

    [try x := m in k] is Go's "x, err := m; if err != nil { return nil, err }"
    and [try x := m catch h in k] the same with another thing to do with the
    error. *)

Definition prog_catch {W A B} (m : prog W (result A)) (h : error → prog W B)
    (k : A → prog W B) : prog W B :=
  m ≫= λ r, match r with Ok a => k a | Err e => h e end.

Definition prog_try {W A B} (m : prog W (result A)) (k : A → prog W (result B))
    : prog W (result B) :=
  prog_catch m (λ e, Ret (Err e)) k.

Notation "'try' x := m 'in' k" := (prog_try m (λ x, k))
  (at level 200, x pattern, m at level 100, k at level 200, right associativity).
Notation "'try' x := m 'catch' h 'in' k" := (prog_catch m h (λ x, k))
  (at level 200, x pattern, m at level 100, h at level 100, k at level 200,
   right associativity).

(** return nil, fmt.Errorf(msg + ": %w", err). *)
Definition wrap_with {W A} (msg : string) (err : error) : prog W (result A) :=
  Ret (Err (fmt_Errorf msg err)).

Lemma run_catch {W A B} (m : prog W (result A)) (h : error → prog W B) k w :
  run (prog_catch m h k) w =
    match run m w with
    | (Ok a, w') => run (k a) w'
    | (Err e, w') => run (h e) w'
    end.
Proof. unfold prog_catch. rewrite run_mbind. by destruct (run m w) as [[] ?]. Qed.

Lemma run_try {W A B} (m : prog W (result A)) (k : A → prog W (result B)) w :
  run (prog_try m k) w =
    match run m w with
    | (Ok a, w') => run (k a) w'
    | (Err e, w') => (Err e, w')
    end.
Proof. unfold prog_try. rewrite run_catch. by destruct (run m w) as [[] ?]. Qed.

Lemma wp_catch {W A B} (m : prog W (result A)) (h : error → prog W B) k Q w :
  wp m (λ r w', match r with Ok a => wp (k a) Q w' | Err e => wp (h e) Q w' end) w →
  wp (prog_catch m h k) Q w.
Proof.
  intros H. apply wp_mbind. eapply wp_mono; [exact H|]. by intros [].
Qed.

Lemma wp_try {W A B} (m : prog W (result A)) (k : A → prog W (result B)) Q w :
  wp m (λ r w', match r with Ok a => wp (k a) Q w' | Err e => Q (Err e) w' end) w →
  wp (prog_try m k) Q w.
Proof.
  intros H. apply wp_catch. eapply wp_mono; [exact H|]. by intros [].
Qed.

Lemma wpc_mbind {W A B} (m : prog W A) (f : A → prog W B) I Q w :
  wpc m I (λ a w', wpc (f a) I Q w') w → wpc (m ≫= f) I Q w.
Proof. apply wpc_bind. Qed.

Lemma wpc_catch {W A B} (m : prog W (result A)) (h : error → prog W B) k I Q w :
  wpc m I (λ r w', match r with Ok a => wpc (k a) I Q w' | Err e => wpc (h e) I Q w' end) w →
  wpc (prog_catch m h k) I Q w.
Proof. intros H. apply wpc_mbind. eapply wpc_mono; [exact H|]. by intros [] w'. Qed.

Lemma wpc_try {W A B} (m : prog W (result A)) (k : A → prog W (result B)) I Q w :
  wpc m I (λ r w', match r with Ok a => wpc (k a) I Q w' | Err e => I w' ∧ Q (Err e) w' end) w →
  wpc (prog_try m k) I Q w.
Proof.
  intros H. apply wpc_catch. eapply wpc_mono; [exact H|].
  intros [a|e] w' Hr; [done|]. destruct Hr. by apply wpc_ret.
Qed.

(** A program on a part of the state, as one on the whole. *)
Section zoom.
Context {V W : Type} (get : W → V) (put : V → W → W).

Fixpoint zoom {A} (m : prog V A) : prog W A :=
  match m with
  | Ret a => Ret a
  | Act op k => Act (λ w, let '(b, v) := op (get w) in (b, put v w)) (λ b, zoom (k b))
  end.

Lemma run_zoom {A} (m : prog V A) w :
  (∀ v w, get (put v w) = v) → (∀ v v' w, put v (put v' w) = put v w) →
  (∀ w, put (get w) w = w) →
  run (zoom m) w = ((run m (get w)).1, put (run m (get w)).2 w).
Proof.
  intros Hgp Hpp Hpg. revert w. induction m as [a|B op k IH]; intros w; simpl.
  - by rewrite Hpg.
  - destruct (op (get w)) as [b v]. rewrite IH, Hgp. by rewrite Hpp.
Qed.

Lemma wp_zoom {A} (m : prog V A) Q w :
  (∀ v w, get (put v w) = v) → (∀ v v' w, put v (put v' w) = put v w) →
  (∀ w, put (get w) w = w) →
  wp m (λ a v, Q a (put v w)) (get w) → wp (zoom m) Q w.
Proof.
  intros H1 H2 H3. unfold wp. rewrite run_zoom by done. by destruct (run m (get w)).
Qed.

Lemma guarantees_zoom_rel R R' {A} (m : prog V A) :
  guarantees R' m → (∀ v w, R' (get w) v → R w (put v w)) → guarantees R (zoom m).
Proof.
  intros Hm HR. induction Hm as [a|B op k Hop _ IH]; cbn [zoom].
  - apply guarantees_ret.
  - apply guarantees_act; [|apply IH]. intros w. specialize (Hop (get w)).
    destruct (op (get w)) as [b v]. by apply HR.
Qed.

Lemma guarantees_zoom R {A} (m : prog V A) : (∀ v w, R w (put v w)) → guarantees R (zoom m).
Proof.
  intros HR. induction m as [a|B op k IH]; cbn [zoom].
  - apply guarantees_ret.
  - apply guarantees_act; [|apply IH]. intros w. destruct (op (get w)) as [b v]. apply HR.
Qed.
End zoom.

Lemma guarantees_catch {W} R {A B} (m : prog W (result A)) (h : error → prog W B) k :
  guarantees R m → (∀ e, guarantees R (h e)) → (∀ a, guarantees R (k a)) →
  guarantees R (prog_catch m h k).
Proof. intros Hm Hh Hk. apply guarantees_mbind; [done|]. intros []; auto. Qed.

Lemma guarantees_try {W} R {A B} (m : prog W (result A)) (k : A → prog W (result B)) :
  guarantees R m → (∀ a, guarantees R (k a)) → guarantees R (prog_try m k).
Proof. intros Hm Hk. apply guarantees_catch; auto. intros e. constructor. Qed.

(** Follow a program's structure: binds, conditionals and returns; the calls
    are solved from the [go] database. *)
Ltac guarantees_tac :=
  repeat first
    [ apply guarantees_ret
    | progress unfold wrap_with
    | solve [eauto with go nocore]
    | apply guarantees_mbind; [|intros ?]
    | apply guarantees_try; [|intros ?]
    | apply guarantees_catch; [|intros ?|intros ?]
    | progress intros
    | case_match ].

(** ** One winner

    A token that can be taken once: [gone] says it has been taken (or never
    was there), and the programs considered keep it so.  A program [claims] it
    when it can only reach a winning result by an action that finds the token
    and takes it.  Whatever the interleaving, at most one of them wins. *)

Section one_shot.
Context {W A : Type} (gone : W → Prop) (won : A → Prop).

Definition keeps_gone : relation W := λ w w', gone w → gone w'.

#[export] Instance keeps_gone_preorder : PreOrder keeps_gone.
Proof. split; [intros w; by red|]. intros w1 w2 w3 H1 H2 Hw. by apply H2, H1. Qed.

Inductive claims : prog W A → Prop :=
  | claims_ret a : ¬ won a → claims (Ret a)
  | claims_act {B} (op : W → B * W) k :
      (∀ w, keeps_gone w (op w).2) →
      (∀ w, claims (k (op w).1) ∨
            (¬ gone w ∧ gone (op w).2 ∧ guarantees keeps_gone (k (op w).1))) →
      claims (Act op k).

Lemma claims_bind {B} (m : prog W B) (f : B → prog W A) :
  guarantees keeps_gone m → (∀ b, claims (f b)) → claims (m ≫= f).
Proof.
  intros Hm Hf. induction Hm as [a|C op k Hop Hk IH]; [apply Hf|].
  apply claims_act; [done|]. intros w. left. apply IH.
Qed.

(** An action that takes the token, followed by what depends on its answer. *)
Lemma claims_take {B} (op : W → B * W) (f : B → prog W A) :
  (∀ w, keeps_gone w (op w).2) →
  (∀ w, claims (f (op w).1) ∨
        (¬ gone w ∧ gone (op w).2 ∧ guarantees keeps_gone (f (op w).1))) →
  claims (act op ≫= f).
Proof. intros H1 H2. by apply claims_act. Qed.

(** At most one program holds the token, and then it is gone. *)
Definition one_holder (c : list (prog W A) * W) : Prop :=
  Forall claims c.1 ∨
  (gone c.2 ∧ ∃ i m, c.1 !! i = Some m ∧ guarantees keeps_gone m ∧
     ∀ j m', c.1 !! j = Some m' → j ≠ i → claims m').

Lemma claims_step m w m' w' :
  claims m → step_one m w = (m', w') →
  keeps_gone w w' ∧ (claims m' ∨ (¬ gone w ∧ gone w' ∧ guarantees keeps_gone m')).
Proof.
  intros Hm Hs. destruct Hm as [a Ha|B op k Hop Hk]; simpl in Hs.
  - simplify_eq. split; [by red|]. left. by constructor.
  - specialize (Hop w). specialize (Hk w). destruct (op w) as [b w1]. by simplify_eq.
Qed.

Lemma one_holder_step c c' : pool_step c c' → one_holder c → one_holder c'.
Proof.
  intros [ms i m m' w w' Hi Hs] [Hall|(Hg & h & mh & Hh & Hq & Hrest)]; simpl in *.
  - pose proof (Forall_lookup_1 _ _ _ _ Hall Hi) as Hm.
    destruct (claims_step _ _ _ _ Hm Hs) as [_ [Hm'|(_ & Hg & Hq)]].
    + left. by apply Forall_insert.
    + right. split; [done|]. exists i, m'. simpl.
      rewrite list_lookup_insert_eq by (by eapply lookup_lt_Some). split; [done|]. split; [done|].
      intros j mj Hj Hne. rewrite list_lookup_insert_ne in Hj by done.
      by eapply Forall_lookup_1.
  - right. destruct (decide (i = h)) as [->|Hne].
    + simplify_eq. simpl. destruct Hq as [a|B op k Hop Hk]; simpl in Hs.
      * simplify_eq. split; [done|]. exists h, (Ret a). rewrite list_insert_id by done.
        split; [done|]. split; [constructor|done].
      * specialize (Hop w). destruct (op w) as [b w1]. simplify_eq. simpl in Hop.
        split; [by apply Hop|]. exists h, (k b).
        rewrite list_lookup_insert_eq by (by eapply lookup_lt_Some). split; [done|].
        split; [done|]. intros j mj Hj Hjh. rewrite list_lookup_insert_ne in Hj by done. eauto.
    + simpl. destruct (claims_step _ _ _ _ (Hrest _ _ Hi Hne) Hs) as [Hk [Hm'|(Hng & _)]];
        [|by destruct Hng].
      split; [by apply Hk|]. exists h, mh. rewrite list_lookup_insert_ne by done.
      split; [done|]. split; [done|]. intros j mj Hj Hjh.
      destruct (decide (j = i)) as [->|Hji].
      * rewrite list_lookup_insert_eq in Hj by (by eapply lookup_lt_Some). by simplify_eq.
      * rewrite list_lookup_insert_ne in Hj by done. eauto.
Qed.

Lemma one_winner ms ms' w w' i j a b :
  Forall claims ms → rtc pool_step (ms, w) (ms', w') →
  ms' !! i = Some (Ret a) → ms' !! j = Some (Ret b) → won a → won b → i = j.
Proof.
  intros Hms Hs Hi Hj Ha Hb.
  assert (one_holder (ms', w')) as Hone.
  { assert (one_holder (ms, w)) as H0 by by left.
    revert H0. induction Hs as [c|c1 c2 c3 Hs _ IH]; [done|].
    intros H0. apply IH. by eapply one_holder_step. }
  assert (∀ x, claims (Ret x) → ¬ won x) as Hret by (by inversion 1).
  destruct Hone as [Hall|(_ & h & mh & _ & _ & Hrest)]; simpl in *.
  - pose proof (Forall_lookup_1 _ _ _ _ Hall Hi) as H. by destruct (Hret a H).
  - destruct (decide (i = h)) as [->|Hih]; [destruct (decide (j = h)) as [->|Hjh]|]; [done| |].
    + by destruct (Hret b (Hrest _ _ Hj Hjh)).
    + by destruct (Hret a (Hrest _ _ Hi Hih)).
Qed.
End one_shot.

(** What a claimant's answer is turned into does not matter. *)
Lemma claims_map {W A B} (gone : W → Prop) (won : B → Prop) (m : prog W A) (f : A → B) :
  claims gone (λ a, won (f a)) m → claims gone won (m ≫= λ a, Ret (f a)).
Proof.
  revert m. fix IH 2. intros m [a Ha|C op k Hop Hk]; [by apply claims_ret|].
  apply claims_act; [done|]. intros w. destruct (Hk w) as [Hw|(H1 & H2 & H3)];
    [left; exact (IH _ Hw)|right].
  split; [done|]. split; [done|]. apply guarantees_bind; [done|]. intros a. constructor.
Qed.

(** ** What lasts

    Some actions only respect [R] because of what the program read before, the time
    for one: [timed R n] is [guarantees R] for a program that goes on at clock [n].
    [φ] is a fact that [R] keeps.  A program [establishes] it when it can only reach
    a good result by an action that makes it true; a program is [barred] from good
    results while [ψ] holds of the states it acts on. *)

Section lasting.
Context {W : Type} (clock : W → nat) (R : relation W) `{!PreOrder R}.
Context (Hmono : ∀ w w', R w w' → (clock w ≤ clock w')%nat).

Inductive timed {A} : nat → prog W A → Prop :=
  | timed_ret n a : timed n (Ret a)
  | timed_act n {B} (op : W → B * W) k :
      (∀ w, (n ≤ clock w)%nat → R w (op w).2 ∧ timed (clock (op w).2) (k (op w).1)) →
      timed n (Act op k).

Lemma timed_later {A} n n' (m : prog W A) : (n ≤ n')%nat → timed n m → timed n' m.
Proof.
  intros Hn Hm. destruct Hm as [n a|n B op k Hk]; constructor. intros w Hw. apply Hk. lia.
Qed.

Lemma guarantees_timed {A} n (m : prog W A) : guarantees R m → timed n m.
Proof.
  intros Hm. revert n. induction Hm as [a|B op k Hop Hk IH]; intros n; constructor. auto.
Qed.

Lemma timed_act_inv {A B} n (op : W → B * W) (k : B → prog W A) :
  timed n (Act op k) →
  ∀ w, (n ≤ clock w)%nat → R w (op w).2 ∧ timed (clock (op w).2) (k (op w).1).
Proof.
  intros Hm. refine (match Hm in timed n m return
    match m with
    | Ret _ => True
    | Act op k => ∀ w, (n ≤ clock w)%nat → R w (op w).2 ∧ timed (clock (op w).2) (k (op w).1)
    end with timed_ret _ _ => I | timed_act _ _ _ Hk => Hk end).
Qed.

Lemma timed_bind {A B} n (m : prog W A) (f : A → prog W B) :
  timed n m → (∀ a n', (n ≤ n')%nat → timed n' (f a)) → timed n (m ≫= f).
Proof.
  intros Hm Hf. revert n Hm Hf. induction m as [a|C op k IH]; intros n Hm Hf; [by apply Hf|].
  constructor. intros w Hw. destruct (timed_act_inv _ _ _ Hm w Hw) as [HR Ht]. split; [done|]. apply IH; [done|].
  intros a n' Hn. apply Hf. pose proof (Hmono _ _ HR). lia.
Qed.

Lemma pool_step_timed {A} (ms ms' : list (prog W A)) w w' :
  pool_step (ms, w) (ms', w') → Forall (timed (clock w)) ms →
  R w w' ∧ Forall (timed (clock w')) ms'.
Proof.
  intros Hs Hall. inversion Hs as [ms0 i m m' w0 w1 Hi Hstep]; subst.
  pose proof (Forall_lookup_1 _ _ _ _ Hall Hi) as Hm.
  assert (R w w' ∧ timed (clock w') m') as [HR Hm'].
  { inversion Hm as [n a|n B op k Hk]; subst; simpl in Hstep.
    - injection Hstep as <- <-. by split.
    - destruct (Hk w) as [HR Hm1]; [done|]. destruct (op w) as [b v]. injection Hstep as <- <-. by split. }
  split; [done|]. apply Forall_insert; [|done]. eapply Forall_impl; [exact Hall|].
  intros x. apply timed_later. by apply Hmono.
Qed.

Lemma pool_timed {A} (c c' : list (prog W A) * W) :
  rtc pool_step c c' → Forall (timed (clock c.2)) c.1 → R c.2 c'.2 ∧ Forall (timed (clock c'.2)) c'.1.
Proof.
  induction 1 as [c|[ms w] [ms1 w1] c3 Hs _ IH]; intros Hall; [by split|].
  destruct (pool_step_timed _ _ _ _ Hs Hall) as [HR Hall1]. destruct (IH Hall1) as [HR1 Hall3].
  split; [by etrans|done].
Qed.

Section outcomes.
Context {A : Type} (φ ψ : W → Prop) (good : A → Prop) (Hkept : ∀ w w', R w w' → φ w → φ w').
Implicit Types (m : prog W A) (ms : list (prog W A)).

Inductive establishes : nat → prog W A → Prop :=
  | establishes_ret n a : ¬ good a → establishes n (Ret a)
  | establishes_act n {B} (op : W → B * W) k :
      (∀ w, (n ≤ clock w)%nat → establishes (clock (op w).2) (k (op w).1) ∨ φ (op w).2) →
      establishes n (Act op k).

Inductive barred : prog W A → Prop :=
  | barred_ret a : ¬ good a → barred (Ret a)
  | barred_act {B} (op : W → B * W) k :
      (∀ w, ψ w → barred (k (op w).1)) → barred (Act op k).

Lemma establishes_later n n' m : (n ≤ n')%nat → establishes n m → establishes n' m.
Proof.
  intros Hn Hm. destruct Hm as [n a Ha|n B op k Hk]; constructor; [done|]. intros w Hw. apply Hk. lia.
Qed.

Lemma establishes_bind {B} n (m : prog W B) (f : B → prog W A) :
  (∀ b n', establishes n' (f b)) → establishes n (m ≫= f).
Proof.
  intros Hf. revert n. induction m as [a|C op k IH]; intros n; [apply Hf|].
  apply establishes_act. intros w _. left. apply IH.
Qed.

Lemma barred_bind {B} (m : prog W B) (f : B → prog W A) :
  (∀ b, barred (f b)) → barred (m ≫= f).
Proof.
  intros Hf. induction m as [a|C op k IH]; [apply Hf|]. apply barred_act. intros w _. apply IH.
Qed.

Lemma pool_establishes i ms w ms' w' a :
  rtc pool_step (ms, w) (ms', w') → Forall (timed (clock w)) ms →
  (∀ m, ms !! i = Some m → establishes (clock w) m ∨ φ w) →
  ms' !! i = Some (Ret a) → good a → φ w'.
Proof.
  intros Hrun. remember (ms, w) as c eqn:Hc. remember (ms', w') as c' eqn:Hc'.
  revert ms w Hc Hc'. induction Hrun as [c|c1 [ms1 w1] c3 Hs _ IH]; intros ms w -> Hc' Hall Hi Ha Hgood.
  - injection Hc' as <- <-. destruct (Hi _ Ha) as [He|Hf]; [by inversion He|done].
  - destruct (pool_step_timed _ _ _ _ Hs Hall) as [HR Hall1].
    inversion Hs as [ms0 j m m' w0 w2 Hj Hstep]; subst. eapply (IH _ _ eq_refl eq_refl); try done.
    intros x Hx. apply list_lookup_insert_Some in Hx as [(-> & <- & _)|[_ Hx]].
    + destruct (Hi _ Hj) as [He|Hf]; [|right; eauto].
      inversion He as [n b Hb|n B op k Hk]; subst; simpl in Hstep.
      * injection Hstep as <- <-. by left.
      * specialize (Hk w (Nat.le_refl _)). destruct (op w) as [b v]. by injection Hstep as <- <-.
    + destruct (Hi _ Hx) as [He|Hf]; [left|right; eauto]. eapply establishes_later; [|done].
      by apply Hmono.
Qed.

Lemma pool_barred i ms w ms' w' a :
  rtc pool_step (ms, w) (ms', w') → Forall (timed (clock w)) ms →
  (∀ m, ms !! i = Some m → barred m) → (∀ w1, R w w1 → R w1 w' → ψ w1) →
  ms' !! i = Some (Ret a) → ¬ good a.
Proof.
  intros Hrun. remember (ms, w) as c eqn:Hc. remember (ms', w') as c' eqn:Hc'.
  revert ms w Hc Hc'. induction Hrun as [c|c1 [ms1 w1] c3 Hs Hrest IH]; intros ms w -> Hc' Hall Hi Hψ Ha.
  - injection Hc' as <- <-. specialize (Hi _ Ha). by inversion Hi.
  - destruct (pool_step_timed _ _ _ _ Hs Hall) as [HR Hall1]. subst c3.
    pose proof (proj1 (pool_timed _ _ Hrest Hall1)) as HR1. cbn [snd] in HR1.
    eapply (IH _ _ eq_refl eq_refl); try done.
    + inversion Hs as [ms0 j m m' w0 w2 Hj Hstep]; subst.
      intros x Hx. apply list_lookup_insert_Some in Hx as [(-> & <- & _)|[_ Hx]]; [|by apply Hi].
      destruct (Hi _ Hj) as [b Hb|B op k Hk]; simpl in Hstep.
      * injection Hstep as <- <-. by constructor.
      * assert (ψ w) as Hw by (apply Hψ; [reflexivity|by etrans]). specialize (Hk w Hw).
        destruct (op w) as [b v]. by injection Hstep as <- <-.
    + intros w2 H2. apply Hψ. by etrans.
Qed.
End outcomes.
End lasting.

(** What follows only matters for the answers that are not good. *)
Lemma establishes_then {W A B} clock (φ : W → Prop) (good : A → Prop) (good' : B → Prop)
    n (m : prog W A) (f : A → prog W B) :
  establishes clock φ good n m → (∀ a n', ¬ good a → establishes clock φ good' n' (f a)) →
  establishes clock φ good' n (m ≫= f).
Proof.
  intros Hm Hf. revert n m Hm. fix IH 3. intros _ _ [n a Ha|n C op k Hk]; [by apply Hf|].
  apply establishes_act. intros w Hw. destruct (Hk w Hw) as [He|Hφ]; [left|by right].
  exact (IH _ _ He).
Qed.

Lemma barred_then {W A B} (ψ : W → Prop) (good : A → Prop) (good' : B → Prop)
    (m : prog W A) (f : A → prog W B) :
  barred ψ good m → (∀ a, ¬ good a → barred ψ good' (f a)) → barred ψ good' (m ≫= f).
Proof.
  intros Hm Hf. revert m Hm. fix IH 2. intros _ [a Ha|C op k Hk]; [by apply Hf|].
  apply barred_act. intros w Hw. exact (IH _ (Hk w Hw)).
Qed.

(** The answers are results, and the good ones successes. *)
Abbreviation succeeds := (λ r, is_Ok r = true).

Lemma establishes_catch {W A B} clock (φ : W → Prop) n (m : prog W (result A))
    (h : error → prog W (result B)) k :
  establishes clock φ succeeds n m → (∀ e n', establishes clock φ succeeds n' (h e)) →
  establishes clock φ succeeds n (prog_catch m h k).
Proof. intros Hm Hh. eapply establishes_then; [exact Hm|]. intros [a|e] n' Ha; [by destruct Ha|done]. Qed.

Lemma barred_catch {W A B} (ψ : W → Prop) (m : prog W (result A))
    (h : error → prog W (result B)) k :
  barred ψ succeeds m → (∀ e, barred ψ succeeds (h e)) → barred ψ succeeds (prog_catch m h k).
Proof. intros Hm Hh. eapply barred_then; [exact Hm|]. intros [a|e] Ha; [by destruct Ha|done]. Qed.

Lemma establishes_try {W A B} clock (φ : W → Prop) n (m : prog W (result A))
    (k : A → prog W (result B)) :
  establishes clock φ succeeds n m → establishes clock φ succeeds n (prog_try m k).
Proof. intros Hm. apply establishes_catch; [done|]. intros e n'. by apply establishes_ret. Qed.

Lemma barred_try {W A B} (ψ : W → Prop) (m : prog W (result A)) (k : A → prog W (result B)) :
  barred ψ succeeds m → barred ψ succeeds (prog_try m k).
Proof. intros Hm. apply barred_catch; [done|]. intros e. by apply barred_ret. Qed.

(** A program that has returned a successful result. *)
Definition finished_ok {W A} (m : prog W (result A)) : bool :=
  match m with Ret (Ok _) => true | _ => false end.
