(* ===== verification/Host.v ===== *)
(** * The machine a process runs on

    The file system as package os shows it: regular files by their cleaned
    path, the directories, standard output and error.  A file's [fn_synced]
    tells whether its contents have reached the disk (File.Sync); the contents
    of a file that is not synced are lost to a power failure.  Every call may
    fail, as [os_fault] says; a write or MkdirAll that fails has done a part of
    its work, as [os_short] says.  Permissions of directories and symbolic links
    are not modelled.  A file handle is the path it was created with: the
    program uses none after a rename. *)

From S2P Require Import Prelude GoStrings Paths Prog.

Record FileNode := mkFileNode { fn_data : string; fn_mode : Z; fn_synced : bool }.

(** 0o600. *)
Definition mode_0600 : Z := 6 * 8 * 8.

#[export] Instance FileNode_eq_dec : EqDecision FileNode.
Proof. solve_decision. Defined.

Record Host := mkHost {
  h_step : nat;
  h_files : gmap string FileNode;
  h_dirs : gset string;
  h_stdout : string;
  h_stderr : string;
}.

(** The oracles, indexed by the number of system calls so far. *)
Class OS := {
  os_fault : nat → option string;
  os_short : nat → nat;
  (* the random part of a temporary name *)
  os_temp : nat → string;
  os_temp_no_slash n : no_sep slash (os_temp n);
  (* the environment of the process *)
  os_env : string → string;
}.

Definition os_IsNotExist (e : error) : bool :=
  match e with os_ErrNotExist _ _ => true | _ => false end.

Section host.
Context `{HO : OS}.

Abbreviation HostM := (prog Host).

Definition h_tick (h : Host) : Host :=
  mkHost (S (h_step h)) (h_files h) (h_dirs h) (h_stdout h) (h_stderr h).
Definition set_files (m : gmap string FileNode) (h : Host) : Host :=
  mkHost (h_step h) m (h_dirs h) (h_stdout h) (h_stderr h).
Definition set_dirs (d : gset string) (h : Host) : Host :=
  mkHost (h_step h) (h_files h) d (h_stdout h) (h_stderr h).

Definition file_at (h : Host) (path : string) : option FileNode := h_files h !! Clean path.

Definition is_dir (h : Host) (path : string) : bool :=
  let p := Clean path in
  (p == "/")%go || (p == ".")%go || bool_decide (p ∈ h_dirs h).

(** A system call: [part] is what it leaves when it fails. *)
Definition syscall {A} (part : nat → Host → Host) (f : Host → result A * Host) : HostM (result A) :=
  act (λ h, match os_fault (h_step h) with
            | None => let '(r, h') := f h in (r, h_tick h')
            | Some msg => (Err (errors_New msg), h_tick (part (os_short (h_step h)) h))
            end).
Definition no_part (n : nat) (h : Host) : Host := h.

Definition os_Stat (path : string) : HostM (result unit) :=
  syscall no_part (λ h,
    (if is_dir h path || negb (is_None (file_at h path)) then Ok tt
     else Err (os_ErrNotExist "stat" path), h)).

Definition os_ReadFile (path : string) : HostM (result string) :=
  syscall no_part (λ h,
    (if is_dir h path then Err (errors_New ("read " +:+ path +:+ ": is a directory"))
     else match file_at h path with
          | Some n => Ok (fn_data n)
          | None => Err (os_ErrNotExist "open" path)
          end, h)).

(** A directory and the directories above it. *)
Definition ancestors (path : string) : list string :=
  let cs := components path in
  (λ n, render (rooted path) (take (S n) cs)) <$> seq 0 (length cs).

Definition os_MkdirAll (path : string) : HostM (result unit) :=
  syscall (λ n h, set_dirs (h_dirs h ∪ list_to_set (take n (ancestors path))) h) (λ h,
    if existsb (λ d, negb (is_None (h_files h !! d))) (ancestors path)
    then (Err (errors_New ("mkdir " +:+ path +:+ ": not a directory")), h)
    else (Ok tt, set_dirs (h_dirs h ∪ list_to_set (ancestors path)) h)).

(** os.CreateTemp(dir, prefix + "*"): exclusive creation under a random name. *)
Definition temp_path (dir prefix random : string) : string := in_dir dir (prefix +:+ random).

Definition os_CreateTemp (dir prefix : string) : HostM (result string) :=
  syscall no_part (λ h,
    let path := temp_path dir prefix (os_temp (h_step h)) in
    if negb (is_dir h dir) then (Err (os_ErrNotExist "open" path), h)
    else if negb (is_None (file_at h path)) || is_dir h path
    then (Err (errors_New ("createtemp " +:+ path +:+ ": file exists")), h)
    else (Ok path, set_files (<[Clean path := mkFileNode "" mode_0600 true]> (h_files h)) h)).

Definition update_file (f : FileNode → FileNode) (path : string) (h : Host) : Host :=
  set_files (alter f (Clean path) (h_files h)) h.

Definition file_Chmod (path : string) (mode : Z) : HostM (result unit) :=
  syscall no_part (λ h,
    (Ok tt, update_file (λ n, mkFileNode (fn_data n) mode (fn_synced n)) path h)).

Definition append_data (data : string) (n : FileNode) : FileNode :=
  mkFileNode (fn_data n +:+ data) (fn_mode n) false.
Definition file_Write (path data : string) : HostM (result unit) :=
  syscall (λ n, update_file (append_data (l2s (take n (s2l data)))) path)
          (λ h, (Ok tt, update_file (append_data data) path h)).

Definition file_Sync (path : string) : HostM (result unit) :=
  syscall no_part (λ h,
    (Ok tt, update_file (λ n, mkFileNode (fn_data n) (fn_mode n) true) path h)).

Definition file_Close (path : string) : HostM (result unit) := syscall no_part (λ h, (Ok tt, h)).

Definition os_Rename (old new : string) : HostM (result unit) :=
  syscall no_part (λ h,
    match file_at h old with
    | None => (Err (os_ErrNotExist "rename" old), h)
    | Some n =>
        if negb (is_dir h (Dir new)) then (Err (os_ErrNotExist "rename" new), h)
        else if is_dir h new then (Err (errors_New ("rename " +:+ old +:+ " " +:+ new +:+ ": file exists")), h)
        else (Ok tt, set_files (<[Clean new := n]> (delete (Clean old) (h_files h))) h)
    end).

Definition os_Remove (path : string) : HostM (result unit) :=
  syscall no_part (λ h,
    match file_at h path with
    | Some _ => (Ok tt, set_files (delete (Clean path) (h_files h)) h)
    | None => (Err (os_ErrNotExist "remove" path), h)
    end).

(** fmt.Fprint on standard output and standard error. *)
Definition write_stdout (text : string) : HostM (result unit) :=
  syscall no_part (λ h, (Ok tt,
    mkHost (h_step h) (h_files h) (h_dirs h) (h_stdout h +:+ text) (h_stderr h))).
Definition write_stderr (text : string) : HostM (result unit) :=
  syscall no_part (λ h, (Ok tt,
    mkHost (h_step h) (h_files h) (h_dirs h) (h_stdout h) (h_stderr h +:+ text))).

(** ** Rules *)

Lemma wpc_syscall {A} part (f : Host → result A * Host) I Q h :
  I h →
  (os_fault (h_step h) = None → I (h_tick (f h).2) ∧ Q (f h).1 (h_tick (f h).2)) →
  (∀ msg n, I (h_tick (part n h)) ∧ Q (Err (errors_New msg)) (h_tick (part n h))) →
  wpc (syscall part f) I Q h.
Proof.
  intros Hh Hok Hfault. unfold syscall. apply wpc_act; [done| |].
  all: destruct (os_fault (h_step h)) as [msg|]; [apply (Hfault msg)|].
  all: destruct (f h) as [r h']; by apply Hok.
Qed.

Lemma wp_syscall {A} part (f : Host → result A * Host) Q h :
  (os_fault (h_step h) = None → Q (f h).1 (h_tick (f h).2)) →
  (∀ msg n, Q (Err (errors_New msg)) (h_tick (part n h))) →
  wp (syscall part f) Q h.
Proof.
  intros Hok Hfault. apply (wpc_syscall part f (λ _, True) Q h); [done| |]; auto.
Qed.

Lemma guarantees_syscall {A} R part (f : Host → result A * Host) :
  (∀ h, R h (h_tick (f h).2)) → (∀ n h, R h (h_tick (part n h))) →
  guarantees R (syscall part f).
Proof.
  intros Hf Hp. apply guarantees_op. intros h.
  destruct (os_fault (h_step h)); [apply Hp|]. specialize (Hf h). by destruct (f h).
Qed.

Lemma run_syscall {A} part (f : Host → result A * Host) h :
  os_fault (h_step h) = None → run (syscall part f) h = ((f h).1, h_tick (f h).2).
Proof. intros Hn. cbn. rewrite Hn. by destruct (f h). Qed.
End host.

Abbreviation HostM := (prog Host).

(** ** A reference machine *)

Program Definition ref_os (faults : nat → option string) (env : string → string) : OS := {|
  os_fault := faults;
  os_short _ := 0;
  os_temp n := Itoa (Z.of_nat n);
  os_env := env;
|}.
Next Obligation. intros _ _ n. apply Itoa_no_sep; [lia|done]. Qed.

(** No call fails, and the environment is empty. *)
Definition calm_os : OS := ref_os (λ _, None) (λ _, "").

Definition empty_host : Host := mkHost 0 ∅ ∅ "" "".
