(* ===== verification/Data.v ===== *)
(** * Data: the program's records

    One record per Go struct the program passes around or stores: the domain
    models (internal/identra), the database rows (internal/store/sqlite/sqlitedb),
    the service-account records (internal/serviceaccount), the token claims
    (internal/security) and the protobuf messages (gen/go/identra/v1).

    A pointer that may be nil is an [option]; [sql.NullString] and
    [sql.NullTime] are [option]s too.  A [time.Time] or a [time.Duration] is a
    [Z] of nanoseconds (since the Unix epoch).  Field names are the Go ones
    after a short prefix that stands for the struct. *)

From S2P Require Import Prelude GoStrings.
#[local] Open Scope Z_scope.

(** ** time *)

Definition time_Millisecond : Z := 1000000.
Definition time_Second : Z := 1000000000.
Definition time_Minute : Z := 60 * time_Second.
Definition time_Hour : Z := 60 * time_Minute.

(** The zero time.Time, January 1 of year 1, and IsZero. *)
Definition time_zero : Z := -62135596800 * time_Second.
Definition IsZero (t : Z) : bool := bool_decide (t = time_zero).

(** ** internal/identra *)

Record UserModel := mkUserModel {
  um_ID : string;
  um_CreatedAt : Z;
  um_UpdatedAt : Z;
  um_Email : string;
  um_HashedPassword : option string;
  um_VerificationHash : option string;
  um_LastLoginAt : option Z;
}.

Record ExternalIdentityModel := mkExternalIdentityModel {
  em_ID : string;
  em_UserID : string;
  em_Provider : string;
  em_ProviderUserID : string;
  em_CreatedAt : Z;
  em_UpdatedAt : Z;
}.

Record OAuthState := mkOAuthState { os_Provider : string; os_RedirectURL : string }.

(** internal/oauth: an entry of the in-memory state store. *)
Record State := mkState { st_Provider : string; st_RedirectURL : string; st_ExpiresAt : Z }.

Record EmailMessage := mkEmailMessage {
  msg_ToEmails : list string;
  msg_Subject : string;
  msg_Body : string;
  msg_IsHTML : bool;
}.

Record AuditEvent := mkAuditEvent {
  ae_ID : string;
  ae_OccurredAt : Z;
  ae_ActorType : string;
  ae_ActorID : string;
  ae_Action : string;
  ae_ResourceType : string;
  ae_ResourceID : string;
  ae_Metadata : gmap string string;
}.

Record UserInfo := mkUserInfo {
  ui_Provider : string;
  ui_ID : string;
  ui_Email : string;
  ui_Username : string;
  ui_AvatarURL : string;
}.

Record ServerInfo := mkServerInfo {
  si_Version : string;
  si_Commit : string;
  si_BuildDate : string;
  si_SchemaVersion : Z;
  si_Capabilities : list string;
}.

(** ** internal/serviceaccount *)

Record Account := mkAccount {
  ac_ID : string;
  ac_Name : string;
  ac_Scopes : list string;
  ac_CreatedAt : Z;
  ac_DisabledAt : option Z;
}.

(** The zero Account a failing operation returns. *)
Definition Account_zero : Account := mkAccount "" "" [] time_zero None.

Record BootstrapRecord := mkBootstrapRecord {
  br_Account : Account;
  br_CredentialID : string;
  br_SecretHash : string;
}.

Record BootstrapRequest := mkBootstrapRequest {
  bq_Name : string;
  bq_Scopes : list string;
  bq_ClientID : string;
  bq_ClientSecret : string;
  bq_IfNotExists : bool;
  bq_Force : bool;
}.

Record BootstrapResult := mkBootstrapResult {
  bs_Account : Account;
  bs_ClientSecret : string;
  bs_Created : bool;
}.

(** ** internal/security: token claims *)

Abbreviation TokenType := string (only parsing).
Definition AccessTokenType : TokenType := "access".
Definition RefreshTokenType : TokenType := "refresh".
Definition ServiceTokenType : TokenType := "service".

Record StandardClaims := mkStandardClaims {
  sc_Issuer : string;
  sc_Subject : string;
  sc_ExpiresAt : option Z;
  sc_IssuedAt : option Z;
  sc_NotBefore : option Z;
  sc_RegisteredID : string;
  sc_UserID : string;
  sc_TokenType : TokenType;
  sc_TokenID : string;
  sc_ServiceAccountID : string;
  sc_Scopes : list string;
}.

(** ** internal/store/sqlite/sqlitedb: table rows *)

Record User := mkUser {
  u_ID : string;
  u_CreatedAt : Z;
  u_UpdatedAt : Z;
  u_DeletedAt : option Z;
  u_Email : string;
  u_HashedPassword : option string;
  u_Hash : option string;
  u_LastLoginAt : option Z;
}.

Record ExternalIdentity := mkExternalIdentity {
  ei_ID : string;
  ei_UserID : string;
  ei_Provider : string;
  ei_ProviderUserID : string;
  ei_CreatedAt : Z;
  ei_UpdatedAt : Z;
  ei_DeletedAt : option Z;
}.

Record ServiceAccount := mkServiceAccount {
  sa_ID : string;
  sa_Name : string;
  sa_Scopes : string;
  sa_CreatedAt : Z;
  sa_UpdatedAt : Z;
  sa_DisabledAt : option Z;
}.

Record ServiceAccountCredential := mkServiceAccountCredential {
  cr_ID : string;
  cr_ServiceAccountID : string;
  cr_SecretHash : string;
  cr_CreatedAt : Z;
  cr_ExpiresAt : option Z;
  cr_RevokedAt : option Z;
}.

Record SystemState := mkSystemState { ss_Key : string; ss_Value : string; ss_UpdatedAt : Z }.

Record AuditRow := mkAuditRow {
  ar_ID : string;
  ar_OccurredAt : Z;
  ar_ActorType : string;
  ar_ActorID : string;
  ar_Action : string;
  ar_ResourceType : string;
  ar_ResourceID : string;
  ar_Metadata : string;
}.

(** The database: each table is the list of its rows in insertion order. *)
Record DB := mkDB {
  db_users : list User;
  db_external_identities : list ExternalIdentity;
  db_service_accounts : list ServiceAccount;
  db_credentials : list ServiceAccountCredential;
  db_system_state : list SystemState;
  db_audit_events : list AuditRow;
}.

Definition empty_db : DB := mkDB [] [] [] [] [] [].

Definition set_users (l : list User) (d : DB) : DB :=
  mkDB l (db_external_identities d) (db_service_accounts d) (db_credentials d)
    (db_system_state d) (db_audit_events d).
Definition set_external_identities (l : list ExternalIdentity) (d : DB) : DB :=
  mkDB (db_users d) l (db_service_accounts d) (db_credentials d)
    (db_system_state d) (db_audit_events d).
Definition set_service_accounts (l : list ServiceAccount) (d : DB) : DB :=
  mkDB (db_users d) (db_external_identities d) l (db_credentials d)
    (db_system_state d) (db_audit_events d).
Definition set_credentials (l : list ServiceAccountCredential) (d : DB) : DB :=
  mkDB (db_users d) (db_external_identities d) (db_service_accounts d) l
    (db_system_state d) (db_audit_events d).
Definition set_system_state (l : list SystemState) (d : DB) : DB :=
  mkDB (db_users d) (db_external_identities d) (db_service_accounts d)
    (db_credentials d) l (db_audit_events d).
Definition set_audit_events (l : list AuditRow) (d : DB) : DB :=
  mkDB (db_users d) (db_external_identities d) (db_service_accounts d)
    (db_credentials d) (db_system_state d) l.

(** ** Protobuf messages shared by the handlers *)

Record Token := mkToken { tk_Value : string; tk_ExpiresAt : Z }.
Record TokenPair := mkTokenPair { tp_AccessToken : Token; tp_RefreshToken : Token }.

Inductive AuthProvider := AUTH_PROVIDER_UNSPECIFIED | AUTH_PROVIDER_GITHUB.

Inductive AuthProviderUnavailableReason :=
  | UNAVAILABLE_REASON_UNSPECIFIED
  | UNAVAILABLE_REASON_MISSING_CLIENT_ID
  | UNAVAILABLE_REASON_MISSING_CLIENT_SECRET.

Record AuthProviderStatus := mkAuthProviderStatus {
  aps_Provider : AuthProvider;
  aps_Enabled : bool;
  aps_UnavailableReason : AuthProviderUnavailableReason;
}.

Record OAuthUserProfile := mkOAuthUserProfile {
  oup_Username : string;
  oup_AvatarUrl : string;
  oup_Email : string;
}.

Record LinkedOAuthAccount := mkLinkedOAuthAccount {
  loa_Provider : AuthProvider;
  loa_ProviderUserId : string;
}.

Record ManagedUser := mkManagedUser {
  mu_Id : string;
  mu_Email : string;
  mu_PasswordLoginEnabled : bool;
  mu_CreatedAt : Z;
  mu_UpdatedAt : Z;
  mu_LastLoginAt : option Z;
}.

Record SigningKey := mkSigningKey {
  sk_KeyId : string;
  sk_Modulus : string;
  sk_Exponent : Z;
}.

(** The incoming request metadata, by (lower-case) key. *)
Record Ctx := mkCtx { ctx_metadata : list (string * list string) }.

Definition ValueFromIncomingContext (ctx : Ctx) (key : string) : list string :=
  match find (λ kv, bool_decide (kv.1 = key)) (ctx_metadata ctx) with
  | Some kv => kv.2
  | None => []
  end.
