(* ===== verification/Config.v ===== *)
(** * Configuration

    The settings of the server (internal/config): the keys, the records they are
    loaded into, the checks of Validate, the loaders, and the defaults and the
    set-up of the viper registry they are read from (internal/bootstrap).  Viper
    itself is the class [Viper]: a registry with three layers, the environment
    over the configuration file over the defaults, and the conversions of its
    getters. *)

From S2P Require Import Prelude GoStrings Paths Prog Host Data.
From Stdlib Require Import Ascii.
#[local] Open Scope Z_scope.

(** ** The records *)

Record RedisConfig := mkRedisConfig { rc_Urls : list string; rc_Password : string }.

Record SmtpConfig := mkSmtpConfig {
  mc_Host : string;
  mc_Port : Z;
  mc_Username : string;
  mc_Password : string;
  mc_FromEmail : string;
  mc_FromName : string;
  mc_StartTLS : bool;
  mc_AuthEnabled : bool;
}.

Record SqliteConfig := mkSqliteConfig { sl_Path : string }.

Record PersistenceConfig := mkPersistenceConfig { pc_Type : string; pc_SQLite : SqliteConfig }.

Record BootstrapConfig := mkBootstrapConfig {
  bc_Enabled : bool;
  bc_Name : string;
  bc_Scopes : list string;
  bc_ClientID : string;
  bc_ClientSecret : string;
}.

Record OAuthConfig := mkOAuthConfig {
  ocf_StateExpirationDuration : Z;
  ocf_GithubClientID : string;
  ocf_GithubClientSecret : string;
  ocf_FetchEmailIfMissing : bool;
}.

Record TokenConfig := mkTokenConfig {
  tkc_Issuer : string;
  tkc_AccessTokenExpiration : Z;
  tkc_RefreshTokenExpiration : Z;
  tkc_ServiceTokenExpiration : Z;
}.

Record AuthConfig := mkAuthConfig {
  auc_RSAPrivateKey : string;
  auc_RSAPrivateKeyFile : string;
  auc_OAuth : OAuthConfig;
  auc_Token : TokenConfig;
}.

Record GRPCConfig := mkGRPCConfig {
  gc_GRPCPort : Z;
  gc_Redis : RedisConfig;
  gc_SmtpMailer : SmtpConfig;
  gc_Persistence : PersistenceConfig;
  gc_Auth : AuthConfig;
  gc_Bootstrap : BootstrapConfig;
}.

(** ** Validation *)

Definition blank (s : string) : bool := (TrimSpace s == "")%go.
Definition wrapped_result {A} (msg : string) (r : result A) : result A :=
  match r with Ok a => Ok a | Err err => Err (fmt_Errorf msg err) end.
(** if cond { return errors.New(msg) } *)
Definition reject (cond : bool) (msg : string) : result unit :=
  if cond then Err (errors_New msg) else Ok tt.

Definition BootstrapConfig_Validate (c : BootstrapConfig) : result unit :=
  if negb (bc_Enabled c) then Ok tt else
  _ ← reject (blank (bc_Name c)) "service account name is required";
  _ ← reject (blank (bc_ClientID c)) "service account client ID is required";
  _ ← reject (Z.of_nat (String.length (TrimSpace (bc_ClientSecret c))) <? 32)
        "service account client secret must contain at least 32 characters";
  reject (Z.of_nat (length (bc_Scopes c)) =? 0) "at least one service account scope is required".

Definition AuthConfig_Validate (c : AuthConfig) : result unit :=
  _ ← reject (blank (auc_RSAPrivateKey c) && blank (auc_RSAPrivateKeyFile c))
        "RSA private key or RSA private key file is required";
  _ ← reject (ocf_StateExpirationDuration (auc_OAuth c) <? 0)
        "oauth state expiration cannot be negative";
  _ ← reject (blank (tkc_Issuer (auc_Token c))) "token issuer is required";
  _ ← reject (tkc_AccessTokenExpiration (auc_Token c) <=? 0)
        "access token expiration must be positive";
  _ ← reject (tkc_RefreshTokenExpiration (auc_Token c) <=? 0)
        "refresh token expiration must be positive";
  reject (tkc_ServiceTokenExpiration (auc_Token c) <=? 0)
    "service token expiration must be positive".

Definition SqliteConfig_Validate (c : SqliteConfig) : result unit :=
  reject (blank (sl_Path c)) "sqlite database path is required".

(** The switch on the type, shared with buildStores. *)
Definition repository_supported `{Unicode} (type : string) : bool :=
  let repoType := ToLower (TrimSpace type) in (repoType == "")%go || (repoType == "sqlite")%go.

Definition PersistenceConfig_Validate `{Unicode} (c : PersistenceConfig) : result unit :=
  if repository_supported (pc_Type c) then SqliteConfig_Validate (pc_SQLite c)
  else Err (errors_New ("unsupported persistence type " +:+ Quote (pc_Type c))).

Definition validateRedis (cfg : RedisConfig) : result unit :=
  _ ← reject (Z.of_nat (length (rc_Urls cfg)) =? 0) "at least one redis url is required";
  reject (existsb blank (rc_Urls cfg)) "redis urls cannot contain empty values".

Definition validateMailer (cfg : SmtpConfig) : result unit :=
  if blank (mc_Host cfg) then Ok tt else
  if mc_Port cfg =? 0 then Err (errors_New "smtp port is required")
  else if (mc_Port cfg <? 0) || (65535 <? mc_Port cfg)
  then Err (errors_New "smtp port must be between 1 and 65535")
  else if mc_AuthEnabled cfg && blank (mc_Username cfg)
  then Err (errors_New "smtp username is required")
  else if mc_AuthEnabled cfg && blank (mc_Password cfg)
  then Err (errors_New "smtp password is required")
  else if blank (mc_FromEmail cfg) then Err (errors_New "smtp from email is required")
  else Ok tt.

Definition GRPCConfig_Validate `{Unicode} (c : GRPCConfig) : result unit :=
  _ ← reject (gc_GRPCPort c =? 0) "grpc port is required";
  _ ← wrapped_result "redis config" (validateRedis (gc_Redis c));
  _ ← wrapped_result "smtp mailer config" (validateMailer (gc_SmtpMailer c));
  _ ← wrapped_result "persistence config" (PersistenceConfig_Validate (gc_Persistence c));
  _ ← wrapped_result "auth config" (AuthConfig_Validate (gc_Auth c));
  wrapped_result "bootstrap config" (BootstrapConfig_Validate (gc_Bootstrap c)).

(** ** Keys *)

Definition GRPCPortKey : string := "grpc_port".
Definition AuthRSAPrivateKeyKey : string := "auth.rsa_private_key".
Definition AuthRSAPrivateKeyFileKey : string := "auth.rsa_private_key_file".
Definition AuthOAuthStateExpirationKey : string := "auth.oauth_state_expiration".
Definition AuthAccessTokenExpirationKey : string := "auth.access_token_expiration".
Definition AuthRefreshTokenExpirationKey : string := "auth.refresh_token_expiration".
Definition AuthServiceTokenExpirationKey : string := "auth.service_token_expiration".
Definition AuthTokenIssuerKey : string := "auth.token_issuer".
Definition AuthOAuthFetchEmailIfMissingKey : string := "auth.oauth.fetch_email_if_missing".
Definition AuthGithubClientIDKey : string := "auth.github.client_id".
Definition AuthGithubClientSecretKey : string := "auth.github.client_secret".
Definition BootstrapServiceAccountEnabledKey : string := "bootstrap.service_account.enabled".
Definition BootstrapServiceAccountNameKey : string := "bootstrap.service_account.name".
Definition BootstrapServiceAccountClientIDKey : string := "bootstrap.service_account.client_id".
Definition BootstrapServiceAccountClientSecretKey : string := "bootstrap.service_account.client_secret".
Definition BootstrapServiceAccountScopesKey : string := "bootstrap.service_account.scopes".
Definition PersistenceTypeKey : string := "persistence.type".
Definition PersistenceSQLitePathKey : string := "persistence.sqlite.path".
Definition RedisUrlsKey : string := "redis.urls".
Definition RedisPasswordKey : string := "redis.password".
Definition SmtpMailerHostKey : string := "smtp_mailer.host".
Definition SmtpMailerPortKey : string := "smtp_mailer.port".
Definition SmtpMailerUsernameKey : string := "smtp_mailer.username".
Definition SmtpMailerPasswordKey : string := "smtp_mailer.password".
Definition SmtpMailerFromEmailKey : string := "smtp_mailer.from_email".
Definition SmtpMailerFromNameKey : string := "smtp_mailer.from_name".
Definition SmtpMailerStartTLSKey : string := "smtp_mailer.start_tls".
Definition SmtpMailerAuthEnabledKey : string := "smtp_mailer.auth_enabled".

(** internal/bootstrap/log.go. *)
Definition configKeyLogLevel : string := "log.level".
Definition configKeyLogFormat : string := "log.format".
Definition logFormatJSON : string := "json".
Definition logFormatPlainText : string := "plain-text".
Definition logFormatTint : string := "tint".

(** ** The registry

    github.com/spf13/viper, with spf13/cast for the conversions.  [v_default],
    [v_file], [v_auto] and [v_replacer] observe what was set; [v_get] is the value
    a getter finds, before its conversion. *)

Inductive VValue := VString (s : string) | VInt (z : Z) | VBool (b : bool) | VStrings (l : list string).

(** The error of ReadInConfig, which tells a missing file from the others. *)
Inductive read_outcome := ReadOk | ReadNotFound | ReadFailed (err : error).

Definition ascii_upper (c : ascii) : ascii :=
  if ((97 <=? byte_val c) && (byte_val c <=? 122))%N then ascii_of_N (byte_val c - 32) else c.

(** The environment variable of a key: upper case, after the replacements. *)
Definition env_name (replacer : ascii * ascii) (key : string) : string :=
  l2s ((λ c, ascii_upper (if bool_decide (c = replacer.1) then replacer.2 else c)) <$> s2l key).

(** time.ParseDuration of a sequence of whole numbers with units. *)
Definition unit_of (u : string) : option Z :=
  if (u == "ns")%go then Some 1 else if (u == "us")%go then Some 1000
  else if (u == "ms")%go then Some time_Millisecond else if (u == "s")%go then Some time_Second
  else if (u == "m")%go then Some time_Minute else if (u == "h")%go then Some time_Hour else None.

Fixpoint span (p : ascii → bool) (l : list ascii) : list ascii * list ascii :=
  match l with
  | [] => ([], [])
  | c :: l' => if p c then let '(a, b) := span p l' in (c :: a, b) else ([], l)
  end.

Definition is_digit (c : ascii) : bool := negb (is_None (digit_val c)).

Fixpoint durations (fuel : nat) (l : list ascii) : option Z :=
  match fuel, l with
  | _, [] => Some 0
  | O, _ => None
  | S f, _ =>
      let '(ds, l1) := span is_digit l in
      let '(us, l2) := span (λ c, negb (is_digit c)) l1 in
      match ds with
      | [] => None
      | _ => n ← parse_digits 0 ds; k ← unit_of (l2s us); rest ← durations f l2; Some (n * k + rest)
      end
  end.
Definition ParseDuration (s : string) : option Z :=
  if (s == "")%go then None else durations (String.length s) (s2l s).

Class Viper `{OS} := {
  viper : Type;
  viper_New : viper;
  v_SetDefault : string → VValue → viper → viper;
  (* AddConfigPath, SetConfigName and ReadInConfig, on the file system *)
  v_ReadInConfig : string → string → Host → viper → read_outcome * viper;
  v_AutomaticEnv : viper → viper;
  v_SetEnvKeyReplacer : ascii → ascii → viper → viper;
  v_get : viper → string → option VValue;

  v_default : viper → string → option VValue;
  v_file : viper → string → option VValue;
  v_auto : viper → bool;
  v_replacer : viper → option (ascii * ascii);

  cast_ToString : option VValue → string;
  cast_ToBool : option VValue → bool;
  cast_ToInt : option VValue → Z;
  cast_ToUint : option VValue → Z;
  cast_ToDuration : option VValue → Z;
  cast_ToStringSlice : option VValue → list string;

  v_New_empty k : v_default viper_New k = None ∧ v_file viper_New k = None;
  v_SetDefault_spec k x v k' :
    v_default (v_SetDefault k x v) k' = (if decide (k = k') then Some x else v_default v k') ∧
    v_file (v_SetDefault k x v) k' = v_file v k';
  v_ReadInConfig_default path name h v k :
    v_default (v_ReadInConfig path name h v).2 k = v_default v k;
  v_ReadInConfig_missing path name h v k :
    (v_ReadInConfig path name h v).1 = ReadNotFound →
    v_file (v_ReadInConfig path name h v).2 k = v_file v k;
  v_AutomaticEnv_spec v k :
    v_auto (v_AutomaticEnv v) = true ∧ v_default (v_AutomaticEnv v) k = v_default v k ∧
    v_file (v_AutomaticEnv v) k = v_file v k;
  v_SetEnvKeyReplacer_spec a b v k :
    v_replacer (v_SetEnvKeyReplacer a b v) = Some (a, b) ∧
    v_auto (v_SetEnvKeyReplacer a b v) = v_auto v ∧
    v_default (v_SetEnvKeyReplacer a b v) k = v_default v k ∧
    v_file (v_SetEnvKeyReplacer a b v) k = v_file v k;
  (* an empty variable counts as unset *)
  v_get_spec v r key :
    v_auto v = true → v_replacer v = Some r →
    v_get v key = if (os_env (env_name r key) == "")%go
                  then match v_file v key with Some x => Some x | None => v_default v key end
                  else Some (VString (os_env (env_name r key)));

  cast_unset :
    cast_ToString None = "" ∧ cast_ToBool None = false ∧ cast_ToInt None = 0 ∧
    cast_ToUint None = 0 ∧ cast_ToDuration None = 0 ∧ cast_ToStringSlice None = [];
  cast_ToString_spec s : cast_ToString (Some (VString s)) = s;
  cast_ToBool_spec b : cast_ToBool (Some (VBool b)) = b;
  cast_ToUint_spec z : 0 ≤ z → cast_ToUint (Some (VInt z)) = z;
  cast_ToDuration_spec s d : ParseDuration s = Some d → cast_ToDuration (Some (VString s)) = d;
  cast_ToStringSlice_spec l : cast_ToStringSlice (Some (VStrings l)) = l;
  cast_ToStringSlice_text s : cast_ToStringSlice (Some (VString s)) = Fields s;
}.

Section loading.
Context `{V : Viper}.
Implicit Types v : viper.

Definition GetString v key := cast_ToString (v_get v key).
Definition GetBool v key := cast_ToBool (v_get v key).
Definition GetInt v key := cast_ToInt (v_get v key).
Definition GetUint v key := cast_ToUint (v_get v key).
Definition GetDuration v key := cast_ToDuration (v_get v key).
Definition GetStringSlice v key := cast_ToStringSlice (v_get v key).

(** ** Loading *)

Definition comma : ascii := ",".

Definition getStringSlice v (key : string) : list string :=
  let values := GetStringSlice v key in
  match values with
  | [value] =>
      let parts := Split value comma in
      if (Z.of_nat (length parts) =? 1) then values
      else filter (λ trimmed, trimmed ≠ "") (TrimSpace <$> parts)
  | _ => values
  end.

Definition LoadPersistence v : PersistenceConfig :=
  mkPersistenceConfig (GetString v PersistenceTypeKey)
    (mkSqliteConfig (GetString v PersistenceSQLitePathKey)).

Definition LoadGRPC v : GRPCConfig := {|
  gc_GRPCPort := GetUint v GRPCPortKey;
  gc_SmtpMailer := {|
    mc_Host := GetString v SmtpMailerHostKey;
    mc_Port := GetInt v SmtpMailerPortKey;
    mc_Username := GetString v SmtpMailerUsernameKey;
    mc_Password := GetString v SmtpMailerPasswordKey;
    mc_FromEmail := GetString v SmtpMailerFromEmailKey;
    mc_FromName := GetString v SmtpMailerFromNameKey;
    mc_StartTLS := GetBool v SmtpMailerStartTLSKey;
    mc_AuthEnabled := GetBool v SmtpMailerAuthEnabledKey;
  |};
  gc_Persistence := LoadPersistence v;
  gc_Redis := {|
    rc_Urls := getStringSlice v RedisUrlsKey;
    rc_Password := GetString v RedisPasswordKey;
  |};
  gc_Auth := {|
    auc_RSAPrivateKey := GetString v AuthRSAPrivateKeyKey;
    auc_RSAPrivateKeyFile := GetString v AuthRSAPrivateKeyFileKey;
    auc_OAuth := {|
      ocf_StateExpirationDuration := GetDuration v AuthOAuthStateExpirationKey;
      ocf_GithubClientID := GetString v AuthGithubClientIDKey;
      ocf_GithubClientSecret := GetString v AuthGithubClientSecretKey;
      ocf_FetchEmailIfMissing := GetBool v AuthOAuthFetchEmailIfMissingKey;
    |};
    auc_Token := {|
      tkc_Issuer := GetString v AuthTokenIssuerKey;
      tkc_AccessTokenExpiration := GetDuration v AuthAccessTokenExpirationKey;
      tkc_RefreshTokenExpiration := GetDuration v AuthRefreshTokenExpirationKey;
      tkc_ServiceTokenExpiration := GetDuration v AuthServiceTokenExpirationKey;
    |};
  |};
  gc_Bootstrap := {|
    bc_Enabled := GetBool v BootstrapServiceAccountEnabledKey;
    bc_Name := GetString v BootstrapServiceAccountNameKey;
    bc_ClientID := GetString v BootstrapServiceAccountClientIDKey;
    bc_ClientSecret := GetString v BootstrapServiceAccountClientSecretKey;
    bc_Scopes := getStringSlice v BootstrapServiceAccountScopesKey;
  |};
|}.

(** ** Setting the registry up *)

(** The SetDefault calls, in order. *)
Definition config_defaults : list (string * VValue) :=
  [("grpc_port", VInt 50051);
   (configKeyLogLevel, VString "info");
   (configKeyLogFormat, VString logFormatTint);
   ("auth.oauth_state_expiration", VString "10m");
   ("auth.access_token_expiration", VString "15m");
   ("auth.refresh_token_expiration", VString "168h");
   ("auth.service_token_expiration", VString "15m");
   ("auth.token_issuer", VString "identra");
   ("auth.rsa_private_key_file", VString "data/signing-key.pem");
   ("auth.oauth.fetch_email_if_missing", VBool false);
   ("bootstrap.service_account.enabled", VBool false);
   ("bootstrap.service_account.name", VString "platform-admin");
   ("bootstrap.service_account.scopes", VStrings ["identra.admin"]);
   ("redis.urls", VStrings ["localhost:6379"]);
   ("smtp_mailer.start_tls", VBool true);
   ("smtp_mailer.auth_enabled", VBool true);
   ("persistence.type", VString "sqlite");
   ("persistence.sqlite.path", VString "data/users.db")].

Definition applyConfigDefaults v : viper :=
  fold_left (λ v d, v_SetDefault d.1 d.2 v) config_defaults v.

Definition configName : string := "config".

Definition initConfig (configPath : string) : HostM (result viper) :=
  let v := applyConfigDefaults viper_New in
  read ← act (λ h, (v_ReadInConfig configPath configName h v, h_tick h));
  match read with
  | (ReadFailed err, _) => Ret (Err (fmt_Errorf "failed to read config" err))
  | (_, v) => Ret (Ok (v_SetEnvKeyReplacer "."%char "_"%char (v_AutomaticEnv v)))
  end.
End loading.

(** ** Validation, as a specification *)

Record valid_redis (c : RedisConfig) : Prop := {
  vr_some : rc_Urls c ≠ [];
  vr_urls : Forall (λ url, blank url = false) (rc_Urls c);
}.

(** An empty host turns delivery off. *)
Definition valid_mailer (c : SmtpConfig) : Prop :=
  blank (mc_Host c) = false →
  1 ≤ mc_Port c ≤ 65535 ∧ blank (mc_FromEmail c) = false ∧
  (mc_AuthEnabled c = true → blank (mc_Username c) = false ∧ blank (mc_Password c) = false).

Record valid_auth (c : AuthConfig) : Prop := {
  va_key : blank (auc_RSAPrivateKey c) = false ∨ blank (auc_RSAPrivateKeyFile c) = false;
  va_state : 0 ≤ ocf_StateExpirationDuration (auc_OAuth c);
  va_issuer : blank (tkc_Issuer (auc_Token c)) = false;
  va_access : 0 < tkc_AccessTokenExpiration (auc_Token c);
  va_refresh : 0 < tkc_RefreshTokenExpiration (auc_Token c);
  va_service : 0 < tkc_ServiceTokenExpiration (auc_Token c);
}.

Definition valid_bootstrap (c : BootstrapConfig) : Prop :=
  bc_Enabled c = true →
  blank (bc_Name c) = false ∧ blank (bc_ClientID c) = false ∧
  32 ≤ Z.of_nat (String.length (TrimSpace (bc_ClientSecret c))) ∧ bc_Scopes c ≠ [].

Record valid_config `{Unicode} (c : GRPCConfig) : Prop := {
  vc_port : gc_GRPCPort c ≠ 0;
  vc_redis : valid_redis (gc_Redis c);
  vc_mailer : valid_mailer (gc_SmtpMailer c);
  vc_persistence : repository_supported (pc_Type (gc_Persistence c)) = true ∧
                   blank (sl_Path (pc_SQLite (gc_Persistence c))) = false;
  vc_auth : valid_auth (gc_Auth c);
  vc_bootstrap : valid_bootstrap (gc_Bootstrap c);
}.

Lemma reject_Ok b msg : reject b msg = Ok tt ↔ b = false.
Proof. by destruct b. Qed.

Lemma seq_Ok (r r' : result unit) : (_ ← r; r') = Ok tt ↔ r = Ok tt ∧ r' = Ok tt.
Proof. destruct r as [[]|]; naive_solver. Qed.

Lemma wrapped_Ok msg (r : result unit) : wrapped_result msg r = Ok tt ↔ r = Ok tt.
Proof. by destruct r as [[]|]. Qed.

#[local] Hint Rewrite reject_Ok seq_Ok wrapped_Ok : valid.

Lemma length_zero {A} (l : list A) : (Z.of_nat (length l) =? 0) = false ↔ l ≠ [].
Proof. by destruct l. Qed.

Lemma validateRedis_valid c : validateRedis c = Ok tt ↔ valid_redis c.
Proof.
  unfold validateRedis. autorewrite with valid. rewrite length_zero, existsb_false.
  split; [intros [H1 H2]|intros [H1 H2]]; (split; [done|]); by apply Forall_forall.
Qed.

Lemma validateMailer_valid c : validateMailer c = Ok tt ↔ valid_mailer c.
Proof.
  unfold validateMailer, valid_mailer. destruct (blank (mc_Host c)); [done|].
  destruct (Z.eqb_spec (mc_Port c) 0) as [->|H0]; [naive_solver lia|].
  destruct (Z.ltb_spec (mc_Port c) 0); [naive_solver lia|].
  destruct (Z.ltb_spec 65535 (mc_Port c)); [naive_solver lia|]. cbn [orb].
  destruct (mc_AuthEnabled c), (blank (mc_Username c)), (blank (mc_Password c)),
    (blank (mc_FromEmail c)); cbn [andb]; naive_solver lia.
Qed.

Lemma AuthConfig_valid c : AuthConfig_Validate c = Ok tt ↔ valid_auth c.
Proof.
  unfold AuthConfig_Validate. autorewrite with valid.
  rewrite Z.ltb_ge, !Z.leb_gt, andb_false_iff. split; [|by intros []].
  intros (H1 & H2 & H3 & H4 & H5 & H6). by constructor.
Qed.

Lemma BootstrapConfig_valid c : BootstrapConfig_Validate c = Ok tt ↔ valid_bootstrap c.
Proof.
  unfold BootstrapConfig_Validate, valid_bootstrap. destruct (bc_Enabled c); [|done]. cbn [negb].
  autorewrite with valid. rewrite Z.ltb_ge, length_zero. naive_solver.
Qed.

Lemma PersistenceConfig_valid `{Unicode} c :
  PersistenceConfig_Validate c = Ok tt ↔
    repository_supported (pc_Type c) = true ∧ blank (sl_Path (pc_SQLite c)) = false.
Proof.
  unfold PersistenceConfig_Validate, SqliteConfig_Validate.
  destruct (repository_supported _); autorewrite with valid; naive_solver.
Qed.

Lemma GRPCConfig_valid `{Unicode} c : GRPCConfig_Validate c = Ok tt ↔ valid_config c.
Proof.
  unfold GRPCConfig_Validate. autorewrite with valid.
  rewrite Z.eqb_neq, validateRedis_valid, validateMailer_valid, PersistenceConfig_valid,
    AuthConfig_valid, BootstrapConfig_valid.
  split; [|by intros []]. intros (H1 & H2 & H3 & H4 & H5 & H6). by constructor.
Qed.

(** C37.  GRPCConfig.Validate succeeds for exactly these configurations: a gRPC port
    other than 0; at least one Redis URL and none blank; a mail host that is blank
    (no mail), or with it a port from 1 to 65535, a sender that is not blank and,
    when authentication is on, a user name and a password that are not blank; a
    supported repository with a database path that is not blank; a signing key or a
    key file; an OAuth state expiration that is not negative; a token issuer that is
    not blank; positive lifetimes of access, refresh and service tokens; and, when
    the bootstrap is enabled, a name and a client identifier that are not blank, a
    secret of at least 32 bytes without the white space around it, and at least one
    scope.  It looks no further: a key that does not parse, or a scope that is not
    one, is only found when the server starts. *)
Theorem GRPCConfig_Validate_spec `{Unicode} c : GRPCConfig_Validate c = Ok tt ↔ valid_config c.
Proof. apply GRPCConfig_valid. Qed.

(** ** Loading *)

Section loading_spec.
Context `{V : Viper}.
Implicit Types v : viper.

(** What initConfig leaves: the defaults, under the file and the environment. *)
Lemma initConfig_Ok_inv path h v h' :
  run (initConfig path) h = (Ok v, h') →
  v_auto v = true ∧ v_replacer v = Some ("."%char, "_"%char) ∧
  (∀ k, v_default v k = v_default (applyConfigDefaults viper_New) k) ∧
  ((v_ReadInConfig path configName h (applyConfigDefaults viper_New)).1 = ReadNotFound →
   ∀ k, v_file v k = v_file (applyConfigDefaults viper_New) k).
Proof.
  unfold initConfig. rewrite run_mbind. cbn [run act].
  pose proof (v_ReadInConfig_default path configName h (applyConfigDefaults viper_New)) as Hd.
  pose proof (v_ReadInConfig_missing path configName h (applyConfigDefaults viper_New)) as Hm.
  destruct (v_ReadInConfig path configName h _) as [o v0]. cbn [fst snd] in *.
  assert (∀ k, let v' := v_SetEnvKeyReplacer "."%char "_"%char (v_AutomaticEnv v0) in
    v_auto v' = true ∧ v_replacer v' = Some ("."%char, "_"%char) ∧
    v_default v' k = v_default v0 k ∧ v_file v' k = v_file v0 k) as Hset.
  { intros k v'. unfold v'.
    destruct (v_SetEnvKeyReplacer_spec "."%char "_"%char (v_AutomaticEnv v0) k) as (-> & -> & -> & ->).
    by destruct (v_AutomaticEnv_spec v0 k) as (-> & -> & ->). }
  destruct o; cbn; intros [= <- <-]; destruct (Hset "") as (-> & -> & _);
    (split_and!; [done|done|intros k; destruct (Hset k) as (_ & _ & -> & _); apply Hd|]);
    [done|]; intros _ k; destruct (Hset k) as (_ & _ & _ & ->); by apply Hm.
Qed.

Definition find_default (k : string) : option VValue :=
  snd <$> List.find (λ d, bool_decide (d.1 = k)) config_defaults.

Lemma applyConfigDefaults_file k : v_file (applyConfigDefaults viper_New) k = None.
Proof.
  unfold applyConfigDefaults. generalize (proj2 (v_New_empty k)).
  generalize viper_New as v. induction config_defaults as [|d l IH]; intros v Hv; [done|].
  cbn [fold_left]. apply IH. by rewrite (proj2 (v_SetDefault_spec d.1 d.2 v k)).
Qed.

Lemma applyConfigDefaults_default k : v_default (applyConfigDefaults viper_New) k = find_default k.
Proof.
  unfold applyConfigDefaults, find_default, config_defaults. cbn [fold_left fst snd].
  do 18 rewrite (proj1 (v_SetDefault_spec _ _ _ k)). rewrite (proj1 (v_New_empty k)).
  cbn [List.find fst snd]. repeat (case_decide; [subst; reflexivity|]).
  by rewrite !bool_decide_eq_false_2 by done.
Qed.

(** The value of a key: the environment, then the default. *)
Lemma v_get_no_file path h v h' key :
  run (initConfig path) h = (Ok v, h') →
  (v_ReadInConfig path configName h (applyConfigDefaults viper_New)).1 = ReadNotFound →
  os_env (env_name ("."%char, "_"%char) key) = "" →
  v_get v key = find_default key.
Proof.
  intros Hrun Hfile Henv. destruct (initConfig_Ok_inv _ _ _ _ Hrun) as (Ha & Hr & Hd & Hf).
  rewrite (v_get_spec v _ key Ha Hr), Henv, bool_decide_eq_true_2 by done.
  by rewrite (Hf Hfile), applyConfigDefaults_file, Hd, applyConfigDefaults_default.
Qed.
End loading_spec.

(** What docs/CONFIGURATION.md lists. *)
Definition default_config : GRPCConfig :=
  mkGRPCConfig 50051 (mkRedisConfig ["localhost:6379"] "")
    (mkSmtpConfig "" 0 "" "" "" "" true true)
    (mkPersistenceConfig "sqlite" (mkSqliteConfig "data/users.db"))
    (mkAuthConfig "" "data/signing-key.pem" (mkOAuthConfig (10 * time_Minute) "" "" false)
      (mkTokenConfig "identra" (15 * time_Minute) (168 * time_Hour) (15 * time_Minute)))
    (mkBootstrapConfig false "platform-admin" ["identra.admin"] "" "").

Lemma Join_plain l :
  l ≠ [] → Forall (λ s, s ≠ "" ∧ plain_string s ∧ no_sep comma s) l →
  Join l "," ≠ "" ∧ plain_string (Join l ",").
Proof.
  intros Hl. induction 1 as [|s l (Hne & Hs & _) _ IH]; [done|].
  destruct l as [|t l]; [done|]. destruct (IH ltac:(done)) as [_ Hj].
  rewrite (Join_cons comma). split; [by destruct s|].
  apply plain_app; [done|]. apply plain_app; [|done]. by repeat constructor.
Qed.

Lemma filter_TrimSpace_plain l :
  Forall (λ s, s ≠ "" ∧ plain_string s) l →
  filter (λ trimmed, trimmed ≠ "") (TrimSpace <$> l) = l.
Proof.
  induction 1 as [|s l [Hne Hs] _ IH]; [done|]. cbn [fmap list_fmap].
  rewrite TrimSpace_plain, filter_cons_True by done. by f_equal.
Qed.

Section loading_theorems.
Context `{V : Viper}.

(** With no configuration file and no environment variable set, the server
    loads the documented defaults: gRPC port 50051, Redis at localhost:6379, SQLite
    in data/users.db, the key in data/signing-key.pem, 15-minute tokens, one week of
    refresh, mail and bootstrap off; and it accepts them. *)
Theorem LoadGRPC_defaults `{Unicode} path h v h'
    (Hrun : run (initConfig path) h = (Ok v, h'))
    (Hfile : (v_ReadInConfig path configName h (applyConfigDefaults viper_New)).1 = ReadNotFound)
    (Henv : ∀ key, os_env (env_name ("."%char, "_"%char) key) = "") :
  LoadGRPC v = default_config ∧ GRPCConfig_Validate (LoadGRPC v) = Ok tt.
Proof.
  assert (∀ key, v_get v key = find_default key) as Hget by (intros; by eapply v_get_no_file).
  destruct cast_unset as (Hs & Hb & Hi & _).
  assert (LoadGRPC v = default_config) as ->; [|split; [done|by vm_compute]].
  unfold LoadGRPC, LoadPersistence, getStringSlice, GetString, GetBool, GetInt, GetUint,
    GetDuration, GetStringSlice. rewrite !Hget.
  repeat match goal with |- context [find_default ?k] =>
    let x := eval vm_compute in (find_default k) in change (find_default k) with x end.
  rewrite !cast_ToString_spec, !cast_ToBool_spec, !cast_ToStringSlice_spec, Hs, Hi.
  rewrite cast_ToUint_spec by done.
  rewrite (cast_ToDuration_spec "10m" (10 * time_Minute)) by (by vm_compute).
  rewrite (cast_ToDuration_spec "15m" (15 * time_Minute)) by (by vm_compute).
  by rewrite (cast_ToDuration_spec "168h" (168 * time_Hour)) by (by vm_compute).
Qed.

(** A list given in one environment variable, its elements joined with
    commas (REDIS_URLS=host1:6379,host2:6379), is loaded as that list. *)
Theorem getStringSlice_env path h v h' key l
    (Hrun : run (initConfig path) h = (Ok v, h'))
    (Henv : os_env (env_name ("."%char, "_"%char) key) = Join l ",")
    (Hl : l ≠ []) (Hplain : Forall (λ s, s ≠ "" ∧ plain_string s ∧ no_sep comma s) l) :
  getStringSlice v key = l.
Proof.
  destruct (initConfig_Ok_inv _ _ _ _ Hrun) as (Ha & Hr & _).
  assert (Join l "," ≠ "" ∧ plain_string (Join l ",")) as [Hne Hj] by (by apply Join_plain).
  unfold getStringSlice, GetStringSlice. rewrite (v_get_spec v _ key Ha Hr), Henv.
  rewrite bool_decide_eq_false_2, cast_ToStringSlice_text, Fields_plain by done.
  rewrite (Split_Join comma) by (done || by eapply Forall_impl; [exact Hplain|naive_solver]).
  destruct l as [|s [|t l]]; [done|done|]. cbn [length].
  destruct (Z.eqb_spec (Z.of_nat (S (S (length l)))) 1) as [|_]; [lia|].
  apply filter_TrimSpace_plain. by eapply Forall_impl; [exact Hplain|naive_solver].
Qed.

(** A space after the comma is not allowed for: the text is then more than one
    field, and its elements keep their commas. *)
Lemma getStringSlice_comma_space path h v h' key :
  run (initConfig path) h = (Ok v, h') →
  os_env (env_name ("."%char, "_"%char) key) = "a:1, b:2" →
  getStringSlice v key = ["a:1,"; "b:2"].
Proof.
  intros Hrun Henv. destruct (initConfig_Ok_inv _ _ _ _ Hrun) as (Ha & Hr & _).
  unfold getStringSlice, GetStringSlice. rewrite (v_get_spec v _ key Ha Hr), Henv.
  rewrite bool_decide_eq_false_2, cast_ToStringSlice_text by done.
  by replace (Fields "a:1, b:2") with ["a:1,"; "b:2"] by (by vm_compute).
Qed.
End loading_theorems.

(** ** Closed instances *)

(** A registry that finds no configuration file. *)
Record RefViper := mkRefViper {
  rv_default : list (string * VValue);
  rv_auto : bool;
  rv_replacer : option (ascii * ascii);
}.

Definition rv_find (k : string) (l : list (string * VValue)) : option VValue :=
  snd <$> List.find (λ d, bool_decide (d.1 = k)) l.

Definition ref_get `{OS} (v : RefViper) (k : string) : option VValue :=
  match rv_replacer v with
  | Some r => if (os_env (env_name r k) == "")%go then rv_find k (rv_default v)
              else Some (VString (os_env (env_name r k)))
  | None => rv_find k (rv_default v)
  end.
Definition ref_ToString (o : option VValue) : string :=
  match o with Some (VString s) => s | Some (VInt z) => Itoa z | _ => "" end.
Definition ref_ToBool (o : option VValue) : bool :=
  match o with Some (VBool b) => b | Some (VString s) => (s == "true")%go | _ => false end.
Definition ref_ToInt (o : option VValue) : Z :=
  match o with Some (VInt z) => z | Some (VString s) => default 0 (Atoi s) | _ => 0 end.
Definition ref_ToDuration (o : option VValue) : Z :=
  match o with Some (VString s) => default 0 (ParseDuration s) | Some (VInt z) => z | _ => 0 end.
Definition ref_ToStringSlice (o : option VValue) : list string :=
  match o with Some (VString s) => Fields s | Some (VStrings l) => l | _ => [] end.

Program Definition ref_viper `{O : OS} : Viper := {|
  viper := RefViper;
  viper_New := mkRefViper [] false None;
  v_SetDefault k x v := mkRefViper ((k, x) :: rv_default v) (rv_auto v) (rv_replacer v);
  v_ReadInConfig _ _ _ v := (ReadNotFound, v);
  v_AutomaticEnv v := mkRefViper (rv_default v) true (rv_replacer v);
  v_SetEnvKeyReplacer a b v := mkRefViper (rv_default v) (rv_auto v) (Some (a, b));
  v_get := ref_get;
  v_default v k := rv_find k (rv_default v);
  v_file _ _ := None;
  v_auto := rv_auto;
  v_replacer := rv_replacer;
  cast_ToString := ref_ToString;
  cast_ToBool := ref_ToBool;
  cast_ToInt := ref_ToInt;
  cast_ToUint := ref_ToInt;
  cast_ToDuration := ref_ToDuration;
  cast_ToStringSlice := ref_ToStringSlice;
|}.
Next Obligation. done. Qed.
Next Obligation.
  intros O k x v k'. unfold rv_find. cbn. split; [|done].
  destruct (decide (k = k')); [by rewrite bool_decide_eq_true_2|by rewrite bool_decide_eq_false_2].
Qed.
Next Obligation. done. Qed.
Next Obligation. done. Qed.
Next Obligation. done. Qed.
Next Obligation. done. Qed.
Next Obligation. intros O v r key _ Hr. unfold ref_get. cbn in *. by rewrite Hr. Qed.
Next Obligation. done. Qed.
Next Obligation. done. Qed.
Next Obligation. done. Qed.
Next Obligation. done. Qed.
Next Obligation. intros O s d Hd. cbn. by rewrite Hd. Qed.
Next Obligation. done. Qed.
Next Obligation. done. Qed.

(** Two Redis nodes in the environment. *)
Definition two_nodes : OS :=
  ref_os (λ _, None) (λ k, if (k == "REDIS_URLS")%go then "redis-1:6379,redis-2:6379" else "").

Section instances.
#[local] Existing Instance ref_viper.

Lemma LoadGRPC_defaults_witness :
  LoadGRPC (V:=ref_viper (O:=calm_os))
    (v_SetEnvKeyReplacer "."%char "_"%char (v_AutomaticEnv (applyConfigDefaults viper_New)))
    = default_config.
Proof.
  assert (Unicode) as U by (split; [exact id|exact String.eqb|exact id]).
  exact (proj1 (LoadGRPC_defaults (V:=ref_viper (O:=calm_os)) "." empty_host _ _ eq_refl eq_refl
    (λ _, eq_refl))).
Defined.

Lemma getStringSlice_env_witness :
  getStringSlice (V:=ref_viper (O:=two_nodes))
    (v_SetEnvKeyReplacer "."%char "_"%char (v_AutomaticEnv (applyConfigDefaults viper_New)))
    RedisUrlsKey = ["redis-1:6379"; "redis-2:6379"].
Proof.
  apply (getStringSlice_env (V:=ref_viper (O:=two_nodes)) "." empty_host _ (h_tick empty_host));
    [done|by vm_compute|done|].
  apply (bool_decide_unpack _). by vm_compute.
Defined.
End instances.
