(* ===== verification/AppInit.v ===== *)
(** * Initialising the process, internal/bootstrap

    Where the configuration is looked for (init.go), what is set up from it
    (config.go, log.go), what is logged of it (config_log.go), and the attributes
    the log handler adds to every record.  Formatting a record is left to the
    handlers of log/slog and tint. *)

From S2P Require Import Prelude GoStrings Paths Prog Host Data Config.
From Stdlib Require Import Ascii.
#[local] Open Scope Z_scope.

(** ** Finding the configuration *)

Section find_root.
Context `{HO : OS}.

(** The loop of findRootWorkdir, with fuel; [None] when it runs out. *)
Fixpoint find_root (fuel : nat) (start dir : string) : HostM (option string) :=
  match fuel with
  | O => Ret None
  | S fuel =>
      found ← os_Stat (Join2 dir (configName +:+ ".toml"));
      match found with
      | Ok _ => Ret (Some dir)
      | Err _ =>
          let parent := Dir dir in
          if (parent == dir)%go then Ret (Some (Clean start)) else find_root fuel start parent
      end
  end.

(** One turn for the directory and one for each directory above it. *)
Definition findRootWorkdir (start : string) : HostM (option string) :=
  find_root (S (length (components start))) start (Clean start).

(** A configuration file, or anything else of that name, is there. *)
Definition has_config (h : Host) (dir : string) : bool :=
  is_dir h (Join2 dir (configName +:+ ".toml")) ||
  negb (is_None (file_at h (Join2 dir (configName +:+ ".toml")))).

(** The directory [k] levels above a cleaned one. *)
Definition above (root : bool) (cs : list string) (k : nat) : string :=
  render root (take (length cs - k) cs).

(** The nearest directory with a configuration, else the default. *)
Fixpoint nearest (h : Host) (root : bool) (cs : list string) (k n : nat) (default : string) : string :=
  if has_config h (above root cs k) then above root cs k
  else match n with O => default | S n => nearest h root cs (S k) n default end.

Lemma same_dirs_config h h' dir :
  h_files h' = h_files h → h_dirs h' = h_dirs h → has_config h' dir = has_config h dir.
Proof. intros Hf Hd. unfold has_config, is_dir, file_at. by rewrite Hf, Hd. Qed.

Lemma run_Stat dir h :
  os_fault (h_step h) = None →
  ∃ r, run (os_Stat (Join2 dir (configName +:+ ".toml"))) h = (r, h_tick h) ∧
       is_Ok r = has_config h dir.
Proof.
  intros Hf. unfold os_Stat. rewrite run_syscall by done. cbn [fst snd].
  eexists. split; [done|]. unfold has_config. by destruct (_ || _).
Qed.

Lemma Dir_above root cs c :
  clean_list root (cs ++ [c]) →
  Dir (render root (cs ++ [c])) = render root cs ∧ render root cs ≠ render root (cs ++ [c]).
Proof.
  intros Hcs. split; [by apply Dir_render|]. intros Heq. apply (f_equal components) in Heq.
  rewrite !components_render in Heq by (done || by eapply clean_list_snoc_inv).
  apply (f_equal length) in Heq. rewrite length_app in Heq. cbn in Heq. lia.
Qed.

Lemma clean_list_take root cs m : clean_list root cs → clean_list root (take m cs).
Proof.
  intros Hcs. rewrite <-(take_drop m cs) in Hcs. induction (drop m cs) as [|c l IH] using rev_ind.
  - by rewrite app_nil_r in Hcs.
  - rewrite app_assoc in Hcs. apply IH. by eapply clean_list_snoc_inv.
Qed.

Lemma Dir_above_next root cs k :
  clean_list root cs → (k < length cs)%nat →
  Dir (above root cs k) = above root cs (S k) ∧ above root cs (S k) ≠ above root cs k.
Proof.
  intros Hcs Hk. unfold above.
  replace (length cs - k)%nat with (S (length cs - S k)) by lia.
  destruct (lookup_lt_is_Some_2 cs (length cs - S k)) as [c Hc]; [lia|].
  rewrite (take_S_r _ _ c) by done. apply Dir_above.
  rewrite <-(take_S_r _ _ c) by done. by apply clean_list_take.
Qed.

Lemma find_root_step fuel start dir :
  find_root (S fuel) start dir =
    os_Stat (Join2 dir (configName +:+ ".toml")) ≫= λ found,
      match found with
      | Ok _ => Ret (Some dir)
      | Err _ => if (Dir dir == dir)%go then Ret (Some (Clean start))
                 else find_root fuel start (Dir dir)
      end.
Proof. done. Qed.

(** The loop ends, whatever Stat answers. *)
Lemma find_root_ends fuel start root cs h :
  clean_list root cs → (length cs < fuel)%nat →
  (run (find_root fuel start (render root cs)) h).1 ≠ None.
Proof.
  revert cs h. induction fuel as [|fuel IH]; intros cs h Hcs Hfuel; [lia|]. cbn [find_root].
  rewrite run_mbind. destruct (run (os_Stat _) h) as [[u|e] h1]; [done|].
  case_bool_decide as Heq; [done|]. destruct cs as [|c cs _] using rev_ind.
  - by rewrite Dir_render_nil in Heq.
  - destruct (Dir_above root cs c Hcs) as [-> _]. apply IH; [by eapply clean_list_snoc_inv|].
    rewrite length_app in Hfuel. cbn in Hfuel. lia.
Qed.

Lemma find_root_nearest n start root cs k h h0 :
  (∀ i, os_fault i = None) → clean_list root cs → (k + n = length cs)%nat →
  h_files h = h_files h0 → h_dirs h = h_dirs h0 →
  (run (find_root (S n) start (above root cs k)) h).1 =
    Some (nearest h0 root cs k n (Clean start)).
Proof.
  intros Hcalm Hcs. revert k h. induction n as [|n IH]; intros k h Hk Hf Hd.
  all: rewrite find_root_step, run_mbind; cbn [nearest].
  all: destruct (run_Stat (above root cs k) h (Hcalm _)) as (r & -> & Hr).
  all: rewrite (same_dirs_config h0 h) in Hr by done; rewrite <-Hr.
  all: destruct r as [u|e]; [done|]; cbn [is_Ok].
  - unfold above. replace (length cs - k)%nat with 0%nat by lia. cbn [take].
    by rewrite Dir_render_nil, bool_decide_eq_true_2.
  - destruct (Dir_above_next root cs k Hcs) as [HDir Hne]; [lia|].
    rewrite bool_decide_eq_false_2 by congruence. rewrite HDir.
    apply (IH (S k) (h_tick h)); [lia|done|done].
Qed.

(** C38.  The search for config.toml ends, whatever the file system answers: it
    stops at the root of the path at the latest.  Without failures it returns the
    nearest directory, from the working directory upwards, that holds one, and the
    working directory itself, cleaned, when none does. *)
Theorem findRootWorkdir_spec start h :
  (run (findRootWorkdir start) h).1 ≠ None ∧
  ((∀ i, os_fault i = None) →
   (run (findRootWorkdir start) h).1 =
     Some (nearest h (rooted start) (components start) 0 (length (components start)) (Clean start))).
Proof.
  unfold findRootWorkdir, Clean. split.
  - apply find_root_ends; [apply components_clean|lia].
  - intros Hcalm. pose proof (find_root_nearest (length (components start)) start (rooted start)
      (components start) 0 h h Hcalm (components_clean start) eq_refl eq_refl eq_refl) as Hn.
    unfold above in Hn. rewrite Nat.sub_0_r, firstn_all in Hn. exact Hn.
Qed.
End find_root.

(** ** Logging *)

Inductive Level := LevelDebug | LevelInfo | LevelWarn | LevelError.

Definition stringToSlogLevel (level : string) : Level :=
  if (level == "debug")%go then LevelDebug
  else if (level == "info")%go then LevelInfo
  else if (level == "warn")%go then LevelWarn
  else if (level == "error")%go then LevelError
  else LevelInfo.

Inductive LogFormat := FormatJSON | FormatText | FormatTint.

Definition log_format (format : string) : LogFormat :=
  if (format == logFormatJSON)%go then FormatJSON
  else if (format == logFormatPlainText)%go then FormatText
  else FormatTint.

Abbreviation Attr := (string * string)%type.
Record LogRecord := mkLogRecord { lr_Message : string; lr_Attrs : list Attr }.

(** WithLogAttrs: the attributes a context carries. *)
Definition WithLogAttrs (existingAttrs : option (list Attr)) (attrs : list Attr) : option (list Attr) :=
  Some (default [] existingAttrs ++ attrs).

(** logHandler.Handle, up to the wrapped handler. *)
Definition Handle (cmdName hostname : string) (ctxAttrs : option (list Attr)) (r : LogRecord) : LogRecord :=
  mkLogRecord (lr_Message r)
    (lr_Attrs r ++ (if negb (cmdName == "")%go then [("cmd", cmdName)] else [])
                ++ (if negb (hostname == "")%go then [("hostname", hostname)] else [])
                ++ default [] ctxAttrs).

Section init.
Context `{V : Viper}.

Definition logGRPCConfig (v : viper) : LogRecord :=
  mkLogRecord "gRPC server configuration"
    [("grpc_port", Itoa (GetUint v "grpc_port"));
     ("persistence.type", GetString v "persistence.type");
     ("persistence.sqlite.path", GetString v "persistence.sqlite.path");
     ("redis.urls", "[" +:+ Join (GetStringSlice v "redis.urls") " " +:+ "]");
     ("smtp_mailer.host", GetString v "smtp_mailer.host");
     ("smtp_mailer.port", Itoa (GetInt v "smtp_mailer.port"));
     ("auth.oauth_state_expiration", GetString v "auth.oauth_state_expiration");
     ("auth.access_token_expiration", GetString v "auth.access_token_expiration");
     ("auth.refresh_token_expiration", GetString v "auth.refresh_token_expiration");
     ("auth.service_token_expiration", GetString v "auth.service_token_expiration");
     ("auth.token_issuer", GetString v "auth.token_issuer")].

Definition logConfig (cmdName : string) (v : viper) : list LogRecord :=
  mkLogRecord "Configuration loaded"
    [("log.level", GetString v configKeyLogLevel); ("log.format", GetString v configKeyLogFormat)] ::
  (if (cmdName == "serve")%go then [logGRPCConfig v] else []).

(** The package's variables once initialised, and what was logged. *)
Record App := mkApp {
  app_cmdName : string;
  app_config : viper;
  app_level : Level;
  app_format : LogFormat;
  app_logged : list LogRecord;
}.

(** The common end of InitE and InitWithConfigPathE. *)
Definition initialized (cmd : string) (v : viper) : App :=
  mkApp cmd v (stringToSlogLevel (GetString v configKeyLogLevel))
    (log_format (GetString v configKeyLogFormat))
    (logConfig cmd v ++ [mkLogRecord "APP initialized" []]).

(** [workdir] is the outcome of os.Getwd. *)
Definition InitE (workdir : result string) (cmd : string) : HostM (result App) :=
  try workdir := Ret workdir in
  root ← findRootWorkdir workdir;
  match root with
  | None => Ret (Err (errors_New "findRootWorkdir: no result"))
  | Some rootWorkdir => try v := initConfig rootWorkdir in Ret (Ok (initialized cmd v))
  end.

Definition InitWithConfigPathE (cmd configPath : string) : HostM (result App) :=
  try v := initConfig configPath in Ret (Ok (initialized cmd v)).

(** Where secrets are configured. *)
Definition secret_keys : list string :=
  [AuthRSAPrivateKeyKey; AuthGithubClientSecretKey; BootstrapServiceAccountClientSecretKey;
   RedisPasswordKey; SmtpMailerPasswordKey].

(** No setting that holds a secret is logged. *)
Lemma logConfig_no_secrets cmd v :
  Forall (λ r, Forall (λ a, a.1 ∉ secret_keys) (lr_Attrs r)) (logConfig cmd v).
Proof.
  assert (∀ l : list Attr, forallb (λ a, negb (bool_decide (a.1 ∈ secret_keys))) l = true →
    Forall (λ a, a.1 ∉ secret_keys) l) as Hall.
  { intros l Hl. apply Forall_forall. intros a Ha. rewrite forallb_forall in Hl.
    specialize (Hl a (proj1 (list_elem_of_In _ _) Ha)).
    by apply negb_true_iff, bool_decide_eq_false in Hl. }
  unfold logConfig. constructor; [by apply Hall|].
  destruct (cmd == "serve")%go; [|done]. constructor; [by apply Hall|done].
Qed.
End init.
