(* ===== verification/Messages.v ===== *)
(** * Protobuf messages, gen/go/identra/v1

    One record per request and response of the services, with the fields the Go
    structs have; an accessor GetX of a non-nil message is the projection.  A
    message of another message's name in the domain carries the suffix Proto. *)

From S2P Require Import Prelude GoStrings Data.

(** ** auth_service.proto *)

Record RegisterWithPasswordRequest := mkRegisterWithPasswordRequest {
  rwp_Email : string; rwp_Password : string }.
Record RegisterWithPasswordResponse := mkRegisterWithPasswordResponse { rwpr_Tokens : TokenPair }.
Record LoginWithPasswordRequest := mkLoginWithPasswordRequest {
  lwp_Email : string; lwp_Password : string }.
Record LoginWithPasswordResponse := mkLoginWithPasswordResponse { lwpr_Tokens : TokenPair }.
Record RequestEmailLoginCodeRequest := mkRequestEmailLoginCodeRequest {
  relc_Email : string; relc_UseHtml : bool }.
Record RequestEmailLoginCodeResponse := mkRequestEmailLoginCodeResponse { }.
Record LoginWithEmailCodeRequest := mkLoginWithEmailCodeRequest {
  lwec_Email : string; lwec_Code : string }.
Record LoginWithEmailCodeResponse := mkLoginWithEmailCodeResponse { lwecr_Tokens : TokenPair }.
Record ListOAuthProvidersRequest := mkListOAuthProvidersRequest { }.
Record ListOAuthProvidersResponse := mkListOAuthProvidersResponse {
  lopr_Providers : list AuthProviderStatus }.
Record StartOAuthLoginRequest := mkStartOAuthLoginRequest {
  sol_Provider : AuthProvider; sol_RedirectUrl : string }.
Record StartOAuthLoginResponse := mkStartOAuthLoginResponse {
  solr_AuthorizationUrl : string; solr_State : string }.
Record LoginWithOAuthRequest := mkLoginWithOAuthRequest { lwo_Code : string; lwo_State : string }.
Record LoginWithOAuthResponse := mkLoginWithOAuthResponse {
  lwor_Tokens : TokenPair; lwor_Profile : OAuthUserProfile }.

(** ** session_service.proto *)

Record RefreshSessionRequest := mkRefreshSessionRequest { rsq_RefreshToken : string }.
Record RefreshSessionResponse := mkRefreshSessionResponse { rsr_Tokens : TokenPair }.
Record RevokeSessionRequest := mkRevokeSessionRequest { rvq_RefreshToken : string }.
Record RevokeSessionResponse := mkRevokeSessionResponse { }.

(** ** user_service.proto *)

Record UserProto := mkUserProto {
  up_Id : string;
  up_Email : string;
  up_PasswordLoginEnabled : bool;
  up_LinkedOauthAccounts : list LinkedOAuthAccount;
}.
Record GetCurrentUserRequest := mkGetCurrentUserRequest { }.
Record GetCurrentUserResponse := mkGetCurrentUserResponse { gcu_User : UserProto }.
Record LinkOAuthAccountRequest := mkLinkOAuthAccountRequest { loaq_Code : string; loaq_State : string }.
Record LinkOAuthAccountResponse := mkLinkOAuthAccountResponse {
  loar_Tokens : TokenPair; loar_Profile : OAuthUserProfile }.

(** ** key_service.proto *)

Record ListSigningKeysRequest := mkListSigningKeysRequest { }.
Record ListSigningKeysResponse := mkListSigningKeysResponse { lskr_Keys : list SigningKey }.

(** ** service_account_service.proto *)

Record ServiceAccountProto := mkServiceAccountProto {
  sap_ClientId : string;
  sap_Name : string;
  sap_Scopes : list string;
  sap_CreatedAt : Z;
  sap_DisabledAt : option Z;
}.
Record ServiceAccountCredentialProto := mkServiceAccountCredentialProto {
  sacp_ClientId : string; sacp_ClientSecret : string }.
Record ExchangeServiceTokenRequest := mkExchangeServiceTokenRequest {
  est_ClientId : string; est_ClientSecret : string }.
Record ExchangeServiceTokenResponse := mkExchangeServiceTokenResponse { estr_Token : Token }.
Record CreateServiceAccountRequest := mkCreateServiceAccountRequest {
  csa_Name : string; csa_Scopes : list string }.
Record CreateServiceAccountResponse := mkCreateServiceAccountResponse {
  csar_ServiceAccount : ServiceAccountProto; csar_Credential : ServiceAccountCredentialProto }.
Record ListServiceAccountsRequest := mkListServiceAccountsRequest { }.
Record ListServiceAccountsResponse := mkListServiceAccountsResponse {
  lsar_ServiceAccounts : list ServiceAccountProto }.
Record DisableServiceAccountRequest := mkDisableServiceAccountRequest { dsa_ClientId : string }.
Record DisableServiceAccountResponse := mkDisableServiceAccountResponse {
  dsar_ServiceAccount : ServiceAccountProto }.
Record RotateServiceAccountSecretRequest := mkRotateServiceAccountSecretRequest {
  rsas_ClientId : string }.
Record RotateServiceAccountSecretResponse := mkRotateServiceAccountSecretResponse {
  rsasr_Credential : ServiceAccountCredentialProto }.

(** ** user_management_service.proto *)

(** int32. *)
Record ListUsersRequest := mkListUsersRequest { luq_PageSize : Z; luq_PageToken : string }.
Record ListUsersResponse := mkListUsersResponse {
  lur_Users : list ManagedUser; lur_NextPageToken : string }.
Record CreatePasswordUserRequest := mkCreatePasswordUserRequest {
  cpu_Email : string; cpu_Password : string }.
Record CreatePasswordUserResponse := mkCreatePasswordUserResponse { cpur_User : ManagedUser }.
Record DeleteUserRequest := mkDeleteUserRequest { duq_UserId : string }.
Record DeleteUserResponse := mkDeleteUserResponse { }.
Record ResetUserPasswordRequest := mkResetUserPasswordRequest {
  rup_UserId : string; rup_Password : string }.
Record ResetUserPasswordResponse := mkResetUserPasswordResponse { rupr_User : ManagedUser }.

(** ** audit_service.proto *)

Inductive AuditActorType :=
  | AUDIT_ACTOR_TYPE_UNSPECIFIED | AUDIT_ACTOR_TYPE_SYSTEM | AUDIT_ACTOR_TYPE_SERVICE_ACCOUNT.

Record AuditEventProto := mkAuditEventProto {
  aep_Id : string;
  aep_OccurredAt : Z;
  aep_ActorType : AuditActorType;
  aep_ActorId : string;
  aep_Action : string;
  aep_ResourceType : string;
  aep_ResourceId : string;
  aep_Metadata : gmap string string;
}.
(** uint32. *)
Record ListAuditEventsRequest := mkListAuditEventsRequest { laq_PageSize : Z; laq_PageToken : string }.
Record ListAuditEventsResponse := mkListAuditEventsResponse {
  lar_AuditEvents : list AuditEventProto; lar_NextPageToken : string }.

(** ** system_service.proto *)

Record GetServerInfoRequest := mkGetServerInfoRequest { }.
Record GetServerInfoResponse := mkGetServerInfoResponse {
  gsir_Version : string;
  gsir_Commit : string;
  gsir_BuildDate : string;
  gsir_SchemaVersion : Z;
  gsir_Capabilities : list string;
}.
