(* ===== verification/Platform.v ===== *)
(** * What the program runs on

    The services and third-party packages the program calls, as classes of
    operations with the documented behaviour the program relies on: the clock
    and the random source ([Env]), Redis ([Redis]), SQLite ([SQL]), RSA, PEM,
    SHA-256, Argon2 and golang-jwt ([Crypto]), encoding/json ([JSON]), the OAuth
    client and the GitHub API ([GitHub]).  [Platform] bundles them;
    RefPlatform.v builds one, which shows the laws can be met and lets the
    witnesses compute. *)

From S2P Require Import Prelude GoStrings Data.
From Stdlib Require Import Ascii.
#[local] Open Scope Z_scope.

(** ** Time, randomness, faults

    The oracles are indexed by the number of external actions executed so far,
    so that every statement about the program holds for all of their values.
    [fault_applied] tells a call that failed before reaching the server from
    one whose effect took place although the reply was lost. *)

Record fault := mkFault { fault_msg : string; fault_applied : bool }.

(** The SQLite driver's test for a violated unique constraint,
    internal/store/sqlite/store.go. *)
Definition isUniqueConstraintError `{Unicode} (err : error) : bool :=
  let message := ToLower (error_Error err) in
  Contains message "unique constraint" || Contains message "primary key constraint".

Class Env `{Unicode} := {
  env_now : nat → Z;
  env_now_mono i j : (i ≤ j)%nat → env_now i ≤ env_now j;
  (* crypto/rand.Read of n bytes; [None] when the source fails *)
  env_rand : nat → nat → option string;
  env_rand_length i n s : env_rand i n = Some s → String.length s = n;
  (* crypto/rand.Int: a number in [0, max) *)
  env_rand_int : nat → Z → option Z;
  env_rand_int_range i max n : 0 < max → env_rand_int i max = Some n → 0 ≤ n < max;
  (* google/uuid *)
  env_uuid : nat → string;
  (* connection failures, cancelled contexts, I/O errors *)
  env_fault : nat → option fault;
  (* such a failure is not a constraint violation *)
  env_fault_not_unique i f :
    env_fault i = Some f → isUniqueConstraintError (errors_New (fault_msg f)) = false;
}.

(** ** Redis

    [redis_entry] is what GET and PEXPIRETIME show of a key: its value and its
    expiry time.  Expiry has a resolution of one millisecond. *)

(** The value of an entry at a time. *)
Definition redis_live (t : Z) (e : option (string * option Z)) : option string :=
  match e with
  | Some (v, None) => Some v
  | Some (v, Some deadline) => if t <? deadline then Some v else None
  | None => None
  end.

(** What INCR answers on a value. *)
Definition incr_value (o : option string) : result Z :=
  match o with
  | None => Ok 1
  | Some v =>
      match Atoi v with
      | Some n => if n <? max_int64 then Ok (n + 1)
                  else Err (errors_New "ERR increment or decrement would overflow")
      | None => Err (errors_New "ERR value is not an integer or out of range")
      end
  end.

(** The time to live of an existing key carries over. *)
Definition entry_deadline (t : Z) (e : option (string * option Z)) : option Z :=
  match redis_live t e with None => None | Some _ => e ≫= snd end.

Class Redis := {
  rstate : Type;
  redis_empty : rstate;
  redis_entry : rstate → string → option (string * option Z);
  redis_deadline : Z → Z → Z;
  (* commands at server time t *)
  redis_GET : Z → string → rstate → option string;
  redis_SET : Z → string → string → Z → rstate → rstate;
  redis_DEL : Z → string → rstate → rstate;
  redis_INCR : Z → string → rstate → result Z * rstate;
  redis_EXPIRE : Z → string → Z → rstate → rstate;

  redis_empty_entry k : redis_entry redis_empty k = None;
  redis_deadline_bounds t d :
    0 < d → t + d - time_Millisecond ≤ redis_deadline t d ≤ t + d + time_Millisecond;
  redis_GET_spec t k s : redis_GET t k s = redis_live t (redis_entry s k);
  redis_SET_spec t k v d s k' :
    redis_entry (redis_SET t k v d s) k' =
      if decide (k = k') then Some (v, Some (redis_deadline t d)) else redis_entry s k';
  redis_DEL_spec t k s k' :
    redis_entry (redis_DEL t k s) k' =
      if decide (k = k') then None else redis_entry s k';
  redis_INCR_result t k s :
    (redis_INCR t k s).1 = incr_value (redis_live t (redis_entry s k));
  redis_INCR_spec t k s k' :
    redis_entry (redis_INCR t k s).2 k' =
      if decide (k = k') then
        match incr_value (redis_live t (redis_entry s k)) with
        | Ok n => Some (Itoa n, entry_deadline t (redis_entry s k))
        | Err _ => redis_entry s k
        end
      else redis_entry s k';
  redis_EXPIRE_spec t k seconds s k' :
    redis_entry (redis_EXPIRE t k seconds s) k' =
      if decide (k = k') then
        match redis_live t (redis_entry s k) with
        | Some v => if 0 <? seconds
                    then Some (v, Some (redis_deadline t (seconds * time_Second)))
                    else None
        | None => redis_entry s k
        end
      else redis_entry s k';
}.

(** ** SQLite

    The statements themselves are modelled where the program has them; the
    driver contributes the texts of constraint errors and the order in which
    ORDER BY leaves rows that compare equal, which SQLite does not define: it may
    differ from one query to the next, so [sql_order_by] has the number of the
    query as its first argument. *)

(** The UNIQUE and PRIMARY KEY constraints of internal/store/sqlite/schema.sql. *)
Inductive unique_constraint :=
  | users_id | users_email
  | external_identities_id | external_identities_provider
  | service_accounts_id | service_accounts_name
  | credentials_id | credentials_secret_hash
  | audit_events_id.

Class SQL `{Unicode} := {
  sql_unique_error : unique_constraint → string;
  sql_unique_error_spec c :
    isUniqueConstraintError (errors_New (sql_unique_error c)) = true;
  sql_foreign_key_error : string;
  sql_foreign_key_error_spec :
    isUniqueConstraintError (errors_New sql_foreign_key_error) = false;
  sql_order_by : ∀ {A : Type}, nat → (A → A → bool) → list A → list A;
  sql_order_by_perm {A} n (le : A → A → bool) l : sql_order_by n le l ≡ₚ l;
  sql_order_by_sorted {A} n (le : A → A → bool) l :
    (∀ x y, le x y = true ∨ le y x = true) →
    (∀ x y z, le x y = true → le y z = true → le x z = true) →
    StronglySorted (λ x y, le x y = true) (sql_order_by n le l);
}.

(** ** Cryptography and tokens *)

(** golang-jwt's validation of the time claims, with no leeway: [exp] must be
    in the future and [nbf] must not be; either may be absent. *)
Definition jwt_times_valid (t : Z) (c : StandardClaims) : bool :=
  match sc_ExpiresAt c with Some e => t <? e | None => true end &&
  match sc_NotBefore c with Some b => b <=? t | None => true end.

(** The time claims of a token are NumericDates. *)
Definition on_dates (P : Z → Prop) (c : StandardClaims) : Prop :=
  (∀ e, sc_ExpiresAt c = Some e → P e) ∧ (∀ e, sc_IssuedAt c = Some e → P e) ∧
  (∀ e, sc_NotBefore c = Some e → P e).

(** Text that encoding/json carries unchanged (it does so for all valid UTF-8;
    the laws are stated for ASCII). *)
Definition json_safe (s : string) : Prop := forallb is_ascii (s2l s) = true.

Definition claims_json_safe (c : StandardClaims) : Prop :=
  json_safe (sc_Issuer c) ∧ json_safe (sc_Subject c) ∧ json_safe (sc_UserID c) ∧
  json_safe (sc_TokenType c) ∧ json_safe (sc_TokenID c) ∧
  json_safe (sc_ServiceAccountID c) ∧ Forall json_safe (sc_Scopes c).

(** The claims as they come back from the wire.  [TokenID] and the embedded
    [RegisteredClaims.ID] have the same JSON name, "jti"; the outer field wins in
    both directions, so the embedded one is left empty. *)
Definition wire_claims (c : StandardClaims) : StandardClaims :=
  mkStandardClaims (sc_Issuer c) (sc_Subject c) (sc_ExpiresAt c) (sc_IssuedAt c)
    (sc_NotBefore c) "" (sc_UserID c) (sc_TokenType c) (sc_TokenID c)
    (sc_ServiceAccountID c) (sc_Scopes c).

(** The header's signing method, as golang-jwt resolves it: an RSA PKCS#1 v1.5
    method (RS256, RS384, RS512) or another one. *)
Inductive SigningMethod := SigningMethodRSA (alg : string) | SigningMethodOther (alg : string).

Class Crypto := {
  PrivateKey : Type;
  PublicKey : Type;
  privateKey_PublicKey : PrivateKey → PublicKey;
  publicKey_N_Bytes : PublicKey → string;
  publicKey_E : PublicKey → Z;
  (* rsa.GenerateKey reads the random source: the oracle's index *)
  rsa_GenerateKey : nat → result PrivateKey;
  (* block type and bytes *)
  pem_Decode : string → option (string * string);
  pem_EncodeToMemory : string → string → string;
  x509_ParsePKCS1PrivateKey : string → result PrivateKey;
  (* [Ok None]: a key that is not RSA *)
  x509_ParsePKCS8PrivateKey : string → result (option PrivateKey);
  x509_MarshalPKCS1PrivateKey : PrivateKey → string;
  x509_MarshalPKIXPublicKey : PublicKey → result string;
  sha256_Sum256 : string → string;
  (* password, salt, time, memory, threads, key length *)
  argon2_IDKey : string → string → Z → Z → Z → Z → string;
  (* golang-jwt: jwt.NewNumericDate truncates to seconds *)
  jwt_NewNumericDate : Z → Z;
  jwt_NewNumericDate_bounds t : t - time_Second < jwt_NewNumericDate t ≤ t;
  (* claims, the header's kid, key *)
  jwt_SignedString : StandardClaims → string → option PrivateKey → result string;
  (* signature check and JSON decoding *)
  jwt_verify : string → option PublicKey → result StandardClaims;
  (* the token, the key function, the time *)
  jwt_ParseWithClaims :
    string → (SigningMethod → result (option PublicKey)) → Z → result StandardClaims;
  (* the unverified header *)
  jwt_kid : string → option string;
  jwt_method : string → option SigningMethod;

  pem_roundtrip ty b : pem_Decode (pem_EncodeToMemory ty b) = Some (ty, b);
  x509_PKCS1_roundtrip k :
    x509_ParsePKCS1PrivateKey (x509_MarshalPKCS1PrivateKey k) = Ok k;
  argon2_length p s t m th k : String.length (argon2_IDKey p s t m th k) = Z.to_nat k;
  sha256_length s : String.length (sha256_Sum256 s) = 32%nat;
  jwt_sign_verify c kid k tok :
    on_dates (λ e, jwt_NewNumericDate e = e) c → claims_json_safe c →
    jwt_SignedString c kid (Some k) = Ok tok →
    jwt_verify tok (Some (privateKey_PublicKey k)) = Ok (wire_claims c) ∧
    jwt_kid tok = Some kid ∧ jwt_method tok = Some (SigningMethodRSA "RS256");
  jwt_NewNumericDate_idem t :
    jwt_NewNumericDate (jwt_NewNumericDate t) = jwt_NewNumericDate t;
  jwt_Parse_spec tok keyfunc t c :
    jwt_ParseWithClaims tok keyfunc t = Ok c ↔
    ∃ m k, jwt_method tok = Some m ∧ keyfunc m = Ok k ∧
           jwt_verify tok k = Ok c ∧ jwt_times_valid t c = true;
}.

(** ** encoding/json, for the values the program stores *)

Class JSON := {
  json_Marshal_strings : list string → string;
  json_Unmarshal_strings : string → result (list string);
  json_Marshal_map : gmap string string → string;
  json_Unmarshal_map : string → result (gmap string string);
  (* {"provider": ..., "redirect_url": ...} *)
  json_Marshal_state : OAuthState → string;
  json_Unmarshal_state : string → result OAuthState;
  json_strings_roundtrip l :
    Forall json_safe l → json_Unmarshal_strings (json_Marshal_strings l) = Ok l;
  json_map_roundtrip m :
    map_Forall (λ k v, json_safe k ∧ json_safe v) m →
    json_Unmarshal_map (json_Marshal_map m) = Ok m;
  json_state_roundtrip s :
    json_safe (os_Provider s) → json_safe (os_RedirectURL s) →
    json_Unmarshal_state (json_Marshal_state s) = Ok s;
}.

(** ** golang.org/x/oauth2 and the GitHub API *)

Record OAuth2Config := mkOAuth2Config {
  oc_ClientID : string;
  oc_ClientSecret : string;
  oc_RedirectURL : string;
  oc_Scopes : list string;
}.

Record GitHubUser := mkGitHubUser {
  gh_ID : Z;
  gh_Email : string;
  gh_Login : string;
  gh_AvatarURL : string;
}.

Record GitHubEmail := mkGitHubEmail {
  ge_Email : string;
  ge_Primary : bool;
  ge_Verified : bool;
}.

Class GitHub := {
  oauth2_AuthCodeURL : OAuth2Config → string → string;
  (* network calls: indexed by the external actions so far *)
  oauth2_Exchange : nat → OAuth2Config → string → result string;
  github_Users_Get : nat → string → result GitHubUser;
  github_Users_ListEmails : nat → string → result (list GitHubEmail);
}.

Class Platform := {
  #[export] pf_unicode :: Unicode;
  #[export] pf_env :: Env;
  #[export] pf_redis :: Redis;
  #[export] pf_sql :: SQL;
  #[export] pf_crypto :: Crypto;
  #[export] pf_json :: JSON;
  #[export] pf_github :: GitHub;
}.
