(* ===== verification/RefPlatform.v ===== *)
(** * A reference platform

    Concrete functions for every operation of [Platform], with their laws
    proved: the laws can be met together, and closed instances of the theorems
    compute.  Redis is a finite map with expiry times, signatures and the JSON
    and PEM encodings are an injective encoding of lists of fields, a clock
    tick is a millisecond.  [ref_platform faults github] takes the faults to
    inject (by index of the external action; [Some true] for one whose effect
    took place) and the GitHub account behind the access tokens. *)

From S2P Require Import Prelude GoStrings Data Platform.
From Stdlib Require Import Ascii.

(** ** Lists of fields as a string *)

Definition enc_field (s : string) : list ascii :=
  (c ← s2l s; ["0"%char; c]) ++ ["1"%char].
Definition enc_fields (l : list string) : string := l2s (mjoin (enc_field <$> l)).

Fixpoint dec_go (cur l : list ascii) : option (list string) :=
  match l with
  | [] => Some []
  | a :: l1 =>
      if bool_decide (a = "1"%char)
      then (λ fs, l2s (reverse cur) :: fs) <$> dec_go [] l1
      else match l1 with [] => None | c :: l2 => dec_go (c :: cur) l2 end
  end.
Definition dec_fields (s : string) : option (list string) := dec_go [] (s2l s).

Lemma dec_go_enc_field cur l rest :
  dec_go cur ((c ← l; ["0"%char; c]) ++ "1"%char :: rest) =
  (λ fs, l2s (reverse cur ++ l) :: fs) <$> dec_go [] rest.
Proof.
  revert cur. induction l as [|c l IH]; intros cur.
  - by rewrite app_nil_r.
  - simpl. rewrite IH, reverse_cons, <-app_assoc. done.
Qed.

Lemma dec_enc_fields l : dec_fields (enc_fields l) = Some l.
Proof.
  unfold dec_fields, enc_fields. rewrite String.list_ascii_of_string_of_list_ascii.
  induction l as [|s l IH]; [done|]. cbn [fmap list_fmap mjoin list_join].
  unfold enc_field at 1. rewrite <-app_assoc. cbn [app].
  rewrite dec_go_enc_field. setoid_rewrite IH. simpl.
  by rewrite String.string_of_list_ascii_of_string.
Qed.

(** ** Integers as strings *)

Fixpoint enc_pos (p : positive) : string :=
  match p with
  | xH => "" | xO p => String "0" (enc_pos p) | xI p => String "1" (enc_pos p)
  end.
Fixpoint dec_pos (s : string) : positive :=
  match s with
  | EmptyString => xH
  | String c s => if bool_decide (c = "0"%char) then xO (dec_pos s) else xI (dec_pos s)
  end.
Definition enc_Z (z : Z) : string :=
  match z with
  | Z0 => "0" | Zpos p => String "+" (enc_pos p) | Zneg p => String "-" (enc_pos p)
  end.
Definition dec_Z (s : string) : Z :=
  match s with
  | String c s => if bool_decide (c = "+"%char) then Zpos (dec_pos s)
                  else if bool_decide (c = "-"%char) then Zneg (dec_pos s) else 0%Z
  | EmptyString => 0%Z
  end.
Definition enc_optZ (o : option Z) : string :=
  match o with None => "" | Some z => enc_Z z end.
Definition dec_optZ (s : string) : option Z :=
  match s with EmptyString => None | _ => Some (dec_Z s) end.

Lemma dec_enc_pos p : dec_pos (enc_pos p) = p.
Proof. induction p as [p IH|p IH|]; simpl; by rewrite ?IH. Qed.
Lemma dec_enc_optZ o : dec_optZ (enc_optZ o) = o.
Proof. destruct o as [[|p|p]|]; simpl; unfold dec_Z; simpl; by rewrite ?dec_enc_pos. Qed.

(** ** The instances *)

Definition ref_unicode : Unicode := {|
  unicode_ToLower s := s;
  unicode_EqualFold s t := bool_decide (s = t);
  unicode_Quote s := s;
|}.

Definition ref_fault_msg : string := "connection refused".

#[local] Obligation Tactic := idtac.

Section env.
Variable faults : nat → option bool.
#[local] Existing Instance ref_unicode.

Definition ref_now (i : nat) : Z := (1700000000 * time_Second + Z.of_nat i * time_Millisecond)%Z.
Definition ref_rand (i n : nat) : string := l2s (replicate n (ascii_of_nat (i mod 256))).

Program Definition ref_env : Env := {|
  env_now := ref_now;
  env_rand i n := Some (ref_rand i n);
  env_rand_int i max := Some (Z.of_nat i mod max)%Z;
  env_uuid i := "uuid-" +:+ Itoa (Z.of_nat i);
  env_fault i := mkFault ref_fault_msg <$> faults i;
|}.
Next Obligation. intros i j Hij. unfold ref_now, time_Millisecond. lia. Qed.
Next Obligation.
  intros i n s [= <-]. unfold ref_rand.
  rewrite <-length_s2l, String.list_ascii_of_string_of_list_ascii. apply length_replicate.
Qed.
Next Obligation. intros i max n Hmax [= <-]. by apply Z.mod_pos_bound. Qed.
Next Obligation. by intros i f (b & _ & ->)%fmap_Some. Qed.

Program Definition ref_sql : SQL := {|
  sql_unique_error c := "constraint failed: UNIQUE constraint failed: " +:+
    match c with
    | users_id => "users.id (1555)" | users_email => "users.email (2067)"
    | external_identities_id => "external_identities.id (1555)"
    | external_identities_provider =>
        "external_identities.provider, external_identities.provider_user_id (2067)"
    | service_accounts_id => "service_accounts.id (1555)"
    | service_accounts_name => "service_accounts.name (2067)"
    | credentials_id => "service_account_credentials.id (1555)"
    | credentials_secret_hash => "service_account_credentials.secret_hash (2067)"
    | audit_events_id => "audit_events.id (1555)"
    end;
  sql_foreign_key_error := "constraint failed: FOREIGN KEY constraint failed (787)";
  (* ties in the order of the rows, or in the reverse order, by turns *)
  sql_order_by A n le l :=
    merge_sort (λ x y, le x y = true) (H := λ x y, decide (le x y = true))
      (if Nat.even n then l else reverse l);
|}.
Next Obligation. by intros []. Qed.
Next Obligation. done. Qed.
Next Obligation.
  intros A n le l. rewrite merge_sort_Permutation. destruct (Nat.even n); [done|].
  apply reverse_Permutation.
Qed.
Next Obligation.
  intros A n le l Htot Htrans. apply StronglySorted_merge_sort; [|exact Htot].
  intros x y z. apply Htrans.
Qed.
End env.

Program Definition ref_redis : Redis := {|
  rstate := gmap string (string * option Z);
  redis_empty := ∅;
  redis_entry s k := s !! k;
  redis_deadline t d := (t + d)%Z;
  redis_GET t k s := redis_live t (s !! k);
  redis_SET t k v d s := <[k := (v, Some (t + d)%Z)]> s;
  redis_DEL t k s := delete k s;
  redis_INCR t k s :=
    match incr_value (redis_live t (s !! k)) with
    | Ok n => (Ok n, <[k := (Itoa n, entry_deadline t (s !! k))]> s)
    | Err e => (Err e, s)
    end;
  redis_EXPIRE t k seconds s :=
    match redis_live t (s !! k) with
    | Some v => if (0 <? seconds)%Z then <[k := (v, Some (t + seconds * time_Second)%Z)]> s
                else delete k s
    | None => s
    end;
|}.
Next Obligation. done. Qed.
Next Obligation. intros t d Hd. unfold time_Millisecond. lia. Qed.
Next Obligation. done. Qed.
Next Obligation. intros t k v d s k'. apply lookup_insert. Qed.
Next Obligation. intros t k s k'. apply lookup_delete. Qed.
Next Obligation. intros t k s. simpl. by destruct (incr_value _). Qed.
Next Obligation.
  intros t k s k'. simpl. destruct (incr_value _); simpl; [apply lookup_insert|].
  case_decide; by subst.
Qed.
Next Obligation.
  intros t k n s k'. simpl. destruct (redis_live _ _); simpl; [|case_decide; by subst].
  destruct (0 <? n)%Z; [apply lookup_insert|apply lookup_delete].
Qed.

(** Tokens: the signing key, the kid and the claims. *)
Definition ref_claims_fields (c : StandardClaims) : list string :=
  sc_Issuer c :: sc_Subject c :: enc_optZ (sc_ExpiresAt c) :: enc_optZ (sc_IssuedAt c)
  :: enc_optZ (sc_NotBefore c) :: sc_UserID c :: sc_TokenType c :: sc_TokenID c
  :: sc_ServiceAccountID c :: sc_Scopes c.

Definition ref_verify (tok : string) (k : option string) : result StandardClaims :=
  match dec_fields tok, k with
  | Some (_ :: k' :: _ :: iss :: sub :: ex :: ia :: nb :: uid :: typ :: jti :: sid :: scp), Some k =>
      if decide (k' = k)
      then Ok (mkStandardClaims iss sub (dec_optZ ex) (dec_optZ ia) (dec_optZ nb) "" uid typ jti sid scp)
      else Err (errors_New "crypto/rsa: verification error")
  | _, _ => Err (errors_New "token is malformed")
  end.

Definition ref_kid (tok : string) : option string :=
  match dec_fields tok with Some (_ :: _ :: kid :: _) => Some kid | _ => None end.

Definition ref_pair (l : list string) : option (string * string) :=
  match l with [a; b] => Some (a, b) | _ => None end.

Definition ref_method (tok : string) : option SigningMethod :=
  match dec_fields tok with
  | Some (alg :: _) => Some (if decide (alg = "none") then SigningMethodOther alg
                             else SigningMethodRSA "RS256")
  | _ => None
  end.

Definition ref_parse (tok : string) (keyfunc : SigningMethod → result (option string)) (t : Z)
    : result StandardClaims :=
  match ref_method tok with
  | None => Err (errors_New "token is malformed")
  | Some m =>
      k ← keyfunc m;
      c ← ref_verify tok k;
      if jwt_times_valid t c then Ok c else Err (errors_New "token is expired")
  end.

Definition ref_json_result {A} (o : option A) : result A :=
  match o with Some a => Ok a | None => Err (errors_New "invalid JSON") end.

Fixpoint ref_map (l : list string) : gmap string string :=
  match l with k :: v :: l => <[k := v]> (ref_map l) | _ => ∅ end.

Definition ref_sha256 (s : string) : string :=
  l2s (take 32 (s2l s ++ replicate 32 "0"%char)).

Program Definition ref_crypto : Crypto := {|
  PrivateKey := string;
  PublicKey := string;
  privateKey_PublicKey k := k;
  publicKey_N_Bytes k := k;
  publicKey_E _ := 65537%Z;
  rsa_GenerateKey i := Ok ("key-" +:+ Itoa (Z.of_nat i));
  pem_Decode s := dec_fields s ≫= ref_pair;
  pem_EncodeToMemory ty b := enc_fields [ty; b];
  x509_ParsePKCS1PrivateKey s := Ok s;
  x509_ParsePKCS8PrivateKey s := Ok (Some s);
  x509_MarshalPKCS1PrivateKey k := k;
  x509_MarshalPKIXPublicKey k := Ok k;
  sha256_Sum256 := ref_sha256;
  argon2_IDKey password salt _ _ _ keyLen :=
    l2s (take (Z.to_nat keyLen) (s2l (password +:+ salt) ++ replicate (Z.to_nat keyLen) "0"%char));
  jwt_NewNumericDate t := (t / time_Second * time_Second)%Z;
  jwt_SignedString c kid k :=
    match k with
    | Some k => Ok (enc_fields ("RS256" :: k :: kid :: ref_claims_fields c))
    | None => Err (errors_New "key is invalid")
    end;
  jwt_verify := ref_verify;
  jwt_ParseWithClaims := ref_parse;
  jwt_kid := ref_kid;
  jwt_method := ref_method;
|}.
Next Obligation. intros t. unfold time_Second. pose proof (Z.div_mod t 1000000000).
  pose proof (Z.mod_pos_bound t 1000000000). lia. Qed.
Next Obligation. intros ty b. simpl. by rewrite dec_enc_fields. Qed.
Next Obligation. done. Qed.
Next Obligation.
  intros p s t m th k. simpl. rewrite <-length_s2l, String.list_ascii_of_string_of_list_ascii.
  rewrite length_take, length_app, length_replicate. lia.
Qed.
Next Obligation.
  intros s. unfold ref_sha256.
  rewrite <-length_s2l, String.list_ascii_of_string_of_list_ascii, length_take, length_app.
  rewrite length_replicate. lia.
Qed.
Next Obligation.
  intros c kid k tok _ _ [= <-]. unfold ref_verify, ref_kid, ref_method. rewrite dec_enc_fields.
  simpl. rewrite decide_True by done. by rewrite !dec_enc_optZ.
Qed.
Next Obligation. intros t. simpl. by rewrite Z.div_mul. Qed.
Next Obligation.
  intros tok keyfunc t c. unfold ref_parse. destruct (ref_method tok) as [m|].
  2: { split; [done|]. by intros (? & ? & ? & _). }
  destruct (keyfunc m) as [k|] eqn:Hk; simpl.
  2: { split; [done|]. intros (m' & k & [= <-] & Hk' & _). by rewrite Hk in Hk'. }
  split.
  - destruct (ref_verify tok k) as [c'|e] eqn:Hv; simpl; [|done].
    destruct (jwt_times_valid t c') eqn:Ht; [|done]. intros [= <-]. by exists m, k.
  - intros (m' & k' & [= <-] & Hk' & Hv & Ht). rewrite Hk in Hk'. simplify_eq.
    rewrite Hv. simpl. by rewrite Ht.
Qed.

Program Definition ref_json : JSON := {|
  json_Marshal_strings := enc_fields;
  json_Unmarshal_strings s := ref_json_result (dec_fields s);
  json_Marshal_map m := enc_fields (kv ← map_to_list m; [kv.1; kv.2]);
  json_Unmarshal_map s := ref_json_result (ref_map <$> dec_fields s);
  json_Marshal_state s := enc_fields [os_Provider s; os_RedirectURL s];
  json_Unmarshal_state s :=
    (λ pu, mkOAuthState pu.1 pu.2) <$> ref_json_result (dec_fields s ≫= ref_pair);
|}.
Next Obligation. intros l _. simpl. by rewrite dec_enc_fields. Qed.
Next Obligation.
  intros m _. simpl. rewrite dec_enc_fields. simpl. f_equal.
  transitivity (list_to_map (map_to_list m) : gmap string string).
  - induction (map_to_list m) as [|[k v] l IH]; simpl; [done|]. by f_equal.
  - apply list_to_map_to_list.
Qed.
Next Obligation. intros [p u] _ _. simpl. by rewrite dec_enc_fields. Qed.

Record RefGitHub := mkRefGitHub {
  rg_user : GitHubUser;
  rg_emails : list GitHubEmail;
}.

Definition ref_github (g : RefGitHub) : GitHub := {|
  oauth2_AuthCodeURL cfg state := "https://github.com/login/oauth/authorize?state=" +:+ state;
  oauth2_Exchange _ cfg code := Ok ("gho_" +:+ code);
  github_Users_Get _ token := Ok (rg_user g);
  github_Users_ListEmails _ token := Ok (rg_emails g);
|}.

Definition ref_platform (faults : nat → option bool) (g : RefGitHub) : Platform := {|
  pf_unicode := ref_unicode;
  pf_env := ref_env faults;
  pf_redis := ref_redis;
  pf_sql := ref_sql;
  pf_crypto := ref_crypto;
  pf_json := ref_json;
  pf_github := ref_github g;
|}.

(** No faults; the account octocat. *)
Definition octocat : RefGitHub := mkRefGitHub
  (mkGitHubUser 583231 "octocat@github.com" "octocat" "https://github.com/octocat.png") [].
Definition calm : Platform := ref_platform (λ _, None) octocat.

(** Two private keys of that platform. *)
Definition key_0 : @PrivateKey (@pf_crypto calm) := "key-0".
Definition key_1 : @PrivateKey (@pf_crypto calm) := "key-1".
