(* ===== verification/SqliteQueries.v ===== *)
(** * The SQL statements, internal/store/sqlite

    Each statement of sqlitedb/queries.sql.go, service_accounts.go and audit.go
    as a function from the database to its outcome and the new database, with
    the constraints of schema.sql: primary keys, unique columns, foreign keys
    (which the connection enables).  A statement that fails leaves the database
    as it was.  [db_ok] is what the constraints keep; [db_le] is what statements
    never undo. *)

From S2P Require Import Prelude GoStrings Prog Data Platform.
#[local] Open Scope Z_scope.

Section statements.
Context `{P : Platform}.

(** ** Building blocks *)

(** INSERT: the rows of a table that a unique constraint makes the new row
    collide with, and the error. *)
Definition unique_error {A} (c : unique_constraint) : result A :=
  Err (errors_New (sql_unique_error c)).

(** LIMIT and OFFSET: a negative limit is none, a negative offset is 0. *)
Definition sql_page {A} (limit offset : Z) (l : list A) : list A :=
  let l := drop (Z.to_nat offset) l in
  if limit <? 0 then l else take (Z.to_nat limit) l.

(** QueryRow(...).Scan: the first row, or sql.ErrNoRows. *)
Definition query_row {A} (p : A → bool) (l : list A) : result A :=
  match find p l with Some x => Ok x | None => Err sql_ErrNoRows end.

(** UPDATE ... WHERE: the rows affected and the new table. *)
Definition update_rows {A} (p : A → bool) (f : A → A) (l : list A) : Z * list A :=
  (Z.of_nat (length (List.filter p l)), map_if p f l).

(** ** users *)

Definition user_live (u : User) : bool :=
  match u_DeletedAt u with None => true | Some _ => false end.

Definition live_with_id (id : string) (u : User) : bool :=
  bool_decide (u_ID u = id) && user_live u.
Definition live_with_email (email : string) (u : User) : bool :=
  bool_decide (u_Email u = email) && user_live u.

Definition countUsers (d : DB) : result Z * DB :=
  (Ok (Z.of_nat (length (List.filter user_live (db_users d)))), d).

Definition createUser (id : string) (createdAt updatedAt : Z) (email : string)
    (hashedPassword hash : option string) (lastLoginAt : option Z) (d : DB)
    : result unit * DB :=
  if existsb (λ u, bool_decide (u_ID u = id)) (db_users d) then (unique_error users_id, d) else
  if existsb (λ u, bool_decide (u_Email u = email)) (db_users d)
  then (unique_error users_email, d) else
  (Ok tt, set_users (db_users d ++
     [mkUser id createdAt updatedAt None email hashedPassword hash lastLoginAt]) d).

Definition getUserByEmail (email : string) (d : DB) : result User * DB :=
  (query_row (live_with_email email) (db_users d), d).

Definition getUserByID (id : string) (d : DB) : result User * DB :=
  (query_row (live_with_id id) (db_users d), d).

Definition by_created_desc (u v : User) : bool := u_CreatedAt v <=? u_CreatedAt u.

(** [query] is the number of the query: rows created at the same time come in any
    order, and in another one the next time. *)
Definition listUsers (pageOffset pageSize : Z) (query : nat) (d : DB) : result (list User) :=
  Ok (sql_page pageSize pageOffset
        (sql_order_by query by_created_desc (List.filter user_live (db_users d)))).

Definition setUserPassword (hashedPassword : option string) (updatedAt : Z) (id : string)
    (d : DB) : result Z * DB :=
  let '(n, l) := update_rows (live_with_id id)
    (λ u, mkUser (u_ID u) (u_CreatedAt u) updatedAt (u_DeletedAt u) (u_Email u)
            hashedPassword (u_Hash u) (u_LastLoginAt u)) (db_users d) in
  (Ok n, set_users l d).

Definition softDeleteUser (deletedAt : option Z) (updatedAt : Z) (id : string) (d : DB)
    : result Z * DB :=
  let '(n, l) := update_rows (live_with_id id)
    (λ u, mkUser (u_ID u) (u_CreatedAt u) updatedAt deletedAt (u_Email u)
            (u_HashedPassword u) (u_Hash u) (u_LastLoginAt u)) (db_users d) in
  (Ok n, set_users l d).

(** Setting the email of a row to that of another one violates the constraint. *)
Definition updateUser (email : string) (hashedPassword hash : option string)
    (lastLoginAt : option Z) (updatedAt : Z) (id : string) (d : DB) : result Z * DB :=
  let '(n, l) := update_rows (live_with_id id)
    (λ u, mkUser (u_ID u) (u_CreatedAt u) updatedAt (u_DeletedAt u) email
            hashedPassword hash lastLoginAt) (db_users d) in
  if (0 <? n) && existsb (λ u, bool_decide (u_Email u = email) && negb (live_with_id id u))
                   (db_users d)
  then (unique_error users_email, d) else (Ok n, set_users l d).

(** ** external_identities *)

Definition identity_live (e : ExternalIdentity) : bool :=
  match ei_DeletedAt e with None => true | Some _ => false end.

Definition createExternalIdentity (id userID provider providerUserID : string)
    (createdAt updatedAt : Z) (d : DB) : result unit * DB :=
  if existsb (λ e, bool_decide (ei_ID e = id)) (db_external_identities d)
  then (unique_error external_identities_id, d) else
  if existsb (λ e, bool_decide (ei_Provider e = provider) &&
                   bool_decide (ei_ProviderUserID e = providerUserID)) (db_external_identities d)
  then (unique_error external_identities_provider, d) else
  if negb (existsb (λ u, bool_decide (u_ID u = userID)) (db_users d))
  then (Err (errors_New sql_foreign_key_error), d) else
  (Ok tt, set_external_identities (db_external_identities d ++
     [mkExternalIdentity id userID provider providerUserID createdAt updatedAt None]) d).

Definition getExternalIdentityByProviderID (provider providerUserID : string) (d : DB)
    : result ExternalIdentity * DB :=
  (query_row (λ e, bool_decide (ei_Provider e = provider) &&
                   bool_decide (ei_ProviderUserID e = providerUserID) && identity_live e)
     (db_external_identities d), d).

Definition listExternalIdentitiesByUserID (userID : string) (query : nat) (d : DB)
    : result (list ExternalIdentity) :=
  Ok (sql_order_by query (λ x y, ei_CreatedAt x <=? ei_CreatedAt y)
        (List.filter (λ e, bool_decide (ei_UserID e = userID) && identity_live e)
           (db_external_identities d))).

(** ** service_accounts and service_account_credentials *)

Definition account_live (a : ServiceAccount) : bool :=
  match sa_DisabledAt a with None => true | Some _ => false end.

Definition insert_service_account (id name scopes : string) (createdAt updatedAt : Z) (d : DB)
    : result unit * DB :=
  if existsb (λ a, bool_decide (sa_ID a = id)) (db_service_accounts d)
  then (unique_error service_accounts_id, d) else
  if existsb (λ a, bool_decide (sa_Name a = name)) (db_service_accounts d)
  then (unique_error service_accounts_name, d) else
  (Ok tt, set_service_accounts (db_service_accounts d ++
     [mkServiceAccount id name scopes createdAt updatedAt None]) d).

Definition insert_credential (id accountID secretHash : string) (createdAt : Z) (d : DB)
    : result unit * DB :=
  if existsb (λ c, bool_decide (cr_ID c = id)) (db_credentials d)
  then (unique_error credentials_id, d) else
  if existsb (λ c, bool_decide (cr_SecretHash c = secretHash)) (db_credentials d)
  then (unique_error credentials_secret_hash, d) else
  if negb (existsb (λ a, bool_decide (sa_ID a = accountID)) (db_service_accounts d))
  then (Err (errors_New sql_foreign_key_error), d) else
  (Ok tt, set_credentials (db_credentials d ++
     [mkServiceAccountCredential id accountID secretHash createdAt None None]) d).

Definition credential_valid (secretHash : string) (now : Z) (c : ServiceAccountCredential) : bool :=
  bool_decide (cr_SecretHash c = secretHash) &&
  match cr_RevokedAt c with None => true | Some _ => false end &&
  match cr_ExpiresAt c with None => true | Some e => now <? e end.

(** The join of Authenticate: accounts with a credential that qualifies. *)
Definition select_authenticated (clientID secretHash : string) (now : Z) (d : DB)
    : result ServiceAccount * DB :=
  (query_row (λ a, bool_decide (sa_ID a = clientID) && account_live a &&
     existsb (λ c, bool_decide (cr_ServiceAccountID c = sa_ID a) &&
                   credential_valid secretHash now c) (db_credentials d))
     (db_service_accounts d), d).

Definition select_account (clientID : string) (d : DB) : result ServiceAccount * DB :=
  (query_row (λ a, bool_decide (sa_ID a = clientID)) (db_service_accounts d), d).

Definition select_account_by_name (name : string) (d : DB) : result ServiceAccount * DB :=
  (query_row (λ a, bool_decide (sa_Name a = name)) (db_service_accounts d), d).

Definition select_live_account (clientID : string) (d : DB) : result ServiceAccount * DB :=
  (query_row (λ a, bool_decide (sa_ID a = clientID) && account_live a)
     (db_service_accounts d), d).

(** ORDER BY created_at ASC, id ASC. *)
Definition by_created_then_id (a b : ServiceAccount) : bool :=
  (sa_CreatedAt a <? sa_CreatedAt b) ||
  (sa_CreatedAt a =? sa_CreatedAt b) && bool_decide (String.le (sa_ID a) (sa_ID b)).

Definition select_accounts (query : nat) (d : DB) : result (list ServiceAccount) :=
  Ok (sql_order_by query by_created_then_id (db_service_accounts d)).

Definition update_disabled_at (now : Z) (clientID : string) (d : DB) : result Z * DB :=
  let '(n, l) := update_rows (λ a, bool_decide (sa_ID a = clientID) && account_live a)
    (λ a, mkServiceAccount (sa_ID a) (sa_Name a) (sa_Scopes a) (sa_CreatedAt a) now (Some now))
    (db_service_accounts d) in
  (Ok n, set_service_accounts l d).

Definition credential_live (c : ServiceAccountCredential) : bool :=
  match cr_RevokedAt c with None => true | Some _ => false end.

Definition update_revoked_at (now : Z) (clientID : string) (d : DB) : result Z * DB :=
  let '(n, l) := update_rows (λ c, bool_decide (cr_ServiceAccountID c = clientID) && credential_live c)
    (λ c, mkServiceAccountCredential (cr_ID c) (cr_ServiceAccountID c) (cr_SecretHash c)
            (cr_CreatedAt c) (cr_ExpiresAt c) (Some now)) (db_credentials d) in
  (Ok n, set_credentials l d).

(** ** system_state *)

Definition select_state (key : string) (d : DB) : result SystemState * DB :=
  (query_row (λ s, bool_decide (ss_Key s = key)) (db_system_state d), d).

(** INSERT ... ON CONFLICT(key) DO UPDATE. *)
Definition upsert_state (key value : string) (updatedAt : Z) (d : DB) : result unit * DB :=
  (Ok tt,
   set_system_state
     (if existsb (λ s, bool_decide (ss_Key s = key)) (db_system_state d)
      then map_if (λ s, bool_decide (ss_Key s = key)) (λ s, mkSystemState key value updatedAt)
             (db_system_state d)
      else db_system_state d ++ [mkSystemState key value updatedAt]) d).

(** ** audit_events *)

Definition insert_audit (r : AuditRow) (d : DB) : result unit * DB :=
  if existsb (λ a, bool_decide (ar_ID a = ar_ID r)) (db_audit_events d)
  then (unique_error audit_events_id, d) else
  (Ok tt, set_audit_events (db_audit_events d ++ [r]) d).

(** ORDER BY occurred_at DESC, id DESC. *)
Definition by_occurred_desc (a b : AuditRow) : bool :=
  (ar_OccurredAt b <? ar_OccurredAt a) ||
  (ar_OccurredAt a =? ar_OccurredAt b) && bool_decide (String.le (ar_ID b) (ar_ID a)).

Definition select_audit (limit offset : Z) (query : nat) (d : DB) : result (list AuditRow) :=
  Ok (sql_page limit offset (sql_order_by query by_occurred_desc (db_audit_events d))).
End statements.

(** ** The constraints, and what is never undone *)

Section invariant.
Context `{P : Platform}.

(** PRIMARY KEY, UNIQUE and FOREIGN KEY of schema.sql. *)
Record db_ok (d : DB) : Prop := mk_db_ok {
  ok_users_id : NoDup (u_ID <$> db_users d);
  ok_users_email : NoDup (u_Email <$> db_users d);
  ok_identities_id : NoDup (ei_ID <$> db_external_identities d);
  ok_identities_provider :
    NoDup ((λ e, (ei_Provider e, ei_ProviderUserID e)) <$> db_external_identities d);
  ok_identities_user :
    Forall (λ e, ei_UserID e ∈ u_ID <$> db_users d) (db_external_identities d);
  ok_accounts_id : NoDup (sa_ID <$> db_service_accounts d);
  ok_accounts_name : NoDup (sa_Name <$> db_service_accounts d);
  ok_credentials_id : NoDup (cr_ID <$> db_credentials d);
  ok_credentials_hash : NoDup (cr_SecretHash <$> db_credentials d);
  ok_credentials_account :
    Forall (λ c, cr_ServiceAccountID c ∈ sa_ID <$> db_service_accounts d) (db_credentials d);
  ok_state_key : NoDup (ss_Key <$> db_system_state d);
  ok_audit_id : NoDup (ar_ID <$> db_audit_events d);
}.

(** Rows stay, each related to what it was, and new ones follow. *)
Definition rows_le {A} (R : relation A) (l l' : list A) : Prop :=
  ∃ k, Forall2 R l k ∧ k `prefix_of` l'.

#[export] Instance rows_le_preorder {A} (R : relation A) : PreOrder R → PreOrder (rows_le R).
Proof.
  intros HR. split.
  - intros l. exists l. split; [|done]. apply Forall_Forall2_diag, Forall_true. reflexivity.
  - intros l1 l2 l3 (k1 & H1 & r1 & ->) (k2 & H2 & r2 & ->).
    apply Forall2_app_inv_l in H2 as (k3 & k4 & H3 & H4 & ->).
    exists k3. split; [|rewrite <-app_assoc; by eexists]. by etrans.
Qed.

Lemma rows_le_app {A} (R : relation A) l x : Reflexive R → rows_le R l (l ++ [x]).
Proof.
  intros HR. exists l. split; [|by eexists]. by apply Forall_Forall2_diag, Forall_true.
Qed.

Lemma rows_le_map_if {A} (R : relation A) p f l :
  Reflexive R → (∀ x, p x = true → R x (f x)) → rows_le R l (map_if p f l).
Proof.
  intros HR Hf. exists (map_if p f l). split; [|done].
  apply Forall2_fmap_r, Forall_Forall2_diag, Forall_true. intros x. unfold compose; simpl.
  destruct (p x) eqn:?; [auto|reflexivity].
Qed.

(** A soft-deleted user, a disabled account and a revoked credential are
    frozen. *)
Definition user_le (u u' : User) : Prop :=
  u_ID u' = u_ID u ∧ u_CreatedAt u' = u_CreatedAt u ∧ (user_live u = false → u' = u).
Definition account_le (a a' : ServiceAccount) : Prop :=
  sa_ID a' = sa_ID a ∧ sa_Name a' = sa_Name a ∧ sa_Scopes a' = sa_Scopes a ∧
  sa_CreatedAt a' = sa_CreatedAt a ∧ (account_live a = false → a' = a).
Definition credential_le (c c' : ServiceAccountCredential) : Prop :=
  cr_ID c' = cr_ID c ∧ cr_ServiceAccountID c' = cr_ServiceAccountID c ∧
  cr_SecretHash c' = cr_SecretHash c ∧ cr_ExpiresAt c' = cr_ExpiresAt c ∧
  (credential_live c = false → c' = c).
Definition state_le (s s' : SystemState) : Prop := ss_Key s' = ss_Key s.

#[export] Instance user_le_preorder : PreOrder user_le.
Proof.
  split; [by repeat split|]. intros u1 u2 u3 (H1 & H2 & H3) (H4 & H5 & H6).
  split; [congruence|]. split; [congruence|]. intros Hu. rewrite <-(H3 Hu). apply H6.
  by rewrite (H3 Hu).
Qed.
#[export] Instance account_le_preorder : PreOrder account_le.
Proof.
  split; [by repeat split|].
  intros a1 a2 a3 (H1 & H2 & H3 & H4 & H5) (G1 & G2 & G3 & G4 & G5).
  repeat (split; [congruence|]). intros Ha. rewrite <-(H5 Ha). apply G5. by rewrite (H5 Ha).
Qed.
#[export] Instance credential_le_preorder : PreOrder credential_le.
Proof.
  split; [by repeat split|].
  intros a1 a2 a3 (H1 & H2 & H3 & H4 & H5) (G1 & G2 & G3 & G4 & G5).
  repeat (split; [congruence|]). intros Ha. rewrite <-(H5 Ha). apply G5. by rewrite (H5 Ha).
Qed.
#[export] Instance state_le_preorder : PreOrder state_le.
Proof. split; [by intros ?|]. unfold state_le. intros s1 s2 s3. congruence. Qed.
#[export] Instance eq_rows_preorder {A} : PreOrder (rows_le (@eq A)).
Proof. apply rows_le_preorder. split; congruence. Qed.

Record db_le (d d' : DB) : Prop := mk_db_le {
  le_users : rows_le user_le (db_users d) (db_users d');
  le_identities : rows_le eq (db_external_identities d) (db_external_identities d');
  le_accounts : rows_le account_le (db_service_accounts d) (db_service_accounts d');
  le_credentials : rows_le credential_le (db_credentials d) (db_credentials d');
  le_state : rows_le state_le (db_system_state d) (db_system_state d');
  le_audit : rows_le eq (db_audit_events d) (db_audit_events d');
}.

#[export] Instance db_le_preorder : PreOrder db_le.
Proof.
  split; [by split|]. intros d1 d2 d3 [] []. split; by etrans.
Qed.

(** A statement keeps the constraints and undoes nothing. *)
Definition db_evolves (d d' : DB) : Prop := db_le d d' ∧ (db_ok d → db_ok d').

#[export] Instance db_evolves_preorder : PreOrder db_evolves.
Proof.
  split; [by split|]. intros d1 d2 d3 [H1 H2] [H3 H4]. split; [by etrans|auto].
Qed.

Definition statement {B} (f : DB → result B * DB) : Prop := ∀ d, db_evolves d (f d).2.

(** *** Tables one at a time *)

Lemma NoDup_insert {A B} (g : A → B) l x :
  NoDup (g <$> l) → g x ∉ g <$> l → NoDup (g <$> l ++ [x]).
Proof.
  intros Hl Hx. rewrite fmap_app. apply NoDup_app. split; [done|]. split; [|apply NoDup_singleton].
  intros y Hy Hyx. simpl in Hyx. apply list_elem_of_singleton in Hyx as ->. done.
Qed.

Lemma existsb_not_elem {A B} `{EqDecision B} (g : A → B) k l :
  existsb (λ x, bool_decide (g x = k)) l = false → k ∉ g <$> l.
Proof.
  rewrite existsb_false. intros H (x & -> & Hx)%list_elem_of_fmap.
  specialize (H x Hx). by rewrite bool_decide_eq_true_2 in H.
Qed.

Lemma evolves_users l d :
  rows_le user_le (db_users d) l →
  (db_ok d → NoDup (u_ID <$> l) ∧ NoDup (u_Email <$> l) ∧ (u_ID <$> db_users d) ⊆ (u_ID <$> l)) →
  db_evolves d (set_users l d).
Proof.
  intros Hle Hok. split; [by split|]. intros Hd. destruct (Hok Hd) as (H1 & H2 & H3).
  destruct Hd; split; try done. simpl. eapply Forall_impl; [done|]. simpl. auto.
Qed.

Lemma evolves_identities l d :
  rows_le eq (db_external_identities d) l →
  (db_ok d → NoDup (ei_ID <$> l) ∧ NoDup ((λ e, (ei_Provider e, ei_ProviderUserID e)) <$> l) ∧
     Forall (λ e, ei_UserID e ∈ u_ID <$> db_users d) l) →
  db_evolves d (set_external_identities l d).
Proof.
  intros Hle Hok. split; [by split|]. intros Hd. destruct (Hok Hd) as (H1 & H2 & H3).
  by destruct Hd; split.
Qed.

Lemma evolves_accounts l d :
  rows_le account_le (db_service_accounts d) l →
  (db_ok d → NoDup (sa_ID <$> l) ∧ NoDup (sa_Name <$> l) ∧
     (sa_ID <$> db_service_accounts d) ⊆ (sa_ID <$> l)) →
  db_evolves d (set_service_accounts l d).
Proof.
  intros Hle Hok. split; [by split|]. intros Hd. destruct (Hok Hd) as (H1 & H2 & H3).
  destruct Hd; split; try done. simpl. eapply Forall_impl; [done|]. simpl. auto.
Qed.

Lemma evolves_credentials l d :
  rows_le credential_le (db_credentials d) l →
  (db_ok d → NoDup (cr_ID <$> l) ∧ NoDup (cr_SecretHash <$> l) ∧
     Forall (λ c, cr_ServiceAccountID c ∈ sa_ID <$> db_service_accounts d) l) →
  db_evolves d (set_credentials l d).
Proof.
  intros Hle Hok. split; [by split|]. intros Hd. destruct (Hok Hd) as (H1 & H2 & H3).
  by destruct Hd; split.
Qed.

Lemma evolves_read d : db_evolves d d.
Proof. reflexivity. Qed.
End invariant.

#[export] Hint Resolve evolves_read : go.

Section statement_lemmas.
Context `{P : Platform}.

Lemma fmap_map_if_subseteq {A B} (g : A → B) p f l :
  (∀ x, x ∈ l → p x = true → g (f x) = g x) → (g <$> l) ⊆ (g <$> map_if p f l).
Proof. intros H. by rewrite map_if_fmap. Qed.

Lemma createUser_evolves id c u e hp h ll : statement (createUser id c u e hp h ll).
Proof.
  intros d. unfold createUser. case_match eqn:Hid; [reflexivity|].
  case_match eqn:He; [reflexivity|]. simpl. apply evolves_users.
  - apply rows_le_app, _.
  - intros Hd. repeat split.
    + apply NoDup_insert; [apply Hd|]. by apply existsb_not_elem.
    + apply NoDup_insert; [apply Hd|]. by apply existsb_not_elem.
    + rewrite fmap_app. intros x Hx. apply elem_of_app. by left.
Qed.

(** An UPDATE of live users that leaves the identifier and the email alone. *)
Lemma update_users_evolves id f d :
  (∀ u, u_ID (f u) = u_ID u ∧ u_CreatedAt (f u) = u_CreatedAt u ∧ u_Email (f u) = u_Email u) →
  db_evolves d (set_users (map_if (live_with_id id) f (db_users d)) d).
Proof.
  intros Hf. apply evolves_users.
  - apply rows_le_map_if; [apply _|]. intros u Hu.
    apply andb_true_iff in Hu as [_ Hu]. split; [apply Hf|]. split; [apply Hf|]. by rewrite Hu.
  - intros Hd. rewrite !map_if_fmap by (intros; apply Hf). repeat split; try apply Hd. done.
Qed.

Lemma setUserPassword_evolves hp u id : statement (setUserPassword hp u id).
Proof. intros d. by apply update_users_evolves. Qed.

Lemma softDeleteUser_evolves dl u id : statement (softDeleteUser dl u id).
Proof. intros d. by apply update_users_evolves. Qed.

Lemma filter_pos {A} (p : A → bool) l :
  0 < Z.of_nat (length (List.filter p l)) ↔ existsb p l = true.
Proof.
  induction l as [|x l IH]; simpl; [lia|]. destruct (p x); simpl; [lia|exact IH].
Qed.

(** Giving the row of an identifier an email no other row has. *)
Lemma NoDup_set_email id e (f : User → User) l :
  (∀ u, u_Email (f u) = e) → NoDup (u_ID <$> l) → NoDup (u_Email <$> l) →
  (∀ u, u ∈ l → bool_decide (u_Email u = e) && negb (live_with_id id u) = false) →
  NoDup (u_Email <$> map_if (live_with_id id) f l).
Proof.
  intros Hf Hid He Hc. induction l as [|x l IH]; [constructor|].
  cbn [map_if map fmap list_fmap]. rewrite !fmap_cons in Hid, He.
  apply NoDup_cons in Hid as [Hidx Hid]. apply NoDup_cons in He as [Hex He].
  assert (∀ y, y ∈ l → live_with_id id x = true → live_with_id id y = false) as Huniq.
  { intros y Hy [Hx%bool_decide_eq_true _]%andb_true_iff. apply andb_false_iff. left.
    apply bool_decide_eq_false. intros Heq. apply Hidx. rewrite Hx, <-Heq.
    by apply list_elem_of_fmap_2. }
  apply NoDup_cons. split; [|apply IH; [done..|by intros y Hy; apply Hc; right]].
  intros (y & Hy & Hyin)%list_elem_of_fmap. apply elem_of_map_if in Hyin as (z & Hz & ->).
  pose proof (Hc x ltac:(left)) as Hcx. pose proof (Hc z ltac:(by right)) as Hcz.
  destruct (live_with_id id x) eqn:Hlx.
  - rewrite (Huniq z Hz eq_refl) in *. rewrite Hf in Hy. simpl in *.
    rewrite andb_true_r in Hcz. apply bool_decide_eq_false in Hcz. done.
  - simpl in Hcx. rewrite andb_true_r in Hcx. apply bool_decide_eq_false in Hcx.
    destruct (live_with_id id z); simpl in *; [by rewrite Hf in Hy|]. apply Hex. rewrite Hy.
    by apply list_elem_of_fmap_2.
Qed.

Lemma updateUser_evolves e hp h ll u id : statement (updateUser e hp h ll u id).
Proof.
  intros d. unfold updateUser, update_rows. case_match eqn:Hc; [reflexivity|]. simpl. apply evolves_users.
  - apply rows_le_map_if; [apply _|]. intros x Hx.
    apply andb_true_iff in Hx as [_ Hx]. do 2 (split; [done|]). by rewrite Hx.
  - intros Hd. rewrite (map_if_fmap u_ID) by done. repeat split; [apply Hd| |done].
    destruct (existsb (live_with_id id) (db_users d)) eqn:Hex.
    2: { rewrite existsb_false in Hex. rewrite map_if_none by done. apply Hd. }
    apply filter_pos in Hex. rewrite (proj2 (Z.ltb_lt _ _) Hex) in Hc. simpl in Hc.
    rewrite existsb_false in Hc.
    apply (NoDup_set_email id e); [done|apply Hd|apply Hd|done].
Qed.

Lemma createExternalIdentity_evolves id u pr pu c up :
  statement (createExternalIdentity id u pr pu c up).
Proof.
  intros d. unfold createExternalIdentity. case_match eqn:Hid; [reflexivity|].
  case_match eqn:Hp; [reflexivity|]. case_match eqn:Hu; [reflexivity|]. simpl.
  apply evolves_identities; [apply rows_le_app; by intros ?|]. intros Hd. repeat split.
  - apply NoDup_insert; [apply Hd|]. by apply existsb_not_elem.
  - apply NoDup_insert; [apply Hd|]. simpl. intros (x & Heq & Hx)%list_elem_of_fmap.
    rewrite existsb_false in Hp. specialize (Hp x Hx). simplify_eq.
    by rewrite !bool_decide_eq_true_2 in Hp.
  - apply Forall_app. split; [apply Hd|]. apply Forall_singleton. simpl.
    apply negb_false_iff, existsb_true in Hu as (x & Hx & Heq%bool_decide_eq_true). rewrite <-Heq.
    by apply list_elem_of_fmap_2.
Qed.

Lemma insert_service_account_evolves id n s c u : statement (insert_service_account id n s c u).
Proof.
  intros d. unfold insert_service_account. case_match eqn:Hid; [reflexivity|].
  case_match eqn:He; [reflexivity|]. simpl. apply evolves_accounts.
  - apply rows_le_app, _.
  - intros Hd. repeat split.
    + apply NoDup_insert; [apply Hd|]. by apply existsb_not_elem.
    + apply NoDup_insert; [apply Hd|]. by apply existsb_not_elem.
    + rewrite fmap_app. intros x Hx. apply elem_of_app. by left.
Qed.

Lemma insert_credential_evolves id a h c : statement (insert_credential id a h c).
Proof.
  intros d. unfold insert_credential. case_match eqn:Hid; [reflexivity|].
  case_match eqn:Hh; [reflexivity|]. case_match eqn:Ha; [reflexivity|]. simpl.
  apply evolves_credentials; [apply rows_le_app, _|]. intros Hd. repeat split.
  - apply NoDup_insert; [apply Hd|]. by apply existsb_not_elem.
  - apply NoDup_insert; [apply Hd|]. by apply existsb_not_elem.
  - apply Forall_app. split; [apply Hd|]. apply Forall_singleton. simpl.
    apply negb_false_iff, existsb_true in Ha as (x & Hx & Heq%bool_decide_eq_true). rewrite <-Heq.
    by apply list_elem_of_fmap_2.
Qed.

Lemma update_disabled_at_evolves now id : statement (update_disabled_at now id).
Proof.
  intros d. apply evolves_accounts.
  - apply rows_le_map_if; [apply _|]. intros a Ha. apply andb_true_iff in Ha as [_ Ha].
    repeat (split; [done|]). by rewrite Ha.
  - intros Hd. rewrite !map_if_fmap by done. repeat split; try apply Hd. done.
Qed.

Lemma update_revoked_at_evolves now id : statement (update_revoked_at now id).
Proof.
  intros d. apply evolves_credentials.
  - apply rows_le_map_if; [apply _|]. intros a Ha. apply andb_true_iff in Ha as [_ Ha].
    repeat (split; [done|]). by rewrite Ha.
  - intros Hd. rewrite !map_if_fmap by done. repeat split; try apply Hd.
    pose proof (ok_credentials_account _ Hd) as Hfk. rewrite Forall_forall in *.
    intros x (y & Hy & ->)%elem_of_map_if. specialize (Hfk y Hy). by case_match.
Qed.

Lemma upsert_state_evolves k v u : statement (upsert_state k v u).
Proof.
  intros d. unfold upsert_state. simpl. split.
  - split; try reflexivity. simpl. case_match; [|apply rows_le_app, _].
    apply rows_le_map_if; [apply _|]. intros s Hs%bool_decide_eq_true. by red.
  - intros Hd. assert (NoDup (ss_Key <$> (if existsb (λ s, bool_decide (ss_Key s = k)) (db_system_state d)
      then map_if (λ s, bool_decide (ss_Key s = k)) (λ _, mkSystemState k v u) (db_system_state d)
      else db_system_state d ++ [mkSystemState k v u]))) as Hnd.
    { case_match eqn:Hex.
      - rewrite map_if_fmap; [apply Hd|]. by intros s _ Hs%bool_decide_eq_true.
      - apply NoDup_insert; [apply Hd|]. by apply existsb_not_elem. }
    by destruct Hd; split.
Qed.

Lemma insert_audit_evolves r : statement (insert_audit r).
Proof.
  intros d. unfold insert_audit. case_match eqn:Hid; [reflexivity|]. simpl. split.
  - split; try reflexivity. apply rows_le_app. by intros ?.
  - intros Hd. assert (NoDup (ar_ID <$> db_audit_events d ++ [r])) as Hnd.
    { apply NoDup_insert; [apply Hd|]. by apply existsb_not_elem. }
    by destruct Hd; split.
Qed.
End statement_lemmas.

#[export] Hint Resolve createUser_evolves setUserPassword_evolves softDeleteUser_evolves
  updateUser_evolves createExternalIdentity_evolves insert_service_account_evolves
  insert_credential_evolves update_disabled_at_evolves update_revoked_at_evolves
  upsert_state_evolves insert_audit_evolves : go.
