(* ===== verification/Migrations.v ===== *)
(** * The database file, internal/store/sqlite/database.go

    The schema of the database with its user_version, the embedded migration
    scripts (internal/store/sqlite/migrations), and [applyMigrations], which runs
    the scripts the file has not seen, each in a transaction that also moves the
    version on.  A connection that is lost, or a process that is killed, loses the
    transaction it has open. *)

From S2P Require Import Prelude GoStrings Prog Data Platform RefPlatform.
From Stdlib Require Import Ascii.
#[local] Open Scope Z_scope.

(** ** Schemas *)

(** CREATE TABLE IF NOT EXISTS with the text of each column and constraint, and
    CREATE INDEX IF NOT EXISTS. *)
Inductive ddl :=
  | CreateTable (name : string) (columns : list string)
  | CreateIndex (name table : string) (columns : list string).

Record Schema := mkSchema {
  sch_tables : gmap string (list string);
  sch_indexes : gmap string (string * list string);
}.

#[export] Instance Schema_eq_dec : EqDecision Schema.
Proof. solve_decision. Defined.

Definition empty_schema : Schema := mkSchema ∅ ∅.

Definition exec_ddl (stmt : ddl) (s : Schema) : result Schema :=
  match stmt with
  | CreateTable name columns =>
      Ok (match sch_tables s !! name with
          | Some _ => s
          | None => mkSchema (<[name := columns]> (sch_tables s)) (sch_indexes s)
          end)
  | CreateIndex name table columns =>
      match sch_tables s !! table with
      | None => Err (errors_New ("no such table: main." +:+ table))
      | Some _ =>
          Ok (match sch_indexes s !! name with
              | Some _ => s
              | None => mkSchema (sch_tables s) (<[name := (table, columns)]> (sch_indexes s))
              end)
      end
  end.

Fixpoint exec_script (script : list ddl) (s : Schema) : result Schema :=
  match script with
  | [] => Ok s
  | stmt :: script => s ← exec_ddl stmt s; exec_script script s
  end.

(** migrations/001_initial.sql *)
Definition script_001 : list ddl :=
  [CreateTable "users"
     ["id TEXT PRIMARY KEY NOT NULL"; "created_at DATETIME NOT NULL"; "updated_at DATETIME NOT NULL";
      "deleted_at DATETIME"; "email TEXT NOT NULL UNIQUE"; "hashed_password TEXT"; "hash TEXT";
      "last_login_at DATETIME"];
   CreateIndex "idx_users_deleted_at" "users" ["deleted_at"];
   CreateTable "external_identities"
     ["id TEXT PRIMARY KEY NOT NULL"; "user_id TEXT NOT NULL"; "provider TEXT NOT NULL";
      "provider_user_id TEXT NOT NULL"; "created_at DATETIME NOT NULL";
      "updated_at DATETIME NOT NULL"; "deleted_at DATETIME";
      "CONSTRAINT idx_external_identities_provider_provider_user_id UNIQUE (provider, provider_user_id)";
      "FOREIGN KEY (user_id) REFERENCES users (id)"];
   CreateIndex "idx_external_identities_user_id" "external_identities" ["user_id"];
   CreateIndex "idx_external_identities_deleted_at" "external_identities" ["deleted_at"]].

(** migrations/002_service_accounts.sql *)
Definition script_002 : list ddl :=
  [CreateTable "service_accounts"
     ["id TEXT PRIMARY KEY NOT NULL"; "name TEXT NOT NULL UNIQUE"; "scopes TEXT NOT NULL";
      "created_at DATETIME NOT NULL"; "updated_at DATETIME NOT NULL"; "disabled_at DATETIME"];
   CreateTable "service_account_credentials"
     ["id TEXT PRIMARY KEY NOT NULL"; "service_account_id TEXT NOT NULL";
      "secret_hash TEXT NOT NULL UNIQUE"; "created_at DATETIME NOT NULL"; "expires_at DATETIME";
      "revoked_at DATETIME"; "FOREIGN KEY (service_account_id) REFERENCES service_accounts (id)"];
   CreateIndex "idx_service_account_credentials_account_id" "service_account_credentials"
     ["service_account_id"];
   CreateTable "system_state"
     ["key TEXT PRIMARY KEY NOT NULL"; "value TEXT NOT NULL"; "updated_at DATETIME NOT NULL"]].

(** migrations/003_audit_events.sql *)
Definition script_003 : list ddl :=
  [CreateTable "audit_events"
     ["id TEXT PRIMARY KEY NOT NULL"; "occurred_at DATETIME NOT NULL"; "actor_type TEXT NOT NULL";
      "actor_id TEXT NOT NULL"; "action TEXT NOT NULL"; "resource_type TEXT NOT NULL";
      "resource_id TEXT NOT NULL"; "metadata TEXT NOT NULL DEFAULT '{}'"];
   CreateIndex "idx_audit_events_occurred_at" "audit_events" ["occurred_at DESC"];
   CreateIndex "idx_audit_events_actor" "audit_events" ["actor_type"; "actor_id"]].

(** A file of the embedded directory. *)
Record DirEntry := mkDirEntry {
  en_Name : string;
  en_IsDir : bool;
  en_Script : result (list ddl);
}.

Definition migrationFiles : result (list DirEntry) :=
  Ok [mkDirEntry "001_initial.sql" false (Ok script_001);
      mkDirEntry "002_service_accounts.sql" false (Ok script_002);
      mkDirEntry "003_audit_events.sql" false (Ok script_003)].

(** ** The file and its connection *)

Record DbFile := mkDbFile {
  dbf_step : nat;
  dbf_version : Z;
  dbf_schema : Schema;
  dbf_tx : option (Z * Schema);
}.

Definition CurrentSchemaVersion : Z := 3.

Section migrations.
Context `{P : Platform}.

Abbreviation D := (prog DbFile).

Definition set_tx (tx : option (Z * Schema)) (d : DbFile) : DbFile :=
  mkDbFile (dbf_step d) (dbf_version d) (dbf_schema d) tx.
Definition commit_tx (d : DbFile) : DbFile :=
  match dbf_tx d with
  | Some (v, s) => mkDbFile (dbf_step d) v s None
  | None => d
  end.
Definition dbf_tick (d : DbFile) : DbFile :=
  mkDbFile (S (dbf_step d)) (dbf_version d) (dbf_schema d) (dbf_tx d).

(** A call to the database: [part] is what a lost reply leaves. *)
Definition file_call {A} (part : DbFile → DbFile) (f : DbFile → result A * DbFile) : D (result A) :=
  act (λ d, match env_fault (dbf_step d) with
            | None => let '(r, d') := f d in (r, dbf_tick d')
            | Some ft => (Err (errors_New (fault_msg ft)),
                          dbf_tick (if fault_applied ft then part d else d))
            end).

Definition query_user_version : D (result Z) := file_call id (λ d, (Ok (dbf_version d), d)).
Definition file_Begin : D (result unit) :=
  file_call id (λ d, (Ok tt, set_tx (Some (dbf_version d, dbf_schema d)) d)).
Definition file_Rollback : D (result unit) := file_call id (λ d, (Ok tt, set_tx None d)).
Definition file_Exec (script : list ddl) : D (result unit) :=
  file_call id (λ d,
    match dbf_tx d with
    | None => (Err (errors_New "sql: transaction has already been committed or rolled back"), d)
    | Some (v, s) =>
        match exec_script script s with
        | Ok s' => (Ok tt, set_tx (Some (v, s')) d)
        | Err err => (Err err, d)
        end
    end).
Definition file_set_version (version : Z) : D (result unit) :=
  file_call id (λ d,
    match dbf_tx d with
    | None => (Err (errors_New "sql: transaction has already been committed or rolled back"), d)
    | Some (_, s) => (Ok tt, set_tx (Some (version, s)) d)
    end).
(** A failed COMMIT leaves no transaction open, whether it took effect or not. *)
Definition file_Commit : D (result unit) :=
  act (λ d, match env_fault (dbf_step d) with
            | None => (Ok tt, dbf_tick (commit_tx d))
            | Some ft => (Err (errors_New (fault_msg ft)),
                          dbf_tick (if fault_applied ft then commit_tx d else set_tx None d))
            end).

(** ** applyMigrations *)

(** One pending script: its transaction. *)
Definition apply_script (name : string) (version : Z) (script : list ddl) : D (result unit) :=
  try _ := file_Begin catch wrap_with ("begin sqlite migration " +:+ name) in
  try _ := file_Exec script
    catch λ err, _ ← file_Rollback; wrap_with ("apply sqlite migration " +:+ name) err in
  try _ := file_set_version version
    catch λ err, _ ← file_Rollback; wrap_with ("record sqlite migration " +:+ name) err in
  try _ := file_Commit catch wrap_with ("commit sqlite migration " +:+ name) in
  Ret (Ok tt).

(** The loop over the entries; it returns lastVersion. *)
Fixpoint migrate (entries : list DirEntry) (currentVersion lastVersion : Z) : D (result Z) :=
  match entries with
  | [] => Ret (Ok lastVersion)
  | entry :: entries =>
      if en_IsDir entry || negb (HasSuffix (en_Name entry) ".sql")
      then migrate entries currentVersion lastVersion else
      let '(prefix, ok) := cut_before "_"%char (en_Name entry) in
      if negb ok then Ret (Err (errors_New ("invalid sqlite migration filename " +:+
                                            Quote (en_Name entry)))) else
      match Atoi prefix with
      | Some version =>
          if negb (version =? lastVersion + 1)
          then Ret (Err (errors_New ("sqlite migration " +:+ Quote (en_Name entry) +:+
                 " is not the next sequential version after " +:+ Itoa lastVersion)))
          else if version <=? currentVersion then migrate entries currentVersion version
          else match en_Script entry with
               | Err err => wrap_with ("read sqlite migration " +:+ en_Name entry) err
               | Ok script =>
                   try _ := apply_script (en_Name entry) version script in
                   migrate entries currentVersion version
               end
      | None => Ret (Err (errors_New ("sqlite migration " +:+ Quote (en_Name entry) +:+
                  " is not the next sequential version after " +:+ Itoa lastVersion)))
      end
  end.

Definition entry_le (a b : DirEntry) : Prop := String.le (en_Name a) (en_Name b).
#[local] Instance entry_le_dec : RelDecision entry_le.
Proof. intros a b. unfold entry_le. apply _. Defined.

Definition applyMigrations (files : result (list DirEntry)) : D (result unit) :=
  try currentVersion := query_user_version catch wrap_with "read sqlite schema version" in
  if CurrentSchemaVersion <? currentVersion
  then Ret (Err (errors_New ("sqlite schema version " +:+ Itoa currentVersion +:+
              " is newer than supported version " +:+ Itoa CurrentSchemaVersion))) else
  match files with
  | Err err => wrap_with "read embedded sqlite migrations" err
  | Ok entries =>
      try lastVersion := migrate (merge_sort entry_le entries) currentVersion 0 in
      if negb (lastVersion =? CurrentSchemaVersion)
      then Ret (Err (errors_New ("embedded sqlite schema version is " +:+ Itoa lastVersion +:+
                  ", expected " +:+ Itoa CurrentSchemaVersion)))
      else Ret (Ok tt)
  end.
End migrations.

(** ** Specification *)

(** The schema of each version. *)
Definition schema_at (v : Z) : option Schema :=
  if v =? 0 then Some empty_schema else
  match (if v =? 1 then exec_script script_001 empty_schema
         else if v =? 2 then exec_script (script_001 ++ script_002) empty_schema
         else if v =? 3 then exec_script (script_001 ++ script_002 ++ script_003) empty_schema
         else Err (errors_New "")) with
  | Ok s => Some s
  | Err _ => None
  end.

Definition result_to_option {A} (r : result A) : option A :=
  match r with Ok a => Some a | Err _ => None end.

Section spec.
Context `{P : Platform}.

(** The file is at a version, and has that version's schema. *)
Definition at_version (v : Z) (d : DbFile) : Prop :=
  dbf_version d = v ∧ schema_at v = Some (dbf_schema d).

(** At one of the versions from [lo] to the current one. *)
Definition between (lo : Z) (d : DbFile) : Prop :=
  ∃ v, lo ≤ v ≤ CurrentSchemaVersion ∧ at_version v d.

Lemma wpc_file_call {A} part (f : DbFile → result A * DbFile) I Q d :
  I d →
  (env_fault (dbf_step d) = None → I (dbf_tick (f d).2) ∧ Q (f d).1 (dbf_tick (f d).2)) →
  (∀ msg, env_fault (dbf_step d) ≠ None →
     I (dbf_tick (part d)) ∧ Q (Err (errors_New msg)) (dbf_tick (part d)) ∧
     I (dbf_tick d) ∧ Q (Err (errors_New msg)) (dbf_tick d)) →
  wpc (file_call part f) I Q d.
Proof.
  intros Hd Hok Hfault. unfold file_call. apply wpc_act; [done| |].
  all: destruct (env_fault (dbf_step d)) as [ft|] eqn:Hf.
  1,3: destruct (Hfault (fault_msg ft) ltac:(done)) as (? & ? & ? & ?); by destruct (fault_applied ft).
  all: destruct (f d) as [r d']; by apply Hok.
Qed.

(** What is on the disk. *)
Definition same_file (d d' : DbFile) : Prop :=
  dbf_version d' = dbf_version d ∧ dbf_schema d' = dbf_schema d.

Lemma at_version_same v d d' : same_file d d' → at_version v d → at_version v d'.
Proof. intros [H1 H2] [H3 H4]. split; congruence. Qed.

Definition calm_file : Prop := ∀ i, env_fault i = None.

(** A call within a transaction. *)
Lemma wpc_in_tx {A} (f : DbFile → result A * DbFile) I v lo d (Q : result A → DbFile → Prop) :
  I = between lo → lo ≤ v ≤ CurrentSchemaVersion → at_version v d →
  (∀ d, same_file d (f d).2) →
  (env_fault (dbf_step d) = None → Q (f d).1 (dbf_tick (f d).2)) →
  (∀ msg d', ¬ calm_file → at_version v d' → Q (Err (errors_New msg)) d') →
  wpc (file_call id f) I Q d.
Proof.
  intros -> Hlo Hat Hsame Hok Hfault.
  assert (between lo d) as Hd by (by exists v). apply wpc_file_call; [done| |].
  - intros Hf. split; [|auto]. exists v. split; [done|].
    by apply (at_version_same v d); [apply (Hsame d)|].
  - intros msg Hf. assert (¬ calm_file) as Hc by (intros H; by rewrite H in Hf).
    split_and!; [done| |done|]; by apply Hfault.
Qed.

Lemma wpc_rollback_and_fail v lo name err d :
  lo ≤ v ≤ CurrentSchemaVersion → at_version v d →
  wpc (_ ← file_Rollback; wrap_with (A:=unit) name err) (between lo)
    (λ r d', match r with Ok _ => False | Err _ => at_version v d' end) d.
Proof.
  intros Hlo Hat. apply wpc_mbind.
  apply (wpc_in_tx _ _ v lo); [done|done|done|done| |].
  - intros _. apply wpc_ret; [by exists v|done].
  - intros msg d' _ Hd'. apply wpc_ret; [by exists v|done].
Qed.

(** One script takes the file from a version to the next, or leaves it at
    one of the two. *)
Lemma apply_script_spec lo v name script s d :
  lo ≤ v < CurrentSchemaVersion → at_version v d →
  exec_script script (dbf_schema d) = Ok s → schema_at (v + 1) = Some s →
  wpc (apply_script name (v + 1) script) (between lo)
    (λ r d', match r with
             | Ok _ => at_version (v + 1) d'
             | Err _ => between lo d' ∧ ¬ calm_file
             end) d.
Proof.
  intros Hlo Hat Hexec Hs. unfold apply_script.
  assert (lo ≤ v ≤ CurrentSchemaVersion) as Hlo' by lia.
  assert (∀ name err d', ¬ calm_file → at_version v d' →
    wpc (_ ← file_Rollback; wrap_with (A:=unit) name err) (between lo)
      (λ r d', match r with Ok _ => at_version (v + 1) d' | Err _ => between lo d' ∧ ¬ calm_file end) d')
    as Hfail.
  { intros n err d' Hc Hd'. eapply wpc_mono; [by apply (wpc_rollback_and_fail v)|].
    intros [|e] d'' H; [done|]. split; [by exists v|done]. }
  apply wpc_catch. apply (wpc_in_tx _ _ v lo); [done|done|done|done| |].
  2: { intros msg d' Hc Hd'. apply wpc_ret; [by exists v|]. split; [by exists v|done]. }
  intros _. cbn [fst snd]. set (d1 := dbf_tick _).
  assert (at_version v d1) as H1 by done.
  assert (dbf_tx d1 = Some (dbf_version d, dbf_schema d)) as Ht1 by done. clearbody d1.
  apply wpc_catch. apply (wpc_in_tx _ _ v lo); [done|done|done| | |].
  { intros d'. cbn beta. destruct (dbf_tx d') as [[v0 s0]|]; [|done].
    by destruct (exec_script script s0). }
  2: { intros msg d' Hc Hd'. by apply Hfail. }
  intros _. cbn beta. rewrite Ht1, Hexec. cbn [fst snd].
  set (d2 := dbf_tick _). assert (at_version v d2) as H2 by done.
  assert (dbf_tx d2 = Some (dbf_version d, s)) as Ht2 by done. clearbody d2.
  apply wpc_catch. apply (wpc_in_tx _ _ v lo); [done|done|done| | |].
  { intros d'. cbn beta. by destruct (dbf_tx d') as [[]|]. }
  2: { intros msg d' Hc Hd'. by apply Hfail. }
  intros _. cbn beta. rewrite Ht2. cbn [fst snd]. set (d3 := dbf_tick _).
  assert (at_version v d3) as H3 by done.
  assert (at_version (v + 1) (commit_tx d3)) as Hc by (by split). clearbody d3.
  apply wpc_catch. apply wpc_act; [by exists v| |].
  all: destruct (env_fault (dbf_step d3)) as [ft|] eqn:Hf.
  - destruct (fault_applied ft); cbn [snd]; [exists (v + 1)|exists v]; (split; [lia|done]).
  - exists (v + 1). split; [lia|done].
  - assert (¬ calm_file) as Hnc by (intros H; by rewrite H in Hf).
    cbn [fst snd]. apply wpc_ret.
    + destruct (fault_applied ft); [exists (v + 1)|exists v]; (split; [lia|done]).
    + split; [|done]. destruct (fault_applied ft); [exists (v + 1)|exists v]; (split; [lia|done]).
  - apply wpc_ret; [|done]. exists (v + 1). split; [lia|done].
Qed.

Lemma migrate_sql name prefix version script rest currentVersion lastVersion :
  HasSuffix name ".sql" = true → cut_before "_"%char name = (prefix, true) →
  Atoi prefix = Some version → version = lastVersion + 1 →
  migrate (mkDirEntry name false (Ok script) :: rest) currentVersion lastVersion =
    if version <=? currentVersion then migrate rest currentVersion version
    else try _ := apply_script name version script in migrate rest currentVersion version.
Proof.
  intros Hsuf Hcut Ha ->. cbn [migrate en_IsDir en_Name en_Script orb].
  by rewrite Hsuf, Hcut, Ha, Z.eqb_refl.
Qed.

(** A script of the sequence: skipped when the file has seen it, applied
    otherwise. *)
Lemma wpc_migrate_step v0 last name prefix script rest d (Q : result Z → DbFile → Prop) :
  HasSuffix name ".sql" = true → cut_before "_"%char name = (prefix, true) →
  Atoi prefix = Some (last + 1) →
  (∀ s, schema_at last = Some s → ∃ s', exec_script script s = Ok s' ∧ schema_at (last + 1) = Some s') →
  v0 ≤ CurrentSchemaVersion → last < CurrentSchemaVersion → at_version (v0 `max` last) d →
  (∀ d', at_version (v0 `max` (last + 1)) d' →
     wpc (migrate rest v0 (last + 1)) (between v0) Q d') →
  (∀ e d', between v0 d' → ¬ calm_file → Q (Err e) d') →
  wpc (migrate (mkDirEntry name false (Ok script) :: rest) v0 last) (between v0) Q d.
Proof.
  intros Hsuf Hcut Ha Hscript Hv0 Hlast Hat Hrest Hfail.
  rewrite (migrate_sql _ _ _ _ _ _ _ Hsuf Hcut Ha eq_refl).
  destruct (Z.leb_spec (last + 1) v0) as [Hle|Hlt].
  - apply Hrest. by replace (v0 `max` (last + 1)) with (v0 `max` last) by lia.
  - replace (v0 `max` last) with last in Hat by lia.
    destruct Hat as [Hv Hs]. destruct (Hscript _ Hs) as (s' & Hexec & Hs').
    apply wpc_try. eapply wpc_mono; [apply (apply_script_spec v0 last _ _ s'); [lia|by split|done|done]|].
    intros [_|e] d' H; [|destruct H; auto].
    apply Hrest. by replace (v0 `max` (last + 1)) with (last + 1) by lia.
Qed.

Lemma wpc_migrate_all v d :
  0 ≤ v ≤ CurrentSchemaVersion → at_version v d →
  wpc (migrate [mkDirEntry "001_initial.sql" false (Ok script_001);
                mkDirEntry "002_service_accounts.sql" false (Ok script_002);
                mkDirEntry "003_audit_events.sql" false (Ok script_003)] v 0)
    (between v)
    (λ r d', match r with
             | Ok last => last = CurrentSchemaVersion ∧ at_version CurrentSchemaVersion d'
             | Err _ => between v d' ∧ ¬ calm_file
             end) d.
Proof.
  intros Hv Hat. unfold CurrentSchemaVersion in *.
  assert (∀ last name prefix script rest d1 Q,
    HasSuffix name ".sql" = true → cut_before "_"%char name = (prefix, true) →
    Atoi prefix = Some (last + 1) →
    bool_decide (schema_at (last + 1) = (schema_at last ≫= λ s, result_to_option (exec_script script s)))
      && negb (is_None (schema_at (last + 1))) = true →
    last < 3 → at_version (v `max` last) d1 →
    (∀ d', at_version (v `max` (last + 1)) d' →
       wpc (migrate rest v (last + 1)) (between v) Q d') →
    (∀ e d', between v d' → ¬ calm_file → Q (Err e) d') →
    wpc (migrate (mkDirEntry name false (Ok script) :: rest) v last) (between v) Q d1) as Hstep.
  { intros last name prefix script rest d1 Q H1 H2 H3 H4 H6 H7 H8 H9.
    apply andb_true_iff in H4 as [H4%bool_decide_eq_true H5%negb_true_iff].
    apply (wpc_migrate_step v last name prefix); try done; unfold CurrentSchemaVersion; try lia.
    intros s Hs. rewrite Hs in H4. cbn in H4. destruct (exec_script script s) as [s'|]; cbn in H4.
    - exists s'. by rewrite H4.
    - by rewrite H4 in H5. }
  apply (Hstep 0 _ "001");
    [by vm_compute|by vm_compute|by vm_compute|by vm_compute|done|by rewrite Z.max_l by lia| |done].
  intros d1 H1. change (0 + 1) with 1 in *. apply (Hstep 1 _ "002");
    [by vm_compute|by vm_compute|by vm_compute|by vm_compute|done|done| |done].
  intros d2 H2. change (1 + 1) with 2 in *. apply (Hstep 2 _ "003");
    [by vm_compute|by vm_compute|by vm_compute|by vm_compute|done|done| |done].
  intros d3 H3. change (2 + 1) with 3 in *. rewrite Z.max_r in H3 by lia.
  apply wpc_ret; [|done]. exists 3. split; [unfold CurrentSchemaVersion; lia|done].
Qed.

Lemma wpc_applyMigrations v d :
  0 ≤ v ≤ CurrentSchemaVersion → at_version v d →
  wpc (applyMigrations migrationFiles) (between v)
    (λ r d', match r with
             | Ok _ => at_version CurrentSchemaVersion d'
             | Err _ => between v d' ∧ ¬ calm_file
             end) d.
Proof.
  intros Hv Hat.
  assert (∀ d', at_version v d' → between v d') as Hb by (intros d' H; exists v; split; [lia|done]).
  unfold applyMigrations. apply wpc_catch.
  apply (wpc_in_tx _ _ v v); [done|split; [done|lia]|done|done| |].
  2: { intros msg d' Hc Hd'. apply wpc_ret; auto. }
  intros _. cbn beta iota. cbn [fst snd]. destruct Hat as [Hver Hsch]. rewrite Hver.
  rewrite (proj2 (Z.ltb_ge _ _)) by lia. unfold migrationFiles.
  replace (merge_sort entry_le _) with
    [mkDirEntry "001_initial.sql" false (Ok script_001);
     mkDirEntry "002_service_accounts.sql" false (Ok script_002);
     mkDirEntry "003_audit_events.sql" false (Ok script_003)] by (by vm_compute).
  apply wpc_try. eapply wpc_mono; [apply wpc_migrate_all; [done|by split]|].
  intros [last|e] d' H; [|destruct H; auto]. destruct H as [-> H].
  apply wpc_ret; [|done]. exists CurrentSchemaVersion. split; [lia|done].
Qed.

(** C24.  Upgrading the database, from any schema version this build knows: at every
    moment, whatever call fails or wherever the process is killed, the file is at a
    version between the one it had and the current one, with exactly that version's
    schema; a successful return means it is at the current version; and without
    failures it succeeds, so an interrupted upgrade can be taken up again. *)
Theorem applyMigrations_spec v d (Hv : 0 ≤ v ≤ CurrentSchemaVersion) (Hat : at_version v d) :
  Forall (between v) (trace (applyMigrations migrationFiles) d) ∧
  let '(r, d') := run (applyMigrations migrationFiles) d in
  between v d' ∧ (r = Ok tt → at_version CurrentSchemaVersion d') ∧ (calm_file → r = Ok tt).
Proof.
  apply (wpc_mono (applyMigrations migrationFiles) (between v)
    (λ r d', match r with
             | Ok _ => at_version CurrentSchemaVersion d'
             | Err _ => between v d' ∧ ¬ calm_file
             end) (λ r d', between v d' ∧ (r = Ok tt → at_version CurrentSchemaVersion d') ∧
                           (calm_file → r = Ok tt))); [by apply wpc_applyMigrations|].
  intros [[]|e] d'; [|naive_solver]. intros H. split_and!; [|done|done].
  exists CurrentSchemaVersion. split; [lia|done].
Qed.

(** A file written by a newer build is refused and left alone, whatever
    migrations the build has. *)
Theorem applyMigrations_newer files d (Hv : CurrentSchemaVersion < dbf_version d) :
  let '(r, d') := run (applyMigrations files) d in is_Ok r = false ∧ same_file d d'.
Proof.
  unfold applyMigrations. rewrite run_catch. cbn.
  destruct (env_fault (dbf_step d)) as [ft|]; cbn.
  - by destruct (fault_applied ft).
  - by rewrite (proj2 (Z.ltb_lt _ _)).
Qed.
End spec.

(** ** Closed instances *)

Section instances.
#[local] Existing Instance calm.

(** A database of version 1, which has users but no service accounts. *)
Definition old_file : DbFile := mkDbFile 0 1 (default empty_schema (schema_at 1)) None.

Lemma applyMigrations_spec_witness :
  dbf_version old_file = 1 ∧
  at_version CurrentSchemaVersion (run (applyMigrations migrationFiles) old_file).2.
Proof.
  split; [done|].
  assert (0 ≤ 1 ≤ CurrentSchemaVersion) as Hv by (by vm_compute).
  assert (at_version 1 old_file) as Hat by (split; [done|apply (bool_decide_unpack _); by vm_compute]).
  pose proof (proj2 (applyMigrations_spec 1 old_file Hv Hat)) as Hm.
  destruct (run (applyMigrations migrationFiles) old_file) as [r d'].
  destruct Hm as (_ & Hok & Hcalm). exact (Hok (Hcalm (λ _, eq_refl))).
Defined.

Lemma applyMigrations_newer_witness :
  is_Ok (run (applyMigrations migrationFiles) (mkDbFile 0 4 empty_schema None)).1 = false.
Proof.
  assert (CurrentSchemaVersion < 4) as Hv by (by vm_compute).
  pose proof (applyMigrations_newer migrationFiles (mkDbFile 0 4 empty_schema None) Hv) as Hn.
  destruct (run _ _) as [r d']. exact (proj1 Hn).
Defined.
End instances.
