(* ===== verification/Smtp.v ===== *)
(** * Sending mail, internal/mail/smtp/mailer.go

    [SendEmail] as a dialogue with a mail server.  The session keeps what the
    net/smtp client keeps (is the connection open, is it encrypted, whom it was
    opened to, was the server greeted) and a log of the commands that left, each
    with whether it left encrypted.  The server's answers are the oracle [SMTP]: a
    command may be refused, or the connection may break. *)

From S2P Require Import Prelude GoStrings Prog Data Config.
From Stdlib Require Import Ascii.
#[local] Open Scope Z_scope.

Inductive smtp_failure := Refused (msg : string) | Broken (msg : string).
Definition failure_msg (f : smtp_failure) : string :=
  match f with Refused msg | Broken msg => msg end.

Class SMTP := { smtp_reply : nat → option smtp_failure }.

Inductive smtp_command :=
  | CmdConnect (addr : string)
  | CmdHello
  | CmdStartTLS (serverName : string)
  | CmdAuth (username password : string)
  | CmdAbort
  | CmdMail (from : string)
  | CmdRcpt (to : string)
  | CmdData
  | CmdMessage (text : string)
  | CmdQuit.

Record Session := mkSession {
  se_step : nat;
  se_open : bool;
  se_name : string;
  se_tls : bool;
  se_hello : option (result unit);
  se_log : list (bool * smtp_command);
}.

Definition new_session (step : nat) : Session := mkSession step false "" false None [].

Section smtp.
Context `{S : SMTP}.

Abbreviation SessionM := (prog Session).

Definition set_open (b : bool) (s : Session) : Session :=
  mkSession (se_step s) b (se_name s) (se_tls s) (se_hello s) (se_log s).
Definition set_name (n : string) (s : Session) : Session :=
  mkSession (se_step s) (se_open s) n (se_tls s) (se_hello s) (se_log s).
Definition set_tls (s : Session) : Session :=
  mkSession (se_step s) (se_open s) (se_name s) true (se_hello s) (se_log s).
Definition set_hello (r : result unit) (s : Session) : Session :=
  mkSession (se_step s) (se_open s) (se_name s) (se_tls s) (Some r) (se_log s).
Definition sent (c : smtp_command) (s : Session) : Session :=
  mkSession (Datatypes.S (se_step s)) (se_open s) (se_name s) (se_tls s) (se_hello s)
    (se_log s ++ [(se_tls s, c)]).

Definition failed (o : option smtp_failure) : result unit :=
  match o with None => Ok tt | Some f => Err (errors_New (failure_msg f)) end.

(** A command and the server's answer. *)
Definition ask (c : smtp_command) : SessionM (option smtp_failure) :=
  act (λ s, (smtp_reply (se_step s), sent c s)).
Definition command (c : smtp_command) : SessionM (result unit) := o ← ask c; Ret (failed o).
Definition modify (f : Session → Session) : SessionM unit := act (λ s, (tt, f s)).
Definition gets {A} (f : Session → A) : SessionM A := act (λ s, (f s, s)).

(** ** net/smtp *)

(** The host of a host:port address, as net.SplitHostPort reads it: one with
    colons must be in brackets. *)
Definition server_name (host : string) : option string :=
  if bool_decide (":"%char ∈ s2l host) then
    if HasPrefix host "[" && HasSuffix host "]"
    then Some (l2s (take (String.length host - 2) (drop 1 (s2l host)))) else None
  else Some host.

Definition Dial (host : string) (port : Z) : SessionM (result unit) :=
  let addr := host +:+ ":" +:+ Itoa port in
  match server_name host with
  | None => Ret (Err (errors_New ("dial tcp: address " +:+ addr +:+ ": too many colons in address")))
  | Some name =>
      try _ := command (CmdConnect addr) in
      _ ← modify (λ s, set_open true (set_name name s)); Ret (Ok tt)
  end.

(** EHLO, or HELO to a server that does not know it; the outcome is kept. *)
Definition ehlo : SessionM (result unit) := command CmdHello.
Definition hello : SessionM (result unit) :=
  h ← gets se_hello;
  match h with
  | Some r => Ret r
  | None => r ← ehlo; _ ← modify (set_hello r); Ret r
  end.

Definition Close_session : SessionM (result unit) := _ ← modify (set_open false); Ret (Ok tt).

Definition Quit : SessionM (result unit) :=
  try _ := hello in try _ := command CmdQuit in Close_session.

Definition StartTLS (serverName : string) : SessionM (result unit) :=
  try _ := hello in
  try _ := command (CmdStartTLS serverName) in
  _ ← modify set_tls; ehlo.

Definition isLocalhost (name : string) : bool :=
  ((name == "localhost") || (name == "127.0.0.1") || (name == "::1"))%go.

(** PlainAuth("", username, password, host).Start. *)
Definition PlainAuth_Start (host : string) (s : Session) : result unit :=
  if negb (se_tls s) && negb (isLocalhost (se_name s))
  then Err (errors_New "unencrypted connection")
  else if negb (se_name s == host)%go then Err (errors_New "wrong host name")
  else Ok tt.

Definition Auth (username password host : string) : SessionM (result unit) :=
  try _ := hello in
  start ← gets (PlainAuth_Start host);
  match start with
  | Err err => _ ← Quit; Ret (Err err)
  | Ok _ =>
      o ← ask (CmdAuth username password);
      match o with
      | Some (Refused msg) =>
          _ ← command CmdAbort; _ ← Quit; Ret (Err (errors_New msg))
      | _ => Ret (failed o)
      end
  end.

Definition validateLine (line : string) : result unit :=
  if bool_decide (ascii_of_nat 10 ∈ s2l line) || bool_decide (ascii_of_nat 13 ∈ s2l line)
  then Err (errors_New "smtp: A line must not contain CR or LF") else Ok tt.

Definition Mail (from : string) : SessionM (result unit) :=
  match validateLine from with
  | Err err => Ret (Err err)
  | Ok _ => try _ := hello in command (CmdMail from)
  end.

Definition Rcpt (to : string) : SessionM (result unit) :=
  match validateLine to with
  | Err err => Ret (Err err)
  | Ok _ => command (CmdRcpt to)
  end.

(** ** Mailer.SendEmail *)

Definition crlf : string := String (ascii_of_nat 13) (String (ascii_of_nat 10) "").

Definition message_text (config : SmtpConfig) (msg : EmailMessage) : string :=
  let contentType := if msg_IsHTML msg then "Content-Type: text/html; charset=UTF-8" +:+ crlf
                     else "Content-Type: text/plain; charset=UTF-8" +:+ crlf in
  let subject := "Subject: " +:+ msg_Subject msg +:+ crlf in
  let headers := "From: " +:+ mc_FromName config +:+ " <" +:+ mc_FromEmail config +:+ ">" +:+ crlf +:+
                 "To: " +:+ Join (msg_ToEmails msg) "," +:+ crlf in
  subject +:+ headers +:+ contentType +:+ crlf +:+ msg_Body msg.

Fixpoint rcpt_all (recipients : list string) : SessionM (result unit) :=
  match recipients with
  | [] => Ret (Ok tt)
  | recipient :: recipients => try _ := Rcpt recipient in rcpt_all recipients
  end.

(** The dialogue once connected; the connection is closed after it. *)
Definition deliver (config : SmtpConfig) (msg : EmailMessage) : SessionM (result unit) :=
  try _ := if mc_StartTLS config then StartTLS (mc_Host config) else Ret (Ok tt) in
  try _ := if mc_AuthEnabled config
           then Auth (mc_Username config) (mc_Password config) (mc_Host config)
           else Ret (Ok tt) in
  try _ := Mail (mc_FromEmail config) in
  try _ := rcpt_all (msg_ToEmails msg) in
  try _ := command CmdData in
  try _ := command (CmdMessage (message_text config msg)) in
  Quit.

Definition SendEmail (config : SmtpConfig) (msg : EmailMessage) : SessionM (result unit) :=
  try _ := Dial (mc_Host config) (mc_Port config) in
  r ← deliver config msg;
  _ ← Close_session;
  Ret r.
End smtp.

(** ** The dialogue, as a specification *)

Section spec.
Context `{SM : SMTP}.

(** The commands of a mail that goes through, each with whether it leaves
    encrypted. *)
Definition conversation (config : SmtpConfig) (msg : EmailMessage) : list (bool * smtp_command) :=
  let t := mc_StartTLS config in
  let host := mc_Host config in
  [(false, CmdConnect (host +:+ ":" +:+ Itoa (mc_Port config))); (false, CmdHello)] ++
  (if t then [(false, CmdStartTLS host); (true, CmdHello)] else []) ++
  (if mc_AuthEnabled config then [(t, CmdAuth (mc_Username config) (mc_Password config))] else []) ++
  [(t, CmdMail (mc_FromEmail config))] ++
  ((λ to, (t, CmdRcpt to)) <$> msg_ToEmails msg) ++
  [(t, CmdData); (t, CmdMessage (message_text config msg)); (t, CmdQuit)].

(** A password leaves encrypted, unless the server is this machine; an address
    holds no line break. *)
Definition allowed (host : string) (ev : bool * smtp_command) : Prop :=
  match ev.2 with
  | CmdAuth _ _ => ev.1 = true ∨ isLocalhost host = true
  | CmdMail a | CmdRcpt a => validateLine a = Ok tt
  | _ => True
  end.

(** What may follow a dialogue that broke off. *)
Definition farewell (ev : bool * smtp_command) : Prop :=
  match ev.2 with CmdAbort | CmdQuit => True | _ => False end.

Context (host : string).

Definition stopped (s : Session) (c : list (bool * smtp_command)) (s' : Session) : Prop :=
  ∃ l tail, se_log s' = se_log s ++ l ++ tail ∧ l `prefix_of` c ∧
            Forall (allowed host) l ∧ Forall farewell tail.

(** The program says [c], all of it when it succeeds and a part of it when it
    does not. *)
Definition speaks (m : prog Session (result unit)) (s : Session) (c : list (bool * smtp_command))
    (Q : Session → Prop) : Prop :=
  wp m (λ r s', match r with
                | Ok _ => se_log s' = se_log s ++ c ∧ Forall (allowed host) c ∧ Q s'
                | Err _ => stopped s c s'
                end) s.

Lemma stopped_nothing s c s' : se_log s' = se_log s → stopped s c s'.
Proof.
  intros Hs. exists [], []. rewrite !app_nil_r. split_and!; [done|apply prefix_nil|done|done].
Qed.

Lemma speaks_try m1 m2 s c1 c2 Q1 Q2 :
  speaks m1 s c1 Q1 → (∀ s', Q1 s' → speaks m2 s' c2 Q2) →
  speaks (try _ := m1 in m2) s (c1 ++ c2) Q2.
Proof.
  intros H1 H2. apply wp_try. eapply wp_mono; [exact H1|]. intros [_|e] s1.
  - intros (Hl & Ha & HQ). eapply wp_mono; [by apply H2|]. intros [_|e] s2.
    + intros (Hl2 & Ha2 & HQ2). rewrite Hl2, Hl, <-app_assoc.
      split_and!; [done|by apply Forall_app|done].
    + intros (l & tail & Hl2 & Hp & Hal & Ht). exists (c1 ++ l), tail.
      rewrite Hl2, Hl, <-!app_assoc. split_and!; [done| |by apply Forall_app|done].
      by apply prefix_app.
  - intros (l & tail & Hl & Hp & Hal & Ht). exists l, tail. split_and!; [done| |done|done].
    by apply prefix_app_r.
Qed.

Lemma speaks_mono m s c Q Q' : speaks m s c Q → (∀ s', Q s' → Q' s') → speaks m s c Q'.
Proof.
  intros H HQ. eapply wp_mono; [exact H|]. intros [] s'; [|done]. intros (? & ? & ?). auto.
Qed.

Lemma speaks_command c s :
  allowed host (se_tls s, c) → speaks (command c) s [(se_tls s, c)] (λ s', s' = sent c s).
Proof.
  intros Hc. unfold speaks, command. apply wp_mbind, wp_act. cbn [fst snd]. apply wp_ret.
  destruct (smtp_reply (se_step s)) as [f|]; cbn.
  - exists [(se_tls s, c)], []. rewrite app_nil_r. by repeat constructor.
  - by repeat constructor.
Qed.

Lemma speaks_ret s : speaks (Ret (Ok tt)) s [] (λ s', s' = s).
Proof. split_and!; [by rewrite app_nil_r|done|done]. Qed.

(** The state the client keeps: greeted, encrypted or not. *)
Definition greeted (t : bool) (s : Session) : Prop := se_tls s = t ∧ se_hello s = Some (Ok tt).

Lemma speaks_hello s :
  se_hello s = None → speaks hello s [(se_tls s, CmdHello)] (greeted (se_tls s)).
Proof.
  intros Hh. unfold speaks, hello, ehlo. apply wp_mbind, wp_act. cbn [fst snd]. rewrite Hh.
  apply wp_mbind. eapply wp_mono; [by apply (speaks_command CmdHello)|].
  intros [[]|e] s1 H; apply wp_mbind, wp_act, wp_ret; [|exact H].
  destruct H as (Hl & Ha & ->). split_and!; [exact Hl|done|by split].
Qed.

Lemma speaks_hello_again t s : greeted t s → speaks hello s [] (λ s', s' = s).
Proof.
  intros [Ht Hh]. unfold speaks, hello. apply wp_mbind, wp_act. cbn [fst snd]. rewrite Hh.
  apply speaks_ret.
Qed.

Lemma speaks_StartTLS name s :
  se_hello s = None → se_tls s = false →
  speaks (StartTLS name) s
    [(false, CmdHello); (false, CmdStartTLS name); (true, CmdHello)] (greeted true).
Proof.
  intros Hh Ht. unfold StartTLS.
  apply (speaks_try _ _ _ [_] [_; _] (greeted false)); [rewrite <-Ht; by apply speaks_hello|].
  intros s1 [Ht1 Hh1]. apply (speaks_try _ _ _ [_] [_] (λ s', s' = sent (CmdStartTLS name) s1)).
  { rewrite <-Ht1. by apply (speaks_command (CmdStartTLS name)). }
  intros s2 ->. unfold speaks. apply wp_mbind, wp_act. cbn [fst snd].
  eapply wp_mono; [by apply (speaks_command CmdHello)|].
  intros [_|e] s3; [|done]. intros (Hl & Ha & ->). by split_and!.
Qed.

Lemma farewell_Quit t s :
  greeted t s → wp Quit (λ _ s', ∃ tail, se_log s' = se_log s ++ tail ∧ Forall farewell tail) s.
Proof.
  intros Hg. unfold Quit. apply wp_try. eapply wp_mono; [by eapply speaks_hello_again|].
  intros [_|e] s1.
  - intros (_ & _ & ->). apply wp_try, wp_mbind, wp_act. cbn [fst snd]. apply wp_ret.
    destruct (smtp_reply (se_step s)); cbn; (exists [(se_tls s, CmdQuit)]; by repeat constructor).
  - intros (l & tail & Hl & Hp & _ & Ht). apply prefix_nil_inv in Hp as ->. by exists tail.
Qed.

(** Auth once the server is greeted. *)
Definition auth_greeted (username password host : string) : prog Session (result unit) :=
  start ← gets (PlainAuth_Start host);
  match start with
  | Err err => _ ← Quit; Ret (Err err)
  | Ok _ =>
      o ← ask (CmdAuth username password);
      match o with
      | Some (Refused msg) => _ ← command CmdAbort; _ ← Quit; Ret (Err (errors_New msg))
      | _ => Ret (failed o)
      end
  end.

Lemma PlainAuth_allowed username password s :
  PlainAuth_Start host s = Ok tt → allowed host (se_tls s, CmdAuth username password).
Proof.
  unfold PlainAuth_Start, allowed. cbn [fst snd].
  destruct (se_tls s); [by left|]. destruct (isLocalhost (se_name s)) eqn:Hloc; [|done]. cbn.
  case_bool_decide as Hn; [|done]. rewrite <-Hn. by right.
Qed.

Lemma speaks_auth_greeted t username password s :
  greeted t s →
  speaks (auth_greeted username password host) s [(t, CmdAuth username password)] (greeted t).
Proof.
  intros Hg. pose proof Hg as [Ht Hh]. unfold speaks, auth_greeted.
  apply wp_mbind, wp_act. cbn [fst snd].
  destruct (PlainAuth_Start host s) as [[]|err] eqn:Hstart.
  - apply (PlainAuth_allowed username password) in Hstart. rewrite Ht in Hstart.
    apply wp_mbind, wp_act. cbn [fst snd].
    assert (∀ tail s', Forall farewell tail →
      se_log s' = (se_log s ++ [(t, CmdAuth username password)]) ++ tail →
      stopped s [(t, CmdAuth username password)] s') as Hst.
    { intros tail s' Htail Hl. exists [(t, CmdAuth username password)], tail.
      rewrite Hl, <-app_assoc. split_and!; [done|done|by constructor|done]. }
    destruct (smtp_reply (se_step s)) as [[msg|msg]|].
    + apply wp_mbind. unfold command. apply wp_mbind, wp_act. cbn [fst snd]. apply wp_ret.
      apply wp_mbind. eapply wp_mono; [apply (farewell_Quit t); by split|].
      intros r s2 (tail & Hl & Htail). apply wp_ret, (Hst ((t, CmdAbort) :: tail)); [by constructor|].
      rewrite Hl. cbn [sent se_log se_tls]. by rewrite Ht, <-!app_assoc.
    + apply wp_ret, (Hst []); [done|]. cbn. by rewrite Ht, app_nil_r.
    + apply wp_ret. cbn. rewrite Ht. split_and!; [done|by constructor|by split].
  - apply wp_mbind. eapply wp_mono; [by apply (farewell_Quit t)|].
    intros r s2 (tail & Hl & Htail). apply wp_ret. exists [], tail.
    split_and!; [done|apply prefix_nil|done|done].
Qed.

Lemma speaks_Auth t username password s :
  greeted t s →
  speaks (Auth username password host) s [(t, CmdAuth username password)] (greeted t).
Proof.
  intros Hg. change [(t, CmdAuth username password)] with ([] ++ [(t, CmdAuth username password)]).
  apply (speaks_try hello (auth_greeted username password host) _ _ _ (λ s', s' = s));
    [by eapply speaks_hello_again|].
  intros s' ->. by apply speaks_auth_greeted.
Qed.

Lemma speaks_Auth_first username password s :
  se_hello s = None → se_tls s = false →
  speaks (Auth username password host) s
    [(false, CmdHello); (false, CmdAuth username password)] (greeted false).
Proof.
  intros Hh Ht.
  apply (speaks_try hello (auth_greeted username password host) _ [_] [_] (greeted false));
    [rewrite <-Ht; by apply speaks_hello|]. apply speaks_auth_greeted.
Qed.

Lemma speaks_Rcpt t to s : greeted t s → speaks (Rcpt to) s [(t, CmdRcpt to)] (greeted t).
Proof.
  intros [Ht Hh]. unfold Rcpt. destruct (validateLine to) as [[]|e] eqn:Hv.
  - rewrite <-Ht. eapply speaks_mono; [by apply speaks_command|]. intros s' ->. by split.
  - by apply stopped_nothing.
Qed.

Lemma speaks_rcpt_all t recipients s :
  greeted t s →
  speaks (rcpt_all recipients) s ((λ to, (t, CmdRcpt to)) <$> recipients) (greeted t).
Proof.
  revert s. induction recipients as [|to recipients IH]; intros s Hg; cbn [rcpt_all fmap list_fmap].
  - eapply speaks_mono; [apply speaks_ret|]. by intros s' ->.
  - change ((t, CmdRcpt to) :: ?l) with ([(t, CmdRcpt to)] ++ l).
    eapply speaks_try; [by apply speaks_Rcpt|apply IH].
Qed.

Lemma speaks_Mail t from s : greeted t s → speaks (Mail from) s [(t, CmdMail from)] (greeted t).
Proof.
  intros Hg. unfold Mail. destruct (validateLine from) as [[]|e] eqn:Hv; [|by apply stopped_nothing].
  change [(t, CmdMail from)] with ([] ++ [(t, CmdMail from)]).
  eapply speaks_try; [by eapply speaks_hello_again|]. intros s' ->. destruct Hg as [Ht Hh].
  rewrite <-Ht. eapply speaks_mono; [by apply speaks_command|]. intros s' ->. by split.
Qed.

Lemma speaks_Mail_first from s :
  se_hello s = None → se_tls s = false →
  speaks (Mail from) s [(false, CmdHello); (false, CmdMail from)] (greeted false).
Proof.
  intros Hh Ht. unfold Mail. destruct (validateLine from) as [[]|e] eqn:Hv; [|by apply stopped_nothing].
  apply (speaks_try _ _ _ [_] [_] (greeted false)); [rewrite <-Ht; by apply speaks_hello|].
  intros s' [Ht' Hh']. rewrite <-Ht' at 1. eapply speaks_mono; [by apply speaks_command|].
  intros s2 ->. by split.
Qed.

Lemma speaks_Quit t s : greeted t s → speaks Quit s [(t, CmdQuit)] (λ _, True).
Proof.
  intros Hg. apply (speaks_try _ _ _ [] [_] (λ s', s' = s)); [by eapply speaks_hello_again|].
  intros s' ->. destruct Hg as [Ht Hh].
  apply (speaks_try _ _ _ [_] [] (λ _, True)).
  - rewrite <-Ht. eapply speaks_mono; [by apply speaks_command|done].
  - intros s' _. unfold speaks, Close_session. apply wp_mbind, wp_act, wp_ret. cbn.
    by rewrite app_nil_r.
Qed.

Lemma speaks_body t config msg s :
  greeted t s →
  speaks (try _ := rcpt_all (msg_ToEmails msg) in try _ := command CmdData in
          try _ := command (CmdMessage (message_text config msg)) in Quit) s
    (((λ to, (t, CmdRcpt to)) <$> msg_ToEmails msg) ++
     [(t, CmdData); (t, CmdMessage (message_text config msg)); (t, CmdQuit)]) (λ _, True).
Proof.
  intros Hg. eapply speaks_try; [by apply speaks_rcpt_all|]. intros s1 [Ht1 Hh1].
  apply (speaks_try _ _ _ [_] [_; _] (greeted t)).
  { rewrite <-Ht1 at 1. eapply speaks_mono; [by apply speaks_command|]. by intros s' ->. }
  intros s2 [Ht2 Hh2]. apply (speaks_try _ _ _ [_] [_] (greeted t)).
  { rewrite <-Ht2 at 1. eapply speaks_mono; [by apply speaks_command|]. by intros s' ->. }
  apply speaks_Quit.
Qed.

(** The dialogue after the connection. *)
Definition deliver_commands (config : SmtpConfig) (msg : EmailMessage) : list (bool * smtp_command) :=
  drop 1 (conversation config msg).

Lemma speaks_deliver config msg s :
  host = mc_Host config → se_hello s = None → se_tls s = false →
  speaks (deliver config msg) s (deliver_commands config msg) (λ _, True).
Proof.
  intros Hhost Hh Ht. unfold deliver, deliver_commands, conversation. cbn [drop app].
  pose proof (λ t s, speaks_body t config msg s) as Hbody. rewrite <-Hhost.
  destruct (mc_StartTLS config); cbn [app].
  - apply (speaks_try _ _ _ [_; _; _] (_ ++ _) (greeted true)); [by apply speaks_StartTLS|].
    intros s1 H1. destruct (mc_AuthEnabled config); cbn [app].
    + apply (speaks_try _ _ _ [_] (_ :: _) (greeted true)); [by apply speaks_Auth|].
      intros s2 H2. apply (speaks_try _ _ _ [_] _ (greeted true)); [by apply speaks_Mail|].
      intros s3 H3. by apply Hbody.
    + apply (speaks_try _ _ _ [] (_ :: _) (λ s', s' = s1)); [apply speaks_ret|].
      intros s2 ->. apply (speaks_try _ _ _ [_] _ (greeted true)); [by apply speaks_Mail|].
      intros s3 H3. by apply Hbody.
  - apply (speaks_try _ _ _ [] (_ :: _) (λ s', s' = s)); [apply speaks_ret|]. intros s1 ->.
    destruct (mc_AuthEnabled config); cbn [app].
    + apply (speaks_try _ _ _ [_; _] (_ :: _) (greeted false)); [by apply speaks_Auth_first|].
      intros s2 H2. apply (speaks_try _ _ _ [_] _ (greeted false)); [by apply speaks_Mail|].
      intros s3 H3. by apply Hbody.
    + apply (speaks_try _ _ _ [] (_ :: _) (λ s', s' = s)); [apply speaks_ret|]. intros s2 ->.
      apply (speaks_try _ _ _ [_; _] _ (greeted false)); [by apply speaks_Mail_first|].
      intros s3 H3. by apply Hbody.
Qed.
End spec.

Section properties.
Context `{SM : SMTP}.

(** How a delivery ends. *)
Definition well_conducted (config : SmtpConfig) (msg : EmailMessage) (r : result unit)
    (s' : Session) : Prop :=
  se_open s' = false ∧
  ∃ l tail, se_log s' = l ++ tail ∧ l `prefix_of` conversation config msg ∧
    Forall (allowed (mc_Host config)) l ∧ Forall farewell tail ∧
    (r = Ok tt → l = conversation config msg ∧ tail = []).

(** C29.  What leaves for the mail server is a beginning of one fixed dialogue
    (connect, greet, encrypt if configured, authenticate if configured, sender,
    recipients in order, the message, quit), the whole of it when SendEmail
    succeeds, and at most a farewell after a part of it; with STARTTLS configured
    nothing after the handshake is in the clear; the password leaves encrypted or
    to this machine only; no address with a line break is sent; and the connection
    is closed in the end. *)
Theorem SendEmail_conversation config msg n :
  let '(r, s') := run (SendEmail config msg) (new_session n) in well_conducted config msg r s'.
Proof.
  change (wp (SendEmail config msg) (well_conducted config msg) (new_session n)).
  unfold SendEmail, Dial. destruct (server_name (mc_Host config)) as [name|].
  2: { apply wp_try, wp_ret. split; [done|]. exists [], []. split_and!; try done. apply prefix_nil. }
  set (connect := (false, CmdConnect (mc_Host config +:+ ":" +:+ Itoa (mc_Port config)))).
  assert (conversation config msg = connect :: deliver_commands config msg) as Hconv by done.
  apply wp_try, wp_try, wp_mbind, wp_act. cbn [fst snd]. apply wp_ret.
  destruct (smtp_reply n) as [f|] eqn:Hn; cbn [new_session se_step]; rewrite Hn; cbn [failed].
  { split; [done|]. exists [connect], []. split_and!; [done| |by repeat constructor|done|done].
    rewrite Hconv. apply (prefix_app [connect] [] _), prefix_nil. }
  apply wp_mbind, wp_act, wp_ret. cbn [fst snd]. set (s1 := set_open true _).
  assert (se_log s1 = [connect]) as Hl1 by done.
  apply wp_mbind. eapply wp_mono; [by apply (speaks_deliver (mc_Host config))|].
  intros r s2 Hr. unfold Close_session. apply wp_mbind, wp_mbind, wp_act, wp_ret, wp_ret.
  split; [done|]. cbn [fst snd set_open se_log]. rewrite Hconv. destruct r as [[]|e].
  - destruct Hr as (Hl & Ha & _). exists (connect :: deliver_commands config msg), [].
    rewrite Hl, Hl1, app_nil_r. split_and!; [done|done|by constructor|done|done].
  - destruct Hr as (l & tail & Hl & Hp & Ha & Ht). exists (connect :: l), tail.
    rewrite Hl, Hl1. split_and!; [done| |by constructor|done|done].
    by apply (prefix_app [connect]).
Qed.
End properties.
