(* ===== verification/KeyManager.v ===== *)
(** * The signing-key ring, internal/security/jwks.go

    [KeyManager] is the Go struct with its ring of keys and its single-key
    fields.  Every method holds the mutex for its whole body, so each is one
    function from the manager to its result and the new manager.  A pointer to a
    [KeyEntry] never leaves the ring, so the map holds the entries themselves;
    Go's iteration order over a map is that of [map_to_list], an order the
    results below do not depend on. *)

From S2P Require Import Prelude GoStrings Data Platform RefPlatform.

Section keys.
Context `{P : Platform}.

Inductive KeyState := KeyStateActive | KeyStatePassive | KeyStateRetired.

Definition KeyState_string (st : KeyState) : string :=
  match st with
  | KeyStateActive => "ACTIVE" | KeyStatePassive => "PASSIVE"
  | KeyStateRetired => "RETIRED"
  end.

Record KeyEntry := mkKeyEntry {
  ke_privateKey : PrivateKey;
  ke_publicKey : PublicKey;
  ke_keyID : string;
  ke_state : KeyState;
}.

Definition set_state (st : KeyState) (e : KeyEntry) : KeyEntry :=
  mkKeyEntry (ke_privateKey e) (ke_publicKey e) (ke_keyID e) st.

Record KeyManager := mkKeyManager {
  km_privateKey : option PrivateKey;
  km_publicKey : option PublicKey;
  km_keyID : string;
  km_keys : gmap string KeyEntry;
}.

(** &security.KeyManager{}: the zero value. *)
Definition KeyManager_zero : KeyManager := mkKeyManager None None "" ∅.

Definition generateKeyID (publicKey : option PublicKey) : string :=
  match publicKey with
  | None => ""
  | Some pk =>
      let hash := sha256_Sum256 (publicKey_N_Bytes pk) in
      b64_encode b64_url (l2s (take 8 (s2l hash)))
  end.

#[global] Arguments generateKeyID : simpl never.

(** The loop "for _, entry := range km.keys { if ACTIVE then PASSIVE }". *)
Definition demote (e : KeyEntry) : KeyEntry :=
  match ke_state e with
  | KeyStateActive => set_state KeyStatePassive e
  | _ => e
  end.
Definition demote_active (keys : gmap string KeyEntry) : gmap string KeyEntry :=
  demote <$> keys.

(** The common end of InitializeFromPEM and GenerateKeyPair. *)
Definition install_active (privateKey : PrivateKey) (km : KeyManager) : KeyManager :=
  let publicKey := privateKey_PublicKey privateKey in
  let keyID := generateKeyID (Some publicKey) in
  mkKeyManager (Some privateKey) (Some publicKey) keyID
    (<[keyID := mkKeyEntry privateKey publicKey keyID KeyStateActive]>
       (demote_active (km_keys km))).

Definition InitializeFromPEM (privateKeyPEM : string) (km : KeyManager)
    : result unit * KeyManager :=
  match pem_Decode privateKeyPEM with
  | None => (Err (errors_New "failed to decode PEM block"), km)
  | Some (ty, bytes) =>
      if decide (ty = "RSA PRIVATE KEY") then
        match x509_ParsePKCS1PrivateKey bytes with
        | Err err => (Err (fmt_Errorf "failed to parse private key" err), km)
        | Ok privateKey => (Ok tt, install_active privateKey km)
        end
      else if decide (ty = "PRIVATE KEY") then
        match x509_ParsePKCS8PrivateKey bytes with
        | Err err => (Err (fmt_Errorf "failed to parse PKCS8 private key" err), km)
        | Ok None => (Err (errors_New "private key is not RSA"), km)
        | Ok (Some privateKey) => (Ok tt, install_active privateKey km)
        end
      else (Err (errors_New ("unsupported PEM block type: " +:+ ty)), km)
  end.

(** [gen] is the outcome of rsa.GenerateKey(rand.Reader, RSAKeySize). *)
Definition GenerateKeyPair (gen : result PrivateKey) (km : KeyManager)
    : result unit * KeyManager :=
  match gen with
  | Err err => (Err (fmt_Errorf "failed to generate RSA key pair" err), km)
  | Ok privateKey => (Ok tt, install_active privateKey km)
  end.

Definition GetPrivateKey (km : KeyManager) : option PrivateKey := km_privateKey km.
Definition GetPublicKey (km : KeyManager) : option PublicKey := km_publicKey km.
Definition GetKeyID (km : KeyManager) : string := km_keyID km.
Definition IsInitialized (km : KeyManager) : bool :=
  match km_privateKey km with Some _ => true | None => false end.

Definition published (st : KeyState) : bool :=
  match st with KeyStateActive | KeyStatePassive => true | KeyStateRetired => false end.

Definition signing_key (e : KeyEntry) : SigningKey :=
  mkSigningKey (ke_keyID e) (publicKey_N_Bytes (ke_publicKey e))
    (publicKey_E (ke_publicKey e) `mod` 2 ^ 32)%Z.

Definition ListSigningKeys (km : KeyManager) : list SigningKey :=
  let keyIDs := (filter (λ kv, published (ke_state kv.2)) (map_to_list (km_keys km))).*1 in
  omap (λ keyID, signing_key <$> km_keys km !! keyID) (merge_sort String.le keyIDs).

Definition AddKeyPassive (gen : result PrivateKey) (km : KeyManager)
    : result string * KeyManager :=
  match gen with
  | Err err => (Err (fmt_Errorf "failed to generate RSA key pair" err), km)
  | Ok privateKey =>
      let publicKey := privateKey_PublicKey privateKey in
      let keyID := generateKeyID (Some publicKey) in
      (Ok keyID,
       mkKeyManager (km_privateKey km) (km_publicKey km) (km_keyID km)
         (<[keyID := mkKeyEntry privateKey publicKey keyID KeyStatePassive]> (km_keys km)))
  end.

Definition PromoteKey (keyID : string) (km : KeyManager) : result unit * KeyManager :=
  match km_keys km !! keyID with
  | None => (Err (errors_New ("key not found: " +:+ keyID)), km)
  | Some entry =>
      match ke_state entry with
      | KeyStatePassive =>
          (Ok tt,
           mkKeyManager (Some (ke_privateKey entry)) (Some (ke_publicKey entry))
             (ke_keyID entry)
             (<[keyID := set_state KeyStateActive entry]> (demote_active (km_keys km))))
      | st =>
          (Err (errors_New ("key " +:+ keyID +:+ " is not in PASSIVE state (current: "
                            +:+ KeyState_string st +:+ ")")), km)
      end
  end.

Definition DemoteKey (keyID : string) (km : KeyManager) : result unit * KeyManager :=
  match km_keys km !! keyID with
  | None => (Err (errors_New ("key not found: " +:+ keyID)), km)
  | Some entry =>
      match ke_state entry with
      | KeyStateActive =>
          let keys := <[keyID := set_state KeyStatePassive entry]> (km_keys km) in
          (Ok tt,
           if decide (km_keyID km = keyID) then mkKeyManager None None "" keys
           else mkKeyManager (km_privateKey km) (km_publicKey km) (km_keyID km) keys)
      | st =>
          (Err (errors_New ("key " +:+ keyID +:+ " is not in ACTIVE state (current: "
                            +:+ KeyState_string st +:+ ")")), km)
      end
  end.

Definition RetireKey (keyID : string) (km : KeyManager) : result unit * KeyManager :=
  match km_keys km !! keyID with
  | None => (Err (errors_New ("key not found: " +:+ keyID)), km)
  | Some entry =>
      match ke_state entry with
      | KeyStateActive =>
          (Err (errors_New ("cannot retire ACTIVE key " +:+ keyID +:+ "; demote it first")), km)
      | _ =>
          (Ok tt,
           mkKeyManager (km_privateKey km) (km_publicKey km) (km_keyID km)
             (delete keyID (km_keys km)))
      end
  end.

Record KeyInfo := mkKeyInfo { ki_KeyID : string; ki_State : KeyState }.

Definition ListKeys (km : KeyManager) : list KeyInfo :=
  (λ kv, mkKeyInfo (ke_keyID kv.2) (ke_state kv.2)) <$> map_to_list (km_keys km).

Definition ExportPrivateKeyPEM (km : KeyManager) : result string :=
  match km_privateKey km with
  | None => Err (errors_New "no private key available")
  | Some k => Ok (pem_EncodeToMemory "RSA PRIVATE KEY" (x509_MarshalPKCS1PrivateKey k))
  end.

Definition ExportPublicKeyPEM (km : KeyManager) : result string :=
  match km_publicKey km with
  | None => Err (errors_New "no public key available")
  | Some k =>
      match x509_MarshalPKIXPublicKey k with
      | Err err => Err (fmt_Errorf "failed to marshal public key" err)
      | Ok bytes => Ok (pem_EncodeToMemory "PUBLIC KEY" bytes)
      end
  end.
(** The generated key does not have the identifier of the ACTIVE one. *)
Definition no_collision (gen : result PrivateKey) (km : KeyManager) : Prop :=
  ∀ sk e, gen = Ok sk → km_keys km !! generateKeyID (Some (privateKey_PublicKey sk)) = Some e →
    ke_state e ≠ KeyStateActive.

(** ** Lifecycle

    What callers can do to a manager.  AddKeyPassive overwrites an entry with the
    identifier of the generated key without a check; the steps leave out the case
    that this is the ACTIVE entry, a collision of the 64-bit hashes of two
    moduli ([AddKeyPassive_collision] shows what it does). *)
Inductive km_step : relation KeyManager :=
  | km_step_init pem km : km_step km (InitializeFromPEM pem km).2
  | km_step_generate gen km : km_step km (GenerateKeyPair gen km).2
  | km_step_add gen km :
      no_collision gen km →
      km_step km (AddKeyPassive gen km).2
  | km_step_promote id km : km_step km (PromoteKey id km).2
  | km_step_demote id km : km_step km (DemoteKey id km).2
  | km_step_retire id km : km_step km (RetireKey id km).2.

Definition is_active (e : KeyEntry) : Prop := ke_state e = KeyStateActive.

Definition entry_ok (id : string) (e : KeyEntry) : Prop :=
  ke_keyID e = id ∧ ke_publicKey e = privateKey_PublicKey (ke_privateKey e) ∧
  id = generateKeyID (Some (ke_publicKey e)) ∧ ke_state e ≠ KeyStateRetired.

(** The single-key fields are those of an ACTIVE entry, or all empty. *)
Definition legacy_ok (km : KeyManager) : Prop :=
  match km_privateKey km with
  | Some sk => ∃ e, km_keys km !! km_keyID km = Some e ∧ is_active e ∧
                    ke_privateKey e = sk ∧ km_publicKey km = Some (ke_publicKey e)
  | None => km_publicKey km = None ∧ km_keyID km = "" ∧
            map_Forall (λ _ e, ¬ is_active e) (km_keys km)
  end.

Record km_ok (km : KeyManager) : Prop := mk_km_ok {
  km_ok_entries : map_Forall entry_ok (km_keys km);
  km_ok_one_active i j ei ej :
    km_keys km !! i = Some ei → km_keys km !! j = Some ej →
    is_active ei → is_active ej → i = j;
  km_ok_legacy : legacy_ok km;
}.

(** The abstract ring: the state of each key. *)
Definition ring (km : KeyManager) : gmap string KeyState := ke_state <$> km_keys km.

Definition passive_if_active (st : KeyState) : KeyState :=
  match st with KeyStateActive => KeyStatePassive | st => st end.

(** docs/KEY_ROTATION.md: the transitions of a key ring. *)
Inductive ring_step : relation (gmap string KeyState) :=
  | ring_install id r : ring_step r (<[id := KeyStateActive]> (passive_if_active <$> r))
  | ring_add id r : r !! id = None → ring_step r (<[id := KeyStatePassive]> r)
  | ring_promote id r :
      r !! id = Some KeyStatePassive →
      ring_step r (<[id := KeyStateActive]> (passive_if_active <$> r))
  | ring_demote id r :
      r !! id = Some KeyStateActive → ring_step r (<[id := KeyStatePassive]> r)
  | ring_retire id r : r !! id = Some KeyStatePassive → ring_step r (delete id r).

(** *** Helper lemmas *)

Lemma demote_not_active e : ¬ is_active (demote e).
Proof. unfold demote, is_active. by destruct e as [??? []]. Qed.

Lemma demote_entry_ok id e : entry_ok id e → entry_ok id (demote e).
Proof. unfold demote, entry_ok. destruct e as [??? []]; simpl; naive_solver. Qed.

Lemma demote_active_lookup (keys : gmap string KeyEntry) i e :
  demote_active keys !! i = Some e ↔ ∃ e0, keys !! i = Some e0 ∧ e = demote e0.
Proof. unfold demote_active. rewrite lookup_fmap, fmap_Some. naive_solver. Qed.

(** Installing an ACTIVE entry over a demoted ring. *)
Lemma install_ok id e (keys : gmap string KeyEntry) :
  map_Forall entry_ok keys → entry_ok id e → is_active e →
  km_ok (mkKeyManager (Some (ke_privateKey e)) (Some (ke_publicKey e)) id
           (<[id := e]> (demote_active keys))).
Proof.
  intros Hk He Ha. split; simpl.
  - apply map_Forall_insert_2; [done|]. intros i x Hx.
    apply demote_active_lookup in Hx as (e0 & He0 & ->). by apply demote_entry_ok, Hk.
  - assert (∀ i ei, <[id:=e]> (demote_active keys) !! i = Some ei → is_active ei → i = id) as Hu.
    { intros i ei Hi Hai. destruct (decide (i = id)) as [|Hne]; [done|].
      rewrite lookup_insert_ne in Hi by done.
      apply demote_active_lookup in Hi as (e0 & _ & ->). by destruct (demote_not_active e0). }
    intros i j ei ej Hi Hj Hai Haj. by rewrite (Hu i ei), (Hu j ej).
  - red; simpl. exists e. by rewrite lookup_insert_eq.
Qed.

Lemma install_active_ok sk km : km_ok km → km_ok (install_active sk km).
Proof.
  intros [Hk _ _]. unfold install_active.
  apply (install_ok _ (mkKeyEntry sk (privateKey_PublicKey sk) _ KeyStateActive)); [done| |done].
  repeat split; simpl; done.
Qed.

(** Replacing or adding an entry that is not ACTIVE where none was. *)
Lemma km_ok_one_insert (keys : gmap string KeyEntry) id e :
  ¬ is_active e →
  (∀ i j ei ej, keys !! i = Some ei → keys !! j = Some ej → is_active ei → is_active ej → i = j) →
  ∀ i j ei ej, <[id := e]> keys !! i = Some ei → <[id := e]> keys !! j = Some ej →
    is_active ei → is_active ej → i = j.
Proof.
  intros He Hone i j ei ej Hi Hj Hai Haj.
  apply lookup_insert_Some in Hi as [[-> ->]|[? Hi]]; [done|].
  apply lookup_insert_Some in Hj as [[-> ->]|[? Hj]]; [done|]. eauto.
Qed.

Lemma AddKeyPassive_ok gen km :
  no_collision gen km → km_ok km → km_ok (AddKeyPassive gen km).2.
Proof.
  intros Hfresh [Hk Hone Hleg]. unfold AddKeyPassive. destruct gen as [sk|]; [|done].
  specialize (λ e, Hfresh sk e eq_refl). split; simpl.
  - by apply map_Forall_insert_2.
  - by apply km_ok_one_insert.
  - unfold legacy_ok in *; simpl. destruct (km_privateKey km).
    + destruct Hleg as (e & He & Ha & ?). exists e. split; [|done].
      rewrite lookup_insert_ne; [done|]. intros Heq. rewrite <-Heq in He. by apply (Hfresh e).
    + destruct Hleg as (? & ? & Hna). repeat split; [done..|].
      by apply map_Forall_insert_2.
Qed.

Lemma PromoteKey_ok id km : km_ok km → km_ok (PromoteKey id km).2.
Proof.
  intros Hok. unfold PromoteKey. destruct (km_keys km !! id) as [e|] eqn:He; [|done].
  pose proof (km_ok_entries _ Hok _ _ He) as (Hid & Hpub & Hgen & _).
  destruct (ke_state e); try done. simpl. rewrite Hid.
  apply (install_ok id (set_state KeyStateActive e)); [apply Hok| |done].
  repeat split; simpl; done.
Qed.

Lemma DemoteKey_ok id km : km_ok km → km_ok (DemoteKey id km).2.
Proof.
  intros Hok. unfold DemoteKey. destruct (km_keys km !! id) as [e|] eqn:He; [|done].
  destruct (ke_state e) eqn:Hst; try done. simpl.
  destruct Hok as [Hk Hone Hleg].
  pose proof (Hk _ _ He) as (Hid & Hpub & Hgen & _).
  (* the ACTIVE key is the one of the single-key fields *)
  assert (km_keyID km = id) as ->.
  { unfold legacy_ok in Hleg. destruct (km_privateKey km).
    - destruct Hleg as (e' & He' & Ha' & _). by eapply Hone.
    - destruct Hleg as (_ & _ & Hna). by destruct (Hna _ _ He). }
  rewrite decide_True by done. split; simpl.
  - apply map_Forall_insert_2; [|done]. by repeat split.
  - by apply km_ok_one_insert.
  - repeat split; simpl. intros i e' Hi Ha.
    apply lookup_insert_Some in Hi as [[-> <-]|[Hne Hi]]; [done|].
    apply Hne. by eapply Hone.
Qed.

Lemma RetireKey_ok id km : km_ok km → km_ok (RetireKey id km).2.
Proof.
  intros Hok. unfold RetireKey. destruct (km_keys km !! id) as [e|] eqn:He; [|done].
  assert (¬ is_active e → km_ok (mkKeyManager (km_privateKey km) (km_publicKey km)
            (km_keyID km) (delete id (km_keys km)))).
  { intros Hna. destruct Hok as [Hk Hone Hleg]. split; simpl.
    - by apply map_Forall_delete.
    - intros i j ei ej [??]%lookup_delete_Some [??]%lookup_delete_Some. by eapply Hone.
    - unfold legacy_ok in *; simpl. destruct (km_privateKey km).
      + destruct Hleg as (e' & He' & Ha' & ?). exists e'. split; [|done].
        apply lookup_delete_Some. split; [|done]. intros ->. by simplify_eq.
      + destruct Hleg as (? & ? & ?). repeat split; [done..|]. by apply map_Forall_delete. }
  unfold is_active in *. destruct (ke_state e); simpl; auto.
Qed.

Lemma km_step_ok km km' : km_step km km' → km_ok km → km_ok km'.
Proof.
  intros [pem km0|gen km0|gen km0 Hf|id km0|id km0|id km0] Hok;
    [..|by apply RetireKey_ok].
  - unfold InitializeFromPEM. repeat case_match; simpl; auto using install_active_ok.
  - unfold GenerateKeyPair. repeat case_match; simpl; auto using install_active_ok.
  - by apply AddKeyPassive_ok.
  - by apply PromoteKey_ok.
  - by apply DemoteKey_ok.
Qed.
End keys.

#[export] Hint Resolve km_step_ok install_active_ok : go.

(** ** What is published *)

Section published.
Context `{P : Platform}.

(** The identifiers ListSigningKeys collects and sorts. *)
Definition published_ids (km : KeyManager) : list string :=
  merge_sort String.le
    (filter (λ kv, published (ke_state kv.2)) (map_to_list (km_keys km))).*1.

Lemma published_ids_perm km :
  published_ids km ≡ₚ
    (filter (λ kv, published (ke_state kv.2)) (map_to_list (km_keys km))).*1.
Proof. apply merge_sort_Permutation. Qed.

Lemma elem_of_published_ids km id :
  id ∈ published_ids km ↔
    ∃ e, km_keys km !! id = Some e ∧ published (ke_state e) = true.
Proof.
  rewrite published_ids_perm, list_elem_of_fmap. split.
  - intros ([k e] & -> & [Hp Hkv]%list_elem_of_filter). exists e.
    apply elem_of_map_to_list in Hkv. split; [done|]. by apply Is_true_true.
  - intros (e & He & Hp). exists (id, e). split; [done|].
    apply list_elem_of_filter. rewrite elem_of_map_to_list.
    split; [by apply Is_true_true|done].
Qed.

Lemma published_ids_NoDup km : NoDup (published_ids km).
Proof.
  rewrite published_ids_perm. apply (sublist_NoDup _ (map_to_list (km_keys km)).*1);
    [apply NoDup_fst_map_to_list|].
  apply fmap_sublist, sublist_filter.
Qed.

Lemma ListSigningKeys_ids km :
  map_Forall entry_ok (km_keys km) → sk_KeyId <$> ListSigningKeys km = published_ids km.
Proof.
  intros Hk. unfold ListSigningKeys. fold (published_ids km).
  assert (∀ id, id ∈ published_ids km → is_Some (km_keys km !! id)) as Hin.
  { intros id (e & He & _)%elem_of_published_ids. by eexists. }
  induction (published_ids km) as [|id l IH]; [done|]. simpl.
  destruct (Hin id ltac:(left)) as [e He]. rewrite He. simpl. f_equal.
  - by apply Hk.
  - apply IH. intros id' Hid'. apply Hin. by right.
Qed.

Lemma elem_of_ListSigningKeys km k :
  k ∈ ListSigningKeys km ↔
    ∃ id e, km_keys km !! id = Some e ∧ published (ke_state e) = true ∧ k = signing_key e.
Proof.
  unfold ListSigningKeys. fold (published_ids km). rewrite list_elem_of_omap. split.
  - intros (id & Hid & (e & He & ->)%fmap_Some). apply elem_of_published_ids in Hid as (e' & He' & ?).
    exists id, e. by simplify_eq.
  - intros (id & e & He & Hp & ->). exists id. split.
    + apply elem_of_published_ids. by exists e.
    + by rewrite He.
Qed.

(** What is published of a private key. *)
Definition published_key (sk : PrivateKey) : SigningKey :=
  signing_key (mkKeyEntry sk (privateKey_PublicKey sk)
    (generateKeyID (Some (privateKey_PublicKey sk))) KeyStatePassive).

(** The entry of the signing key. *)
Lemma signing_entry km sk :
  km_ok km → GetPrivateKey km = Some sk →
  ∃ e, km_keys km !! GetKeyID km = Some e ∧ ke_state e = KeyStateActive ∧
    published_key sk = signing_key e ∧ sk_KeyId (published_key sk) = GetKeyID km.
Proof.
  intros Hok Hsk. pose proof (km_ok_legacy _ Hok) as Hl. unfold legacy_ok, GetPrivateKey in *.
  rewrite Hsk in Hl. destruct Hl as (e & He & Ha & <- & _). exists e. do 2 (split; [done|]).
  pose proof (km_ok_entries _ Hok _ _ He) as (Hid & Hpub & Hgen & _).
  unfold published_key, signing_key. simpl. by rewrite Hid, <-Hpub, <-Hgen.
Qed.

Lemma listed_insert km km' id e k :
  km_keys km' = <[id := e]> (km_keys km) → km_keys km !! id = None → published (ke_state e) = true →
  k ∈ ListSigningKeys km' ↔ k = signing_key e ∨ k ∈ ListSigningKeys km.
Proof.
  intros Hk Hid Hp. rewrite !elem_of_ListSigningKeys, Hk. split.
  - intros (i & x & [[<- <-]|[Hne Hx]]%lookup_insert_Some & Hpx & ->); [by left|right]. by exists i, x.
  - intros [->|(i & x & Hx & Hpx & ->)]; [exists id, e; by rewrite lookup_insert_eq|].
    exists i, x. rewrite lookup_insert_ne; [done|]. congruence.
Qed.

Lemma published_demote e : published (ke_state (demote e)) = published (ke_state e).
Proof. by destruct e as [??? []]. Qed.
Lemma signing_key_demote e : signing_key (demote e) = signing_key e.
Proof. by destruct e as [??? []]. Qed.

(** Demoting and promoting change nothing of what is published. *)
Lemma listed_insert_demoted km km' keys id e e' k :
  km_keys km = <[id := e]> keys → km_keys km' = <[id := e']> (demote_active (km_keys km)) →
  published (ke_state e) = true → published (ke_state e') = true → signing_key e' = signing_key e →
  k ∈ ListSigningKeys km' ↔ k ∈ ListSigningKeys km.
Proof.
  intros Hk Hk' Hp Hp' Hs. rewrite !elem_of_ListSigningKeys, Hk', Hk. unfold demote_active. split.
  - intros (i & x & [[<- <-]|[Hne Hx]]%lookup_insert_Some & Hpx & ->).
    + exists id, e. by rewrite lookup_insert_eq.
    + apply lookup_fmap_Some in Hx as (y & <- & Hy). exists i, y.
      by rewrite <-published_demote, signing_key_demote.
  - intros (i & x & [[<- <-]|[Hne Hx]]%lookup_insert_Some & Hpx & ->).
    + exists id, e'. by rewrite lookup_insert_eq.
    + exists i, (demote x). rewrite lookup_insert_ne, lookup_fmap, lookup_insert_ne, Hx by done.
      by rewrite published_demote, signing_key_demote.
Qed.

Lemma listed_delete km km' id k :
  map_Forall entry_ok (km_keys km) → km_keys km' = delete id (km_keys km) →
  k ∈ ListSigningKeys km' ↔ k ∈ ListSigningKeys km ∧ sk_KeyId k ≠ id.
Proof.
  intros Hok Hk. rewrite !elem_of_ListSigningKeys, Hk. split.
  - intros (i & x & [Hne Hx]%lookup_delete_Some & Hpx & ->). split; [by exists i, x|].
    destruct (Hok _ _ Hx) as (Hid & _). simpl. congruence.
  - intros [(i & x & Hx & Hpx & ->) Hne]. exists i, x. rewrite lookup_delete_ne; [done|].
    destruct (Hok _ _ Hx) as (Hid & _). simpl in Hne. congruence.
Qed.

Lemma demote_active_entries keys : map_Forall entry_ok keys → map_Forall entry_ok (demote_active keys).
Proof.
  intros Hk i x (y & <- & Hy)%lookup_fmap_Some. by apply demote_entry_ok, Hk.
Qed.
End published.

(** ** The abstract ring *)

Section ring.
Context `{P : Platform}.

Lemma ring_lookup km id e : km_keys km !! id = Some e → ring km !! id = Some (ke_state e).
Proof. intros He. unfold ring. by rewrite lookup_fmap, He. Qed.

Lemma ring_demote_active (keys : gmap string KeyEntry) :
  ke_state <$> demote_active keys = passive_if_active <$> (ke_state <$> keys).
Proof.
  unfold demote_active. rewrite <-!map_fmap_compose. apply map_fmap_ext.
  by intros i [? ? ? []] _.
Qed.

Lemma ring_install_active sk km : ring_step (ring km) (ring (install_active sk km)).
Proof.
  unfold install_active, ring; simpl. rewrite fmap_insert, ring_demote_active.
  apply ring_install.
Qed.
End ring.

(** ** Properties *)

Section properties.
Context `{P : Platform}.

(** On a collision the manager signs with a key that the ring no longer holds. *)
Lemma AddKeyPassive_collision km sk old_sk :
  km_ok km → GetPrivateKey km = Some old_sk →
  generateKeyID (Some (privateKey_PublicKey sk)) = GetKeyID km →
  let km' := (AddKeyPassive (Ok sk) km).2 in
  GetPrivateKey km' = Some old_sk ∧ map_Forall (λ _ e, ¬ is_active e) (km_keys km').
Proof.
  intros Hok Hsk Hid. split; [done|]. simpl. rewrite Hid.
  destruct (signing_entry km old_sk Hok Hsk) as (e & He & Ha & _).
  intros i x [[<- <-]|[Hne Hx]]%lookup_insert_Some; [done|]. intros Hx'. destruct Hne.
  exact (km_ok_one_active _ Hok _ _ _ _ He Hx Ha Hx').
Qed.

(** C18.  Whatever sequence of initialisations, generations, additions,
    promotions, demotions and retirements a key manager goes through, as long as
    no added key has the 64-bit identifier of the ACTIVE key (AddKeyPassive does
    not check for the collision), at most one key of the ring is ACTIVE, no RETIRED key stays in it, every entry is
    stored under the identifier computed from its public key, and the
    single-key fields used for signing are those of the ACTIVE entry, or all
    empty when there is none. *)
Theorem km_reachable_ok km : rtc km_step KeyManager_zero km → km_ok km.
Proof.
  assert (km_ok KeyManager_zero) as H0.
  { split; simpl; [apply map_Forall_empty|done|].
    repeat split; simpl. apply map_Forall_empty. }
  intros Hr. revert H0. induction Hr; eauto using km_step_ok.
Qed.

(** C19.  The key manager refines the abstract key ring of the rotation guide:
    on a well-formed manager each operation, as long as an added key does not
    have the identifier of the ACTIVE one, either leaves the ring of key states
    unchanged (an error, or an addition over a PASSIVE key) or performs exactly
    one of its transitions. *)
Theorem km_step_refines km km' :
  km_ok km → km_step km km' → ring km' = ring km ∨ ring_step (ring km) (ring km').
Proof.
  intros Hok Hs. destruct Hs as [pem km|gen km|gen km Hf|id km|id km|id km].
  - unfold InitializeFromPEM. repeat case_match; simpl; auto using ring_install_active.
  - unfold GenerateKeyPair. repeat case_match; simpl; auto using ring_install_active.
  - destruct gen as [sk|]; [|by left]. specialize (λ e, Hf sk e eq_refl).
    unfold ring; simpl. rewrite fmap_insert. simpl.
    destruct (km_keys km !! generateKeyID (Some (privateKey_PublicKey sk))) as [e|] eqn:He.
    + left. apply insert_id. rewrite lookup_fmap, He. simpl. f_equal.
      pose proof (km_ok_entries _ Hok _ _ He) as (_ & _ & _ & Hnr).
      specialize (Hf e eq_refl). by destruct (ke_state e).
    + right. apply ring_add. by rewrite lookup_fmap, He.
  - unfold PromoteKey. destruct (km_keys km !! id) as [e|] eqn:He; [|auto].
    destruct (ke_state e) eqn:Hst; auto. right. unfold ring; simpl.
    rewrite fmap_insert, ring_demote_active. fold (ring km).
    apply ring_promote. by rewrite (ring_lookup _ _ _ He), Hst.
  - unfold DemoteKey. destruct (km_keys km !! id) as [e|] eqn:He; [|auto].
    destruct (ke_state e) eqn:Hst; auto. right.
    match goal with |- ring_step _ ?r =>
      replace r with (<[id := KeyStatePassive]> (ring km)) end.
    + apply ring_demote. by rewrite (ring_lookup _ _ _ He), Hst.
    + unfold ring; simpl. case_decide; simpl; by rewrite fmap_insert.
  - unfold RetireKey. destruct (km_keys km !! id) as [e|] eqn:He; [|auto].
    pose proof (km_ok_entries _ Hok _ _ He) as (_ & _ & _ & Hnr).
    destruct (ke_state e) eqn:Hst; auto; [|done]. right. unfold ring; simpl.
    rewrite fmap_delete. fold (ring km). apply ring_retire. by rewrite (ring_lookup _ _ _ He), Hst.
Qed.

(** ListSigningKeys publishes exactly the ACTIVE and PASSIVE keys of the
    ring, once each, in increasing order of key identifier, with the public
    parameters of the key the identifier names; in particular the key used for
    signing is always published. *)
Theorem ListSigningKeys_spec km (Hok : km_ok km) :
  StronglySorted String.le (sk_KeyId <$> ListSigningKeys km) ∧
  NoDup (sk_KeyId <$> ListSigningKeys km) ∧
  (∀ k, k ∈ ListSigningKeys km ↔
     ∃ id e, km_keys km !! id = Some e ∧
       (ke_state e = KeyStateActive ∨ ke_state e = KeyStatePassive) ∧ k = signing_key e) ∧
  (∀ sk, GetPrivateKey km = Some sk → GetKeyID km ∈ sk_KeyId <$> ListSigningKeys km).
Proof.
  rewrite (ListSigningKeys_ids _ (km_ok_entries _ Hok)). repeat split.
  - apply (StronglySorted_merge_sort String.le).
  - apply published_ids_NoDup.
  - rewrite elem_of_ListSigningKeys. intros (id & e & He & Hp & ->). exists id, e.
    repeat split; [done|]. destruct (ke_state e); auto. done.
  - rewrite elem_of_ListSigningKeys. intros (id & e & He & Hp & ->). exists id, e.
    repeat split; [done|]. by destruct Hp as [-> | ->].
  - intros sk Hsk. pose proof (km_ok_legacy _ Hok) as Hl. unfold legacy_ok in Hl.
    unfold GetPrivateKey in Hsk. rewrite Hsk in Hl. destruct Hl as (e & He & Ha & _).
    apply elem_of_published_ids. exists e. by rewrite Ha.
Qed.

(** C20.  The documented rotation of the key ring.  Starting from a well-formed
    manager whose signing key is [old], adding a fresh key publishes it besides
    the others and leaves the signing key; promoting it makes it the signing key,
    while ListSigningKeys still publishes the same keys, so every token signed
    with the old key still names a published key, with the parameters of the key
    it verifies with; retiring the old key then withdraws it, and only it, from
    what ListSigningKeys answers.  (The running service signs with the key it
    loaded when it started; the theorem is about the manager.) *)
Theorem rotation_lifecycle km old_sk new_sk
    (old := GetKeyID km) (id := generateKeyID (Some (privateKey_PublicKey new_sk))) :
  km_ok km → GetPrivateKey km = Some old_sk → km_keys km !! id = None →
  ∃ km1 km2 km3,
    AddKeyPassive (Ok new_sk) km = (Ok id, km1) ∧ GetPrivateKey km1 = Some old_sk ∧
    (∀ k, k ∈ ListSigningKeys km1 ↔ k = published_key new_sk ∨ k ∈ ListSigningKeys km) ∧
    PromoteKey id km1 = (Ok tt, km2) ∧ GetPrivateKey km2 = Some new_sk ∧ GetKeyID km2 = id ∧
    (∀ k, k ∈ ListSigningKeys km2 ↔ k = published_key new_sk ∨ k ∈ ListSigningKeys km) ∧
    (∀ c tok, on_dates (λ t, jwt_NewNumericDate t = t) c → claims_json_safe c →
       jwt_SignedString c old (Some old_sk) = Ok tok →
       jwt_kid tok = Some old ∧ jwt_verify tok (Some (privateKey_PublicKey old_sk)) = Ok (wire_claims c) ∧
       sk_KeyId (published_key old_sk) = old ∧ published_key old_sk ∈ ListSigningKeys km2) ∧
    RetireKey old km2 = (Ok tt, km3) ∧ GetPrivateKey km3 = Some new_sk ∧
    (∀ k, k ∈ ListSigningKeys km3 ↔ k ∈ ListSigningKeys km2 ∧ sk_KeyId k ≠ old).
Proof.
  intros Hok Hsk Hfresh. destruct (signing_entry km old_sk Hok Hsk) as (e & He & Ha & Hsig & Hold).
  assert (id ≠ old) as Hne by (intros Heq; rewrite Heq in Hfresh; unfold old in *; congruence).
  set (km1 := (AddKeyPassive (Ok new_sk) km).2). set (km2 := (PromoteKey id km1).2).
  assert (PromoteKey id km1 = (Ok tt, km2) ∧ GetPrivateKey km2 = Some new_sk ∧ GetKeyID km2 = id ∧
    km_keys km2 = <[id := mkKeyEntry new_sk (privateKey_PublicKey new_sk) id KeyStateActive]>
      (demote_active (km_keys km1))) as (Hp & Hsk2 & Hid2 & Hk2).
  { unfold km2, PromoteKey; simpl. by rewrite lookup_insert_eq. }
  assert (∀ k, k ∈ ListSigningKeys km1 ↔ k = published_key new_sk ∨ k ∈ ListSigningKeys km) as Hl1
    by (intros k; by apply (listed_insert km km1 id)).
  assert (∀ k, k ∈ ListSigningKeys km2 ↔ k = published_key new_sk ∨ k ∈ ListSigningKeys km) as Hl2
    by (intros k; by rewrite (listed_insert_demoted km1 km2 _ _ _ _ _ eq_refl Hk2)).
  exists km1, km2, (mkKeyManager (km_privateKey km2) (km_publicKey km2) (km_keyID km2)
    (delete old (km_keys km2))).
  do 7 (split; [done|]). split.
  { intros c tok Hdates Hsafe Hs. destruct (jwt_sign_verify c old old_sk tok) as (Hv & Hkid & _); try done.
    do 3 (split; [done|]). apply Hl2. right. apply elem_of_ListSigningKeys.
    exists old, e. unfold old. by rewrite Ha. }
  split.
  { unfold RetireKey. rewrite Hk2. unfold demote_active. simpl.
    rewrite lookup_insert_ne, lookup_fmap, lookup_insert_ne by done.
    unfold old. rewrite He. simpl. unfold demote. by rewrite Ha. }
  split; [done|]. intros k. apply listed_delete; [|done]. rewrite Hk2.
  apply map_Forall_insert_2; [done|]. apply demote_active_entries. by apply map_Forall_insert_2; [|apply Hok].
Qed.

(** What ExportPrivateKeyPEM writes, InitializeFromPEM reads back: a
    second manager initialised from the exported PEM signs with the same
    private key under the same key identifier, and it publishes the same
    signing key. *)
Theorem pem_export_import km pem km' (Hok : km_ok km) (Hex : ExportPrivateKeyPEM km = Ok pem) :
  ∃ km2, InitializeFromPEM pem km' = (Ok tt, km2) ∧
    GetPrivateKey km2 = GetPrivateKey km ∧ GetPublicKey km2 = GetPublicKey km ∧
    GetKeyID km2 = GetKeyID km ∧
    (signing_key <$> km_keys km2 !! GetKeyID km) = (signing_key <$> km_keys km !! GetKeyID km).
Proof.
  unfold ExportPrivateKeyPEM in Hex. unfold GetPrivateKey, GetPublicKey, GetKeyID.
  destruct (km_privateKey km) as [sk|] eqn:Hsk; [|done]. injection Hex as <-.
  pose proof (km_ok_legacy _ Hok) as Hl. unfold legacy_ok in Hl. rewrite Hsk in Hl.
  destruct Hl as (e & He & Ha & Hesk & Hpk).
  pose proof (km_ok_entries _ Hok _ _ He) as (Hid & Hpub & Hgen & _). subst sk.
  rewrite Hpub in Hgen, Hpk.
  eexists. split.
  { unfold InitializeFromPEM. rewrite pem_roundtrip, decide_True by done.
    by rewrite x509_PKCS1_roundtrip. }
  simpl. rewrite <-Hgen. repeat split; [by rewrite Hpk|].
  rewrite lookup_insert_eq, He. simpl. unfold signing_key; simpl. by rewrite Hid, Hpub.
Qed.
End properties.

(** ** Closed instances *)

Section instances.
#[local] Existing Instance calm.

(** A manager that signs with one key and keeps another one PASSIVE. *)
Definition signing_manager : KeyManager := (GenerateKeyPair (Ok key_0) KeyManager_zero).2.
Definition sample_manager : KeyManager := (AddKeyPassive (Ok key_1) signing_manager).2.

Lemma sample_manager_reachable : rtc km_step KeyManager_zero sample_manager.
Proof.
  eapply rtc_l; [apply (km_step_generate (Ok key_0))|].
  eapply rtc_l; [|apply rtc_refl]. apply (km_step_add (Ok key_1)).
  intros sk e [= <-] He. assert (km_keys signing_manager !!
    generateKeyID (Some (privateKey_PublicKey key_1)) = None) as Hn
    by (apply is_None_true; by vm_compute).
  discriminate (eq_trans (eq_sym Hn) He).
Qed.

Lemma signing_manager_ok : km_ok signing_manager.
Proof.
  refine (install_active_ok key_0 KeyManager_zero _).
  split; simpl; [apply map_Forall_empty|done|].
  repeat split; simpl. apply map_Forall_empty.
Qed.

Lemma km_reachable_ok_witness :
  rtc km_step KeyManager_zero sample_manager ∧ km_ok sample_manager.
Proof.
  split; [apply sample_manager_reachable|].
  apply km_reachable_ok, sample_manager_reachable.
Defined.

Lemma km_step_refines_witness :
  km_ok signing_manager ∧
  (ring (RetireKey "none" signing_manager).2 = ring signing_manager ∨
   ring_step (ring signing_manager) (ring (RetireKey "none" signing_manager).2)).
Proof.
  split; [apply signing_manager_ok|].
  apply km_step_refines; [apply signing_manager_ok|apply km_step_retire].
Defined.

Lemma ListSigningKeys_spec_witness :
  length (ListSigningKeys signing_manager) = 1%nat ∧
  NoDup (sk_KeyId <$> ListSigningKeys signing_manager).
Proof.
  split; [by vm_compute|].
  exact (proj1 (proj2 (ListSigningKeys_spec signing_manager signing_manager_ok))).
Defined.

Lemma rotation_lifecycle_witness :
  ∃ km1 km2, AddKeyPassive (Ok key_1) signing_manager =
      (Ok (generateKeyID (Some (privateKey_PublicKey key_1))), km1) ∧
    PromoteKey (generateKeyID (Some (privateKey_PublicKey key_1))) km1 = (Ok tt, km2) ∧
    GetPrivateKey km2 = Some key_1.
Proof.
  destruct (rotation_lifecycle signing_manager key_0 key_1 signing_manager_ok)
    as (km1 & km2 & km3 & H1 & _ & _ & H2 & H3 & _); [reflexivity|apply is_None_true; by vm_compute|].
  exists km1, km2. done.
Defined.

Lemma pem_export_import_witness :
  ∃ pem km2, ExportPrivateKeyPEM signing_manager = Ok pem ∧
    InitializeFromPEM pem KeyManager_zero = (Ok tt, km2) ∧ GetPrivateKey km2 = Some key_0.
Proof.
  eexists. destruct (pem_export_import signing_manager _ KeyManager_zero signing_manager_ok
    (eq_refl _)) as (km2 & H1 & H2 & _).
  exists km2. split; [reflexivity|]. split; [exact H1|exact H2].
Defined.
End instances.
