(* ===== verification/World.v ===== *)
(** * The shared state and the atomic actions on it

    [World] is everything the goroutines of the server share: the Redis
    keyspace, the database, the in-memory OAuth state store, the key manager
    and the mail that left, with the number of external actions so far, which
    indexes the oracles of [Env].  The primitives below are the atomic actions
    handlers are made of.  A database transaction is one action: the pool has a
    single connection (SetMaxOpenConns(1) in database.go), so no other
    statement runs between its BEGIN and its COMMIT or ROLLBACK. *)

From S2P Require Import Prelude GoStrings Prog Data Platform RefPlatform KeyManager.

Section world.
Context `{P : Platform}.

Record World := mkWorld {
  w_step : nat;
  w_redis : rstate;
  w_db : DB;
  w_oauth_mem : gmap string State;
  w_keys : KeyManager;
  w_mail : list EmailMessage;
}.

Definition set_redis (s : rstate) (w : World) : World :=
  mkWorld (w_step w) s (w_db w) (w_oauth_mem w) (w_keys w) (w_mail w).
Definition set_db (d : DB) (w : World) : World :=
  mkWorld (w_step w) (w_redis w) d (w_oauth_mem w) (w_keys w) (w_mail w).
Definition set_oauth_mem (m : gmap string State) (w : World) : World :=
  mkWorld (w_step w) (w_redis w) (w_db w) m (w_keys w) (w_mail w).
Definition set_keys (k : KeyManager) (w : World) : World :=
  mkWorld (w_step w) (w_redis w) (w_db w) (w_oauth_mem w) k (w_mail w).
Definition set_mail (l : list EmailMessage) (w : World) : World :=
  mkWorld (w_step w) (w_redis w) (w_db w) (w_oauth_mem w) (w_keys w) l.
Definition set_step (n : nat) (w : World) : World :=
  mkWorld n (w_redis w) (w_db w) (w_oauth_mem w) (w_keys w) (w_mail w).
Definition tick (w : World) : World := set_step (S (w_step w)) w.

(** The clock as the next action reads it. *)
Definition w_now (w : World) : Z := env_now (w_step w).

Lemma w_now_tick w : (w_now w ≤ w_now (tick w))%Z.
Proof. apply env_now_mono. simpl. lia. Qed.

(** A program on the shared state. *)
Abbreviation M := (prog World).

Definition time_Now : M Z := act (λ w, (w_now w, tick w)).

Definition rand_Read (n : nat) : M (result string) :=
  act (λ w, (match env_rand (w_step w) n with
             | Some b => Ok b
             | None => Err (errors_New "crypto/rand: read failed")
             end, tick w)).

Definition rand_Int (max : Z) : M (result Z) :=
  act (λ w, (match env_rand_int (w_step w) max with
             | Some n => Ok n
             | None => Err (errors_New "crypto/rand: read failed")
             end, tick w)).

Definition uuid_NewString : M string := act (λ w, (env_uuid (w_step w), tick w)).

(** The outcome of a call that may fail: the state before, the state if the
    call takes place, and its reply. *)
Definition with_fault {B} (w w' : World) (r : result B) : result B * World :=
  match env_fault (w_step w) with
  | None => (r, tick w')
  | Some f => (Err (errors_New (fault_msg f)), tick (if fault_applied f then w' else w))
  end.

(** A Redis command or script at the server. *)
Definition redis_call {B} (f : Z → rstate → result B * rstate) : M (result B) :=
  act (λ w, let '(r, s) := f (w_now w) (w_redis w) in with_fault w (set_redis s w) r).

(** A SQL statement outside a transaction. *)
Definition db_call {B} (f : DB → result B * DB) : M (result B) :=
  act (λ w, let '(r, d) := f (w_db w) in with_fault w (set_db d w) r).

(** A query of several rows: what it answers can depend on which query it is,
    where ORDER BY leaves the order of some rows open. *)
Definition db_query {B} (f : nat → DB → result B) : M (result B) :=
  act (λ w, with_fault w w (f (w_step w) (w_db w))).

(** A method of the key manager that holds its lock. *)
Definition keys_call {B} (f : nat → KeyManager → B * KeyManager) : M B :=
  act (λ w, let '(b, k) := f (w_step w) (w_keys w) in (b, tick (set_keys k w))).

(** ** Transactions *)

Record TxState := mkTxState {
  tx_step : nat;
  tx_committed : DB;
  tx_db : DB;
}.

Definition tx_BeginTx : prog TxState (result unit) :=
  act (λ t, (match env_fault (tx_step t) with
             | None => Ok tt | Some f => Err (errors_New (fault_msg f)) end,
             mkTxState (S (tx_step t)) (tx_committed t) (tx_db t))).

Definition tx_stmt {B} (f : DB → result B * DB) : prog TxState (result B) :=
  act (λ t, match env_fault (tx_step t) with
            | None => let '(r, d) := f (tx_db t) in
                      (r, mkTxState (S (tx_step t)) (tx_committed t) d)
            | Some ft => (Err (errors_New (fault_msg ft)),
                          mkTxState (S (tx_step t)) (tx_committed t) (tx_db t))
            end).

Definition tx_Commit : prog TxState (result unit) :=
  act (λ t, match env_fault (tx_step t) with
            | None => (Ok tt, mkTxState (S (tx_step t)) (tx_db t) (tx_db t))
            | Some f => (Err (errors_New (fault_msg f)),
                         mkTxState (S (tx_step t))
                           (if fault_applied f then tx_db t else tx_committed t) (tx_db t))
            end).

Definition tx_uuid_NewString : prog TxState string :=
  act (λ t, (env_uuid (tx_step t), mkTxState (S (tx_step t)) (tx_committed t) (tx_db t))).

(** What is not committed is rolled back (the deferred tx.Rollback). *)
Definition transaction {B} (m : prog TxState B) : M B :=
  act (λ w, let '(b, t) := run m (mkTxState (w_step w) (w_db w) (w_db w)) in
            (b, set_step (tx_step t) (set_db (tx_committed t) w))).

(** ** Rules *)

Lemma wp_time_Now Q w : Q (w_now w) (tick w) → wp time_Now Q w.
Proof. done. Qed.

Lemma wp_uuid Q w : Q (env_uuid (w_step w)) (tick w) → wp uuid_NewString Q w.
Proof. done. Qed.

Lemma wp_redis_call {B} (f : Z → rstate → result B * rstate) Q w :
  (env_fault (w_step w) = None →
    Q (f (w_now w) (w_redis w)).1 (tick (set_redis (f (w_now w) (w_redis w)).2 w))) →
  (∀ msg, Q (Err (errors_New msg)) (tick (set_redis (f (w_now w) (w_redis w)).2 w))) →
  (∀ msg, Q (Err (errors_New msg)) (tick w)) →
  wp (redis_call f) Q w.
Proof.
  intros H1 H2 H3. apply wp_act. destruct (f _ _) as [r s]; simpl in *.
  unfold with_fault. destruct (env_fault (w_step w)) as [[msg []]|]; simpl; auto.
Qed.

Lemma wp_db_call {B} (f : DB → result B * DB) Q w :
  (env_fault (w_step w) = None → Q (f (w_db w)).1 (tick (set_db (f (w_db w)).2 w))) →
  (∀ ft, env_fault (w_step w) = Some ft →
    Q (Err (errors_New (fault_msg ft))) (tick (set_db (f (w_db w)).2 w))) →
  (∀ ft, env_fault (w_step w) = Some ft → Q (Err (errors_New (fault_msg ft))) (tick w)) →
  wp (db_call f) Q w.
Proof.
  intros H1 H2 H3. apply wp_act. destruct (f _) as [r s]; simpl in *.
  unfold with_fault. destruct (env_fault (w_step w)) as [[msg []]|] eqn:Hf; simpl; auto.
  - by apply (H2 _ eq_refl).
  - by apply (H3 _ eq_refl).
Qed.
(** ** Frames

    What a call can change: nothing but the clock, the Redis keys under a
    prefix, the database, or the mail that was sent.  Each is a preorder. *)

Record redis_only (pre : string) (w w' : World) : Prop := mk_redis_only {
  ro_step : (w_step w ≤ w_step w')%nat;
  ro_db : w_db w' = w_db w;
  ro_oauth_mem : w_oauth_mem w' = w_oauth_mem w;
  ro_keys : w_keys w' = w_keys w;
  ro_mail : w_mail w' = w_mail w;
  ro_redis k : HasPrefix k pre = false → redis_entry (w_redis w') k = redis_entry (w_redis w) k;
}.

Record db_only (w w' : World) : Prop := mk_db_only {
  do_step : (w_step w ≤ w_step w')%nat;
  do_redis : w_redis w' = w_redis w;
  do_oauth_mem : w_oauth_mem w' = w_oauth_mem w;
  do_keys : w_keys w' = w_keys w;
  do_mail : w_mail w' = w_mail w;
}.

Record clock_only (w w' : World) : Prop := mk_clock_only {
  co_step : (w_step w ≤ w_step w')%nat;
  co_redis : w_redis w' = w_redis w;
  co_db : w_db w' = w_db w;
  co_oauth_mem : w_oauth_mem w' = w_oauth_mem w;
  co_keys : w_keys w' = w_keys w;
  co_mail : w_mail w' = w_mail w;
}.

Record mail_only (w w' : World) : Prop := mk_mail_only {
  mo_step : (w_step w ≤ w_step w')%nat;
  mo_redis : w_redis w' = w_redis w;
  mo_db : w_db w' = w_db w;
  mo_oauth_mem : w_oauth_mem w' = w_oauth_mem w;
  mo_keys : w_keys w' = w_keys w;
}.

#[export] Instance redis_only_preorder pre : PreOrder (redis_only pre).
Proof.
  split; [by split|]. intros w1 w2 w3 [] []. split; try congruence; [lia|].
  intros k Hk. rewrite ro_redis1, ro_redis0 by done. done.
Qed.

#[export] Instance db_only_preorder : PreOrder db_only.
Proof. split; [by split|]. intros w1 w2 w3 [] []. split; try congruence. lia. Qed.

#[export] Instance clock_only_preorder : PreOrder clock_only.
Proof. split; [by split|]. intros w1 w2 w3 [] []. split; try congruence. lia. Qed.

(** Relations that allow for the clock to move. *)
Class TickClosed (R : relation World) := tick_closed w : R w (tick w).

#[export] Instance redis_only_tick pre : TickClosed (redis_only pre).
Proof. intros w. split; simpl; auto. Qed.
#[export] Instance db_only_tick : TickClosed db_only.
Proof. intros w. split; simpl; auto. Qed.
#[export] Instance clock_only_tick : TickClosed clock_only.
Proof. intros w. split; simpl; auto. Qed.
#[export] Instance mail_only_tick : TickClosed mail_only.
Proof. intros w. split; simpl; auto. Qed.
Lemma mail_only_sent mail w : mail_only w (tick (set_mail mail w)).
Proof. split; simpl; auto. Qed.

(** What leaves the database alone. *)
Definition db_same (w w' : World) : Prop := w_db w' = w_db w.

#[export] Instance db_same_preorder : PreOrder db_same.
Proof. split; [by intros w|]. unfold db_same. intros w1 w2 w3. congruence. Qed.
#[export] Instance db_same_tick : TickClosed db_same.
Proof. by intros w. Qed.

Lemma redis_call_db {B} (f : Z → rstate → result B * rstate) : guarantees db_same (redis_call f).
Proof.
  apply guarantees_op. intros w. unfold db_same, with_fault. destruct (f _ _).
  by destruct (env_fault _) as [[m []]|].
Qed.

Lemma time_Now_guarantees R `{!TickClosed R} : guarantees R time_Now.
Proof. apply guarantees_op. intros w. apply tick_closed. Qed.

Lemma uuid_guarantees R `{!TickClosed R} : guarantees R uuid_NewString.
Proof. apply guarantees_op. intros w. apply tick_closed. Qed.

Lemma rand_guarantees R `{!TickClosed R} n : guarantees R (rand_Read n).
Proof. apply guarantees_op. intros w. apply tick_closed. Qed.

Lemma rand_Int_guarantees R `{!TickClosed R} max : guarantees R (rand_Int max).
Proof. apply guarantees_op. intros w. apply tick_closed. Qed.

(** A call is within [R] when its success is and a tick is. *)
Lemma redis_call_guarantees R `{!TickClosed R} {B} (f : Z → rstate → result B * rstate) :
  (∀ w, R w (tick (set_redis (f (w_now w) (w_redis w)).2 w))) → guarantees R (redis_call f).
Proof.
  intros HR. apply guarantees_op. intros w. specialize (HR w).
  destruct (f _ _) as [r s]. unfold with_fault. simpl in *.
  destruct (env_fault (w_step w)) as [[m []]|]; simpl; auto.
Qed.

Lemma db_call_guarantees R `{!TickClosed R} {B} (f : DB → result B * DB) :
  (∀ w, R w (tick (set_db (f (w_db w)).2 w))) → guarantees R (db_call f).
Proof.
  intros HR. apply guarantees_op. intros w. specialize (HR w).
  destruct (f _) as [r s]. unfold with_fault. simpl in *.
  destruct (env_fault (w_step w)) as [[m []]|]; simpl; auto.
Qed.

Lemma redis_call_only pre {B} (f : Z → rstate → result B * rstate) :
  (∀ t s k, HasPrefix k pre = false → redis_entry (f t s).2 k = redis_entry s k) →
  guarantees (redis_only pre) (redis_call f).
Proof. intros Hf. apply redis_call_guarantees; [apply _|]. intros w. split; simpl; auto. Qed.

Lemma db_call_only {B} (f : DB → result B * DB) : guarantees db_only (db_call f).
Proof. apply db_call_guarantees; [apply _|]. intros w. split; simpl; auto. Qed.

Lemma transaction_only {B} (m : prog TxState B) :
  (∀ t, tx_step t ≤ tx_step (run m t).2)%nat → guarantees db_only (transaction m).
Proof.
  intros Hm. apply guarantees_op. intros w.
  specialize (Hm (mkTxState (w_step w) (w_db w) (w_db w))).
  destruct (run m _) as [b t]. split; simpl in *; auto.
Qed.

Lemma w_now_le w w' : (w_step w ≤ w_step w')%nat → (w_now w ≤ w_now w')%Z.
Proof. apply env_now_mono. Qed.

Lemma set_redis_id w : set_redis (w_redis w) w = w.
Proof. by destruct w. Qed.

Lemma set_db_id w : set_db (w_db w) w = w.
Proof. by destruct w. Qed.

Lemma redis_call_ok {B} (f : Z → rstate → result B * rstate) w :
  env_fault (w_step w) = None →
  run (redis_call f) w =
    ((f (w_now w) (w_redis w)).1, tick (set_redis (f (w_now w) (w_redis w)).2 w)).
Proof. intros Hf. simpl. destruct (f _ _). unfold with_fault. by rewrite Hf. Qed.

Lemma db_call_ok {B} (f : DB → result B * DB) w :
  env_fault (w_step w) = None →
  run (db_call f) w = ((f (w_db w)).1, tick (set_db (f (w_db w)).2 w)).
Proof. intros Hf. simpl. destruct (f _). unfold with_fault. by rewrite Hf. Qed.

(** A call that answers Ok took place. *)
Lemma redis_call_Ok_inv {B} (f : Z → rstate → result B * rstate) w b w' :
  run (redis_call f) w = (Ok b, w') →
  ∃ s, f (w_now w) (w_redis w) = (Ok b, s) ∧ w' = tick (set_redis s w).
Proof.
  simpl. destruct (f _ _) as [r s]. unfold with_fault.
  destruct (env_fault (w_step w)) as [[m []]|]; [done..|]. intros [= -> <-]. eauto.
Qed.

Lemma db_call_Ok_inv {B} (f : DB → result B * DB) w b w' :
  run (db_call f) w = (Ok b, w') →
  ∃ d, f (w_db w) = (Ok b, d) ∧ w' = tick (set_db d w).
Proof.
  simpl. destruct (f _) as [r s]. unfold with_fault.
  destruct (env_fault (w_step w)) as [[m []]|]; [done..|]. intros [= -> <-]. eauto.
Qed.

(** A read leaves the state as it is, whether it fails or not. *)
Lemma redis_read_run {B} (f : Z → rstate → result B) w :
  run (redis_call (λ t s, (f t s, s))) w =
    (match env_fault (w_step w) with
     | None => f (w_now w) (w_redis w)
     | Some ft => Err (errors_New (fault_msg ft))
     end, tick w).
Proof.
  simpl. unfold with_fault. destruct (env_fault (w_step w)) as [[m []]|]; by rewrite ?set_redis_id.
Qed.

Lemma db_read_run {B} (f : DB → result B) w :
  run (db_call (λ d, (f d, d))) w =
    (match env_fault (w_step w) with
     | None => f (w_db w)
     | Some ft => Err (errors_New (fault_msg ft))
     end, tick w).
Proof.
  simpl. unfold with_fault. destruct (env_fault (w_step w)) as [[m []]|]; by rewrite ?set_db_id.
Qed.

Lemma db_query_run {B} (f : nat → DB → result B) w :
  run (db_query f) w =
    (match env_fault (w_step w) with
     | None => f (w_step w) (w_db w)
     | Some ft => Err (errors_New (fault_msg ft))
     end, tick w).
Proof. simpl. unfold with_fault. by destruct (env_fault (w_step w)) as [[m []]|]. Qed.
End world.

Abbreviation M := (prog World).
#[global] Arguments tick : simpl never.

#[export] Hint Resolve w_now_tick time_Now_guarantees uuid_guarantees rand_guarantees
  rand_Int_guarantees
  db_call_only : go.

(** The state of a server that has just started on the calm platform. *)
Definition calm_world : @World calm :=
  mkWorld (P:=calm) 0 (redis_empty (Redis:=ref_redis)) empty_db ∅ KeyManager_zero [].
#[export] Hint Extern 1 (TickClosed _) => apply _ : go.
