(* ===== verification/Machine.v ===== *)
(** * What a process runs against

    [Machine]: the host with its files, the database file, the number of
    connections open to it, and the [World] a running server shares.  Starting the
    server, the commands and closing the service act on all of it; the handlers
    only on the [World].  The calls of database/sql that open and close a
    connection are here, since the service keeps one of them as its cleanup. *)

From S2P Require Import Prelude Prog Host Data Platform RefPlatform Migrations World.
#[local] Open Scope Z_scope.

Section machine.
Context `{P : Platform}.

Record Machine := mkMachine {
  ma_host : Host;
  ma_file : DbFile;
  ma_open : Z;
  ma_world : World;
}.

Definition set_host (h : Host) (m : Machine) : Machine :=
  mkMachine h (ma_file m) (ma_open m) (ma_world m).
Definition set_file (d : DbFile) (m : Machine) : Machine :=
  mkMachine (ma_host m) d (ma_open m) (ma_world m).
Definition set_conns (n : Z) (m : Machine) : Machine :=
  mkMachine (ma_host m) (ma_file m) n (ma_world m).
Definition set_world (w : World) (m : Machine) : Machine :=
  mkMachine (ma_host m) (ma_file m) (ma_open m) w.

End machine.

Abbreviation MM := (prog Machine).

Section calls.
Context `{P : Platform} `{O : OS}.

Definition on_host {A} : HostM A → MM A := zoom ma_host set_host.
Definition on_file {A} : prog DbFile A → MM A := zoom ma_file set_file.
Definition on_world {A} : M A → MM A := zoom ma_world set_world.

(** ** database/sql, as internal/store/sqlite/database.go calls it *)

Definition sql_Open : MM (result unit) :=
  act (λ m, let d := ma_file m in
            match env_fault (dbf_step d) with
            | Some ft => (Err (errors_New (fault_msg ft)), set_file (dbf_tick d) m)
            | None => (Ok tt, set_conns (ma_open m + 1) (set_file (dbf_tick d) m))
            end).
Definition db_Ping : MM (result unit) := on_file (file_call id (λ d, (Ok tt, d))).
(** Closing loses the transaction that is open. *)
Definition db_Close : MM (result unit) :=
  act (λ m, (Ok tt, set_conns (ma_open m - 1) (set_file (set_tx None (ma_file m)) m))).
End calls.
