(* ===== verification/Password.v ===== *)
(** * Password hashing, internal/security/password.go

    Argon2id itself is a parameter; the PHC-style encoding of its output and the
    parsing of that encoding, with fmt.Sscanf's rules, are modelled. *)

From S2P Require Import Prelude GoStrings Prog Data Platform RefPlatform KeyManager World.
From Stdlib Require Import Ascii.
#[local] Open Scope Z_scope.

(** ** fmt.Sscanf, for formats of literal characters and %d *)

Section sscanf.

(** SkipSpace: a newline is an error. *)
Fixpoint skip_space (l : list ascii) : option (list ascii) :=
  match l with
  | [] => Some []
  | a :: l1 =>
      if bool_decide (a = "010"%char) then None else
      if space1 a then skip_space l1 else
      match l1 with
      | b :: l2 =>
          if space2 a b then skip_space l2 else
          match l2 with
          | c :: l3 => if space3 a b c then skip_space l3 else Some l
          | [] => Some l
          end
      | [] => Some l
      end
  end.

Fixpoint scan_digits (l : list ascii) : list ascii * list ascii :=
  match l with
  | c :: l' => match digit_val c with
               | Some _ => let '(ds, r) := scan_digits l' in (c :: ds, r)
               | None => ([], l)
               end
  | [] => ([], [])
  end.

(** At least one digit, and the number fits. *)
Definition scan_number (max : Z) (l : list ascii) : option (Z * list ascii) :=
  match scan_digits l with
  | ([], _) => None
  | (ds, r) => n ← parse_digits 0 ds; if n <=? max then Some (n, r) else None
  end.

(** %d into a *uintN. *)
Definition scan_uint (bits : Z) (l : list ascii) : option (Z * list ascii) :=
  l ← skip_space l; scan_number (2 ^ bits - 1) l.

(** %d into an *int, with an optional sign. *)
Definition scan_int (l : list ascii) : option (Z * list ascii) :=
  l ← skip_space l;
  match l with
  | c :: l' =>
      if bool_decide (c = "-"%char)
      then '(n, r) ← scan_number (- min_int64) l'; Some (- n, r)
      else if bool_decide (c = "+"%char) then scan_number max_int64 l'
      else scan_number max_int64 l
  | [] => None
  end.

Fixpoint scan_literal (fmt l : list ascii) : option (list ascii) :=
  match fmt, l with
  | [], _ => Some l
  | c :: fmt', d :: l' => if bool_decide (c = d) then scan_literal fmt' l' else None
  | _, [] => None
  end.
End sscanf.

Definition scan_error {A} : result A := Err (errors_New "input does not match format").

(** fmt.Sscanf(s, "v=%d", &version): what is left of the input is ignored. *)
Definition sscanf_version (s : string) : result Z :=
  match (l ← scan_literal (s2l "v=") (s2l s); scan_int l) with
  | Some (v, _) => Ok v
  | None => scan_error
  end.

(** fmt.Sscanf(s, "m=%d,t=%d,p=%d", &memory, &time, &threads). *)
Definition sscanf_params (s : string) : result (Z * Z * Z) :=
  match (l ← scan_literal (s2l "m=") (s2l s);
         '(memory, l) ← scan_uint 32 l;
         l ← scan_literal (s2l ",t=") l;
         '(time, l) ← scan_uint 32 l;
         l ← scan_literal (s2l ",p=") l;
         '(threads, _) ← scan_uint 8 l;
         Some (memory, time, threads)) with
  | Some r => Ok r
  | None => scan_error
  end.

Section password.
Context `{P : Platform}.

Record Config := mkConfig {
  cfg_time : Z;
  cfg_memory : Z;
  cfg_threads : Z;
  cfg_keyLen : Z;
}.

Definition defaultConfig : Config := mkConfig 1 (64 * 1024) 4 32.

Definition argon2_Version : Z := 19.

Definition format_hash (config : Config) (saltB64 hashB64 : string) : string :=
  "$argon2id$v=" +:+ Itoa argon2_Version +:+ "$m=" +:+ Itoa (cfg_memory config) +:+
  ",t=" +:+ Itoa (cfg_time config) +:+ ",p=" +:+ Itoa (cfg_threads config) +:+
  "$" +:+ saltB64 +:+ "$" +:+ hashB64.

Definition HashPassword (password : string) : M (result string) :=
  let config := defaultConfig in
  try salt := rand_Read 16 in
  let hash := argon2_IDKey password salt (cfg_time config) (cfg_memory config)
                (cfg_threads config) (cfg_keyLen config) in
  let saltB64 := b64_encode b64_std salt in
  let hashB64 := b64_encode b64_std hash in
  Ret (Ok (format_hash config saltB64 hashB64)).

Definition b64_error {A} : result A := Err (errors_New "illegal base64 data").

(** strings.Split with an index out of range does not arise: there are six
    parts.  argon2.IDKey panics on rounds, a parallelism or a length of zero; no
    hash that HashPassword made has them, and the model does not tell the panic
    apart. *)
Definition VerifyPassword (password hash : string) : result bool :=
  match Split hash "$" with
  | [_; alg; version; params; salt64; hash64] =>
      if negb (alg == "argon2id")%go then Err (errors_New "unsupported hash algorithm") else
      _ ← sscanf_version version;
      '(memory, time, threads) ← sscanf_params params;
      salt ← match b64_decode b64_std salt64 with Some s => Ok s | None => b64_error end;
      expectedHash ← match b64_decode b64_std hash64 with Some s => Ok s | None => b64_error end;
      let actualHash := argon2_IDKey password salt time memory threads
                          (Z.of_nat (String.length expectedHash) mod 2 ^ 32) in
      Ok (actualHash == expectedHash)%go
  | _ => Err (errors_New "invalid hash format")
  end.
End password.

(** ** Splitting what was joined *)

Definition has_char (c : ascii) (s : string) : bool := bool_decide (c ∈ s2l s).

Lemma split_go_app sep cur l r :
  sep ∉ l → split_go sep cur (l ++ sep :: r) = l2s (reverse cur ++ l) :: split_go sep [] r.
Proof.
  revert cur. induction l as [|c l IH]; intros cur Hl; simpl.
  - rewrite bool_decide_eq_true_2 by done. by rewrite app_nil_r.
  - apply not_elem_of_cons in Hl as [Hc Hl]. rewrite bool_decide_eq_false_2 by done.
    rewrite IH by done. by rewrite reverse_cons, <-app_assoc.
Qed.

Lemma split_go_end sep cur l : sep ∉ l → split_go sep cur l = [l2s (reverse cur ++ l)].
Proof.
  revert cur. induction l as [|c l IH]; intros cur Hl; simpl; [by rewrite app_nil_r|].
  apply not_elem_of_cons in Hl as [Hc Hl]. rewrite bool_decide_eq_false_2 by done.
  rewrite IH by done. by rewrite reverse_cons, <-app_assoc.
Qed.

Lemma Split_app sep s r : sep ∉ s2l s → Split (s +:+ String sep r) sep = s :: Split r sep.
Proof.
  intros Hs. unfold Split. rewrite s2l_app. cbn [s2l]. rewrite split_go_app by done.
  change (reverse [] ++ s2l s) with (s2l s). by rewrite String.string_of_list_ascii_of_string.
Qed.

Lemma Split_one sep s : sep ∉ s2l s → Split s sep = [s].
Proof.
  intros Hs. unfold Split. rewrite split_go_end by done.
  change (reverse [] ++ s2l s) with (s2l s). by rewrite String.string_of_list_ascii_of_string.
Qed.

Lemma b64_no_dollar s : "$"%char ∉ s2l (b64_encode b64_std s).
Proof.
  unfold b64_encode. rewrite String.list_ascii_of_string_of_list_ascii, b64_encode_groups.
  intros (n & Hn & Hin)%list_elem_of_fmap.
  pose proof (b64_groups_bound (s2l s)) as Hb. rewrite Forall_forall in Hb. specialize (Hb n Hin).
  assert (b64_val b64_std "$"%char = None) as Hd by reflexivity. rewrite Hn in Hd.
  by rewrite (proj1 (b64_std_alphabet n Hb)) in Hd.
Qed.

Section properties.
Context `{P : Platform}.

Definition argon2_default (password salt : string) : string :=
  argon2_IDKey password salt 1 65536 4 32.

(** The text HashPassword leaves, and its six parts. *)
Definition stored_hash (password salt : string) : string :=
  format_hash defaultConfig (b64_encode b64_std salt)
    (b64_encode b64_std (argon2_default password salt)).

Lemma stored_hash_split password salt :
  Split (stored_hash password salt) "$" = [""; "argon2id"; "v=19"; "m=65536,t=1,p=4";
    b64_encode b64_std salt; b64_encode b64_std (argon2_default password salt)].
Proof.
  change (stored_hash password salt) with ("$argon2id$v=19$m=65536,t=1,p=4$" +:+
    (b64_encode b64_std salt +:+ String "$" (b64_encode b64_std (argon2_default password salt)))).
  change ("$argon2id$v=19$m=65536,t=1,p=4$" +:+ ?s) with
    ("" +:+ String "$" ("argon2id" +:+ String "$" ("v=19" +:+ String "$"
      ("m=65536,t=1,p=4" +:+ String "$" s)))).
  rewrite !Split_app, Split_one; [done|..]; try apply b64_no_dollar;
    by apply (bool_decide_eq_false (_ ∈ _)).
Qed.

Lemma VerifyPassword_stored candidate password salt :
  VerifyPassword candidate (stored_hash password salt) =
    Ok (argon2_default candidate salt == argon2_default password salt)%go.
Proof.
  unfold VerifyPassword. rewrite stored_hash_split. simpl.
  rewrite !(b64_decode_encode _ _ b64_std_alphabet). simpl.
  assert (String.length (argon2_default password salt) = 32%nat) as -> by apply argon2_length.
  done.
Qed.

Lemma HashPassword_inv password h w w' :
  run (HashPassword password) w = (Ok h, w') →
  w' = tick w ∧ ∃ salt, String.length salt = 16%nat ∧ h = stored_hash password salt.
Proof.
  unfold HashPassword. rewrite run_try. simpl.
  destruct (env_rand (w_step w) 16) as [salt|] eqn:Hr; [|done].
  intros [= <- <-]. split; [done|]. exists salt. split; [by eapply env_rand_length|done].
Qed.

(** C33.  What HashPassword writes, VerifyPassword reads back: for every
    password and whatever the random salt, checking a candidate against the
    stored text recomputes Argon2id with the same salt and the same cost
    parameters and answers whether the two digests are equal; in particular the
    right password is always accepted. *)
Theorem HashPassword_VerifyPassword password candidate h w w'
    (Hhash : run (HashPassword password) w = (Ok h, w')) :
  ∃ salt, String.length salt = 16%nat ∧
    VerifyPassword candidate h =
      Ok (argon2_default candidate salt == argon2_default password salt)%go ∧
    VerifyPassword password h = Ok true.
Proof.
  apply HashPassword_inv in Hhash as (_ & salt & Hsalt & ->). exists salt.
  rewrite !VerifyPassword_stored. do 2 (split; [done|]). by rewrite bool_decide_eq_true_2.
Qed.
End properties.

Section instances.
#[local] Existing Instance calm.

Lemma HashPassword_VerifyPassword_witness :
  ∃ h w', run (HashPassword "hunter2") calm_world = (Ok h, w') ∧ VerifyPassword "hunter2" h = Ok true.
Proof.
  eexists _, _. split; [reflexivity|].
  destruct (HashPassword_VerifyPassword "hunter2" "" _ calm_world _ eq_refl) as (salt & _ & _ & H).
  exact H.
Defined.
End instances.
