(* ===== verification/Tokens.v ===== *)
(** * Tokens, internal/security/tokens.go

    Minting and validation of the JWTs.  The functions read the clock and the
    random source, so they are programs; signing and parsing are golang-jwt's. *)

From S2P Require Import Prelude GoStrings Prog Data Platform RefPlatform KeyManager World.
#[local] Open Scope Z_scope.

Section tokens.
Context `{P : Platform}.

Record TokenConfig := mkTokenConfig {
  tc_PrivateKey : option PrivateKey;
  tc_PublicKey : option PublicKey;
  tc_KeyID : string;
  tc_Issuer : string;
  tc_AccessTokenExpiration : Z;
  tc_RefreshTokenExpiration : Z;
  tc_ServiceTokenExpiration : Z;
}.

Definition NewStandardClaims (userID : string) (tokenType : TokenType) (issuer : string)
    (expiresAt : Z) : M (result StandardClaims) :=
  try tokenIDBytes := rand_Read 16 in
  let tokenID := hex_encode tokenIDBytes in
  now ← time_Now;
  Ret (Ok {|
    sc_Issuer := issuer;
    sc_Subject := userID;
    sc_ExpiresAt := Some (jwt_NewNumericDate expiresAt);
    sc_IssuedAt := Some (jwt_NewNumericDate now);
    sc_NotBefore := Some (jwt_NewNumericDate now);
    sc_RegisteredID := tokenID;
    sc_UserID := userID;
    sc_TokenType := tokenType;
    sc_TokenID := tokenID;
    sc_ServiceAccountID := "";
    sc_Scopes := [];
  |}).

Definition GenerateToken (claims : StandardClaims) (privateKey : option PrivateKey)
    (keyID : string) : result string :=
  jwt_SignedString claims keyID privateKey.

Definition NewTokenPair (userID : string) (config : TokenConfig) : M (result TokenPair) :=
  now ← time_Now;
  let accessExpiresAt := now + tc_AccessTokenExpiration config in
  let refreshExpiresAt := now + tc_RefreshTokenExpiration config in
  try accessClaims :=
    NewStandardClaims userID AccessTokenType (tc_Issuer config) accessExpiresAt in
  try accessToken :=
    Ret (GenerateToken accessClaims (tc_PrivateKey config) (tc_KeyID config)) in
  try refreshClaims :=
    NewStandardClaims userID RefreshTokenType (tc_Issuer config) refreshExpiresAt in
  try refreshToken :=
    Ret (GenerateToken refreshClaims (tc_PrivateKey config) (tc_KeyID config)) in
  Ret (Ok (mkTokenPair (mkToken accessToken accessExpiresAt)
                       (mkToken refreshToken refreshExpiresAt))).

(** The claims of a service token: UserID is cleared, Subject is not. *)
Definition service_claims (serviceAccountID : string) (scopes : list string)
    (claims : StandardClaims) : StandardClaims :=
  mkStandardClaims (sc_Issuer claims) (sc_Subject claims) (sc_ExpiresAt claims)
    (sc_IssuedAt claims) (sc_NotBefore claims) (sc_RegisteredID claims) ""
    (sc_TokenType claims) (sc_TokenID claims) serviceAccountID scopes.

Definition NewServiceToken (serviceAccountID : string) (scopes : list string)
    (config : TokenConfig) : M (result Token) :=
  now ← time_Now;
  let expiresAt := now + tc_ServiceTokenExpiration config in
  try claims :=
    NewStandardClaims serviceAccountID ServiceTokenType (tc_Issuer config) expiresAt in
  let claims := service_claims serviceAccountID scopes claims in
  try value := Ret (GenerateToken claims (tc_PrivateKey config) (tc_KeyID config)) in
  Ret (Ok (mkToken value expiresAt)).

(** The function literal ValidateToken gives to the parser. *)
Definition keyfunc (publicKey : option PublicKey) (method : SigningMethod)
    : result (option PublicKey) :=
  match method with
  | SigningMethodRSA _ => Ok publicKey
  | SigningMethodOther alg => Err (errors_New ("unexpected signing method: " +:+ alg))
  end.

(** The type assertion and the Valid flag that follow the parse always hold
    when it succeeds. *)
Definition ValidateToken (tokenString : string) (publicKey : option PublicKey)
    : M (result StandardClaims) :=
  now ← time_Now;
  Ret (jwt_ParseWithClaims tokenString (keyfunc publicKey) now).

Definition ValidateAccessToken (tokenString : string) (publicKey : option PublicKey)
    : M (result StandardClaims) :=
  try claims := ValidateToken tokenString publicKey in
  if negb (sc_TokenType claims == AccessTokenType)%go
  then Ret (Err jwt_ErrTokenInvalidClaims) else Ret (Ok claims).

Definition ValidateRefreshToken (tokenString : string) (publicKey : option PublicKey)
    : M (result StandardClaims) :=
  try claims := ValidateToken tokenString publicKey in
  if negb (sc_TokenType claims == RefreshTokenType)%go
  then Ret (Err jwt_ErrTokenInvalidClaims) else Ret (Ok claims).

Definition ValidateServiceToken (tokenString : string) (publicKey : option PublicKey)
    : M (result StandardClaims) :=
  try claims := ValidateToken tokenString publicKey in
  if negb (sc_TokenType claims == ServiceTokenType)%go || (sc_ServiceAccountID claims == "")%go
  then Ret (Err jwt_ErrTokenInvalidClaims) else Ret (Ok claims).

Definition RefreshTokenPair (refreshTokenString : string) (config : TokenConfig)
    : M (result TokenPair) :=
  try claims := ValidateRefreshToken refreshTokenString (tc_PublicKey config) in
  NewTokenPair (sc_UserID claims) config.
End tokens.

(** ** Minting and validating *)

Section validation.
Context `{P : Platform}.
Implicit Types (c : StandardClaims) (w : World).

Lemma NewStandardClaims_run uid typ iss expiry w :
  run (NewStandardClaims uid typ iss expiry) w =
    match env_rand (w_step w) 16 with
    | Some b =>
        (Ok (mkStandardClaims iss uid (Some (jwt_NewNumericDate expiry))
           (Some (jwt_NewNumericDate (w_now (tick w))))
           (Some (jwt_NewNumericDate (w_now (tick w)))) (hex_encode b) uid typ
           (hex_encode b) "" []), tick (tick w))
    | None => (Err (errors_New "crypto/rand: read failed"), tick w)
    end.
Proof. unfold NewStandardClaims. rewrite run_try. simpl. by destruct (env_rand _ _). Qed.

(** What a validation checks, as a proposition. *)
Lemma ValidateToken_ok tok pk w c :
  (run (ValidateToken tok pk) w).1 = Ok c ↔
    (∃ alg, jwt_method tok = Some (SigningMethodRSA alg)) ∧
    jwt_verify tok pk = Ok c ∧ jwt_times_valid (w_now w) c = true.
Proof.
  simpl. rewrite jwt_Parse_spec. split.
  - intros ([alg|alg] & k & Hm & Hk & ?); simpl in Hk; [|done].
    injection Hk as <-. eauto.
  - intros ([alg ?] & ?). exists (SigningMethodRSA alg), pk. done.
Qed.

Lemma ValidateToken_world tok pk w : (run (ValidateToken tok pk) w).2 = tick w.
Proof. done. Qed.

(** The three typed validations add a test on the claims. *)
Definition typed (ok : StandardClaims → bool) (r : result StandardClaims)
    : result StandardClaims :=
  match r with
  | Ok c => if ok c then Ok c else Err jwt_ErrTokenInvalidClaims
  | Err e => Err e
  end.

Definition is_access c : bool := bool_decide (sc_TokenType c = AccessTokenType).
Definition is_refresh c : bool := bool_decide (sc_TokenType c = RefreshTokenType).
Definition is_service c : bool :=
  bool_decide (sc_TokenType c = ServiceTokenType) && negb (bool_decide (sc_ServiceAccountID c = "")).

Lemma ValidateAccessToken_run tok pk w :
  run (ValidateAccessToken tok pk) w = (typed is_access (run (ValidateToken tok pk) w).1, tick w).
Proof.
  unfold ValidateAccessToken. rewrite run_try. simpl.
  destruct (jwt_ParseWithClaims _ _ _); [|done]. simpl. unfold is_access. by case_bool_decide.
Qed.

Lemma ValidateRefreshToken_run tok pk w :
  run (ValidateRefreshToken tok pk) w = (typed is_refresh (run (ValidateToken tok pk) w).1, tick w).
Proof.
  unfold ValidateRefreshToken. rewrite run_try. simpl.
  destruct (jwt_ParseWithClaims _ _ _); [|done]. simpl. unfold is_refresh. by case_bool_decide.
Qed.

Lemma ValidateServiceToken_run tok pk w :
  run (ValidateServiceToken tok pk) w = (typed is_service (run (ValidateToken tok pk) w).1, tick w).
Proof.
  unfold ValidateServiceToken. rewrite run_try. simpl.
  destruct (jwt_ParseWithClaims _ _ _); [|done]. simpl. unfold is_service.
  by repeat case_bool_decide.
Qed.

Lemma typed_ok ok r c : typed ok r = Ok c ↔ r = Ok c ∧ ok c = true.
Proof.
  destruct r as [c'|e]; simpl; [|naive_solver].
  destruct (ok c') eqn:?; split; try naive_solver. intros [[= ->] ?]. congruence.
Qed.

Inductive TokenKind := KindAccess | KindRefresh | KindService.

Definition validate (k : TokenKind) : string → option PublicKey → M (result StandardClaims) :=
  match k with
  | KindAccess => ValidateAccessToken
  | KindRefresh => ValidateRefreshToken
  | KindService => ValidateServiceToken
  end.

Definition kind_ok (k : TokenKind) : StandardClaims → bool :=
  match k with KindAccess => is_access | KindRefresh => is_refresh | KindService => is_service end.

Lemma validate_run k tok pk w :
  run (validate k tok pk) w = (typed (kind_ok k) (run (ValidateToken tok pk) w).1, tick w).
Proof.
  destruct k; [apply ValidateAccessToken_run|apply ValidateRefreshToken_run|
    apply ValidateServiceToken_run].
Qed.

(** A validation reads the clock, and answers claims that verify and are not
    expired at that time. *)
Lemma validate_action kd tok pk :
  ∃ k : Z → M (result StandardClaims),
    validate kd tok pk = Act (λ w, (w_now w, tick w)) k ∧
    ∀ now, ∃ r, k now = Ret r ∧
      ∀ c, r = Ok c → jwt_verify tok pk = Ok c ∧ jwt_times_valid now c = true.
Proof.
  destruct kd; (eexists; split; [reflexivity|]; intros now; cbn;
    destruct (jwt_ParseWithClaims tok (keyfunc pk) now) as [c|e] eqn:Hp; cbn; [|by eexists];
    apply jwt_Parse_spec in Hp as (m & key & _ & Hkey & Hv & Ht);
    unfold keyfunc in Hkey; (destruct m; [injection Hkey as <-|done]);
    case_match; eexists; (split; [done|]); by intros c' [= <-]).
Qed.

Lemma kind_ok_unique k1 k2 c : k1 ≠ k2 → kind_ok k1 c = true → kind_ok k2 c = false.
Proof.
  intros Hne. destruct k1, k2; try done; unfold kind_ok, is_access, is_refresh, is_service;
    rewrite ?andb_true_iff, ?bool_decide_eq_true; intros H; destruct_and?;
    try match goal with H : sc_TokenType c = _ |- _ => rewrite H end; done.
Qed.

(** The kind of a token is read off its type. *)
Definition kind_typ (k : TokenKind) : TokenType :=
  match k with
  | KindAccess => AccessTokenType | KindRefresh => RefreshTokenType
  | KindService => ServiceTokenType
  end.

Lemma other_kind k c : sc_TokenType c ≠ kind_typ k → kind_ok k (wire_claims c) = false.
Proof.
  intros H. destruct k; simpl in *; unfold is_access, is_refresh, is_service; simpl;
    by rewrite bool_decide_eq_false_2.
Qed.

Lemma own_kind k c :
  sc_TokenType c = kind_typ k → (k = KindService → sc_ServiceAccountID c ≠ "") →
  kind_ok k (wire_claims c) = true.
Proof.
  intros H Hs. destruct k; simpl in *; unfold is_access, is_refresh, is_service; simpl;
    rewrite bool_decide_eq_true_2; try done. by rewrite bool_decide_eq_false_2 by auto.
Qed.

(** Claims as NewStandardClaims builds them, up to the service-token fields. *)
Record minted (iss uid : string) (typ : TokenType) (created expiry : Z) c : Prop := {
  minted_iss : sc_Issuer c = iss;
  minted_exp : sc_ExpiresAt c = Some (jwt_NewNumericDate expiry);
  minted_iat : sc_IssuedAt c = Some (jwt_NewNumericDate created);
  minted_nbf : sc_NotBefore c = Some (jwt_NewNumericDate created);
  minted_uid : sc_UserID c = uid;
  minted_typ : sc_TokenType c = typ;
  minted_safe : claims_json_safe c;
}.

(** A signed token of minted claims parses, for its key, exactly while it has
    not expired. *)
Lemma minted_parse iss uid typ created expiry c kid sk tok t :
  minted iss uid typ created expiry c → jwt_SignedString c kid (Some sk) = Ok tok →
  created ≤ t →
  let r := jwt_ParseWithClaims tok (keyfunc (Some (privateKey_PublicKey sk))) t in
  (t < jwt_NewNumericDate expiry → r = Ok (wire_claims c)) ∧
  (jwt_NewNumericDate expiry ≤ t → is_Ok r = false) ∧ jwt_kid tok = Some kid.
Proof.
  intros Hc Hs Ht r. destruct (jwt_sign_verify c kid sk tok) as (Hv & Hk & Hm); [..|done|].
  { repeat split; intros e; rewrite ?(minted_exp _ _ _ _ _ _ Hc), ?(minted_iat _ _ _ _ _ _ Hc),
      ?(minted_nbf _ _ _ _ _ _ Hc); intros [= <-]; apply jwt_NewNumericDate_idem. }
  { apply Hc. }
  assert (jwt_times_valid t (wire_claims c) = (t <? jwt_NewNumericDate expiry)) as Hval.
  { unfold jwt_times_valid; simpl.
    rewrite (minted_exp _ _ _ _ _ _ Hc), (minted_nbf _ _ _ _ _ _ Hc).
    pose proof (jwt_NewNumericDate_bounds created).
    rewrite (proj2 (Z.leb_le _ t)) by lia. apply andb_true_r. }
  split; [|split; [|done]].
  - intros Hlt. apply jwt_Parse_spec. exists (SigningMethodRSA "RS256"), (Some (privateKey_PublicKey sk)).
    rewrite Hval. by rewrite (proj2 (Z.ltb_lt _ _)).
  - intros Hle. destruct r as [c'|] eqn:Hr; [|done]. unfold r in Hr.
    apply jwt_Parse_spec in Hr as (m & k & Hm' & Hk' & Hv' & Htv). simplify_eq.
    simpl in Hk'. simplify_eq. rewrite Hv in Hv'. simplify_eq. rewrite Hval in Htv. lia.
Qed.

Definition accepts (validate : string → option PublicKey → M (result StandardClaims))
    (tok : string) (pk : option PublicKey) w c : Prop :=
  (run (validate tok pk) w).1 = Ok c.
Definition rejects (validate : string → option PublicKey → M (result StandardClaims))
    (tok : string) (pk : option PublicKey) w : Prop :=
  is_Ok (run (validate tok pk) w).1 = false.

(** The life of a signed token of minted claims, under each validation. *)
Section life.
Variables (iss uid : string) (typ : TokenType) (created expiry : Z) (c : StandardClaims).
Variables (kid : string) (sk : PrivateKey) (tok : string) (w : World).
Hypothesis Hc : minted iss uid typ created expiry c.
Hypothesis Hs : jwt_SignedString c kid (Some sk) = Ok tok.
Hypothesis Hw : created ≤ w_now w.

Lemma minted_accepts k :
  kind_ok k (wire_claims c) = true → w_now w < jwt_NewNumericDate expiry →
  accepts (validate k) tok (Some (privateKey_PublicKey sk)) w (wire_claims c).
Proof.
  intros Hok Hlt. unfold accepts. rewrite validate_run. simpl.
  destruct (minted_parse _ _ _ _ _ _ _ _ _ _ Hc Hs Hw) as (-> & _); [|done].
  simpl. by rewrite Hok.
Qed.

Lemma minted_expired k :
  jwt_NewNumericDate expiry ≤ w_now w →
  rejects (validate k) tok (Some (privateKey_PublicKey sk)) w.
Proof.
  intros Hle. unfold rejects. rewrite validate_run. simpl.
  destruct (minted_parse _ _ _ _ _ _ _ _ _ _ Hc Hs Hw) as (_ & H & _). specialize (H Hle).
  by destruct (jwt_ParseWithClaims _ _ _).
Qed.

Lemma minted_other_kind k :
  kind_ok k (wire_claims c) = false →
  rejects (validate k) tok (Some (privateKey_PublicKey sk)) w.
Proof.
  intros Hok. destruct (decide (w_now w < jwt_NewNumericDate expiry)).
  - unfold rejects. rewrite validate_run. simpl.
    destruct (minted_parse _ _ _ _ _ _ _ _ _ _ Hc Hs Hw) as (-> & _); [|done].
    simpl. by rewrite Hok.
  - apply minted_expired. lia.
Qed.
End life.

Lemma tick_now_le w w' : (w_step w ≤ w_step w')%nat → w_now w ≤ w_now w'.
Proof. apply env_now_mono. Qed.

Lemma NewTokenPair_clock uid cfg : guarantees clock_only (NewTokenPair uid cfg).
Proof. unfold NewTokenPair, NewStandardClaims. guarantees_tac. Qed.

Lemma NewServiceToken_clock id scopes cfg : guarantees clock_only (NewServiceToken id scopes cfg).
Proof. unfold NewServiceToken, NewStandardClaims. guarantees_tac. Qed.

(** From action [n] on the random source answers, and the signing key signs. *)
Definition mints (cfg : TokenConfig) (n : nat) : Prop :=
  (∀ i, (n ≤ i)%nat → is_Some (env_rand i 16)) ∧
  ∀ c kid, is_Ok (jwt_SignedString c kid (tc_PrivateKey cfg)) = true.

Lemma mints_later cfg n n' : (n ≤ n')%nat → mints cfg n → mints cfg n'.
Proof. intros Hn [Hr Hs]. split; [intros i Hi; apply Hr; lia|done]. Qed.

Lemma NewStandardClaims_mints cfg uid typ iss expiry w :
  mints cfg (w_step w) →
  ∃ c, run (NewStandardClaims uid typ iss expiry) w = (Ok c, tick (tick w)).
Proof.
  intros [Hr _]. rewrite NewStandardClaims_run. destruct (Hr (w_step w)) as [b ->]; [done|]. by eexists.
Qed.

Lemma GenerateToken_mints cfg n c kid :
  mints cfg n → ∃ t, GenerateToken c (tc_PrivateKey cfg) kid = Ok t.
Proof.
  intros [_ Hs]. specialize (Hs c kid). unfold GenerateToken.
  destruct (jwt_SignedString _ _ _) as [t|]; [by exists t|done].
Qed.

Lemma NewTokenPair_mints uid cfg w :
  mints cfg (w_step w) → ∃ pair w', run (NewTokenPair uid cfg) w = (Ok pair, w').
Proof.
  intros Hm. unfold NewTokenPair. rewrite run_mbind. cbn [run time_Now act]. rewrite run_try.
  destruct (NewStandardClaims_mints cfg uid AccessTokenType (tc_Issuer cfg)
    (w_now w + tc_AccessTokenExpiration cfg) (tick w)) as [ca ->];
    [by apply (mints_later _ (w_step w)); [simpl; lia|]|].
  rewrite run_try. destruct (GenerateToken_mints cfg _ ca (tc_KeyID cfg) Hm) as [ta ->]. cbn [run].
  rewrite run_try. set (w1 := tick _). destruct (NewStandardClaims_mints cfg uid RefreshTokenType
    (tc_Issuer cfg) (w_now w + tc_RefreshTokenExpiration cfg) w1) as [cr ->];
    [by apply (mints_later _ (w_step w)); [simpl; lia|]|].
  rewrite run_try. destruct (GenerateToken_mints cfg _ cr (tc_KeyID cfg) Hm) as [tr ->]. by eexists _, _.
Qed.

Lemma NewServiceToken_mints id scopes cfg w :
  mints cfg (w_step w) → ∃ t w', run (NewServiceToken id scopes cfg) w = (Ok t, w').
Proof.
  intros Hm. unfold NewServiceToken. rewrite run_mbind. cbn [run time_Now act]. rewrite run_try.
  destruct (NewStandardClaims_mints cfg id ServiceTokenType (tc_Issuer cfg)
    (w_now w + tc_ServiceTokenExpiration cfg) (tick w)) as [c ->];
    [by apply (mints_later _ (w_step w)); [simpl; lia|]|].
  rewrite run_try. destruct (GenerateToken_mints cfg _ (service_claims id scopes c) (tc_KeyID cfg) Hm)
    as [t ->]. by eexists _, _.
Qed.

Lemma NewStandardClaims_minted uid typ iss expiry w c w' :
  run (NewStandardClaims uid typ iss expiry) w = (Ok c, w') →
  json_safe uid → json_safe iss → json_safe typ →
  minted iss uid typ (w_now (tick w)) expiry c ∧ w' = tick (tick w) ∧ sc_ServiceAccountID c = "" ∧
  ∃ b, env_rand (w_step w) 16 = Some b ∧ sc_TokenID c = hex_encode b.
Proof.
  rewrite NewStandardClaims_run. destruct (env_rand _ _) as [b|] eqn:Hb; [|done].
  intros [= <- <-] Huid Hiss Htyp. split; [|by eauto].
  split; try done. split_and!; simpl; auto; [apply hex_encode_ascii|done].
Qed.

Lemma service_claims_minted iss uid created expiry c id scopes :
  minted iss uid ServiceTokenType created expiry c → json_safe id → Forall json_safe scopes →
  minted iss "" ServiceTokenType created expiry (service_claims id scopes c).
Proof.
  intros [?????? (H1 & H2 & H3 & H4 & H5 & H6 & H7)] Hid Hsc. by split.
Qed.

(** A successful NewTokenPair, taken apart. *)
Record pair_minted uid (cfg : TokenConfig) (sk : PrivateKey) w (pair : TokenPair)
    (ca cr : StandardClaims) w' : Prop := {
  pm_access : minted (tc_Issuer cfg) uid AccessTokenType (w_now (tick (tick w)))
    (tk_ExpiresAt (tp_AccessToken pair)) ca;
  pm_refresh : minted (tc_Issuer cfg) uid RefreshTokenType (w_now (tick (tick (tick (tick w)))))
    (tk_ExpiresAt (tp_RefreshToken pair)) cr;
  pm_access_tok :
    jwt_SignedString ca (tc_KeyID cfg) (Some sk) = Ok (tk_Value (tp_AccessToken pair));
  pm_refresh_tok :
    jwt_SignedString cr (tc_KeyID cfg) (Some sk) = Ok (tk_Value (tp_RefreshToken pair));
  pm_access_exp : tk_ExpiresAt (tp_AccessToken pair) = w_now w + tc_AccessTokenExpiration cfg;
  pm_refresh_exp : tk_ExpiresAt (tp_RefreshToken pair) = w_now w + tc_RefreshTokenExpiration cfg;
  pm_world : w' = tick (tick (tick (tick (tick w))));
}.

Lemma NewTokenPair_inv uid cfg sk pair w w' :
  tc_PrivateKey cfg = Some sk → json_safe uid → json_safe (tc_Issuer cfg) →
  run (NewTokenPair uid cfg) w = (Ok pair, w') →
  ∃ ca cr, pair_minted uid cfg sk w pair ca cr w'.
Proof.
  intros Hsk Huid Hiss Hrun.
  unfold NewTokenPair in Hrun. rewrite run_mbind in Hrun. cbn [run time_Now act] in Hrun.
  rewrite run_try in Hrun.
  destruct (run (NewStandardClaims _ AccessTokenType _ _) _) as [[ca|] w1] eqn:Hca; [|done].
  apply NewStandardClaims_minted in Hca as (Hca & -> & _); [|done..].
  rewrite run_try in Hrun. cbn [run] in Hrun. unfold GenerateToken in Hrun. rewrite Hsk in Hrun.
  destruct (jwt_SignedString ca _ _) as [ta|] eqn:Hta; [|done]. rewrite run_try in Hrun.
  destruct (run (NewStandardClaims _ RefreshTokenType _ _) _) as [[cr|] w2] eqn:Hcr; [|done].
  apply NewStandardClaims_minted in Hcr as (Hcr & -> & _); [|done..].
  rewrite run_try in Hrun. cbn [run] in Hrun.
  destruct (jwt_SignedString cr _ _) as [tr|] eqn:Htr; [|done]. cbn in Hrun. simplify_eq.
  by exists ca, cr.
Qed.
End validation.

#[export] Hint Resolve NewTokenPair_clock NewServiceToken_clock : go.
#[global] Arguments NewTokenPair : simpl never.
#[global] Arguments NewServiceToken : simpl never.

(** ** Properties *)

Section properties.
Context `{P : Platform}.
Implicit Types (c : StandardClaims) (w : World).

(** C31.  A token pair minted by NewTokenPair expires when the configuration
      says, and from then on to that date (in whole seconds) each of the two
      tokens is accepted by the validation of its own type, for the public key
      of the pair, with the claims of the user it was minted for; after that
      date it is rejected, and at any time the validations of the two other
      types reject it. *)
Theorem NewTokenPair_spec uid cfg sk pair w w'
    (Hsk : tc_PrivateKey cfg = Some sk)
    (Hpk : tc_PublicKey cfg = Some (privateKey_PublicKey sk))
    (Huid : json_safe uid) (Hiss : json_safe (tc_Issuer cfg))
    (Hrun : run (NewTokenPair uid cfg) w = (Ok pair, w')) :
  let acc := tp_AccessToken pair in
  let ref := tp_RefreshToken pair in
  let pub := tc_PublicKey cfg in
  tk_ExpiresAt acc = w_now w + tc_AccessTokenExpiration cfg ∧
  tk_ExpiresAt ref = w_now w + tc_RefreshTokenExpiration cfg ∧
  ∃ ca cr, sc_UserID ca = uid ∧ sc_UserID cr = uid ∧
  ∀ w2, w_now w' ≤ w_now w2 →
    (w_now w2 < jwt_NewNumericDate (tk_ExpiresAt acc) →
      accepts ValidateAccessToken (tk_Value acc) pub w2 ca) ∧
    (jwt_NewNumericDate (tk_ExpiresAt acc) ≤ w_now w2 →
      rejects ValidateAccessToken (tk_Value acc) pub w2) ∧
    (w_now w2 < jwt_NewNumericDate (tk_ExpiresAt ref) →
      accepts ValidateRefreshToken (tk_Value ref) pub w2 cr) ∧
    (jwt_NewNumericDate (tk_ExpiresAt ref) ≤ w_now w2 →
      rejects ValidateRefreshToken (tk_Value ref) pub w2) ∧
    rejects ValidateRefreshToken (tk_Value acc) pub w2 ∧
    rejects ValidateServiceToken (tk_Value acc) pub w2 ∧
    rejects ValidateAccessToken (tk_Value ref) pub w2 ∧
    rejects ValidateServiceToken (tk_Value ref) pub w2.
Proof.
  destruct (NewTokenPair_inv _ _ _ _ _ _ Hsk Huid Hiss Hrun) as (ca & cr & []). simpl.
  do 2 (split; [done|]). exists (wire_claims ca), (wire_claims cr).
  split; [apply pm_access0|]. split; [apply pm_refresh0|]. rewrite Hpk. intros w2 Hw2.
  assert (∀ w1, (w_step w1 ≤ w_step w')%nat → w_now w1 ≤ w_now w2) as Hle.
  { intros w1 Hw1. etrans; [by apply tick_now_le|exact Hw2]. }
  assert (w_now (tick (tick w)) ≤ w_now w2) as Ha by (apply Hle; subst w'; simpl; lia).
  assert (w_now (tick (tick (tick (tick w)))) ≤ w_now w2) as Hr by (apply Hle; subst w'; simpl; lia).
  pose proof (minted_typ _ _ _ _ _ _ pm_access0) as Hta.
  pose proof (minted_typ _ _ _ _ _ _ pm_refresh0) as Htr.
  split_and!; intros.
  - apply (minted_accepts _ _ _ _ _ _ _ _ _ _ pm_access0 pm_access_tok0 Ha KindAccess); [by apply own_kind|done].
  - apply (minted_expired _ _ _ _ _ _ _ _ _ _ pm_access0 pm_access_tok0 Ha KindAccess); done.
  - apply (minted_accepts _ _ _ _ _ _ _ _ _ _ pm_refresh0 pm_refresh_tok0 Hr KindRefresh); [by apply own_kind|done].
  - apply (minted_expired _ _ _ _ _ _ _ _ _ _ pm_refresh0 pm_refresh_tok0 Hr KindRefresh); done.
  - apply (minted_other_kind _ _ _ _ _ _ _ _ _ _ pm_access0 pm_access_tok0 Ha KindRefresh). apply other_kind; by rewrite Hta.
  - apply (minted_other_kind _ _ _ _ _ _ _ _ _ _ pm_access0 pm_access_tok0 Ha KindService). apply other_kind; by rewrite Hta.
  - apply (minted_other_kind _ _ _ _ _ _ _ _ _ _ pm_refresh0 pm_refresh_tok0 Hr KindAccess). apply other_kind; by rewrite Htr.
  - apply (minted_other_kind _ _ _ _ _ _ _ _ _ _ pm_refresh0 pm_refresh_tok0 Hr KindService). apply other_kind; by rewrite Htr.
Qed.

(** A service token minted by NewServiceToken is accepted by
    ValidateServiceToken until it expires, with exactly the account and the
    scopes it was minted for, and never by the validations of user tokens. *)
Theorem NewServiceToken_spec id scopes cfg sk tok w w'
    (Hsk : tc_PrivateKey cfg = Some sk)
    (Hpk : tc_PublicKey cfg = Some (privateKey_PublicKey sk))
    (Hid : json_safe id) (Hne : id ≠ "") (Hiss : json_safe (tc_Issuer cfg))
    (Hscopes : Forall json_safe scopes)
    (Hrun : run (NewServiceToken id scopes cfg) w = (Ok tok, w')) :
  let pub := tc_PublicKey cfg in
  tk_ExpiresAt tok = w_now w + tc_ServiceTokenExpiration cfg ∧
  ∃ c, sc_ServiceAccountID c = id ∧ sc_Scopes c = scopes ∧ sc_UserID c = "" ∧
  ∀ w2, w_now w' ≤ w_now w2 →
    (w_now w2 < jwt_NewNumericDate (tk_ExpiresAt tok) →
      accepts ValidateServiceToken (tk_Value tok) pub w2 c) ∧
    (jwt_NewNumericDate (tk_ExpiresAt tok) ≤ w_now w2 →
      rejects ValidateServiceToken (tk_Value tok) pub w2) ∧
    rejects ValidateAccessToken (tk_Value tok) pub w2 ∧
    rejects ValidateRefreshToken (tk_Value tok) pub w2.
Proof.
  unfold NewServiceToken in Hrun. rewrite run_mbind in Hrun. cbn [run time_Now act] in Hrun.
  rewrite run_try in Hrun.
  destruct (run (NewStandardClaims _ _ _ _) _) as [[c|] w1] eqn:Hc; [|done].
  apply NewStandardClaims_minted in Hc as (Hc & -> & _); [|done..].
  rewrite run_try in Hrun. cbn [run] in Hrun. unfold GenerateToken in Hrun. rewrite Hsk in Hrun.
  destruct (jwt_SignedString _ _ _) as [t|] eqn:Ht; [|done]. cbn in Hrun. simplify_eq. simpl.
  split; [done|]. apply (service_claims_minted _ _ _ _ _ id scopes) in Hc; [|done..].
  exists (wire_claims (service_claims id scopes c)). do 3 (split; [done|]). rewrite Hpk.
  intros w2 Hw2.
  assert (w_now (tick (tick w)) ≤ w_now w2) as Ha by (etrans; [apply tick_now_le|done]; simpl; lia).
  pose proof (minted_typ _ _ _ _ _ _ Hc) as Htyp. split_and!; intros.
  - apply (minted_accepts _ _ _ _ _ _ _ _ _ _ Hc Ht Ha KindService); [by apply own_kind|done].
  - apply (minted_expired _ _ _ _ _ _ _ _ _ _ Hc Ht Ha KindService); done.
  - apply (minted_other_kind _ _ _ _ _ _ _ _ _ _ Hc Ht Ha KindAccess). apply other_kind; by rewrite Htyp.
  - apply (minted_other_kind _ _ _ _ _ _ _ _ _ _ Hc Ht Ha KindRefresh). apply other_kind; by rewrite Htyp.
Qed.

(** C32.  No confusion between token kinds: whatever string is presented, for
    whatever key, at whatever times, it is accepted by at most one of the three
    typed validations; and a string that one of them accepts names an RSA
    signing method, carries a valid signature for the key, and is neither
    expired nor used before its time. *)
Theorem token_kinds_exclusive (k1 k2 : TokenKind) tok pk w1 w2 c
    (Hne : k1 ≠ k2) (Hacc : accepts (validate k1) tok pk w1 c) :
  rejects (validate k2) tok pk w2 ∧
  (∃ alg, jwt_method tok = Some (SigningMethodRSA alg)) ∧
  jwt_verify tok pk = Ok c ∧
  (∀ e, sc_ExpiresAt c = Some e → w_now w1 < e) ∧
  (∀ b, sc_NotBefore c = Some b → b ≤ w_now w1).
Proof.
  unfold accepts in Hacc. rewrite validate_run in Hacc. simpl in Hacc.
  apply typed_ok in Hacc as [Hacc Hk1].
  apply (ValidateToken_ok tok pk w1) in Hacc as (Hm & Hv & Ht).
  unfold jwt_times_valid in Ht. apply andb_true_iff in Ht as [He Hb].
  split; [|split_and!; [done..| |]].
  - unfold rejects. rewrite validate_run. cbn [fst].
    destruct (run (ValidateToken tok pk) w2).1 as [c2|] eqn:Hr; [|done].
    apply ValidateToken_ok in Hr as (_ & Hv2 & _). rewrite Hv in Hv2. simplify_eq. simpl.
    by rewrite (kind_ok_unique _ _ _ Hne Hk1).
  - intros e Hee. rewrite Hee in He. lia.
  - intros b Hbb. rewrite Hbb in Hb. lia.
Qed.
End properties.

(** ** Closed instances *)

Section instances.
#[local] Existing Instance calm.

Definition sample_config : TokenConfig :=
  mkTokenConfig (Some key_0) (Some (privateKey_PublicKey key_0))
    (generateKeyID (Some (privateKey_PublicKey key_0))) "identra"
    (15 * time_Minute) (168 * time_Hour) (10 * time_Minute).

Lemma NewTokenPair_spec_witness :
  ∃ pair w', run (NewTokenPair "user-1" sample_config) calm_world = (Ok pair, w') ∧
    ∃ c, sc_UserID c = "user-1" ∧
      accepts ValidateAccessToken (tk_Value (tp_AccessToken pair)) (tc_PublicKey sample_config) w' c.
Proof.
  assert (is_Ok (run (NewTokenPair "user-1" sample_config) calm_world).1 = true) as Hok
    by (vm_compute; reflexivity).
  destruct (run (NewTokenPair "user-1" sample_config) calm_world) as [[pair|] w'] eqn:Hr; [|done].
  exists pair, w'. split; [done|].
  destruct (NewTokenPair_inv "user-1" sample_config key_0 pair calm_world w'
    eq_refl eq_refl eq_refl Hr) as (ca & cr & []).
  destruct (NewTokenPair_spec "user-1" sample_config key_0 pair calm_world w'
    eq_refl eq_refl eq_refl eq_refl Hr) as (Ha & _ & c1 & c2 & Hu & _ & Hall).
  exists c1. split; [done|]. apply (Hall w'); [lia|]. rewrite Ha. subst w'. by vm_compute.
Defined.

Lemma NewServiceToken_spec_witness :
  ∃ tok w', run (NewServiceToken "sa-1" ["users:read"] sample_config) calm_world = (Ok tok, w') ∧
    rejects ValidateAccessToken (tk_Value tok) (tc_PublicKey sample_config) w'.
Proof.
  assert (is_Ok (run (NewServiceToken "sa-1" ["users:read"] sample_config) calm_world).1 = true)
    as Hok by (vm_compute; reflexivity).
  destruct (run (NewServiceToken "sa-1" ["users:read"] sample_config) calm_world)
    as [[tok|] w'] eqn:Hr; [|done].
  exists tok, w'. split; [done|].
  assert (Forall json_safe ["users:read"]) as Hs by (repeat constructor).
  destruct (NewServiceToken_spec "sa-1" ["users:read"] sample_config key_0 tok calm_world w'
    eq_refl eq_refl eq_refl ltac:(done) eq_refl Hs Hr) as (_ & c & _ & _ & _ & Hall).
  destruct (Hall w') as (_ & _ & H & _); [lia|]. exact H.
Defined.

Lemma token_kinds_exclusive_witness :
  ∃ tok c, accepts (validate KindAccess) tok (tc_PublicKey sample_config) calm_world c ∧
    rejects (validate KindService) tok (tc_PublicKey sample_config) calm_world.
Proof.
  set (c := mkStandardClaims "identra" "u" None None None "" "u" AccessTokenType "t" "" []).
  set (tok := enc_fields ("RS256" :: key_0 :: "kid" :: ref_claims_fields c)).
  assert (accepts (validate KindAccess) tok (tc_PublicKey sample_config) calm_world c) as Ha
    by (vm_compute; reflexivity).
  exists tok, c. split; [exact Ha|].
  exact (proj1 (token_kinds_exclusive KindAccess KindService tok _ calm_world calm_world c
    ltac:(done) Ha)).
Defined.
End instances.
