(* ===== verification/TokenKeys.v ===== *)
(** * Loading the signing key at start-up, internal/app/tokens.go

    [buildTokenKeys] takes the key from the configuration or from a file; when
    there is no file it generates a key and stores it.  [writePrivateKeyFile]
    fills a temporary file in the same directory and renames it over the target,
    so that the key file is never seen half written. *)

From S2P Require Import Prelude GoStrings Paths Prog Host Data Config Platform RefPlatform.
From S2P Require Import KeyManager Tokens.

Section token_keys.
Context `{P : Platform} `{O : OS}.

Definition temp_prefix : string := ".identra-signing-key-".

(** The body of writePrivateKeyFile once the temporary file exists. *)
Definition write_temp_and_rename (tempPath path data : string) : HostM (result unit) :=
  try _ := file_Chmod tempPath mode_0600
    catch λ err, _ ← file_Close tempPath; wrap_with "set RSA private key permissions" err in
  try _ := file_Write tempPath data
    catch λ err, _ ← file_Close tempPath; wrap_with "write RSA private key" err in
  try _ := file_Sync tempPath
    catch λ err, _ ← file_Close tempPath; wrap_with "sync RSA private key" err in
  try _ := file_Close tempPath catch wrap_with "close RSA private key" in
  try _ := os_Rename tempPath path catch wrap_with ("persist RSA private key " +:+ path) in
  Ret (Ok tt).

(** The deferred removal of the temporary file, which may set the error. *)
Definition remove_temp (tempPath : string) (returnErr : result unit) : HostM (result unit) :=
  removed ← os_Remove tempPath;
  Ret (match removed with
       | Err err => if negb (os_IsNotExist err) && is_Ok returnErr
                    then Err (fmt_Errorf "remove temporary RSA private key file" err)
                    else returnErr
       | Ok _ => returnErr
       end).

Definition writePrivateKeyFile (path data : string) : HostM (result unit) :=
  let dir := Dir path in
  try _ := os_MkdirAll dir catch wrap_with ("create RSA private key directory " +:+ dir) in
  try tempPath := os_CreateTemp dir temp_prefix
    catch wrap_with "create temporary RSA private key file" in
  returnErr ← write_temp_and_rename tempPath path data;
  remove_temp tempPath returnErr.

(** crypto/rand and crypto/rsa, as the process calls them. *)
Definition generate_key : HostM (result PrivateKey) :=
  act (λ h, (rsa_GenerateKey (h_step h), h_tick h)).

(** The manager is returned: the Go code updates it in place. *)
Definition initializeKeyManagerFromFile (km : KeyManager) (keyFile : string)
    : HostM (result KeyManager) :=
  read ← os_ReadFile keyFile;
  match read with
  | Ok privateKeyPEM =>
      match InitializeFromPEM privateKeyPEM km with
      | (Ok _, km) => Ret (Ok km)
      | (Err err, _) => wrap_with ("load RSA private key " +:+ keyFile) err
      end
  | Err err =>
      if negb (os_IsNotExist err) then wrap_with ("read RSA private key " +:+ keyFile) err else
      gen ← generate_key;
      match GenerateKeyPair gen km with
      | (Err err, _) => wrap_with "failed to generate RSA key pair" err
      | (Ok _, km) =>
          match ExportPrivateKeyPEM km with
          | Err err => wrap_with "export generated RSA private key" err
          | Ok generatedPEM => try _ := writePrivateKeyFile keyFile generatedPEM in Ret (Ok km)
          end
      end
  end.

Record tokenKeys := mkTokenKeys { tk_manager : KeyManager; tk_tokenConfig : Tokens.TokenConfig }.

(** From the manager to the token configuration. *)
Definition finish_token_keys (cfg : AuthConfig) (km : KeyManager) : result tokenKeys :=
  if negb (IsInitialized km) then Err (errors_New "token keys are not initialized") else
  let tokenCfg := {|
    tc_PrivateKey := GetPrivateKey km;
    tc_PublicKey := GetPublicKey km;
    tc_KeyID := GetKeyID km;
    tc_Issuer := tkc_Issuer (auc_Token cfg);
    tc_AccessTokenExpiration := tkc_AccessTokenExpiration (auc_Token cfg);
    tc_RefreshTokenExpiration := tkc_RefreshTokenExpiration (auc_Token cfg);
    tc_ServiceTokenExpiration := tkc_ServiceTokenExpiration (auc_Token cfg);
  |} in
  if is_None (tc_PrivateKey tokenCfg) || is_None (tc_PublicKey tokenCfg)
  then Err (errors_New "token keys are not initialized") else
  Ok (mkTokenKeys km tokenCfg).

Definition buildTokenKeys (cfg : AuthConfig) : HostM (result tokenKeys) :=
  let km := KeyManager_zero in
  let privateKeyPEM := TrimSpace (auc_RSAPrivateKey cfg) in
  if negb (privateKeyPEM == "")%go then
    match InitializeFromPEM privateKeyPEM km with
    | (Err err, _) => wrap_with "failed to load RSA private key" err
    | (Ok _, km) => Ret (finish_token_keys cfg km)
    end
  else
    let keyFile := TrimSpace (auc_RSAPrivateKeyFile cfg) in
    if (keyFile == "")%go
    then Ret (Err (errors_New "auth.rsa_private_key_file is required when auth.rsa_private_key is not set"))
    else try km := initializeKeyManagerFromFile km keyFile in Ret (finish_token_keys cfg km).
End token_keys.

(** ** The key file is written all or nothing *)

Section write.
Context `{O : OS}.
Context (path data : string) (fs : gmap string FileNode).

(** The key file, complete and on the disk. *)
Definition complete_file : FileNode := mkFileNode data mode_0600 true.
Definition all_or_nothing (h : Host) : Prop :=
  h_files h !! Clean path = fs !! Clean path ∨ h_files h !! Clean path = Some complete_file.

Context (tempPath : string).
Hypothesis Htemp : Clean tempPath ≠ Clean path.
Hypothesis Hnew : fs !! Clean tempPath = None.

(** The files of the host with the temporary one among them. *)
Definition staged (n : FileNode) (h : Host) : Prop := h_files h = <[Clean tempPath := n]> fs.
Definition renamed (h : Host) : Prop := h_files h = <[Clean path := complete_file]> fs.

Lemma staged_all_or_nothing n h : staged n h → all_or_nothing h.
Proof. intros Hs. left. rewrite Hs. by apply lookup_insert_ne. Qed.

Lemma renamed_all_or_nothing h : renamed h → all_or_nothing h.
Proof. intros Hs. right. rewrite Hs. apply lookup_insert_eq. Qed.

Lemma staged_update g n h : staged n h → staged (g n) (update_file g tempPath h).
Proof. intros Hs. unfold staged, update_file in *. cbn. by rewrite Hs, alter_insert_eq. Qed.

(** A call on the temporary file. *)
Lemma wpc_on_temp part f n n1 h :
  staged n h →
  (∀ h, staged n h → staged n1 (f h)) → (∀ k h, staged n h → ∃ n2, staged n2 (part k h)) →
  wpc (syscall part (λ h, (Ok tt, f h))) all_or_nothing
    (λ r h', match r with Ok _ => staged n1 h' | Err _ => ∃ n2, staged n2 h' end) h.
Proof.
  intros Hs Hf Hp. apply wpc_syscall; [by eapply staged_all_or_nothing| |].
  - intros _. specialize (Hf h Hs). split; [|done]. by eapply (staged_all_or_nothing n1).
  - intros msg k. destruct (Hp k h Hs) as [n2 H2]. split; [|by exists n2].
    by eapply (staged_all_or_nothing n2).
Qed.

(** What a failed call on it does next: close it and return. *)
Lemma wpc_close_and_fail msg err h n :
  staged n h →
  wpc (_ ← file_Close tempPath; wrap_with (A:=unit) msg err) all_or_nothing
    (λ r h', match r with Ok _ => renamed h' | Err _ => ∃ n, staged n h' end) h.
Proof.
  intros Hs. apply wpc_mbind. eapply wpc_mono.
  - apply (wpc_on_temp no_part id n n h Hs); [done|]. intros k h' H'. by exists n.
  - intros r h' Hr. assert (∃ n, staged n h') as [n' H'] by (destruct r; eauto).
    apply wpc_ret; [by eapply staged_all_or_nothing|by exists n'].
Qed.

Lemma wpc_rename n h :
  staged n h → n = complete_file →
  wpc (os_Rename tempPath path) all_or_nothing
    (λ r h', match r with Ok _ => renamed h' | Err _ => ∃ n, staged n h' end) h.
Proof.
  intros Hs Hn. pose proof (staged_all_or_nothing n h Hs) as Hall.
  apply wpc_syscall; [done| |by split; [|exists n]]. intros _.
  assert (file_at h tempPath = Some n) as ->.
  { unfold file_at. rewrite Hs. apply lookup_insert_eq. }
  destruct (negb _); [by split; [|exists n]|]. destruct (is_dir _ _); [by split; [|exists n]|].
  cbn [fst snd]. match goal with |- all_or_nothing ?h' ∧ _ => assert (renamed h') as Hr end.
  { unfold renamed. cbn. by rewrite Hs, delete_insert_id, Hn. }
  split; [by apply renamed_all_or_nothing|done].
Qed.

Lemma wpc_write_temp_and_rename h :
  staged (mkFileNode "" mode_0600 true) h →
  wpc (write_temp_and_rename tempPath path data) all_or_nothing
    (λ r h', match r with Ok _ => renamed h' | Err _ => ∃ n, staged n h' end) h.
Proof.
  intros Hs. unfold write_temp_and_rename.
  assert (∀ n k h, staged n h → ∃ n2, staged n2 (no_part k h)) as Hno by (intros n ???; by exists n).
  apply wpc_catch. eapply wpc_mono; [apply (wpc_on_temp _ _ _ _ h Hs (staged_update _ _) (Hno _))|].
  intros [_|err] h1 H1; [|destruct H1; by eapply wpc_close_and_fail].
  apply wpc_catch. eapply wpc_mono.
  { apply (wpc_on_temp _ _ _ _ h1 H1 (staged_update _ _)). intros k h' H'. eexists.
    by apply staged_update. }
  intros [_|err] h2 H2; [|destruct H2; by eapply wpc_close_and_fail].
  apply wpc_catch. eapply wpc_mono; [apply (wpc_on_temp _ _ _ _ h2 H2 (staged_update _ _) (Hno _))|].
  intros [_|err] h3 H3; [|destruct H3; by eapply wpc_close_and_fail].
  cbn [append_data fn_data fn_mode] in H3. apply wpc_catch. eapply wpc_mono.
  { by apply (wpc_on_temp no_part id _ _ h3 H3 (λ _ H, H) (Hno _)). }
  intros [_|err] h4 H4.
  2: { destruct H4 as [n4 H4]. apply wpc_ret; [by eapply staged_all_or_nothing|by exists n4]. }
  apply wpc_catch. eapply wpc_mono; [by apply (wpc_rename _ _ H4)|].
  intros [_|err] h5 H5.
  - apply wpc_ret; [by apply renamed_all_or_nothing|done].
  - destruct H5 as [n5 H5]. apply wpc_ret; [by eapply staged_all_or_nothing|by exists n5].
Qed.

(** The files at the end: as they were, but for the key file when the call
    succeeded; a temporary file is left only when its removal failed. *)
Definition written (r : result unit) (h : Host) : Prop :=
  (r = Ok tt → renamed h) ∧
  (os_fault (pred (h_step h)) = None → h_files h = fs ∨ renamed h).

Lemma wpc_remove_temp r h :
  (match r with Ok _ => renamed h | Err _ => ∃ n, staged n h end) →
  wpc (remove_temp tempPath r) all_or_nothing written h.
Proof.
  intros Hr. assert (all_or_nothing h) as Hall.
  { destruct r; [by apply renamed_all_or_nothing|]. destruct Hr. by eapply staged_all_or_nothing. }
  apply wpc_mbind. unfold os_Remove, syscall. apply wpc_act; [done|..].
  all: destruct (os_fault (h_step h)) as [msg|] eqn:Hf; [try exact Hall|].
  - destruct r as [u|e]; unfold file_at; [rewrite Hr|destruct Hr as [n Hn]; rewrite Hn].
    + rewrite lookup_insert_ne by done. rewrite Hnew. exact Hall.
    + rewrite lookup_insert_eq. cbn. left. cbn. by rewrite Hn, delete_insert_id.
  - cbn [fst snd]. apply wpc_ret; [exact Hall|]. split.
    + destruct r as [[]|]; cbn; done.
    + unfold no_part. cbn. by rewrite Hf.
  - destruct r as [[]|e]; unfold file_at; [rewrite Hr|destruct Hr as [n Hn]; rewrite Hn].
    + rewrite lookup_insert_ne, Hnew by done. apply wpc_ret; [exact Hall|]. split; [done|].
      intros _. by right.
    + rewrite lookup_insert_eq. cbn [fst snd]. apply wpc_ret.
      * left. cbn. by rewrite Hn, delete_insert_id.
      * split; [done|]. intros _. left. cbn. by rewrite Hn, delete_insert_id.
Qed.
End write.

Section properties.
Context `{P : Platform} `{O : OS}.

(** The random names are not that of the key file. *)
Definition temp_names_apart (path : string) : Prop :=
  ∀ n, Clean (temp_path (Dir path) temp_prefix (os_temp n)) ≠ Clean path.

(** The key file is not called like a temporary one. *)
Definition key_name_ok (path : string) : bool :=
  match last (components path) with
  | Some name => negb (HasPrefix name temp_prefix)
  | None => true
  end.

Lemma key_name_apart path : key_name_ok path = true → temp_names_apart path.
Proof.
  intros Hok n Hn. unfold temp_path in Hn.
  assert (ordinary (temp_prefix +:+ os_temp n)) as Hord.
  { split; [|done]. unfold no_sep. rewrite s2l_app, elem_of_app. intros [Hin|Hin].
    - revert Hin. apply (bool_decide_unpack (slash ∉ s2l temp_prefix)). by vm_compute.
    - by destruct (os_temp_no_slash n). }
  unfold Dir in Hn. set (d := l2s _) in Hn.
  unfold Clean at 2 in Hn. rewrite Clean_in_dir in Hn by (done || apply components_clean).
  pose proof (clean_list_snoc _ _ _ (components_clean d) Hord) as Hc.
  apply (f_equal components) in Hn. rewrite components_render in Hn by done.
  unfold Clean in Hn. rewrite components_render in Hn by apply components_clean.
  unfold key_name_ok in Hok. rewrite <-Hn, last_snoc, HasPrefix_app in Hok. done.
Qed.

Lemma wpc_writePrivateKeyFile path data h :
  temp_names_apart path →
  wpc (writePrivateKeyFile path data) (all_or_nothing path data (h_files h))
    (written path data (h_files h)) h.
Proof.
  intros Hapart. unfold writePrivateKeyFile.
  assert (∀ h', h_files h' = h_files h → all_or_nothing path data (h_files h) h') as Hsame
    by (intros h' Hh; left; by rewrite Hh).
  assert (∀ msg (err : error) h', h_files h' = h_files h →
    wpc (wrap_with msg err) (all_or_nothing path data (h_files h))
      (written path data (h_files h)) h') as Hfail.
  { intros msg err h' Hh. apply wpc_ret; [auto|]. split; [done|]. by left. }
  apply wpc_catch. unfold os_MkdirAll. eapply (wpc_mono _ _ (λ _ h', h_files h' = h_files h)).
  { apply wpc_syscall; [auto| |by intros; split; [apply Hsame|]]. intros _.
    destruct (existsb _ _); cbn; auto. }
  intros [_|err] h1 Hh1; [|auto]. apply wpc_catch. unfold os_CreateTemp.
  eapply (wpc_mono _ _ (λ r h', match r with
    | Ok t => Clean t ≠ Clean path ∧ h_files h !! Clean t = None ∧
              staged (h_files h) t (mkFileNode "" mode_0600 true) h'
    | Err _ => h_files h' = h_files h end)).
  { apply wpc_syscall; [auto| |by intros; split; [apply Hsame|]]. intros _.
    destruct (negb (is_dir h1 _)); cbn [fst snd]; [by split; [apply Hsame|]|].
    destruct (negb _ || _) eqn:Hex; cbn [fst snd]; [by split; [apply Hsame|]|].
    apply orb_false_iff in Hex as [Hex%negb_false_iff%is_None_true _].
    unfold file_at in Hex. rewrite Hh1 in Hex.
    match goal with |- all_or_nothing _ _ _ ?h' ∧ _ =>
      assert (staged (h_files h) (temp_path (Dir path) temp_prefix (os_temp (h_step h1)))
        (mkFileNode "" mode_0600 true) h') as Hst by (unfold staged; cbn; by rewrite Hh1) end.
    split; [|done]. by eapply staged_all_or_nothing. }
  intros [t|err] h2 H2; [|auto]. destruct H2 as (Hne & Hnew & Hst).
  apply wpc_mbind. eapply wpc_mono; [by apply wpc_write_temp_and_rename|].
  intros r h3 Hr. by apply wpc_remove_temp.
Qed.

(** C22.  Storing a new signing key is all or nothing: at every moment, whatever
    call fails or wherever the process is killed, the key file is what it was or
    the whole new key, readable by its owner only and already synced to the disk;
    it is the new key when the call succeeds; and no temporary file is left unless
    removing it failed. *)
Theorem writePrivateKeyFile_spec path data h (Hname : key_name_ok path = true) :
  Forall (λ h', file_at h' path = file_at h path ∨ file_at h' path = Some (complete_file data))
    (trace (writePrivateKeyFile path data) h) ∧
  let '(r, h') := run (writePrivateKeyFile path data) h in
  (r = Ok tt → h_files h' = <[Clean path := complete_file data]> (h_files h)) ∧
  (os_fault (pred (h_step h')) = None →
   h_files h' = h_files h ∨ h_files h' = <[Clean path := complete_file data]> (h_files h)).
Proof. exact (wpc_writePrivateKeyFile path data h (key_name_apart path Hname)). Qed.

(** ** Restarts *)

Lemma ReadFile_run keyFile h :
  run (os_ReadFile keyFile) h =
    (match os_fault (h_step h) with
     | Some msg => Err (errors_New msg)
     | None => if is_dir h keyFile then Err (errors_New ("read " +:+ keyFile +:+ ": is a directory"))
               else match file_at h keyFile with
                    | Some n => Ok (fn_data n)
                    | None => Err (os_ErrNotExist "open" keyFile)
                    end
     end, h_tick h).
Proof. cbn. by destruct (os_fault (h_step h)). Qed.

(** A key that was generated here is what its PEM text gives back. *)
Lemma generated_reloads gen km km' pem :
  GenerateKeyPair gen km = (Ok tt, km') → ExportPrivateKeyPEM km' = Ok pem →
  InitializeFromPEM pem km = (Ok tt, km').
Proof.
  destruct gen as [sk|]; [|done]. cbn [GenerateKeyPair]. intros [= <-].
  unfold ExportPrivateKeyPEM, install_active at 1. cbn [km_privateKey]. intros [= <-].
  unfold InitializeFromPEM. rewrite pem_roundtrip, decide_True, x509_PKCS1_roundtrip by done. done.
Qed.

(** What the manager was loaded from is in the key file. *)
Lemma initialize_Ok_inv keyFile km km' h h' :
  temp_names_apart keyFile →
  run (initializeKeyManagerFromFile km keyFile) h = (Ok km', h') →
  ∃ n, file_at h' keyFile = Some n ∧ InitializeFromPEM (fn_data n) km = (Ok tt, km').
Proof.
  intros Hapart. unfold initializeKeyManagerFromFile. rewrite run_mbind, ReadFile_run.
  assert (∀ msg e, run (wrap_with (A:=KeyManager) msg e) (h_tick h) = (Ok km', h') → False) as Hno
    by done.
  destruct (os_fault (h_step h)); [done|]. destruct (is_dir h keyFile); [done|].
  destruct (file_at h keyFile) as [n|] eqn:Hn.
  - destruct (InitializeFromPEM (fn_data n) km) as [[[]|] km1] eqn:Hi; [|done].
    cbn. intros [= <- <-]. by exists n.
  - cbn [os_IsNotExist negb]. rewrite run_mbind. cbn [generate_key act run].
    destruct (GenerateKeyPair _ km) as [[[]|] km1] eqn:Hg; [|done].
    destruct (ExportPrivateKeyPEM km1) as [pem|] eqn:Hp; [|done].
    rewrite run_try.
    pose proof (proj2 (wpc_writePrivateKeyFile keyFile pem (h_tick (h_tick h)) Hapart)) as Hw.
    unfold wp in Hw.
    destruct (run (writePrivateKeyFile keyFile pem) _) as [[[]|] h1]; [|done].
    cbn. intros [= <- <-]. destruct Hw as [Hw _]. exists (complete_file pem).
    split; [|by eapply generated_reloads]. unfold file_at. rewrite (Hw eq_refl).
    apply lookup_insert_eq.
Qed.

Lemma run_initialize_file keyFile km km' h n :
  os_fault (h_step h) = None → is_dir h keyFile = false → file_at h keyFile = Some n →
  InitializeFromPEM (fn_data n) km = (Ok tt, km') →
  run (initializeKeyManagerFromFile km keyFile) h = (Ok km', h_tick h).
Proof.
  intros Hf Hd Hn Hi. unfold initializeKeyManagerFromFile.
  by rewrite run_mbind, ReadFile_run, Hf, Hd, Hn, Hi.
Qed.

(** C23.  The signing key survives a restart: once the server has started with a
    key, loaded, given inline or freshly generated, it starts again with the same
    key manager and token configuration, as long as the key file is the one it
    left and can be read; tokens it signed before stay valid. *)
Theorem restart_same_key cfg keys h h1 h2
    (Hname : key_name_ok (TrimSpace (auc_RSAPrivateKeyFile cfg)) = true)
    (Hrun : run (buildTokenKeys cfg) h = (Ok keys, h1))
    (Hsame : file_at h2 (TrimSpace (auc_RSAPrivateKeyFile cfg)) =
             file_at h1 (TrimSpace (auc_RSAPrivateKeyFile cfg)))
    (Hdir : is_dir h2 (TrimSpace (auc_RSAPrivateKeyFile cfg)) = false)
    (Hfault : os_fault (h_step h2) = None) :
  (run (buildTokenKeys cfg) h2).1 = Ok keys.
Proof.
  revert Hrun. unfold buildTokenKeys. destruct (negb _).
  - destruct (InitializeFromPEM _ _) as [[]]; [|done]. by intros [= ->].
  - destruct (bool_decide _); [done|]. rewrite !run_try.
    destruct (run _ h) as [[km|] h1'] eqn:Hi; [|done]. cbn [run]. intros [= Hfin ->].
    apply initialize_Ok_inv in Hi as (n & Hn & Hi); [|by apply key_name_apart]. rewrite Hn in Hsame.
    by rewrite (run_initialize_file _ _ _ _ _ Hfault Hdir Hsame Hi).
Qed.

(** What a started server signs with. *)
Lemma buildTokenKeys_Ok_inv cfg keys h h' :
  run (buildTokenKeys cfg) h = (Ok keys, h') →
  ∃ sk pk, tc_PrivateKey (tk_tokenConfig keys) = Some sk ∧ tc_PublicKey (tk_tokenConfig keys) = Some pk ∧
    tk_tokenConfig keys = mkTokenConfig (GetPrivateKey (tk_manager keys)) (GetPublicKey (tk_manager keys))
      (GetKeyID (tk_manager keys)) (tkc_Issuer (auc_Token cfg))
      (tkc_AccessTokenExpiration (auc_Token cfg)) (tkc_RefreshTokenExpiration (auc_Token cfg))
      (tkc_ServiceTokenExpiration (auc_Token cfg)).
Proof.
  assert (∀ km h1, (finish_token_keys cfg km, h1) = (Ok keys, h') → ∃ sk pk,
    tc_PrivateKey (tk_tokenConfig keys) = Some sk ∧ tc_PublicKey (tk_tokenConfig keys) = Some pk ∧
    tk_tokenConfig keys = mkTokenConfig (GetPrivateKey (tk_manager keys)) (GetPublicKey (tk_manager keys))
      (GetKeyID (tk_manager keys)) (tkc_Issuer (auc_Token cfg))
      (tkc_AccessTokenExpiration (auc_Token cfg)) (tkc_RefreshTokenExpiration (auc_Token cfg))
      (tkc_ServiceTokenExpiration (auc_Token cfg))) as Hfin.
  { intros km h1. unfold finish_token_keys. destruct (IsInitialized km); [|done].
    cbn [negb tc_PrivateKey tc_PublicKey].
    destruct (GetPrivateKey km) as [sk|] eqn:Hs, (GetPublicKey km) as [pk|] eqn:Hp; cbn; try done.
    intros [= <- <-]. exists sk, pk. cbn. by rewrite Hs, Hp. }
  unfold buildTokenKeys. destruct (negb _).
  - destruct (InitializeFromPEM _ _) as [[] km]; [|done]. cbn [run]. apply Hfin.
  - destruct (bool_decide _); [done|]. rewrite run_try.
    destruct (run _ h) as [[km|] h1] eqn:Hi; [|done]. apply Hfin.
Qed.
End properties.

(** ** Closed instances *)

Section instances.
#[local] Existing Instance calm.
#[local] Existing Instance calm_os.

Definition key_config : AuthConfig :=
  mkAuthConfig "" " keys/signing.pem " (mkOAuthConfig 0 "" "" false)
    (Config.mkTokenConfig "identra" (15 * time_Minute) (168 * time_Hour) (15 * time_Minute)).

(** The first start of a server: it generates its key. *)
#[local] Notation first_start := (run (buildTokenKeys key_config) empty_host).

Lemma writePrivateKeyFile_spec_witness :
  key_name_ok "keys/signing.pem" = true ∧
  let '(r, h') := run (writePrivateKeyFile "keys/signing.pem" "PEM") empty_host in
  r = Ok tt ∧ h_files h' = {["keys/signing.pem" := complete_file "PEM"]}.
Proof.
  assert (key_name_ok "keys/signing.pem" = true) as Hname by (by vm_compute). split; [done|].
  assert ((run (writePrivateKeyFile "keys/signing.pem" "PEM") empty_host).1 = Ok tt) as Hr
    by (by vm_compute).
  pose proof (proj2 (writePrivateKeyFile_spec "keys/signing.pem" "PEM" empty_host Hname)) as Hw.
  destruct (run _ empty_host) as [r h']. cbn [fst] in Hr. split; [done|].
  exact (proj1 Hw Hr).
Defined.

(** It starts again with the key of its first start. *)
Lemma restart_same_key_witness :
  is_Ok first_start.1 = true ∧ is_None (h_files first_start.2 !! "keys/signing.pem") = false ∧
  (run (buildTokenKeys key_config) first_start.2).1 = first_start.1.
Proof.
  assert (is_Ok first_start.1 = true) as Hok by (by vm_compute). split; [done|].
  split; [by vm_compute|].
  assert (is_dir first_start.2 (TrimSpace (auc_RSAPrivateKeyFile key_config)) = false) as Hdir
    by (by vm_compute).
  assert (key_name_ok (TrimSpace (auc_RSAPrivateKeyFile key_config)) = true) as Hname
    by (by vm_compute).
  destruct (run (buildTokenKeys key_config) empty_host) as [[keys|] h1] eqn:Hrun; [|done].
  cbn [fst snd] in *. exact (restart_same_key key_config keys empty_host h1 h1 Hname Hrun eq_refl Hdir eq_refl).
Defined.
End instances.
