(* ===== verification/Interfaces.v ===== *)
(** * The interfaces of the service

    The Go interfaces the service is written against (persistence.go,
    collaborators.go, serviceaccount.Store) as records of programs, and the
    [Service] record with its constructor (service.go, service_factory.go).  An
    interface-valued field that may be nil is an [option]; the fields NewService
    insists on are not.  A method that returns (T, bool, error) returns an
    option. *)

From S2P Require Import Prelude GoStrings Prog Data Platform KeyManager World Machine Tokens.
#[local] Open Scope Z_scope.

Section interfaces.
Context `{P : Platform}.

(** ** internal/identra/persistence.go

    Create and Update also write to the model they are given; they return it
    as they leave it. *)

Record UserStore := mkUserStore {
  us_Create : UserModel → M (result UserModel);
  us_GetByID : string → M (result UserModel);
  us_GetByEmail : string → M (result UserModel);
  us_Update : UserModel → M (result UserModel);
  us_SetPassword : string → string → M (result unit);
  us_Delete : string → M (result unit);
  us_List : Z → Z → M (result (list UserModel));
  us_Count : M (result Z);
}.

Record ExternalIdentityStore := mkExternalIdentityStore {
  es_Create : ExternalIdentityModel → M (result ExternalIdentityModel);
  es_GetByProviderID : string → string → M (result ExternalIdentityModel);
  es_GetByUserID : string → M (result (list ExternalIdentityModel));
}.

(** ** internal/identra/collaborators.go *)

Record EmailCodeStore := mkEmailCodeStore {
  ec_Set : string → string → M (result unit);
  ec_Consume : string → string → M (result bool);
}.

Record OAuthStateStore := mkOAuthStateStore {
  oss_Add : string → string → string → M (result unit);
  oss_Consume : string → M (result (option OAuthState));
}.

Record EmailSender := mkEmailSender { em_SendEmail : EmailMessage → M (result unit) }.

Record RateLimiter := mkRateLimiter {
  rl_IsAllowed : string → M (result bool);
  rl_Record : string → M (result unit);
  rl_Reset : string → M (result unit);
}.

Record RefreshTokenRevocationStore := mkRefreshTokenRevocationStore {
  rr_Revoke : string → Z → M (result unit);
  rr_IsRevoked : string → M (result bool);
}.

Record AuditStore := mkAuditStore {
  as_Record : AuditEvent → M (result unit);
  as_List : Z → Z → M (result (list AuditEvent));
}.

(** ** internal/serviceaccount/bootstrap.go *)

Record ServiceAccountStore := mkServiceAccountStore {
  ss_Bootstrap : BootstrapRecord → bool → bool → M (result (Account * bool));
  ss_Create : BootstrapRecord → M (result unit);
  ss_Authenticate : string → string → Z → M (result Account);
  ss_GetByID : string → M (result Account);
  ss_List : M (result (list Account));
  ss_Disable : string → Z → M (result Account);
  ss_RotateCredential : string → string → string → Z → M (result unit);
}.

(** ** internal/identra/service.go *)

Record Service := mkService {
  s_emailCodeStore : EmailCodeStore;
  s_oauthStateStore : OAuthStateStore;
  s_userStore : UserStore;
  s_externalIdentityStore : ExternalIdentityStore;
  s_serviceAccountStore : ServiceAccountStore;
  s_userStoreCleanup : option (MM (result unit));
  s_tokenCfg : TokenConfig;
  s_githubOAuthConfig : OAuth2Config;
  s_oauthFetchEmailIfMissing : bool;
  s_mailer : option EmailSender;
  s_loginRateLimiter : option RateLimiter;
  s_sendCodeRateLimiter : option RateLimiter;
  s_refreshTokenRevocations : option RefreshTokenRevocationStore;
  s_serviceTokenRateLimiter : option RateLimiter;
  s_auditStore : option AuditStore;
  s_serverInfo : ServerInfo;
}.

Definition Close (s : Service) : MM (result unit) :=
  match s_userStoreCleanup s with
  | Some cleanup => cleanup
  | None => Ret (Ok tt)
  end.

(** The key manager is the one in [World]; the field says whether one was
    given. *)
Record Dependencies := mkDependencies {
  d_EmailCodeStore : option EmailCodeStore;
  d_OAuthStateStore : option OAuthStateStore;
  d_UserStore : option UserStore;
  d_ExternalIdentityStore : option ExternalIdentityStore;
  d_ServiceAccountStore : option ServiceAccountStore;
  d_UserStoreCleanup : option (MM (result unit));
  d_KeyManager : bool;
  d_TokenConfig : TokenConfig;
  d_GithubOAuthConfig : option OAuth2Config;
  d_OAuthFetchEmailIfMissing : bool;
  d_Mailer : option EmailSender;
  d_LoginRateLimiter : option RateLimiter;
  d_SendCodeRateLimiter : option RateLimiter;
  d_RefreshTokenRevocations : option RefreshTokenRevocationStore;
  d_ServiceTokenRateLimiter : option RateLimiter;
  d_AuditStore : option AuditStore;
  d_ServerInfo : ServerInfo;
}.

Definition token_keys_present (cfg : TokenConfig) : bool :=
  match tc_PrivateKey cfg, tc_PublicKey cfg with Some _, Some _ => true | _, _ => false end.

Definition NewService (deps : Dependencies) : result Service :=
  match d_EmailCodeStore deps with
  | None => Err (errors_New "email code store is required")
  | Some emailCodeStore =>
  match d_OAuthStateStore deps with
  | None => Err (errors_New "oauth state store is required")
  | Some oauthStateStore =>
  match d_UserStore deps with
  | None => Err (errors_New "user store is required")
  | Some userStore =>
  match d_ExternalIdentityStore deps with
  | None => Err (errors_New "external identity store is required")
  | Some externalIdentityStore =>
  match d_ServiceAccountStore deps with
  | None => Err (errors_New "service account store is required")
  | Some serviceAccountStore =>
  match d_AuditStore deps with
  | None => Err (errors_New "audit store is required")
  | Some auditStore =>
  if negb (d_KeyManager deps) then Err (errors_New "key manager is required") else
  if negb (token_keys_present (d_TokenConfig deps))
  then Err (errors_New "token keys are not initialized") else
  match d_GithubOAuthConfig deps with
  | None => Err (errors_New "github oauth config is required")
  | Some githubOAuthConfig =>
      Ok {|
        s_emailCodeStore := emailCodeStore;
        s_oauthStateStore := oauthStateStore;
        s_userStore := userStore;
        s_externalIdentityStore := externalIdentityStore;
        s_serviceAccountStore := serviceAccountStore;
        s_userStoreCleanup := d_UserStoreCleanup deps;
        s_tokenCfg := d_TokenConfig deps;
        s_githubOAuthConfig := githubOAuthConfig;
        s_oauthFetchEmailIfMissing := d_OAuthFetchEmailIfMissing deps;
        s_mailer := d_Mailer deps;
        s_loginRateLimiter := d_LoginRateLimiter deps;
        s_sendCodeRateLimiter := d_SendCodeRateLimiter deps;
        s_refreshTokenRevocations := d_RefreshTokenRevocations deps;
        s_serviceTokenRateLimiter := d_ServiceTokenRateLimiter deps;
        s_auditStore := Some auditStore;
        s_serverInfo := d_ServerInfo deps;
      |}
  end end end end end end end.
End interfaces.
