(* ===== verification/RateLimiter.v ===== *)
(** * The rate limiter, internal/cache/redis_rate_limiter.go

    A counter per key with a window, kept in Redis by two scripts.  The
    specification is a counter with a deadline; the Redis implementation refines
    it while no call fails. *)

From S2P Require Import Prelude GoStrings Prog Data Platform RefPlatform KeyManager World Tokens.
From S2P Require Import Interfaces.
#[local] Open Scope Z_scope.

Section limiter.
Context `{P : Platform}.

Record redisRateLimiter := mkRedisRateLimiter {
  rrl_prefix : string;
  rrl_maxAttempts : Z;
  rrl_window : Z;
}.

(** [rdb] tells whether a client was given. *)
Definition NewRedisRateLimiter (rdb : bool) (prefix : string) (maxAttempts window : Z)
    : result redisRateLimiter :=
  if negb rdb then Err (errors_New "redis client is required for rate limiter") else
  if maxAttempts <=? 0 then Err (errors_New "maxAttempts must be positive") else
  if window <=? 0 then Err (errors_New "window must be positive") else
  Ok (mkRedisRateLimiter prefix maxAttempts window).

Definition fullKey (r : redisRateLimiter) (key : string) : string := rrl_prefix r +:+ key.

(** isAllowedScript.  Lua's tonumber reads the decimal integers INCR writes. *)
Definition isAllowedScript (key : string) (maxAttempts : Z) (t : Z) (s : rstate)
    : result Z * rstate :=
  match redis_GET t key s with
  | None => (Ok 1, s)
  | Some v =>
      match Atoi v with
      | None => (Err (errors_New "ERR attempt to compare nil with number"), s)
      | Some n => (Ok (if n <? maxAttempts then 1 else 0), s)
      end
  end.

(** recordScript: a script that fails stops where it failed. *)
Definition recordScript (key : string) (seconds : Z) (t : Z) (s : rstate)
    : result Z * rstate :=
  match redis_INCR t key s with
  | (Err e, s') => (Err e, s')
  | (Ok n, s') => (Ok n, if n =? 1 then redis_EXPIRE t key seconds s' else s')
  end.

(** int(r.window.Seconds()). *)
Definition window_seconds (r : redisRateLimiter) : Z := Z.quot (rrl_window r) time_Second.

Definition IsAllowed (r : redisRateLimiter) (key : string) : M (result bool) :=
  try res := redis_call (isAllowedScript (fullKey r key) (rrl_maxAttempts r)) in
  Ret (Ok (res =? 1)).

Definition Record_ (r : redisRateLimiter) (key : string) : M (result unit) :=
  try _ := redis_call (recordScript (fullKey r key) (window_seconds r)) in
  Ret (Ok tt).

Definition Reset (r : redisRateLimiter) (key : string) : M (result unit) :=
  redis_call (λ t s, (Ok tt, redis_DEL t (fullKey r key) s)).

Definition redisRateLimiter_iface (r : redisRateLimiter) : RateLimiter :=
  mkRateLimiter (IsAllowed r) (Record_ r) (Reset r).

(** ** Specification *)

(** Attempts so far and the end of their window. *)
Definition counter : Type := option (Z * Z).

Definition count_at (t : Z) (c : counter) : Z :=
  match c with Some (n, d) => if t <? d then n else 0 | None => 0 end.

Definition counter_allowed (max t : Z) (c : counter) : bool := count_at t c <? max.

(** One more attempt at [t]; [fresh] is the deadline of a new window. *)
Definition counter_record (t fresh : Z) (c : counter) : counter :=
  match c with
  | Some (n, d) => if t <? d then Some (n + 1, d) else Some (1, fresh)
  | None => Some (1, fresh)
  end.

(** The counter Redis keeps at a key. *)
Definition counter_repr (c : counter) (e : option (string * option Z)) : Prop :=
  e = (λ nd, (Itoa nd.1, Some nd.2)) <$> c ∧
  ∀ n d, c = Some (n, d) → 1 ≤ n ≤ max_int64.

Lemma counter_repr_live c e t :
  counter_repr c e →
  redis_live t e = match c with
                   | Some (n, d) => if t <? d then Some (Itoa n) else None
                   | None => None
                   end.
Proof. intros [-> _]. destruct c as [[n d]|]; done. Qed.

Lemma Atoi_counter n : 1 ≤ n ≤ max_int64 → Atoi (Itoa n) = Some n.
Proof. intros H. apply Atoi_Itoa. unfold min_int64. lia. Qed.

Lemma isAllowedScript_spec key max t s c :
  counter_repr c (redis_entry s key) → 0 < max →
  isAllowedScript key max t s = (Ok (if counter_allowed max t c then 1 else 0), s).
Proof.
  intros Hc Hmax. unfold isAllowedScript. rewrite redis_GET_spec, (counter_repr_live _ _ _ Hc).
  unfold counter_allowed, count_at. destruct c as [[n d]|].
  - destruct (t <? d); [|by rewrite (proj2 (Z.ltb_lt 0 max))].
    by rewrite (Atoi_counter n) by (by eapply Hc).
  - by rewrite (proj2 (Z.ltb_lt 0 max)).
Qed.

(** The script increments the counter, or starts a window. *)
Lemma recordScript_spec key seconds t s c :
  counter_repr c (redis_entry s key) → 0 < seconds → count_at t c < max_int64 →
  let fresh := redis_deadline t (seconds * time_Second) in
  let '(r, s') := recordScript key seconds t s in
  r = Ok (count_at t c + 1) ∧
  counter_repr (counter_record t fresh c) (redis_entry s' key) ∧
  (∀ k, k ≠ key → redis_entry s' k = redis_entry s k).
Proof.
  intros Hc Hsec Hlt fresh. unfold recordScript.
  pose proof (redis_INCR_result t key s) as Hr. pose proof (redis_INCR_spec t key s) as Hs.
  destruct (redis_INCR t key s) as [r s']. simpl in Hr, Hs.
  assert (incr_value (redis_live t (redis_entry s key)) = Ok (count_at t c + 1)) as Hi.
  { rewrite (counter_repr_live _ _ _ Hc). unfold count_at in *. destruct c as [[n d]|]; [|done].
    destruct (t <? d); [|done]. simpl. rewrite (Atoi_counter n) by (by eapply Hc).
    by rewrite (proj2 (Z.ltb_lt _ _)). }
  rewrite Hi in Hr. subst r. split; [done|].
  assert (∀ k, k ≠ key → redis_entry s' k = redis_entry s k) as Hframe.
  { intros k Hk. rewrite Hs, decide_False by done. done. }
  pose proof (Hs key) as Hkey. rewrite decide_True in Hkey by done. rewrite Hi in Hkey.
  unfold entry_deadline in Hkey. rewrite (counter_repr_live _ _ _ Hc) in Hkey.
  destruct (Z.eqb_spec (count_at t c + 1) 1) as [H1|H1].
  - assert (redis_entry s' key = Some ("1", None)) as Hnew.
    { rewrite Hkey. unfold count_at in *. destruct c as [[n d]|]; [|done].
      destruct (t <? d); [|done]. destruct Hc as [_ Hc]. specialize (Hc _ _ eq_refl). lia. }
    assert (counter_record t fresh c = Some (1, fresh)) as ->.
    { unfold counter_record, count_at in *. destruct c as [[n d]|]; [|done].
      destruct (t <? d); [|done]. destruct Hc as [_ Hc]. specialize (Hc _ _ eq_refl). lia. }
    split.
    + split; [|by intros n d [= <- <-]].
      rewrite redis_EXPIRE_spec, decide_True, Hnew by done. simpl.
      by rewrite (proj2 (Z.ltb_lt 0 seconds)).
    + intros k Hk. rewrite redis_EXPIRE_spec, decide_False by done. by apply Hframe.
  - split; [|done]. unfold count_at, counter_record in *. destruct c as [[n d]|]; [|done].
    destruct (t <? d) eqn:Htd; [|done]. destruct Hc as [He Hc]. split.
    + rewrite Hkey, He. done.
    + intros n' d' [= <- <-]. specialize (Hc _ _ eq_refl). lia.
Qed.

Lemma counter_reset_spec t key s :
  counter_repr None (redis_entry (redis_DEL t key s) key) ∧
  (∀ k, k ≠ key → redis_entry (redis_DEL t key s) k = redis_entry s k).
Proof.
  split; [split; [by rewrite redis_DEL_spec, decide_True|done]|].
  intros k Hk. by rewrite redis_DEL_spec, decide_False.
Qed.

(** ** The methods on the shared state *)

Definition limiter_ok (r : redisRateLimiter) : Prop :=
  0 < rrl_maxAttempts r ∧ time_Second ≤ rrl_window r.

Lemma window_seconds_pos r : limiter_ok r → 0 < window_seconds r.
Proof.
  intros [_ H]. unfold window_seconds, time_Second in *.
  apply Z.quot_str_pos; lia.
Qed.

Lemma IsAllowed_run r key w c :
  limiter_ok r → env_fault (w_step w) = None →
  counter_repr c (redis_entry (w_redis w) (fullKey r key)) →
  run (IsAllowed r key) w = (Ok (counter_allowed (rrl_maxAttempts r) (w_now w) c), tick w).
Proof.
  intros [Hmax _] Hf Hc. unfold IsAllowed. rewrite run_try, redis_call_ok by done.
  rewrite (isAllowedScript_spec _ _ _ _ c) by done. simpl. rewrite set_redis_id.
  by destruct (counter_allowed _ _ _).
Qed.

Lemma Record_run r key w c :
  limiter_ok r → env_fault (w_step w) = None →
  counter_repr c (redis_entry (w_redis w) (fullKey r key)) →
  count_at (w_now w) c < max_int64 →
  let fresh := redis_deadline (w_now w) (window_seconds r * time_Second) in
  let '(res, w') := run (Record_ r key) w in
  res = Ok tt ∧ w_step w' = S (w_step w) ∧
  counter_repr (counter_record (w_now w) fresh c) (redis_entry (w_redis w') (fullKey r key)) ∧
  (∀ k, k ≠ fullKey r key → redis_entry (w_redis w') k = redis_entry (w_redis w) k).
Proof.
  intros Hok Hf Hc Hlt fresh. unfold Record_. rewrite run_try, redis_call_ok by done.
  pose proof (recordScript_spec (fullKey r key) (window_seconds r) (w_now w) (w_redis w) c
    Hc (window_seconds_pos _ Hok) Hlt) as H. simpl in H.
  destruct (recordScript _ _ _ _) as [res s']. destruct H as (-> & Hr & Hfr). simpl. done.
Qed.

Lemma Reset_run r key w :
  env_fault (w_step w) = None →
  let '(res, w') := run (Reset r key) w in
  res = Ok tt ∧ w_step w' = S (w_step w) ∧
  counter_repr None (redis_entry (w_redis w') (fullKey r key)) ∧
  (∀ k, k ≠ fullKey r key → redis_entry (w_redis w') k = redis_entry (w_redis w) k).
Proof.
  intros Hf. unfold Reset. rewrite redis_call_ok by done. simpl.
  destruct (counter_reset_spec (w_now w) (fullKey r key) (w_redis w)). done.
Qed.

(** ** Effects *)

Lemma isAllowedScript_state key max t s : (isAllowedScript key max t s).2 = s.
Proof. unfold isAllowedScript. repeat case_match; done. Qed.

Lemma recordScript_frame key seconds t s k :
  k ≠ key → redis_entry (recordScript key seconds t s).2 k = redis_entry s k.
Proof.
  intros Hk. unfold recordScript. pose proof (redis_INCR_spec t key s k) as H.
  rewrite decide_False in H by done. destruct (redis_INCR t key s) as [[n|] s']; simpl in *; [|done].
  case_match; [|done]. by rewrite redis_EXPIRE_spec, decide_False.
Qed.

Lemma fullKey_inj r k k' : fullKey r k = fullKey r k' → k = k'.
Proof. apply string_app_inj_r. Qed.

Lemma fullKey_prefix r k : HasPrefix (fullKey r k) (rrl_prefix r) = true.
Proof. apply HasPrefix_app. Qed.

Lemma IsAllowed_clock_only r key : guarantees clock_only (IsAllowed r key).
Proof.
  apply guarantees_try; [|intros ?; apply guarantees_ret].
  apply redis_call_guarantees; [apply _|]. intros w. rewrite isAllowedScript_state, set_redis_id.
  apply tick_closed.
Qed.

Lemma Record_redis_only r key : guarantees (redis_only (rrl_prefix r)) (Record_ r key).
Proof.
  apply guarantees_try; [|intros ?; apply guarantees_ret].
  apply redis_call_only. intros t s k Hk. apply recordScript_frame. intros ->.
  by rewrite fullKey_prefix in Hk.
Qed.

Lemma Reset_redis_only r key : guarantees (redis_only (rrl_prefix r)) (Reset r key).
Proof.
  apply redis_call_only. intros t s k Hk. simpl. rewrite redis_DEL_spec. apply decide_False.
  intros <-. by rewrite fullKey_prefix in Hk.
Qed.

(** [n] recorded attempts at a key, among anything else that leaves the key
    alone. *)
Inductive attempts (r : redisRateLimiter) (key : string) : nat → relation World :=
  | attempts_nil w : attempts r key 0 w w
  | attempts_other n w w1 w2 :
      attempts r key n w w1 → (w_step w1 ≤ w_step w2)%nat →
      redis_entry (w_redis w2) (fullKey r key) = redis_entry (w_redis w1) (fullKey r key) →
      attempts r key n w w2
  | attempts_record n w w1 :
      attempts r key n w w1 → env_fault (w_step w1) = None →
      attempts r key (S n) w (run (Record_ r key) w1).2.

(** No attempt counts from [w] on. *)
Definition no_attempts (r : redisRateLimiter) (key : string) (w : World) : Prop :=
  ∃ c, counter_repr c (redis_entry (w_redis w) (fullKey r key)) ∧
       ∀ t, w_now w ≤ t → count_at t c = 0.

(** The counter after [n] attempts inside one window that starts at [w]. *)
Lemma attempts_counter r key n w w' :
  attempts r key n w w' → limiter_ok r → no_attempts r key w → Z.of_nat n ≤ max_int64 →
  let close := w_now w + window_seconds r * time_Second - time_Millisecond in
  w_now w' < close →
  (w_step w ≤ w_step w')%nat ∧
  ∃ c, counter_repr c (redis_entry (w_redis w') (fullKey r key)) ∧
       ∀ t, w_now w' ≤ t → t < close → count_at t c = Z.of_nat n.
Proof.
  intros Hat Hok Hno. induction Hat as [w|n w w1 w2 Hat IH Hle He|n w w1 Hat IH Hf];
    intros Hn close Hcl.
  - split; [done|]. destruct Hno as (c & Hc & H0). exists c. eauto.
  - assert (w_now w1 ≤ w_now w2) as Hnow by by apply env_now_mono.
    destruct (IH Hno Hn) as (Hs & c & Hc & H0); [lia|]. split; [lia|]. exists c.
    rewrite He. split; [done|]. intros t Ht. apply H0. lia.
  - pose proof (window_seconds_pos _ Hok) as Hwp.
    pose proof (redis_deadline_bounds (w_now w1) (window_seconds r * time_Second)) as Hd.
    assert ((run (Record_ r key) w1).2 = tick (set_redis (recordScript (fullKey r key)
      (window_seconds r) (w_now w1) (w_redis w1)).2 w1)) as Hw.
    { unfold Record_. rewrite run_try, redis_call_ok by done. by destruct (recordScript _ _ _ _) as [[] ?]. }
    assert (w_now w1 ≤ w_now (run (Record_ r key) w1).2) as Hnow
      by (rewrite Hw; apply env_now_mono; simpl; lia).
    destruct (IH Hno) as (Hs & c & Hc & H0); [lia|lia|].
    split; [rewrite Hw; simpl; lia|].
    assert (w_now w ≤ w_now w1) as Hww by by apply env_now_mono.
    assert (count_at (w_now w1) c = Z.of_nat n) as Hcn by (apply H0; unfold close in *; lia).
    pose proof (Record_run r key w1 c Hok Hf Hc) as HR. rewrite Hcn in HR.
    specialize (HR ltac:(lia)). destruct (run (Record_ r key) w1) as [res w2]. simpl in *.
    destruct HR as (_ & _ & HR & _). eexists. split; [exact HR|]. intros t Ht Htc.
    unfold counter_record, count_at in *. unfold close, time_Second, time_Millisecond in *.
    destruct c as [[m d]|]; [|rewrite (proj2 (Z.ltb_lt t _)); lia].
    destruct (w_now w1 <? d) eqn:Hlive; [|rewrite (proj2 (Z.ltb_lt t _)); lia].
    destruct (decide (n = 0%nat)) as [->|Hn0].
    { destruct Hc as [_ Hc]. specialize (Hc _ _ eq_refl). lia. }
    pose proof (H0 t ltac:(lia) Htc) as H0t. destruct (t <? d); lia.
Qed.
End limiter.

(** ** The promise

    What the handlers rely on whatever the limiter: asking is harmless, and
    recording and resetting stay among the limiter's own keys. *)

Class LimiterSpec `{P : Platform} (pre : string) (limiter : RateLimiter) := {
  rl_IsAllowed_only k : guarantees clock_only (rl_IsAllowed limiter k);
  rl_Record_only k : guarantees (redis_only pre) (rl_Record limiter k);
  rl_Reset_only k : guarantees (redis_only pre) (rl_Reset limiter k);
}.

#[export] Instance redis_limiter_spec `{P : Platform} r :
  LimiterSpec (rrl_prefix r) (redisRateLimiter_iface r).
Proof.
  split; intros k; [apply IsAllowed_clock_only|apply Record_redis_only|apply Reset_redis_only].
Qed.

(** ** Properties *)

Section properties.
Context `{P : Platform}.

(** C21.  The Redis rate limiter refines a counter with a deadline.  From a key
    that holds the counter [c], and while Redis answers: IsAllowed reports
    whether [c] is below the maximum and changes nothing; Record counts one more
    attempt, in the running window if there is one and otherwise in a new window
    of the configured whole seconds (to the millisecond); Reset clears the
    counter; and neither touches any other key. *)
Theorem limiter_refines_counter r key w c
    (Hok : limiter_ok r) (Hf : env_fault (w_step w) = None)
    (Hc : counter_repr c (redis_entry (w_redis w) (fullKey r key)))
    (Hlt : count_at (w_now w) c < max_int64) :
  run (IsAllowed r key) w = (Ok (counter_allowed (rrl_maxAttempts r) (w_now w) c), tick w) ∧
  (∃ w1 fresh, run (Record_ r key) w = (Ok tt, w1) ∧
     Z.abs (fresh - (w_now w + window_seconds r * time_Second)) ≤ time_Millisecond ∧
     counter_repr (counter_record (w_now w) fresh c) (redis_entry (w_redis w1) (fullKey r key)) ∧
     (∀ k, k ≠ fullKey r key → redis_entry (w_redis w1) k = redis_entry (w_redis w) k)) ∧
  (∃ w1, run (Reset r key) w = (Ok tt, w1) ∧
     counter_repr None (redis_entry (w_redis w1) (fullKey r key)) ∧
     (∀ k, k ≠ fullKey r key → redis_entry (w_redis w1) k = redis_entry (w_redis w) k)).
Proof.
  split; [by apply IsAllowed_run|]. split.
  - pose proof (Record_run r key w c Hok Hf Hc Hlt) as H. cbv zeta in H.
    destruct (run (Record_ r key) w) as [res w1]. destruct H as (-> & _ & H1 & H2).
    eexists w1, _. split; [done|]. split; [|by split; [exact H1|]].
    pose proof (window_seconds_pos _ Hok).
    pose proof (redis_deadline_bounds (w_now w) (window_seconds r * time_Second)) as Hd.
    unfold time_Second, time_Millisecond in *. lia.
  - pose proof (Reset_run r key w Hf) as H.
    destruct (run (Reset r key) w) as [res w1]. destruct H as (-> & _ & H1 & H2). by exists w1.
Qed.

(** Lockout.  However the attempts are spread over a window, and whatever
    else happens to other keys in between, IsAllowed answers true exactly while
    fewer than the configured maximum have been recorded. *)
Theorem limiter_lockout r key n w w'
    (Hok : limiter_ok r) (Hno : no_attempts r key w)
    (Hat : attempts r key n w w') (Hn : Z.of_nat n ≤ max_int64)
    (Hin : w_now w' < w_now w + window_seconds r * time_Second - time_Millisecond)
    (Hf : env_fault (w_step w') = None) :
  run (IsAllowed r key) w' = (Ok (Z.of_nat n <? rrl_maxAttempts r), tick w').
Proof.
  destruct (attempts_counter _ _ _ _ _ Hat Hok Hno Hn Hin) as (_ & c & Hc & Hct).
  rewrite (IsAllowed_run r key w' c) by done. unfold counter_allowed. by rewrite Hct by lia.
Qed.

(** The limiter's constructor only accepts windows of more than zero
    nanoseconds, but counts whole seconds: with a window below one second every
    attempt is forgotten at once and the limiter never locks anybody out. *)
Theorem subsecond_window_never_limits prefix max window r key w
    (Hnew : NewRedisRateLimiter true prefix max window = Ok r)
    (Hsub : window < time_Second)
    (Hnone : redis_entry (w_redis w) (fullKey r key) = None) :
  redis_entry (w_redis (run (Record_ r key) w).2) (fullKey r key) = None.
Proof.
  unfold NewRedisRateLimiter in Hnew. simpl in Hnew.
  destruct (Z.leb_spec max 0); [done|]. destruct (Z.leb_spec window 0); [done|].
  injection Hnew as <-. unfold Record_. rewrite run_try. simpl.
  unfold window_seconds; simpl. rewrite Z.quot_small by lia.
  assert (redis_entry (recordScript (prefix +:+ key) 0 (w_now w) (w_redis w)).2 (prefix +:+ key) = None)
    as Hs.
  { unfold recordScript.
    pose proof (redis_INCR_result (w_now w) (prefix +:+ key) (w_redis w)) as Hr.
    pose proof (redis_INCR_spec (w_now w) (prefix +:+ key) (w_redis w) (prefix +:+ key)) as Hsp.
    unfold fullKey in Hnone; simpl in Hnone. rewrite Hnone in Hr, Hsp. simpl in Hr, Hsp.
    destruct (redis_INCR _ _ _) as [res s']. simpl in *. subst res. simpl.
    rewrite redis_EXPIRE_spec. rewrite decide_True in * by done. by rewrite Hsp. }
  unfold fullKey in *; simpl in *. destruct (recordScript _ _ _ _) as [res s']; simpl in *.
  unfold with_fault. destruct (env_fault _) as [[m []]|]; [done..|]. by destruct res.
Qed.
End properties.

(** ** Closed instances *)

Section instances.
#[local] Existing Instance calm.

Definition sample_limiter : redisRateLimiter :=
  mkRedisRateLimiter "identra:rl:login:" 2 (15 * time_Minute).

Lemma sample_limiter_ok : limiter_ok sample_limiter.
Proof. split; by vm_compute. Qed.

Lemma calm_no_attempts : no_attempts sample_limiter "k" calm_world.
Proof. exists None. split; [by split|done]. Qed.

Lemma limiter_refines_counter_witness :
  run (IsAllowed sample_limiter "k") calm_world = (Ok true, tick calm_world).
Proof.
  assert (counter_repr None (redis_entry (w_redis calm_world) (fullKey sample_limiter "k"))) as Hc
    by by split.
  exact (proj1 (limiter_refines_counter sample_limiter "k" calm_world None
    sample_limiter_ok eq_refl Hc eq_refl)).
Defined.

(** Two failed attempts against a maximum of two. *)
Lemma limiter_lockout_witness :
  let w1 := (run (Record_ sample_limiter "k") calm_world).2 in
  let w2 := (run (Record_ sample_limiter "k") w1).2 in
  run (IsAllowed sample_limiter "k") w2 = (Ok false, tick w2).
Proof.
  intros w1 w2.
  apply (limiter_lockout sample_limiter "k" 2 calm_world w2 sample_limiter_ok calm_no_attempts).
  - apply attempts_record; [apply attempts_record; [apply attempts_nil|]|]; reflexivity.
  - by vm_compute.
  - by vm_compute.
  - reflexivity.
Defined.

Lemma subsecond_window_never_limits_witness :
  let r := mkRedisRateLimiter "p:" 1 (500 * time_Millisecond) in
  redis_entry (w_redis (run (Record_ r "k") calm_world).2) (fullKey r "k") = None.
Proof. by apply (subsecond_window_never_limits "p:" 1 (500 * time_Millisecond)). Defined.
End instances.
