(* ===== verification/Revocation.v ===== *)
(** * Revoked refresh tokens, internal/cache/redis_refresh_token_revocation_store.go

    The store, what it promises to the session handlers as a class
    ([RevocationSpec]), and the proof that the Redis store keeps the promise.
    Redis keeps expiry times to the millisecond, so a revocation may lapse up to
    one millisecond before the token expires. *)

From S2P Require Import Prelude GoStrings Prog Data Platform RefPlatform KeyManager World Tokens.
From S2P Require Import Interfaces.
#[local] Open Scope Z_scope.

Section store.
Context `{P : Platform}.

Definition NewRedisRefreshTokenRevocationStore (rdb : bool) : result string :=
  if negb rdb then Err (errors_New "redis client is required for refresh token revocation store")
  else Ok "identra:revoked_refresh:".

(** The store is its key prefix. *)
Definition revocation_key (prefix tokenID : string) : string := prefix +:+ tokenID.

Definition Revoke (prefix tokenID : string) (expiresAt : Z) : M (result unit) :=
  if (tokenID == "")%go then Ret (Ok tt) else
  now ← time_Now;
  let ttl := expiresAt - now in
  if ttl <=? 0 then Ret (Ok tt) else
  redis_call (λ t s, (Ok tt, redis_SET t (revocation_key prefix tokenID) "1" ttl s)).

(** EXISTS counts the live keys among its arguments. *)
Definition redis_EXISTS (t : Z) (key : string) (s : rstate) : Z :=
  match redis_GET t key s with Some _ => 1 | None => 0 end.

Definition IsRevoked (prefix tokenID : string) : M (result bool) :=
  if (tokenID == "")%go then Ret (Ok false) else
  try n := redis_call (λ t s, (Ok (redis_EXISTS t (revocation_key prefix tokenID) s), s)) in
  Ret (Ok (0 <? n)).

Definition redisRefreshTokenRevocationStore (prefix : string) : RefreshTokenRevocationStore :=
  mkRefreshTokenRevocationStore (Revoke prefix) (IsRevoked prefix).

(** ** The promise *)

(** A revocation is remembered until a time; [rr_revoked] is kept by everything
    that leaves the store's own keys alone. *)
Class RevocationSpec (rr : RefreshTokenRevocationStore) := {
  rr_revoked : World → string → Z → Prop;
  rr_prefix : string;
  rr_Revoke_spec id e w w' :
    id ≠ "" → run (rr_Revoke rr id e) w = (Ok tt, w') → w_now w' < e → rr_revoked w' id e;
  rr_Revoke_step id e w : (w_step w ≤ w_step (run (rr_Revoke rr id e) w).2)%nat;
  rr_IsRevoked_step id w : (w_step w ≤ w_step (run (rr_IsRevoked rr id) w).2)%nat;
  rr_IsRevoked_spec id e w :
    id ≠ "" → rr_revoked w id e → w_now w < e - time_Millisecond →
    (run (rr_IsRevoked rr id) w).1 ≠ Ok false;
  rr_Revoke_only id e : guarantees (redis_only rr_prefix) (rr_Revoke rr id e);
  rr_IsRevoked_only id : guarantees clock_only (rr_IsRevoked rr id);
  rr_revoked_frame w w' id e :
    (∀ k, HasPrefix k rr_prefix = true → redis_entry (w_redis w') k = redis_entry (w_redis w) k) →
    rr_revoked w id e → rr_revoked w' id e;
  (* revoking again, to the same time, keeps every revocation *)
  rr_Revoke_keeps id e w id' e' :
    (id' = id → e' = e) → rr_revoked w id' e' → rr_revoked (run (rr_Revoke rr id e) w).2 id' e';
}.

(** ** The Redis store keeps it *)

Variable prefix : string.

Definition revoked (w : World) (id : string) (e : Z) : Prop :=
  ∃ v d, redis_entry (w_redis w) (revocation_key prefix id) = Some (v, Some d) ∧
         e - time_Millisecond ≤ d.

(** The entry Revoke leaves for the token. *)
Lemma revoked_SET t id e ttl s :
  0 < ttl → e ≤ t + ttl →
  ∃ v d, redis_entry (redis_SET t (revocation_key prefix id) "1" ttl s)
    (revocation_key prefix id) = Some (v, Some d) ∧ e - time_Millisecond ≤ d.
Proof.
  intros Httl He. exists "1", (redis_deadline t ttl). rewrite redis_SET_spec, decide_True by done.
  split; [done|]. pose proof (redis_deadline_bounds t ttl Httl). lia.
Qed.

Lemma Revoke_Ok id e w w' :
  id ≠ "" → run (Revoke prefix id e) w = (Ok tt, w') → w_now w' < e → revoked w' id e.
Proof.
  intros Hid. unfold Revoke. rewrite bool_decide_eq_false_2 by done.
  rewrite run_mbind. cbn [run time_Now act]. destruct (Z.leb_spec (e - w_now w) 0).
  - intros [= <-] Hlt. pose proof (w_now_tick w). lia.
  - intros (s & [= <-] & ->)%redis_call_Ok_inv _. unfold revoked. simpl.
    apply revoked_SET; [lia|]. pose proof (w_now_tick w). lia.
Qed.

Lemma IsRevoked_run id w :
  id ≠ "" →
  run (IsRevoked prefix id) w =
    (match env_fault (w_step w) with
     | None => Ok (match redis_live (w_now w) (redis_entry (w_redis w) (revocation_key prefix id))
                   with Some _ => true | None => false end)
     | Some ft => Err (errors_New (fault_msg ft))
     end, tick w).
Proof.
  intros Hid. unfold IsRevoked. rewrite bool_decide_eq_false_2 by done.
  rewrite run_try, (redis_read_run (λ t s, Ok (redis_EXISTS t (revocation_key prefix id) s))).
  destruct (env_fault (w_step w)); [done|]. unfold redis_EXISTS. rewrite redis_GET_spec.
  by destruct (redis_live _ _).
Qed.

Lemma Revoke_redis_only id e : guarantees (redis_only prefix) (Revoke prefix id e).
Proof.
  unfold Revoke. case_bool_decide; [apply guarantees_ret|].
  apply guarantees_mbind; [apply time_Now_guarantees; apply _|]. intros now.
  case_match; [apply guarantees_ret|]. apply redis_call_only. intros t s k Hk. simpl.
  rewrite redis_SET_spec. apply decide_False. intros <-.
  unfold revocation_key in Hk. by rewrite HasPrefix_app in Hk.
Qed.

Lemma IsRevoked_clock_only id : guarantees clock_only (IsRevoked prefix id).
Proof.
  unfold IsRevoked. case_bool_decide; [apply guarantees_ret|].
  apply guarantees_try; [|intros n; apply guarantees_ret].
  apply redis_call_guarantees; [apply _|]. intros w. simpl. rewrite set_redis_id. apply tick_closed.
Qed.

Lemma revoked_agree w w' id e :
  redis_entry (w_redis w') (revocation_key prefix id) =
    redis_entry (w_redis w) (revocation_key prefix id) →
  revoked w id e → revoked w' id e.
Proof. intros He (v & d & Hv & Hd). exists v, d. by rewrite He. Qed.

Lemma Revoke_keeps id e w id' e' :
  (id' = id → e' = e) → revoked w id' e' → revoked (run (Revoke prefix id e) w).2 id' e'.
Proof.
  intros Hee Hr. unfold Revoke. case_bool_decide; [done|].
  rewrite run_mbind. cbn [run time_Now act].
  destruct (Z.leb_spec (e - w_now w) 0); [by eapply revoked_agree|]. simpl. unfold with_fault.
  assert (revoked (tick (set_redis (redis_SET (w_now (tick w)) (revocation_key prefix id) "1"
    (e - w_now w) (w_redis (tick w))) (tick w))) id' e') as Hset.
  { destruct (decide (id' = id)) as [->|Hne].
    - rewrite (Hee eq_refl). unfold revoked; simpl. apply revoked_SET; [lia|].
      pose proof (w_now_tick w). lia.
    - eapply revoked_agree; [|exact Hr]. simpl. rewrite redis_SET_spec. apply decide_False.
      unfold revocation_key. intros Heq%string_app_inj_r. done. }
  destruct (env_fault _) as [[m []]|]; simpl; [exact Hset| |exact Hset].
  by eapply revoked_agree.
Qed.

#[export] Instance redis_revocation_spec :
  RevocationSpec (redisRefreshTokenRevocationStore prefix).
Proof.
  apply (Build_RevocationSpec (redisRefreshTokenRevocationStore prefix) revoked prefix Revoke_Ok).
  - intros id e w. apply (guarantees_run _ _ w (Revoke_redis_only id e)).
  - intros id w. apply (guarantees_run _ _ w (IsRevoked_clock_only id)).
  - intros id e w Hid (v & d & He & Hd) Hlt. simpl. rewrite IsRevoked_run by done.
    destruct (env_fault (w_step w)); [done|]. rewrite He. simpl.
    by rewrite (proj2 (Z.ltb_lt _ _)) by lia.
  - apply Revoke_redis_only.
  - apply IsRevoked_clock_only.
  - intros w w' id e He. apply revoked_agree, He, HasPrefix_app.
  - apply Revoke_keeps.
Defined.
End store.
