(* ===== verification/EmailCode.v ===== *)
(** * Email verification codes, internal/cache/redis_email_code_store.go *)

From S2P Require Import Prelude GoStrings Prog Data Platform RefPlatform KeyManager World Tokens.
From S2P Require Import Interfaces.
#[local] Open Scope Z_scope.

Section store.
Context `{P : Platform}.

Record redisEmailCodeStore := mkRedisEmailCodeStore { rec_ttl : Z; rec_prefix : string }.

Definition NewRedisEmailCodeStore (ttl : Z) (rdb : bool) : result redisEmailCodeStore :=
  let ttl := if ttl <=? 0 then 10 * time_Minute else ttl in
  if negb rdb then Err (errors_New "redis client is required for email code store")
  else Ok (mkRedisEmailCodeStore ttl "identra:email_code:").

Definition email_code_key (s : redisEmailCodeStore) (email : string) : string :=
  rec_prefix s +:+ email.

Definition Set_ (s : redisEmailCodeStore) (email code : string) : M (result unit) :=
  redis_call (λ t st, (Ok tt, redis_SET t (email_code_key s email) code (rec_ttl s) st)).

Definition consumeEmailCodeScript (key arg : string) (t : Z) (s : rstate)
    : result Z * rstate :=
  match redis_GET t key s with
  | None => (Ok 0, s)
  | Some v => if negb (v == arg)%go then (Ok (-1), s) else (Ok 1, redis_DEL t key s)
  end.

Definition Consume (s : redisEmailCodeStore) (email code : string) : M (result bool) :=
  try res := redis_call (consumeEmailCodeScript (email_code_key s email) code) in
  Ret (Ok (res =? 1)).

Definition redisEmailCodeStore_iface (s : redisEmailCodeStore) : EmailCodeStore :=
  mkEmailCodeStore (Set_ s) (Consume s).

(** ** What Consume does *)

Lemma consumeEmailCodeScript_frame key arg t s k :
  k ≠ key → redis_entry (consumeEmailCodeScript key arg t s).2 k = redis_entry s k.
Proof.
  intros Hk. unfold consumeEmailCodeScript. destruct (redis_GET _ _ _); [|done].
  destruct (negb _); [done|]. simpl. by rewrite redis_DEL_spec, decide_False.
Qed.

(** The script answers 1 when it finds the code, which is gone afterwards;
    otherwise it leaves the store alone. *)
Lemma consumeEmailCodeScript_spec key arg t s :
  let '(r, s') := consumeEmailCodeScript key arg t s in
  (r = Ok 1 ∧ redis_live t (redis_entry s key) = Some arg ∧ redis_entry s' key = None) ∨
  (r ≠ Ok 1 ∧ is_Ok r = true ∧ redis_live t (redis_entry s key) ≠ Some arg ∧ s' = s).
Proof.
  unfold consumeEmailCodeScript. rewrite redis_GET_spec.
  destruct (redis_live t (redis_entry s key)) as [v|]; [|by right].
  case_bool_decide; simpl; [left|right; naive_solver].
  rewrite redis_DEL_spec, decide_True by done. by subst.
Qed.

(** Codes of an address that are absent stay absent, and are never consumed. *)
Definition code_gone (s : redisEmailCodeStore) (email : string) (w : World) : Prop :=
  redis_entry (w_redis w) (email_code_key s email) = None.

Lemma with_fault_code_gone s email {B} (w w' : World) (r : result B) :
  code_gone s email w → code_gone s email w' → code_gone s email (with_fault w w' r).2.
Proof.
  intros H H'. unfold with_fault. by destruct (env_fault _) as [[m []]|]; simpl.
Qed.

(** The one action of Consume, as a claim on the code. *)
Lemma consume_claims {A} (won : A → Prop) s email code (f : result bool → prog World A) :
  (∀ r, guarantees (keeps_gone (code_gone s email)) (f r)) →
  (∀ r, r ≠ Ok true → claims (code_gone s email) won (f r)) →
  claims (code_gone s email) won (Consume s email code ≫= f).
Proof.
  intros Hq Hl. unfold Consume, prog_try, prog_catch, redis_call, act, mbind, prog_mbind.
  cbn [prog_bind]. set (key := email_code_key s email).
  assert (∀ w, code_gone s email w → code_gone s email
    (set_redis (consumeEmailCodeScript key code (w_now w) (w_redis w)).2 w)) as Hkeep.
  { intros w Hw. unfold code_gone in *; simpl in *.
    pose proof (consumeEmailCodeScript_spec key code (w_now w) (w_redis w)) as Hs.
    destruct (consumeEmailCodeScript _ _ _ _) as [r s']; simpl.
    by destruct Hs as [(_ & _ & ?)|(_ & _ & _ & ->)]. }
  apply claims_act; intros w; specialize (Hkeep w);
    pose proof (consumeEmailCodeScript_spec key code (w_now w) (w_redis w)) as Hs;
    destruct (consumeEmailCodeScript _ _ _ _) as [r s']; simpl in *.
  - intros Hw. by apply with_fault_code_gone, Hkeep.
  - unfold with_fault. destruct (env_fault (w_step w)) as [[m ?]|]; simpl; [left; by apply Hl|].
    destruct Hs as [(-> & Hlive & Hgone)|(Hr & Hok & _)].
    + right. split; [|split; [done|apply Hq]]. unfold code_gone. intros Hnone.
      fold key in Hnone. by rewrite Hnone in Hlive.
    + left. destruct r as [n|e]; [|done]. simpl. apply Hl. intros [= ->%Z.eqb_eq]. done.
Qed.

(** ** The store under sequential use *)

Lemma Set_run s email code w :
  env_fault (w_step w) = None → 0 < rec_ttl s →
  let '(r, w') := run (Set_ s email code) w in
  r = Ok tt ∧ w_step w' = S (w_step w) ∧ (∃ d, redis_entry (w_redis w') (email_code_key s email) = Some (code, Some d) ∧
                    w_now w + rec_ttl s - time_Millisecond ≤ d ≤ w_now w + rec_ttl s + time_Millisecond) ∧
  (∀ k, k ≠ email_code_key s email → redis_entry (w_redis w') k = redis_entry (w_redis w) k).
Proof.
  intros Hf Httl. unfold Set_. rewrite redis_call_ok by done. simpl. do 2 (split; [done|]). split.
  - exists (redis_deadline (w_now w) (rec_ttl s)). rewrite redis_SET_spec, decide_True by done.
    split; [done|]. by apply redis_deadline_bounds.
  - intros k Hk. by rewrite redis_SET_spec, decide_False.
Qed.

Lemma Consume_run s email code w :
  env_fault (w_step w) = None →
  let live := redis_live (w_now w) (redis_entry (w_redis w) (email_code_key s email)) in
  let '(r, w') := run (Consume s email code) w in
  r = Ok (bool_decide (live = Some code)) ∧ w_step w' = S (w_step w) ∧
  (live = Some code → redis_entry (w_redis w') (email_code_key s email) = None) ∧
  (live ≠ Some code → w_redis w' = w_redis w) ∧
  (∀ k, k ≠ email_code_key s email → redis_entry (w_redis w') k = redis_entry (w_redis w) k).
Proof.
  intros Hf live. unfold Consume. rewrite run_try, redis_call_ok by done.
  pose proof (consumeEmailCodeScript_spec (email_code_key s email) code (w_now w) (w_redis w)) as Hs.
  pose proof (λ k, consumeEmailCodeScript_frame (email_code_key s email) code (w_now w) (w_redis w) k) as Hfr.
  destruct (consumeEmailCodeScript _ _ _ _) as [r s']; simpl in *. fold live in Hs.
  destruct Hs as [(-> & Hl & Hn)|(Hr & Hok & Hl & ->)]; simpl.
  - rewrite bool_decide_eq_true_2 by done. naive_solver.
  - destruct r as [n|]; [|done]. simpl. rewrite bool_decide_eq_false_2 by done.
    assert (n ≠ 1) by congruence. rewrite (proj2 (Z.eqb_neq _ _)) by done. naive_solver.
Qed.

Lemma Set_only s email code : guarantees (redis_only (rec_prefix s)) (Set_ s email code).
Proof.
  apply redis_call_only. intros t st k Hk. simpl. rewrite redis_SET_spec. apply decide_False.
  intros <-. unfold email_code_key in Hk. by rewrite HasPrefix_app in Hk.
Qed.

Lemma Consume_only s email code : guarantees (redis_only (rec_prefix s)) (Consume s email code).
Proof.
  apply guarantees_try; [|intros ?; apply guarantees_ret].
  apply redis_call_only. intros t st k Hk. apply consumeEmailCodeScript_frame.
  intros ->. unfold email_code_key in Hk. by rewrite HasPrefix_app in Hk.
Qed.
End store.

(** ** The promise

    What the login handler relies on: an address's code is consumed at most
    once. *)

Class OneShotCodes `{P : Platform} (ec : EmailCodeStore) := {
  codes_gone : string → World → Prop;
  Consume_claims {A} (won : A → Prop) email code (f : result bool → prog World A) :
    (∀ r, guarantees (keeps_gone (codes_gone email)) (f r)) →
    (∀ r, r ≠ Ok true → claims (codes_gone email) won (f r)) →
    claims (codes_gone email) won (ec_Consume ec email code ≫= f);
  (* only a Set brings a code back, and codes live under a prefix *)
  codes_prefix : string;
  codes_gone_frame email w w' :
    (∀ k, HasPrefix k codes_prefix = true → redis_entry (w_redis w') k = redis_entry (w_redis w) k) →
    codes_gone email w → codes_gone email w';
  codes_only email code : guarantees (redis_only codes_prefix) (ec_Consume ec email code);
}.

#[export] Instance redis_one_shot_codes `{P : Platform} s :
  OneShotCodes (redisEmailCodeStore_iface s).
Proof.
  refine (Build_OneShotCodes _ (redisEmailCodeStore_iface s) (code_gone s) _ (rec_prefix s) _ _).
  - intros A won email code f. apply consume_claims.
  - intros email w w' Hr. unfold code_gone. rewrite Hr; [done|apply HasPrefix_app].
  - intros email code. apply Consume_only.
Defined.

(** ** Properties *)

Section properties.
Context `{P : Platform}.

(** C34.  A code is good once.  Set stores it for the configured time; until
    then a Consume that presents another code fails and leaves it in place, the
    first Consume that presents it succeeds and removes it, and a second one
    fails; keys of other addresses are never touched. *)
Theorem email_code_lifecycle s email code wrong w r0 w0 r1 w1 r2 w2 r3 w3
    (Httl : 0 < rec_ttl s) (Hwrong : wrong ≠ code)
    (Hf : ∀ i, (i ≤ 4)%nat → env_fault (i + w_step w) = None)
    (H0 : run (Set_ s email code) w = (r0, w0))
    (H1 : run (Consume s email wrong) w0 = (r1, w1))
    (H2 : run (Consume s email code) w1 = (r2, w2))
    (H3 : run (Consume s email code) w2 = (r3, w3))
    (Htime : w_now w3 < w_now w + rec_ttl s - time_Millisecond) :
  r0 = Ok tt ∧ r1 = Ok false ∧ r2 = Ok true ∧ r3 = Ok false ∧
  (∀ k, k ≠ email_code_key s email → redis_entry (w_redis w3) k = redis_entry (w_redis w) k).
Proof.
  pose proof (Set_run s email code w (Hf 0%nat ltac:(lia)) Httl) as S0. rewrite H0 in S0.
  destruct S0 as (-> & Hs0 & (d & He & Hd) & Hfr0).
  pose proof (Consume_run s email wrong w0) as S1. rewrite H1, Hs0 in S1.
  destruct (S1 (Hf 1%nat ltac:(lia))) as (-> & Hs1 & _ & Hl1 & Hfr1). clear S1.
  pose proof (Consume_run s email code w1) as S2. rewrite H2, Hs1 in S2.
  destruct (S2 (Hf 2%nat ltac:(lia))) as (-> & Hs2 & Hg2 & _ & Hfr2). clear S2.
  pose proof (Consume_run s email code w2) as S3. rewrite H3, Hs2 in S3.
  destruct (S3 (Hf 3%nat ltac:(lia))) as (-> & Hs3 & _ & _ & Hfr3). clear S3.
  assert (∀ w', (w_step w' ≤ w_step w3)%nat →
    redis_live (w_now w') (Some (code, Some d)) = Some code) as Hlive.
  { intros w' Hle%w_now_le. simpl. by rewrite (proj2 (Z.ltb_lt _ _)) by lia. }
  rewrite He, (Hlive w0) in Hl1 |- * by lia. rewrite Hl1 in Hg2 |- * by congruence.
  rewrite He, (Hlive w1) in Hg2 |- * by lia. rewrite Hg2 by done. simpl.
  rewrite bool_decide_eq_false_2 by congruence. rewrite bool_decide_eq_true_2 by done.
  do 4 (split; [done|]). intros k Hk. by rewrite Hfr3, Hfr2, Hfr1, Hfr0.
Qed.
End properties.

(** ** Closed instances *)

Section instances.
#[local] Existing Instance calm.

Definition sample_code_store : redisEmailCodeStore :=
  mkRedisEmailCodeStore (10 * time_Minute) "identra:email_code:".

Lemma email_code_lifecycle_witness :
  let w0 := (run (Set_ sample_code_store "a@b.c" "042137") calm_world).2 in
  let w1 := (run (Consume sample_code_store "a@b.c" "000000") w0).2 in
  let w2 := (run (Consume sample_code_store "a@b.c" "042137") w1).2 in
  (run (Consume sample_code_store "a@b.c" "042137") w2).1 = Ok false.
Proof.
  intros w0 w1 w2.
  refine (proj1 (proj2 (proj2 (proj2 (email_code_lifecycle sample_code_store "a@b.c" "042137" "000000"
    calm_world _ w0 _ w1 _ w2 _ _ eq_refl _ (λ _ _, eq_refl)
    (surjective_pairing _) (surjective_pairing _) (surjective_pairing _) (surjective_pairing _) _))))).
  - discriminate.
  - by vm_compute.
Defined.
End instances.
