(* ===== verification/OAuthStates.v ===== *)
(** * OAuth states, internal/oauth/state_store.go and
    internal/cache/redis_oauth_state_store.go

    The in-memory store, the Redis store and the adapter of
    internal/app/oauth.go.  [OneShotStates] is what the login handler relies on:
    a state is handed out at most once.  Both stores provide it. *)

From S2P Require Import Prelude GoStrings Prog Data Platform RefPlatform KeyManager World Tokens.
From S2P Require Import Interfaces.
#[local] Open Scope Z_scope.

(** ** In memory *)

Section memory.
Context `{P : Platform}.

(** The store's ttl; its values are [w_oauth_mem]. *)
Definition NewInMemoryStateStore (ttl : Z) : Z := if ttl <=? 0 then time_Minute else ttl.

Definition cleanupLocked (now : Z) (values : gmap string State) : gmap string State :=
  filter (λ kv, ¬ st_ExpiresAt kv.2 < now) values.

(** A method that holds the mutex and reads the clock twice. *)
Definition mem_call {B} (f : Z → Z → gmap string State → B * gmap string State) : M B :=
  act (λ w, let '(r, m) := f (w_now w) (w_now (tick w)) (w_oauth_mem w) in
            (r, tick (tick (set_oauth_mem m w)))).

Definition mem_Add (ttl : Z) (state provider redirectURL : string) : M (result unit) :=
  mem_call (λ now1 now2 values,
    (Ok tt, <[state := mkState provider redirectURL (now2 + ttl)]> (cleanupLocked now1 values))).

Definition mem_Consume (state : string) : M (result (option State)) :=
  mem_call (λ now1 now2 values,
    let values := cleanupLocked now1 values in
    match values !! state with
    | None => (Ok None, values)
    | Some value =>
        let values := delete state values in
        if st_ExpiresAt value <? now2 then (Ok None, values) else (Ok (Some value), values)
    end).
End memory.

(** ** In Redis *)

Section redis.
Context `{P : Platform}.

Record redisOAuthStateStore := mkRedisOAuthStateStore { ros_ttl : Z; ros_prefix : string }.

Definition NewRedisOAuthStateStore (ttl : Z) (rdb : bool) : result redisOAuthStateStore :=
  let ttl := if ttl <=? 0 then time_Minute else ttl in
  if negb rdb then Err (errors_New "redis client is required for oauth state store")
  else Ok (mkRedisOAuthStateStore ttl "identra:oauth_state:").

Definition oauth_state_key (s : redisOAuthStateStore) (state : string) : string :=
  ros_prefix s +:+ state.

Definition redis_Add (s : redisOAuthStateStore) (state provider redirectURL : string)
    : M (result unit) :=
  let val := json_Marshal_state (mkOAuthState provider redirectURL) in
  redis_call (λ t st, (Ok tt, redis_SET t (oauth_state_key s state) val (ros_ttl s) st)).

(** The script returns nil, which the client turns into the error redis.Nil. *)
Definition consumeStateScript (key : string) (t : Z) (s : rstate) : result string * rstate :=
  match redis_GET t key s with
  | None => (Err goredis_Nil, s)
  | Some v => (Ok v, redis_DEL t key s)
  end.

Definition redis_Consume (s : redisOAuthStateStore) (state : string)
    : M (result (option State)) :=
  try res := redis_call (consumeStateScript (oauth_state_key s state)) catch (λ err,
    if errors_Is err goredis_Nil then Ret (Ok None) else Ret (Err err)) in
  match json_Unmarshal_state res with
  | Err err => Ret (Err err)
  | Ok val => Ret (Ok (Some (mkState (os_Provider val) (os_RedirectURL val) time_zero)))
  end.

Lemma redis_Add_only s a p r : guarantees (redis_only (ros_prefix s)) (redis_Add s a p r).
Proof.
  apply redis_call_only. intros t st k Hk. simpl. rewrite redis_SET_spec. apply decide_False.
  intros <-. unfold oauth_state_key in Hk. by rewrite HasPrefix_app in Hk.
Qed.

Lemma redis_Consume_only s a : guarantees (redis_only (ros_prefix s)) (redis_Consume s a).
Proof.
  apply guarantees_catch; [|intros e; case_match; constructor|intros v; case_match; constructor].
  apply redis_call_only. intros t st k Hk. unfold consumeStateScript.
  destruct (redis_GET _ _ _); [|done]. simpl. rewrite redis_DEL_spec. apply decide_False.
  intros <-. unfold oauth_state_key in Hk. by rewrite HasPrefix_app in Hk.
Qed.
End redis.

(** ** internal/app/oauth.go *)

Section adapter.
Context `{P : Platform}.

Definition adapter_Consume (consume : string → M (result (option State))) (state : string)
    : M (result (option OAuthState)) :=
  try data := consume state in
  Ret (Ok ((λ d, mkOAuthState (st_Provider d) (st_RedirectURL d)) <$> data)).

Definition memory_states (ttl : Z) : OAuthStateStore :=
  mkOAuthStateStore (mem_Add ttl) (adapter_Consume mem_Consume).

Definition redis_states (s : redisOAuthStateStore) : OAuthStateStore :=
  mkOAuthStateStore (redis_Add s) (adapter_Consume (redis_Consume s)).
End adapter.

(** ** The promise *)

Class OneShotStates `{P : Platform} (st : OAuthStateStore) := {
  (* the store does not hold the state *)
  state_gone : string → World → Prop;
  (* only an answer that carries the state takes it *)
  Consume_claims {A} (won : A → Prop) state (f : result (option OAuthState) → prog World A) :
    (∀ r, guarantees (keeps_gone (state_gone state)) (f r)) →
    (∀ r, (∀ d, r ≠ Ok (Some d)) → claims (state_gone state) won (f r)) →
    claims (state_gone state) won (oss_Consume st state ≫= f);
  (* nothing but Add with that state brings it back *)
  state_gone_frame state w w' :
    w_redis w' = w_redis w → w_oauth_mem w' = w_oauth_mem w →
    state_gone state w → state_gone state w';
  (* states are not in the database *)
  Consume_db state : guarantees db_same (oss_Consume st state);
}.

Section promise.
Context `{P : Platform}.

#[export] Instance memory_one_shot ttl : OneShotStates (memory_states ttl).
Proof.
  apply (Build_OneShotStates _ (memory_states ttl) (λ state w, w_oauth_mem w !! state = None)).
  - intros A won state f Hq Hl. simpl. unfold adapter_Consume, prog_try, prog_catch, mem_Consume,
      mem_call, act, mbind, prog_mbind. cbn [prog_bind].
    apply claims_act; intros w.
    + intros Hw. assert (cleanupLocked (w_now w) (w_oauth_mem w) !! state = None) as ->.
      { apply map_lookup_filter_None. by left. }
      simpl. apply map_lookup_filter_None. by left.
    + destruct (cleanupLocked (w_now w) (w_oauth_mem w) !! state) as [v|] eqn:Hv; simpl.
      2: { left. by apply Hl. }
      destruct (_ <? _); simpl; [left; by apply Hl|]. right.
      apply map_lookup_filter_Some in Hv as [Hv _]. split; [by rewrite Hv|]. split; [|apply Hq].
      apply lookup_delete_eq.
  - intros state w w' _ Hm. by rewrite Hm.
  - intros state. apply guarantees_try; [|intros ?; constructor]. apply guarantees_op. intros w.
    simpl. by repeat case_match.
Defined.

Lemma consumeStateScript_spec key t s :
  let '(r, s') := consumeStateScript key t s in
  (∃ v, r = Ok v ∧ redis_live t (redis_entry s key) = Some v ∧ redis_entry s' key = None) ∨
  (r = Err goredis_Nil ∧ redis_live t (redis_entry s key) = None ∧ s' = s).
Proof.
  unfold consumeStateScript. rewrite redis_GET_spec.
  destruct (redis_live t (redis_entry s key)) as [v|]; [left|by right].
  exists v. by rewrite redis_DEL_spec, decide_True.
Qed.

#[export] Instance redis_one_shot s : OneShotStates (redis_states s).
Proof.
  apply (Build_OneShotStates _ (redis_states s)
    (λ state w, redis_entry (w_redis w) (oauth_state_key s state) = None)).
  - intros A won state f Hq Hl. simpl. unfold adapter_Consume, prog_try, prog_catch, redis_Consume,
      prog_catch, redis_call, act, mbind, prog_mbind. cbn [prog_bind].
    set (key := oauth_state_key s state).
    apply claims_act; intros w;
      pose proof (consumeStateScript_spec key (w_now w) (w_redis w)) as Hs;
      destruct (consumeStateScript _ _ _) as [r s']; simpl in *.
    + intros Hw. unfold with_fault.
      assert (redis_entry s' key = None) by (destruct Hs as [(?&?&?&?)|(_&_&->)]; done).
      by destruct (env_fault _) as [[m []]|].
    + unfold with_fault. destruct (env_fault (w_step w)) as [[m ?]|]; simpl.
      { left. by apply Hl. }
      destruct Hs as [(v & -> & Hlive & Hgone)|(-> & _ & _)]; simpl.
      * destruct (json_Unmarshal_state v) as [d|e]; simpl; [|left; by apply Hl].
        right. split; [|split; [done|apply Hq]]. intros Hn. by rewrite Hn in Hlive.
      * left. by apply Hl.
  - intros state w w' Hr _. by rewrite Hr.
  - intros state. apply guarantees_try; [|intros ?; constructor].
    apply guarantees_catch; [apply redis_call_db| |]; intros ?; case_match; constructor.
Defined.
End promise.

(** ** Properties *)

Section properties.
Context `{P : Platform}.

(** The in-memory store.  A state that was added is consumed exactly once
    with what it was added with until its time to live is over, whatever other
    states are added or consumed in the meantime; it is never handed out later. *)
Theorem memory_state_lifecycle ttl state provider redirect w w1 w2 r
    (Hadd : run (mem_Add ttl state provider redirect) w = (Ok tt, w1))
    (Hkept : w_oauth_mem w2 !! state = w_oauth_mem w1 !! state)
    (Hlater : (w_step w1 ≤ w_step w2)%nat)
    (Hr : run (mem_Consume state) w2 = r) :
  let deadline := w_now (tick w) + ttl in
  (w_now (tick w2) ≤ deadline → r.1 = Ok (Some (mkState provider redirect deadline))) ∧
  (deadline < w_now (tick w2) → r.1 = Ok None) ∧
  w_oauth_mem r.2 !! state = None ∧
  (∀ k v, k ≠ state → w_oauth_mem r.2 !! k = Some v → w_oauth_mem w2 !! k = Some v).
Proof.
  intros deadline. simpl in Hadd. injection Hadd as <-. simpl in Hkept.
  rewrite lookup_insert_eq in Hkept. fold deadline in Hkept. subst r. simpl.
  pose proof (w_now_tick w2) as Hnow.
  destruct (cleanupLocked (w_now w2) (w_oauth_mem w2) !! state) as [v|] eqn:Hv.
  - apply map_lookup_filter_Some in Hv as [Hv Hexp]. rewrite Hkept in Hv. simplify_eq. simpl in *.
    destruct (Z.ltb_spec deadline (w_now (tick w2))); simpl; (split; [intros; done || lia|]);
      (split; [intros; done || lia|]); (split; [apply lookup_delete_eq|]);
      intros k v' Hk [_ Hl]%lookup_delete_Some; by apply map_lookup_filter_Some in Hl as [? _].
  - simpl. apply map_lookup_filter_None in Hv as [Hv|Hv]; [by rewrite Hkept in Hv|].
    specialize (Hv _ Hkept). simpl in Hv.
    split; [lia|]. split; [done|]. split.
    + apply map_lookup_filter_None. right. intros x Hx. rewrite Hkept in Hx. by simplify_eq.
    + intros k v' Hk Hl. by apply map_lookup_filter_Some in Hl as [? _].
Qed.

(** The Redis store.  Without faults, a state that was added is consumed
    once, with the provider and the redirect URL it was added with, until its
    time to live (to the millisecond); then it is gone. *)
Theorem redis_state_lifecycle s state provider redirect w w1 w2
    (Httl : 0 < ros_ttl s) (Hp : json_safe provider) (Hu : json_safe redirect)
    (Hf1 : env_fault (w_step w) = None) (Hf2 : env_fault (w_step w2) = None)
    (Hadd : run (redis_Add s state provider redirect) w = (Ok tt, w1))
    (Hkept : redis_entry (w_redis w2) (oauth_state_key s state) =
             redis_entry (w_redis w1) (oauth_state_key s state)) :
  let '(r, w3) := run (redis_Consume s state) w2 in
  (w_now w2 < w_now w + ros_ttl s - time_Millisecond →
     r = Ok (Some (mkState provider redirect time_zero)) ∧
     redis_entry (w_redis w3) (oauth_state_key s state) = None) ∧
  (w_now w + ros_ttl s + time_Millisecond ≤ w_now w2 → r = Ok None).
Proof.
  unfold redis_Add in Hadd. rewrite redis_call_ok in Hadd by done. injection Hadd as <-.
  simpl in Hkept. rewrite redis_SET_spec, decide_True in Hkept by done.
  pose proof (redis_deadline_bounds (w_now w) (ros_ttl s) Httl) as Hd.
  unfold redis_Consume. rewrite run_catch, redis_call_ok by done.
  pose proof (consumeStateScript_spec (oauth_state_key s state) (w_now w2) (w_redis w2)) as Hs.
  destruct (consumeStateScript _ _ _) as [r s']. rewrite Hkept in Hs. simpl in Hs.
  destruct (Z.ltb_spec (w_now w2) (redis_deadline (w_now w) (ros_ttl s))).
  - destruct Hs as [(v & -> & [= <-] & Hgone)|(_ & ? & _)]; [|done]. simpl.
    rewrite json_state_roundtrip by done. simpl. split; [done|lia].
  - destruct Hs as [(v & _ & ? & _)|(-> & _ & ->)]; [done|]. simpl. split; [lia|done].
Qed.
End properties.

(** ** Closed instances *)

Section instances.
#[local] Existing Instance calm.

Lemma memory_state_lifecycle_witness :
  let w1 := (run (mem_Add time_Minute "st" "github" "https://a/cb") calm_world).2 in
  ∃ d, (run (mem_Consume "st") w1).1 = Ok (Some (mkState "github" "https://a/cb" d)).
Proof.
  intros w1. eexists.
  refine (proj1 (memory_state_lifecycle time_Minute "st" "github" "https://a/cb" calm_world w1 w1 _
    (surjective_pairing _) eq_refl (le_n _) eq_refl) _). by vm_compute.
Defined.

Lemma redis_state_lifecycle_witness :
  let s := mkRedisOAuthStateStore time_Minute "identra:oauth_state:" in
  let w1 := (run (redis_Add s "st" "github" "https://a/cb") calm_world).2 in
  (run (redis_Consume s "st") w1).1 = Ok (Some (mkState "github" "https://a/cb" time_zero)).
Proof.
  intros s w1.
  pose proof (redis_state_lifecycle s "st" "github" "https://a/cb" calm_world w1 w1 eq_refl eq_refl
    eq_refl eq_refl eq_refl (surjective_pairing _) eq_refl) as H.
  destruct (run (redis_Consume s "st") w1) as [r w3]. apply H. by vm_compute.
Defined.
End instances.
