(* ===== verification/SqliteStores.v ===== *)
(** * Users and external identities, internal/store/sqlite/store.go

    The two stores on top of the statements, their translation of driver errors,
    and what they promise: what was created can be found, what was deleted
    cannot, pages of a listing cover it. *)

From S2P Require Import Prelude GoStrings Prog Data Platform RefPlatform SqliteQueries KeyManager.
From S2P Require Import World Tokens Interfaces.
#[local] Open Scope Z_scope.

Section stores.
Context `{P : Platform}.

Definition wrapError (err : error) : error :=
  if errors_Is err sql_ErrNoRows then identra_ErrNotFound else
  if isUniqueConstraintError err then identra_ErrAlreadyExists else err.

#[global] Arguments wrapError : simpl never.

Lemma wrapError_unique c : wrapError (errors_New (sql_unique_error c)) = identra_ErrAlreadyExists.
Proof. unfold wrapError. rewrite errors_Is_New. simpl. by rewrite sql_unique_error_spec. Qed.

Lemma wrapError_fault i ft :
  env_fault i = Some ft → wrapError (errors_New (fault_msg ft)) = errors_New (fault_msg ft).
Proof.
  intros Hf. unfold wrapError. rewrite errors_Is_New. simpl. by rewrite (env_fault_not_unique _ _ Hf).
Qed.

Definition wrapped {A} (err : error) : M (result A) := Ret (Err (wrapError err)).

Definition userToDomain (user : User) : UserModel :=
  mkUserModel (u_ID user) (u_CreatedAt user) (u_UpdatedAt user) (u_Email user)
    (u_HashedPassword user) (u_Hash user) (u_LastLoginAt user).

Definition externalIdentityToDomain (identity : ExternalIdentity) : ExternalIdentityModel :=
  mkExternalIdentityModel (ei_ID identity) (ei_UserID identity) (ei_Provider identity)
    (ei_ProviderUserID identity) (ei_CreatedAt identity) (ei_UpdatedAt identity).

(** The identifier a model comes with, or a fresh one. *)
Definition given_or_new_id (given : string) : M string :=
  if (TrimSpace given == "")%go then uuid_NewString else Ret given.

(** ** UserStore *)

Definition users_Create (user : UserModel) : M (result UserModel) :=
  now ← time_Now;
  id ← given_or_new_id (um_ID user);
  let createdAt := if IsZero (um_CreatedAt user) then now else um_CreatedAt user in
  try _ := db_call (createUser id createdAt now (um_Email user) (um_HashedPassword user)
                      (um_VerificationHash user) (um_LastLoginAt user)) catch wrapped in
  Ret (Ok (mkUserModel id createdAt now (um_Email user) (um_HashedPassword user)
             (um_VerificationHash user) (um_LastLoginAt user))).

Definition users_GetByID (id : string) : M (result UserModel) :=
  try user := db_call (getUserByID id) catch wrapped in
  Ret (Ok (userToDomain user)).

Definition users_GetByEmail (email : string) : M (result UserModel) :=
  try user := db_call (getUserByEmail email) catch wrapped in
  Ret (Ok (userToDomain user)).

Definition users_Update (user : UserModel) : M (result UserModel) :=
  updatedAt ← time_Now;
  try rows := db_call (updateUser (um_Email user) (um_HashedPassword user)
                         (um_VerificationHash user) (um_LastLoginAt user) updatedAt
                         (um_ID user)) catch wrapped in
  if rows =? 0 then Ret (Err identra_ErrNotFound) else
  Ret (Ok (mkUserModel (um_ID user) (um_CreatedAt user) updatedAt (um_Email user)
             (um_HashedPassword user) (um_VerificationHash user) (um_LastLoginAt user))).

Definition users_Delete (id : string) : M (result unit) :=
  now ← time_Now;
  try rows := db_call (softDeleteUser (Some now) now id) catch wrapped in
  if rows =? 0 then Ret (Err identra_ErrNotFound) else Ret (Ok tt).

Definition users_SetPassword (id hashedPassword : string) : M (result unit) :=
  now ← time_Now;
  try rows := db_call (setUserPassword (Some hashedPassword) now id) catch wrapped in
  if rows =? 0 then Ret (Err identra_ErrNotFound) else Ret (Ok tt).

Definition users_List (offset limit : Z) : M (result (list UserModel)) :=
  let offset := if offset <? 0 then 0 else offset in
  let limit := if limit <=? 0 then -1 else limit in
  try users := db_query (listUsers offset limit) in
  Ret (Ok (userToDomain <$> users)).

Definition users_Count : M (result Z) := db_call countUsers.

Definition sqlite_users : UserStore :=
  mkUserStore users_Create users_GetByID users_GetByEmail users_Update users_SetPassword
    users_Delete users_List users_Count.

(** ** ExternalIdentityStore *)

Definition identities_Create (identity : ExternalIdentityModel)
    : M (result ExternalIdentityModel) :=
  now ← time_Now;
  id ← given_or_new_id (em_ID identity);
  let createdAt := if IsZero (em_CreatedAt identity) then now else em_CreatedAt identity in
  try _ := db_call (createExternalIdentity id (em_UserID identity) (em_Provider identity)
                      (em_ProviderUserID identity) createdAt now) catch wrapped in
  Ret (Ok (mkExternalIdentityModel id (em_UserID identity) (em_Provider identity)
             (em_ProviderUserID identity) createdAt now)).

Definition identities_GetByProviderID (provider providerUserID : string)
    : M (result ExternalIdentityModel) :=
  try identity := db_call (getExternalIdentityByProviderID provider providerUserID)
    catch wrapped in
  Ret (Ok (externalIdentityToDomain identity)).

Definition identities_GetByUserID (userID : string)
    : M (result (list ExternalIdentityModel)) :=
  try identities := db_query (listExternalIdentitiesByUserID userID) in
  Ret (Ok (externalIdentityToDomain <$> identities)).

Definition sqlite_identities : ExternalIdentityStore :=
  mkExternalIdentityStore identities_Create identities_GetByProviderID identities_GetByUserID.

(** NewStores. *)
Definition NewStores : UserStore * ExternalIdentityStore := (sqlite_users, sqlite_identities).

(** ** Effects

    A store call changes the database only, by statements. *)

Record db_effect (w w' : World) : Prop := mk_db_effect {
  de_only : db_only w w';
  de_grows : db_evolves (w_db w) (w_db w');
}.

#[export] Instance db_effect_preorder : PreOrder db_effect.
Proof.
  split; [by intros w; split|]. intros w1 w2 w3 [] []. split; by etrans.
Qed.
#[export] Instance db_effect_tick : TickClosed db_effect.
Proof. intros w. split; [apply tick_closed|reflexivity]. Qed.

Lemma statement_effect {B} (f : DB → result B * DB) :
  statement f → guarantees db_effect (db_call f).
Proof.
  intros Hf. apply db_call_guarantees; [apply _|]. intros w. split; [by split; simpl; auto|apply Hf].
Qed.

Lemma query_clock {B} (f : nat → DB → result B) : guarantees clock_only (db_query f).
Proof.
  apply guarantees_op. intros w. unfold with_fault.
  by destruct (env_fault _) as [[m []]|]; apply tick_closed.
Qed.

Lemma read_clock {B} (f : DB → result B) : guarantees clock_only (db_call (λ d, (f d, d))).
Proof.
  apply db_call_guarantees; [apply _|]. intros w. simpl. rewrite set_db_id. apply tick_closed.
Qed.

Lemma clock_only_effect w w' : clock_only w w' → db_effect w w'.
Proof. intros H. split; [by split; apply H|]. by rewrite (co_db _ _ H). Qed.

Lemma clock_effect {A} (m : M A) : guarantees clock_only m → guarantees db_effect m.
Proof. apply guarantees_mono, clock_only_effect. Qed.

Lemma given_or_new_id_guarantees R `{!TickClosed R} id : guarantees R (given_or_new_id id).
Proof.
  unfold given_or_new_id. case_match; [by apply uuid_guarantees|apply guarantees_ret].
Qed.

(** ** The reads *)

Lemma users_GetByID_run id w :
  run (users_GetByID id) w =
    (match env_fault (w_step w) with
     | Some ft => Err (errors_New (fault_msg ft))
     | None => match find (live_with_id id) (db_users (w_db w)) with
               | Some u => Ok (userToDomain u)
               | None => Err identra_ErrNotFound
               end
     end, tick w).
Proof.
  unfold users_GetByID. rewrite run_catch. unfold getUserByID. rewrite db_read_run.
  destruct (env_fault (w_step w)) as [ft|] eqn:Hf.
  - unfold wrapped; simpl. by rewrite (wrapError_fault _ _ Hf).
  - unfold query_row. by destruct (find _ _).
Qed.

Definition identity_of (provider providerUserID : string) (e : ExternalIdentity) : bool :=
  bool_decide (ei_Provider e = provider) && bool_decide (ei_ProviderUserID e = providerUserID) &&
  identity_live e.

Lemma identities_GetByProviderID_run provider id w :
  run (identities_GetByProviderID provider id) w =
    (match env_fault (w_step w) with
     | Some ft => Err (errors_New (fault_msg ft))
     | None => match find (identity_of provider id) (db_external_identities (w_db w)) with
               | Some e => Ok (externalIdentityToDomain e)
               | None => Err identra_ErrNotFound
               end
     end, tick w).
Proof.
  unfold identities_GetByProviderID. rewrite run_catch. unfold getExternalIdentityByProviderID.
  rewrite db_read_run. destruct (env_fault (w_step w)) as [ft|] eqn:Hf.
  - unfold wrapped; simpl. by rewrite (wrapError_fault _ _ Hf).
  - unfold query_row. fold (identity_of provider id). by destruct (find _ _).
Qed.

Lemma users_GetByEmail_run email w :
  run (users_GetByEmail email) w =
    (match env_fault (w_step w) with
     | Some ft => Err (errors_New (fault_msg ft))
     | None => match find (live_with_email email) (db_users (w_db w)) with
               | Some u => Ok (userToDomain u)
               | None => Err identra_ErrNotFound
               end
     end, tick w).
Proof.
  unfold users_GetByEmail. rewrite run_catch. unfold getUserByEmail. rewrite db_read_run.
  destruct (env_fault (w_step w)) as [ft|] eqn:Hf.
  - unfold wrapped; simpl. by rewrite (wrapError_fault _ _ Hf).
  - unfold query_row. by destruct (find _ _).
Qed.
End stores.

#[export] Hint Resolve given_or_new_id_guarantees statement_effect read_clock query_clock : go.

Section effects.
Context `{P : Platform}.

#[local] Ltac effect := unfold wrapped; guarantees_tac.

Lemma users_Create_effect u : guarantees db_effect (users_Create u).
Proof. unfold users_Create. effect. Qed.
Lemma users_Update_effect u : guarantees db_effect (users_Update u).
Proof. unfold users_Update. effect. Qed.
Lemma users_Delete_effect id : guarantees db_effect (users_Delete id).
Proof. unfold users_Delete. effect. Qed.
Lemma users_SetPassword_effect id h : guarantees db_effect (users_SetPassword id h).
Proof. unfold users_SetPassword. effect. Qed.
Lemma identities_Create_effect i : guarantees db_effect (identities_Create i).
Proof. unfold identities_Create. effect. Qed.

Lemma users_GetByID_clock id : guarantees clock_only (users_GetByID id).
Proof. unfold users_GetByID, getUserByID. effect. Qed.
Lemma users_GetByEmail_clock e : guarantees clock_only (users_GetByEmail e).
Proof. unfold users_GetByEmail, getUserByEmail. effect. Qed.
Lemma users_List_clock o l : guarantees clock_only (users_List o l).
Proof. unfold users_List. effect. Qed.
Lemma users_Count_clock : guarantees clock_only users_Count.
Proof. unfold users_Count, countUsers. effect. Qed.
Lemma identities_GetByProviderID_clock p u : guarantees clock_only (identities_GetByProviderID p u).
Proof. unfold identities_GetByProviderID, getExternalIdentityByProviderID. effect. Qed.
Lemma identities_GetByUserID_clock u : guarantees clock_only (identities_GetByUserID u).
Proof. unfold identities_GetByUserID. effect. Qed.

(** ** Lookups in a well-formed database *)

Lemma find_live_id d u :
  db_ok d → u ∈ db_users d → user_live u = true →
  find (live_with_id (u_ID u)) (db_users d) = Some u.
Proof.
  intros Hd Hu Hl. apply find_unique; [done| |].
  - unfold live_with_id. by rewrite bool_decide_eq_true_2, Hl.
  - intros v Hv [Hid%bool_decide_eq_true _]%andb_true_iff.
    by apply (NoDup_fmap_inj u_ID (db_users d)); [apply Hd|..].
Qed.

Lemma find_live_email d u :
  db_ok d → u ∈ db_users d → user_live u = true →
  find (live_with_email (u_Email u)) (db_users d) = Some u.
Proof.
  intros Hd Hu Hl. apply find_unique; [done| |].
  - unfold live_with_email. by rewrite bool_decide_eq_true_2, Hl.
  - intros v Hv [Hid%bool_decide_eq_true _]%andb_true_iff.
    by apply (NoDup_fmap_inj u_Email (db_users d)); [apply Hd|..].
Qed.

(** A row of a table is still there, as what [R] allows. *)
Lemma rows_le_elem {A} (R : relation A) l l' x :
  rows_le R l l' → x ∈ l → ∃ y, y ∈ l' ∧ R x y.
Proof.
  intros (k & Hk & r & ->) Hx. apply list_elem_of_lookup in Hx as [i Hi].
  destruct (Forall2_lookup_l _ _ _ _ _ Hk Hi) as (y & Hy & HR).
  exists y. split; [|done]. apply elem_of_app. left. by eapply list_elem_of_lookup_2.
Qed.

(** ** What Create and Delete do *)

Lemma users_Create_inv u w m w' :
  run (users_Create u) w = (Ok m, w') →
  ∃ row, w_db w' = set_users (db_users (w_db w) ++ [row]) (w_db w) ∧
    userToDomain row = m ∧ user_live row = true ∧
    um_Email m = um_Email u ∧ um_HashedPassword m = um_HashedPassword u ∧
    um_LastLoginAt m = um_LastLoginAt u ∧
    (∀ x, x ∈ db_users (w_db w) → u_ID x ≠ u_ID row ∧ u_Email x ≠ u_Email row).
Proof.
  unfold users_Create. rewrite run_mbind. cbn [run time_Now act]. rewrite run_mbind.
  destruct (run (given_or_new_id (um_ID u)) (tick w)) as [id w1] eqn:Hid.
  assert (w_db w1 = w_db w) as Hdb.
  { unfold given_or_new_id in Hid. case_match; simpl in Hid; by simplify_eq. }
  rewrite run_catch. destruct (run (db_call _) w1) as [[[]|] w2] eqn:Hc; [|done].
  apply db_call_Ok_inv in Hc as (d & Hc & ->). intros [= <- <-]. simpl. rewrite Hdb in Hc.
  unfold createUser in Hc. destruct (existsb _ _) eqn:E1 in Hc; [done|].
  destruct (existsb _ _) eqn:E2 in Hc; [done|]. injection Hc as <-.
  eexists. split; [done|]. split_and!; try done. intros x Hx. simpl.
  rewrite existsb_false in E1, E2. specialize (E1 x Hx). specialize (E2 x Hx).
  by apply bool_decide_eq_false in E1, E2.
Qed.

Lemma identities_Create_inv i w m w' :
  run (identities_Create i) w = (Ok m, w') →
  ∃ row, w_db w' = set_external_identities (db_external_identities (w_db w) ++ [row]) (w_db w) ∧
    externalIdentityToDomain row = m ∧
    identity_of (em_Provider i) (em_ProviderUserID i) row = true ∧ ei_UserID row = em_UserID i.
Proof.
  unfold identities_Create. rewrite run_mbind. cbn [run time_Now act]. rewrite run_mbind.
  destruct (run (given_or_new_id (em_ID i)) (tick w)) as [id w1] eqn:Hid.
  assert (w_db w1 = w_db w) as Hdb.
  { unfold given_or_new_id in Hid. case_match; simpl in Hid; by simplify_eq. }
  rewrite run_catch. destruct (run (db_call _) w1) as [[[]|] w2] eqn:Hc; [|done].
  apply db_call_Ok_inv in Hc as (d & Hc & ->). intros [= <- <-]. simpl. rewrite Hdb in Hc.
  unfold createExternalIdentity in Hc. repeat (destruct (existsb _ _) eqn:? in Hc; try done).
  injection Hc as <-. eexists. split; [done|]. unfold identity_of. simpl.
  by rewrite !bool_decide_eq_true_2.
Qed.

(** Identities are created without a word to the users table. *)
Definition users_same (w w' : World) : Prop := db_users (w_db w') = db_users (w_db w).

#[export] Instance users_same_preorder : PreOrder users_same.
Proof. split; [by intros w|]. unfold users_same. intros w1 w2 w3. congruence. Qed.
#[export] Instance users_same_tick : TickClosed users_same.
Proof. by intros w. Qed.

Lemma identities_Create_users i : guarantees users_same (identities_Create i).
Proof.
  unfold identities_Create. apply guarantees_mbind; [apply time_Now_guarantees, _|]. intros now.
  apply guarantees_mbind; [apply given_or_new_id_guarantees, _|]. intros id.
  apply guarantees_catch; [|intros e; constructor|intros _; constructor].
  apply db_call_guarantees; [apply _|]. intros w. unfold createExternalIdentity.
  by repeat case_match.
Qed.

Lemma users_Update_inv u w m w' :
  run (users_Update u) w = (Ok m, w') →
  um_ID m = um_ID u ∧ ∃ v now, v ∈ db_users (w_db w) ∧ live_with_id (um_ID u) v = true ∧
    w_db w' = set_users (map_if (live_with_id (um_ID u))
      (λ v, mkUser (u_ID v) (u_CreatedAt v) now (u_DeletedAt v) (um_Email u)
              (um_HashedPassword u) (um_VerificationHash u) (um_LastLoginAt u))
      (db_users (w_db w))) (w_db w).
Proof.
  unfold users_Update. rewrite run_mbind. cbn [run time_Now act]. rewrite run_catch.
  destruct (run (db_call _) (tick w)) as [[n|] w2] eqn:Hc; [|done].
  apply db_call_Ok_inv in Hc as (d & Hc & ->). unfold updateUser in Hc. simpl in Hc.
  destruct (Z.eqb_spec n 0) as [|Hn]; [done|]. intros [= <- <-]. split; [done|].
  destruct ((0 <? _) && _); [done|]. injection Hc as Hlen <-.
  assert (existsb (live_with_id (um_ID u)) (db_users (w_db w)) = true) as Hex
    by (apply filter_pos; simpl in *; lia).
  apply existsb_true in Hex as (v & Hv & Hl). by exists v, (w_now w).
Qed.

Lemma users_Delete_inv id w w' :
  run (users_Delete id) w = (Ok tt, w') →
  ∃ u now, u ∈ db_users (w_db w) ∧ live_with_id id u = true ∧
    db_users (w_db w') = map_if (live_with_id id)
      (λ u, mkUser (u_ID u) (u_CreatedAt u) now (Some now) (u_Email u)
              (u_HashedPassword u) (u_Hash u) (u_LastLoginAt u)) (db_users (w_db w)).
Proof.
  unfold users_Delete. rewrite run_mbind. cbn [run time_Now act]. rewrite run_catch.
  destruct (run (db_call _) (tick w)) as [[n|] w2] eqn:Hc; [|done].
  apply db_call_Ok_inv in Hc as (d & Hc & ->). simpl in Hc. injection Hc as Hn <-.
  destruct (Z.eqb_spec n 0); [done|]. intros [= <-].
  assert (existsb (live_with_id id) (db_users (w_db w)) = true) as Hex
    by (apply filter_pos; simpl in Hn; lia).
  apply existsb_true in Hex as (u & Hu & Hl). exists u, (w_now w). done.
Qed.
Lemma users_SetPassword_inv id hash w w' :
  run (users_SetPassword id hash) w = (Ok tt, w') →
  ∃ u now, u ∈ db_users (w_db w) ∧ live_with_id id u = true ∧
    w_db w' = set_users (map_if (live_with_id id)
      (λ u, mkUser (u_ID u) (u_CreatedAt u) now (u_DeletedAt u) (u_Email u)
              (Some hash) (u_Hash u) (u_LastLoginAt u)) (db_users (w_db w))) (w_db w).
Proof.
  unfold users_SetPassword. rewrite run_mbind. cbn [run time_Now act]. rewrite run_catch.
  destruct (run (db_call _) (tick w)) as [[n|] w2] eqn:Hc; [|done].
  apply db_call_Ok_inv in Hc as (d & Hc & ->). simpl in Hc. injection Hc as Hn <-.
  destruct (Z.eqb_spec n 0); [done|]. intros [= <-].
  assert (existsb (live_with_id id) (db_users (w_db w)) = true) as Hex
    by (apply filter_pos; simpl in Hn; lia).
  apply existsb_true in Hex as (u & Hu & Hl). by exists u, (w_now w).
Qed.
End effects.

(** ** Deleted users *)

Section deleted.
Context `{P : Platform}.

(** The row a deletion leaves. *)
Definition tombstone (u : User) (now : Z) : User :=
  mkUser (u_ID u) (u_CreatedAt u) now (Some now) (u_Email u) (u_HashedPassword u) (u_Hash u)
    (u_LastLoginAt u).

(** It is in every later database. *)
Lemma deleted_row id u w w1 d2 :
  db_ok (w_db w) → u ∈ db_users (w_db w) → live_with_id id u = true →
  run (users_Delete id) w = (Ok tt, w1) → db_evolves (w_db w1) d2 →
  ∃ now, tombstone u now ∈ db_users d2 ∧ db_ok d2.
Proof.
  intros Hok Hu Hid Hdel [Hle Hok2].
  pose proof (guarantees_run _ _ w (users_Delete_effect id)) as [_ [_ Hok1]].
  rewrite Hdel in Hok1. destruct (users_Delete_inv _ _ _ Hdel) as (u0 & now & _ & _ & Husers).
  exists now. split; [|by apply Hok2, Hok1].
  assert (tombstone u now ∈ db_users (w_db w1)) as Hv1.
  { rewrite Husers. apply elem_of_map_if. exists u. by rewrite Hid. }
  destruct (rows_le_elem _ _ _ _ (le_users _ _ Hle) Hv1) as (v' & Hv' & _ & _ & Hfr).
  by rewrite (Hfr eq_refl) in Hv'.
Qed.

(** And hides its identifier and its email from the lookups. *)
Lemma tombstone_hides d v :
  db_ok d → v ∈ db_users d → user_live v = false →
  find (live_with_id (u_ID v)) (db_users d) = None ∧
  find (live_with_email (u_Email v)) (db_users d) = None.
Proof.
  intros Hok Hv Hd.
  assert (∀ p, (∀ x, p x = true → user_live x = true) →
    (∀ x, x ∈ db_users d → p x = true → x = v) → find p (db_users d) = None) as Hnone.
  { intros p Hp Hpv. destruct (find p (db_users d)) as [x|] eqn:Hx; [|done].
    apply find_Some_elem in Hx as [Hx Hpx]. pose proof (Hp x Hpx) as Hlx.
    rewrite (Hpv x Hx Hpx) in Hlx. congruence. }
  split; apply Hnone; try (by intros x [_ ?]%andb_true_iff);
    intros x Hx [He%bool_decide_eq_true _]%andb_true_iff.
  - by apply (NoDup_fmap_inj u_ID (db_users d)); [apply Hok|..].
  - by apply (NoDup_fmap_inj u_Email (db_users d)); [apply Hok|..].
Qed.
End deleted.

#[export] Hint Resolve users_Create_effect users_Update_effect users_Delete_effect
  users_SetPassword_effect identities_Create_effect users_GetByID_clock users_GetByEmail_clock
  users_List_clock users_Count_clock identities_GetByProviderID_clock
  identities_GetByUserID_clock clock_effect : go.

(** ** Properties *)

Section properties.
Context `{P : Platform}.

(** A user that was created is found again: whatever the server does
    afterwards, as long as the row is not deleted and its email not changed,
    GetByID and GetByEmail answer a user with the identifier, and in the very
    database Create left they answer exactly the model Create returned. *)
Theorem create_then_get u w m w1 w2
    (Hok : db_ok (w_db w)) (Hrun : run (users_Create u) w = (Ok m, w1))
    (Hw2 : w_db w2 = w_db w1) (Hf : env_fault (w_step w2) = None) :
  db_ok (w_db w1) ∧
  run (users_GetByID (um_ID m)) w2 = (Ok m, tick w2) ∧
  run (users_GetByEmail (um_Email u)) w2 = (Ok m, tick w2).
Proof.
  assert (db_ok (w_db w1)) as Hok1.
  { pose proof (guarantees_run _ _ w (users_Create_effect u)) as [_ [_ H]].
    rewrite Hrun in H. by apply H. }
  destruct (users_Create_inv _ _ _ _ Hrun) as (row & Hdb & <- & Hlive & <- & _).
  assert (row ∈ db_users (w_db w2)) as Hin.
  { rewrite Hw2, Hdb. simpl. apply elem_of_app. right. by left. }
  rewrite users_GetByID_run, users_GetByEmail_run, Hf, Hw2. split; [done|]. rewrite Hw2 in Hin.
  simpl. by rewrite (find_live_id _ _ Hok1 Hin Hlive), (find_live_email _ _ Hok1 Hin Hlive).
Qed.

(** Deleting a user is soft but final.  From then on, in every database
    the server can reach, lookups by the user's identifier or email do not
    answer the user, and the email stays reserved: no user can be created with
    it again, the answer being ErrAlreadyExists. *)
Theorem deleted_user_is_gone_for_good id u w w1 w2
    (Hok : db_ok (w_db w)) (Hu : u ∈ db_users (w_db w)) (Hid : live_with_id id u = true)
    (Hdel : run (users_Delete id) w = (Ok tt, w1))
    (Hreach : db_evolves (w_db w1) (w_db w2)) (Hf : ∀ i, env_fault (i + w_step w2) = None) :
  (run (users_GetByID id) w2).1 = Err identra_ErrNotFound ∧
  (run (users_GetByEmail (u_Email u)) w2).1 = Err identra_ErrNotFound ∧
  (∀ m, um_Email m = u_Email u → (run (users_Create m) w2).1 = Err identra_ErrAlreadyExists).
Proof.
  destruct (deleted_row id u w w1 (w_db w2) Hok Hu Hid Hdel Hreach) as (now & Hv & Hok2).
  set (v := tombstone u now) in Hv. destruct (tombstone_hides (w_db w2) v Hok2 Hv eq_refl) as [Hnid Hnem].
  apply andb_true_iff in Hid as [<-%bool_decide_eq_true _].
  rewrite users_GetByID_run, users_GetByEmail_run, (Hf 0%nat : env_fault (w_step w2) = None).
  change (u_ID u) with (u_ID v). change (u_Email u) with (u_Email v). rewrite Hnid, Hnem.
  split; [done|]. split; [done|]. intros m Hm.
  unfold users_Create. rewrite run_mbind. cbn [run time_Now act]. rewrite run_mbind.
  assert (∃ nid k, run (given_or_new_id (um_ID m)) (tick w2) = (nid, set_step (k + w_step w2) w2))
    as (nid & k & ->).
  { unfold given_or_new_id. case_match.
    - by exists (env_uuid (w_step (tick w2))), 2%nat.
    - by exists (um_ID m), 1%nat. }
  rewrite run_catch, db_call_ok by apply Hf. simpl. unfold createUser.
  rewrite Hm. replace (existsb (λ u0, bool_decide (u_Email u0 = u_Email u)) _) with true.
  - unfold wrapped. destruct (existsb _ _); simpl; by rewrite wrapError_unique.
  - symmetry. apply existsb_true. exists v. split; [done|]. by apply bool_decide_eq_true.
Qed.
End properties.

(** ** Closed instances *)

Section instances.
#[local] Existing Instance calm.

Definition alice : UserModel := mkUserModel "" time_zero time_zero "alice@example.com" None None None.

Definition with_alice : World := (run (users_Create alice) calm_world).2.
Definition alice_row : User :=
  mkUser "uuid-1" (w_now calm_world) (w_now calm_world) None "alice@example.com" None None None.

Lemma empty_db_ok : db_ok empty_db.
Proof. split; simpl; constructor. Qed.

Lemma with_alice_ok : db_ok (w_db with_alice).
Proof. exact (proj2 (de_grows _ _ (guarantees_run _ _ calm_world (users_Create_effect alice))) empty_db_ok). Qed.

Lemma create_then_get_witness :
  ∃ m, run (users_Create alice) calm_world = (Ok m, with_alice) ∧
       (run (users_GetByEmail "alice@example.com") with_alice).1 = Ok m.
Proof.
  eexists. split; [reflexivity|].
  destruct (create_then_get alice calm_world _ with_alice with_alice empty_db_ok eq_refl eq_refl eq_refl)
    as (_ & _ & H).
  exact (f_equal fst H).
Defined.

Lemma deleted_user_is_gone_for_good_witness :
  (run (users_Create alice) (run (users_Delete "uuid-1") with_alice).2).1 =
    Err identra_ErrAlreadyExists.
Proof.
  refine (proj2 (proj2 (deleted_user_is_gone_for_good "uuid-1" alice_row with_alice _ _ _ _ eq_refl
    (surjective_pairing _) (reflexivity _) (λ _, eq_refl))) alice eq_refl).
  - exact with_alice_ok.
  - by left.
Defined.
End instances.
