(* ===== verification/ServiceAccount.v ===== *)
(** * Service-account credentials, internal/serviceaccount/bootstrap.go

    Creation of accounts and of their one-time credentials, authentication and
    rotation, against the interface of the account store. *)

From S2P Require Import Prelude GoStrings Prog Data Platform RefPlatform KeyManager World Tokens.
From S2P Require Import Interfaces.
From Stdlib Require Import Ascii.
#[local] Open Scope Z_scope.

Section serviceaccount.
Context `{P : Platform}.

Definition clientIDPrefix : string := "isa_".
Definition credentialIDPrefix : string := "iac_".
Definition clientSecretPrefix : string := "is_".

(** scopePattern: ^[a-zA-Z0-9][a-zA-Z0-9._:*/-]{0,127}$, on bytes: a match has
    no newline in it, so $ is the end of the text. *)
Definition alnum (c : ascii) : bool :=
  let n := byte_val c in
  ((48 <=? n) && (n <=? 57) || (65 <=? n) && (n <=? 90) || (97 <=? n) && (n <=? 122))%N.

Definition scope_char (c : ascii) : bool :=
  alnum c || bool_decide (c ∈ s2l "._:*/-").

Definition scopePattern_MatchString (s : string) : bool :=
  match s2l s with
  | [] => false
  | c :: l => alnum c && forallb scope_char l && (length l <=? 127)%nat
  end.

Definition secretHash (secret : string) : string := b64_encode b64_url (sha256_Sum256 secret).

(** The keys of the map [unique] after the loop, or the scope it stops at. *)
Fixpoint collect_scopes (unique : gset string) (values : list string) : result (gset string) :=
  match values with
  | [] => Ok unique
  | value :: rest =>
      let scope := TrimSpace value in
      if negb (scopePattern_MatchString scope)
      then Err (errors_New ("invalid scope " +:+ Quote value))
      else collect_scopes ({[scope]} ∪ unique) rest
  end.

Definition normalizeScopes (values : list string) : result (list string) :=
  unique ← collect_scopes ∅ values;
  if bool_decide (size unique = 0%nat)
  then Err (errors_New "at least one scope is required")
  else Ok (merge_sort String.le (elements unique)).

Definition randomValue (prefix : string) (size : nat) : M (result string) :=
  try value := rand_Read size in
  Ret (Ok (prefix +:+ b64_encode b64_url value)).

(** The checks on a name the two constructors share. *)
Definition checked_name (name : string) : result string :=
  let name := TrimSpace name in
  if (name == "")%go then Err (errors_New "service account name is required") else
  if 128 <? Z.of_nat (String.length name)
  then Err (errors_New "service account name must not exceed 128 characters") else Ok name.

Definition newRecord (name : string) (scopes : list string)
    : M (result (BootstrapRecord * string)) :=
  try name := Ret (checked_name name) in
  try normalizedScopes := Ret (normalizeScopes scopes) in
  try clientID := randomValue clientIDPrefix 18 catch wrap_with "generate client ID" in
  try credentialID := randomValue credentialIDPrefix 18 catch wrap_with "generate credential ID" in
  try clientSecret := randomValue clientSecretPrefix 32 catch wrap_with "generate client secret" in
  now ← time_Now;
  Ret (Ok (mkBootstrapRecord (mkAccount clientID name normalizedScopes now None) credentialID
             (secretHash clientSecret), clientSecret)).

Definition newBootstrapRecord (req : BootstrapRequest)
    : M (result (BootstrapRecord * string)) :=
  let clientID := TrimSpace (bq_ClientID req) in
  let clientSecret := TrimSpace (bq_ClientSecret req) in
  if (clientID == "")%go && (clientSecret == "")%go then newRecord (bq_Name req) (bq_Scopes req) else
  if (clientID == "")%go || (clientSecret == "")%go
  then Ret (Err (errors_New "bootstrap client ID and client secret must be provided together")) else
  if negb (scopePattern_MatchString clientID)
  then Ret (Err (errors_New "invalid bootstrap client ID")) else
  if Z.of_nat (String.length clientSecret) <? 32
  then Ret (Err (errors_New "bootstrap client secret must contain at least 32 characters")) else
  if 512 <? Z.of_nat (String.length clientSecret)
  then Ret (Err (errors_New "bootstrap client secret must not exceed 512 characters")) else
  try name := Ret (checked_name (bq_Name req)) in
  try scopes := Ret (normalizeScopes (bq_Scopes req)) in
  try credentialID := randomValue credentialIDPrefix 18 catch wrap_with "generate credential ID" in
  now ← time_Now;
  Ret (Ok (mkBootstrapRecord (mkAccount clientID name scopes now None) credentialID
             (secretHash clientSecret), clientSecret)).

Definition Bootstrap (store : ServiceAccountStore) (req : BootstrapRequest)
    : M (result BootstrapResult) :=
  try (record, clientSecret) := newBootstrapRecord req in
  try (account, created) := ss_Bootstrap store record (bq_IfNotExists req) (bq_Force req) in
  Ret (Ok (mkBootstrapResult account (if created then clientSecret else "") created)).

Definition Create (store : ServiceAccountStore) (name : string) (scopes : list string)
    : M (result BootstrapResult) :=
  try (record, clientSecret) := newRecord name scopes in
  try _ := ss_Create store record in
  Ret (Ok (mkBootstrapResult (br_Account record) clientSecret true)).

Definition Authenticate (store : ServiceAccountStore) (clientID clientSecret : string)
    : M (result Account) :=
  let clientID := TrimSpace clientID in
  let clientSecret := TrimSpace clientSecret in
  if (clientID == "")%go || (clientSecret == "")%go then Ret (Err sa_ErrInvalidCredential) else
  now ← time_Now;
  ss_Authenticate store clientID (secretHash clientSecret) now.

Definition RotateCredential (store : ServiceAccountStore) (clientID : string)
    : M (result string) :=
  try credentialID := randomValue credentialIDPrefix 18 catch wrap_with "generate credential ID" in
  try secret := randomValue clientSecretPrefix 32 catch wrap_with "generate client secret" in
  now ← time_Now;
  try _ := ss_RotateCredential store (TrimSpace clientID) credentialID (secretHash secret) now in
  Ret (Ok secret).
End serviceaccount.

(** ** Scopes *)

Section scopes.
Context `{P : Platform}.

Lemma collect_scopes_spec unique values :
  match collect_scopes unique values with
  | Ok r => Forall (λ v, scopePattern_MatchString (TrimSpace v) = true) values ∧
            r = list_to_set (TrimSpace <$> values) ∪ unique
  | Err e => ∃ v, v ∈ values ∧ scopePattern_MatchString (TrimSpace v) = false ∧
                  e = errors_New ("invalid scope " +:+ Quote v)
  end.
Proof.
  revert unique. induction values as [|v values IH]; intros unique; simpl.
  - split; [constructor|set_solver].
  - destruct (scopePattern_MatchString (TrimSpace v)) eqn:Hv; simpl.
    + specialize (IH ({[TrimSpace v]} ∪ unique)). destruct (collect_scopes _ _).
      * destruct IH as [H ->]. split; [by constructor|set_solver].
      * destruct IH as (x & Hx & Hm & ->). exists x. split; [by right|done].
    + exists v. split; [by left|done].
Qed.

(** normalizeScopes accepts a list exactly when it is not empty and every
    scope, trimmed, matches the pattern; the result is then the sorted list of
    the trimmed scopes without duplicates, and normalising it again changes
    nothing (so an account's stored scopes are a fixed point). *)
Theorem normalizeScopes_spec values :
  match normalizeScopes values with
  | Ok r => values ≠ [] ∧ Forall (λ v, scopePattern_MatchString (TrimSpace v) = true) values ∧
            StronglySorted String.le r ∧ NoDup r ∧
            (∀ s, s ∈ r ↔ ∃ v, v ∈ values ∧ s = TrimSpace v) ∧ normalizeScopes r = Ok r
  | Err _ => values = [] ∨ ¬ Forall (λ v, scopePattern_MatchString (TrimSpace v) = true) values
  end.
Proof.
  unfold normalizeScopes at 1. pose proof (collect_scopes_spec ∅ values) as Hc.
  destruct (collect_scopes ∅ values) as [u|e]; simpl.
  2: { right. destruct Hc as (v & Hv & Hm & _). rewrite Forall_forall. intros H.
       specialize (H v Hv). by rewrite Hm in H. }
  destruct Hc as [Hall ->]. set (u := list_to_set (TrimSpace <$> values) ∪ ∅ : gset string).
  assert (∀ s, s ∈ u ↔ ∃ v, v ∈ values ∧ s = TrimSpace v) as Hu.
  { intros s. unfold u. rewrite union_empty_r_L, elem_of_list_to_set, list_elem_of_fmap. naive_solver. }
  case_bool_decide as Hsize.
  - left. destruct values as [|v values]; [done|]. apply size_empty_inv in Hsize.
    exfalso. apply (not_elem_of_empty (C:=gset string) (TrimSpace v)).
    rewrite <-Hsize. apply Hu. exists v. split; [by left|done].
  - set (r := merge_sort String.le (elements u)).
    assert (r ≡ₚ elements u) as Hperm by apply merge_sort_Permutation.
    assert (∀ s, s ∈ r ↔ s ∈ u) as Hr by (intros s; rewrite Hperm; apply elem_of_elements).
    assert (NoDup r) as Hnd by (rewrite Hperm; apply NoDup_elements).
    assert (StronglySorted String.le r) as Hsort by apply (StronglySorted_merge_sort String.le).
    assert (∀ s, s ∈ r → TrimSpace s = s ∧ scopePattern_MatchString s = true) as Htrim.
    { intros s (v & Hv & ->)%Hr%Hu. rewrite Forall_forall in Hall.
      split; [apply TrimSpace_idem|by apply Hall]. }
    assert (TrimSpace <$> r = r) as Hid.
    { rewrite <-(list_fmap_id r) at 2. apply list_fmap_ext. intros i s Hs.
      by apply Htrim, (list_elem_of_lookup_2 _ i). }
    split; [intros ->; by apply Hsize|]. split; [done|]. split; [done|]. split; [done|].
    split; [intros s; by rewrite Hr|].
    unfold normalizeScopes. pose proof (collect_scopes_spec ∅ r) as Hcr.
    destruct (collect_scopes ∅ r) as [u'|e]; simpl.
    + destruct Hcr as [_ ->]. rewrite Hid, union_empty_r_L.
      assert (list_to_set r = u) as -> by (apply set_eq; intros s; by rewrite elem_of_list_to_set).
      by rewrite bool_decide_eq_false_2.
    + destruct Hcr as (v & Hv & Hm & _). destruct (Htrim v Hv) as [Ht Hm'].
      by rewrite Ht, Hm' in Hm.
Qed.
End scopes.

(** ** What the constructors make *)

Section records.
Context `{P : Platform}.

Lemma alnum_ascii c : alnum c = true → is_ascii c = true.
Proof.
  unfold alnum, is_ascii. intros H. apply N.ltb_lt. rewrite !orb_true_iff, !andb_true_iff, !N.leb_le in H.
  lia.
Qed.

Lemma scope_char_ascii c : scope_char c = true → is_ascii c = true.
Proof.
  unfold scope_char. intros [H|H]%orb_true_iff; [by apply alnum_ascii|].
  apply bool_decide_eq_true in H. change (s2l "._:*/-") with ["."; "_"; ":"; "*"; "/"; "-"]%char in H.
  repeat (apply elem_of_cons in H as [->|H]; [reflexivity|]). by apply elem_of_nil in H.
Qed.

Lemma scope_json_safe s : scopePattern_MatchString s = true → json_safe s.
Proof.
  unfold scopePattern_MatchString, json_safe. destruct (s2l s) as [|c l]; [done|].
  intros [[Hc Hl]%andb_true_iff _]%andb_true_iff. simpl. rewrite alnum_ascii by done. simpl.
  rewrite forallb_forall in *. intros x Hx. by apply scope_char_ascii, Hl.
Qed.

(** Normalised scopes survive the database. *)
Lemma normalized_json_safe values r : normalizeScopes values = Ok r → Forall json_safe r.
Proof.
  unfold normalizeScopes. pose proof (collect_scopes_spec ∅ values) as Hc.
  destruct (collect_scopes ∅ values) as [u|]; [|done]. destruct Hc as [Hall ->]. simpl.
  case_bool_decide; [done|]. intros [= <-]. apply Forall_forall. intros s.
  rewrite merge_sort_Permutation, elem_of_elements, union_empty_r_L, elem_of_list_to_set,
    list_elem_of_fmap. intros (v & -> & Hv). rewrite Forall_forall in Hall.
  by apply scope_json_safe, Hall.
Qed.

Lemma checked_name_inv name nm : checked_name name = Ok nm → nm = TrimSpace name.
Proof.
  unfold checked_name. case_bool_decide; [done|]. destruct (128 <? _); [done|]. by intros [= <-].
Qed.

Lemma randomValue_inv prefix n w v w' :
  run (randomValue prefix n) w = (Ok v, w') →
  w' = tick w ∧ ∃ b, String.length b = n ∧ v = prefix +:+ b64_encode b64_url b.
Proof.
  unfold randomValue. rewrite run_try. simpl. destruct (env_rand (w_step w) n) as [b|] eqn:Hb; [|done].
  intros [= <- <-]. split; [done|]. exists b. split; [by eapply env_rand_length|done].
Qed.

(** Random values have no white space to trim. *)
Lemma randomValue_plain prefix n w v w' :
  plain_string prefix → run (randomValue prefix n) w = (Ok v, w') → TrimSpace v = v.
Proof.
  intros Hp (_ & b & _ & ->)%randomValue_inv. apply TrimSpace_plain, plain_app; [done|].
  apply b64_encode_plain, b64_url_plain.
Qed.

Lemma newRecord_inv name scopes w r secret w' :
  run (newRecord name scopes) w = (Ok (r, secret), w') →
  let account := br_Account r in
  clock_only w w' ∧ checked_name name = Ok (ac_Name account) ∧
  normalizeScopes scopes = Ok (ac_Scopes account) ∧ ac_DisabledAt account = None ∧
  br_SecretHash r = secretHash secret ∧ TrimSpace secret = secret ∧ secret ≠ "" ∧
  TrimSpace (ac_ID account) = ac_ID account ∧ ac_ID account ≠ "".
Proof.
  unfold newRecord. rewrite run_try. cbn [run]. destruct (checked_name name) as [nm|]; [|done].
  rewrite run_try. cbn [run]. destruct (normalizeScopes scopes) as [sc|]; [|done]. rewrite run_catch.
  destruct (run (randomValue clientIDPrefix _) w) as [[id|] w1] eqn:H1; [|done]. rewrite run_catch.
  destruct (run (randomValue credentialIDPrefix _) w1) as [[cid|] w2] eqn:H2; [|done].
  rewrite run_catch.
  destruct (run (randomValue clientSecretPrefix _) w2) as [[sec|] w3] eqn:H3; [|done].
  cbn. intros [= <- <- <-]. simpl.
  assert (∀ p, p = clientIDPrefix ∨ p = clientSecretPrefix → plain_string p) as Hp.
  { intros p [->| ->]; apply List.Forall_forall, forallb_forall; reflexivity. }
  pose proof (randomValue_plain _ _ _ _ _ (Hp _ (or_introl eq_refl)) H1).
  pose proof (randomValue_plain _ _ _ _ _ (Hp _ (or_intror eq_refl)) H3).
  apply randomValue_inv in H1 as (-> & b1 & _ & ->). apply randomValue_inv in H2 as (-> & b2 & _ & ->).
  apply randomValue_inv in H3 as (-> & b3 & _ & ->). split_and!; try done.
  do 4 (etrans; [apply tick_closed|]). reflexivity.
Qed.
End records.
