(* ===== verification/SqliteAccounts.v ===== *)
(** * Service accounts in SQLite, internal/store/sqlite/service_accounts.go

    The store, its transactions included, and what it promises: creation and
    bootstrap are atomic, rotation replaces the credential, disabling is final. *)

From S2P Require Import Prelude GoStrings Prog Data Platform RefPlatform SqliteQueries KeyManager.
From S2P Require Import World Tokens Interfaces SqliteStores ServiceAccount.
#[local] Open Scope Z_scope.

Section store.
Context `{P : Platform}.

Definition bootstrapCompletedKey : string := "service_account_bootstrap_completed".
Definition AuditActorSystem : string := "system".
Definition AuditActorServiceAccount : string := "service_account".

Definition mapServiceAccountError (err : error) : error :=
  if isUniqueConstraintError err then sa_ErrAlreadyExists else err.

Definition mapped {W A} (err : error) : prog W (result A) :=
  Ret (Err (mapServiceAccountError err)).

(** json.Unmarshal of the scopes column into an account. *)
Definition decode_account (row : ServiceAccount) (disabledAt : option Z) : result Account :=
  match json_Unmarshal_strings (sa_Scopes row) with
  | Err err => Err (fmt_Errorf "decode service-account scopes" err)
  | Ok scopes => Ok (mkAccount (sa_ID row) (sa_Name row) scopes (sa_CreatedAt row) disabledAt)
  end.

Definition insertServiceAccount (record : BootstrapRecord) : prog TxState (result unit) :=
  let account := br_Account record in
  let scopesJSON := json_Marshal_strings (ac_Scopes account) in
  try _ := tx_stmt (insert_service_account (ac_ID account) (ac_Name account) scopesJSON
                      (ac_CreatedAt account) (ac_CreatedAt account)) catch mapped in
  try _ := tx_stmt (insert_credential (br_CredentialID record) (ac_ID account)
                      (br_SecretHash record) (ac_CreatedAt account)) catch mapped in
  Ret (Ok tt).

Definition findServiceAccountByName (name : string) : prog TxState (result (option Account)) :=
  try row := tx_stmt (select_account_by_name name) catch (λ err,
    if errors_Is err sql_ErrNoRows then Ret (Ok None) else wrap_with "find service account" err) in
  match decode_account row None with
  | Err err => Ret (Err err)
  | Ok account => Ret (Ok (Some account))
  end.

Definition accounts_Create (record : BootstrapRecord) : M (result unit) :=
  transaction (
    try _ := tx_BeginTx catch wrap_with "begin service-account creation" in
    try _ := insertServiceAccount record in
    try _ := tx_Commit catch mapped in
    Ret (Ok tt)).

Definition accounts_Authenticate (clientID secretHash : string) (now : Z) : M (result Account) :=
  try row := db_call (select_authenticated clientID secretHash now) catch (λ err,
    if errors_Is err sql_ErrNoRows then Ret (Err sa_ErrInvalidCredential)
    else wrap_with "authenticate service account" err) in
  Ret (decode_account row None).

Definition accounts_GetByID (clientID : string) : M (result Account) :=
  try row := db_call (select_account clientID) catch (λ err,
    if errors_Is err sql_ErrNoRows then Ret (Err sa_ErrNotFound)
    else wrap_with "get service account" err) in
  Ret (decode_account row (sa_DisabledAt row)).

(** The loop over the rows stops at the first one that does not decode. *)
Fixpoint decode_accounts (rows : list ServiceAccount) : result (list Account) :=
  match rows with
  | [] => Ok []
  | row :: rest => account ← decode_account row (sa_DisabledAt row);
                   accounts ← decode_accounts rest; Ok (account :: accounts)
  end.

Definition accounts_List : M (result (list Account)) :=
  try rows := db_query select_accounts catch wrap_with "list service accounts" in
  Ret (decode_accounts rows).

Definition accounts_Disable (clientID : string) (now : Z) : M (result Account) :=
  try rows := db_call (update_disabled_at now clientID) catch wrap_with "disable service account" in
  if rows =? 0 then Ret (Err sa_ErrNotFound) else accounts_GetByID clientID.

Definition accounts_RotateCredential (clientID credentialID secretHash : string) (now : Z)
    : M (result unit) :=
  transaction (
    try _ := tx_BeginTx catch wrap_with "begin credential rotation" in
    try _ := tx_stmt (select_live_account clientID) catch (λ err,
      if errors_Is err sql_ErrNoRows then Ret (Err sa_ErrNotFound)
      else wrap_with "find service account for rotation" err) in
    try _ := tx_stmt (update_revoked_at now clientID)
      catch wrap_with "revoke service-account credentials" in
    try _ := tx_stmt (insert_credential credentialID clientID secretHash now) catch mapped in
    tx_Commit).

Definition bootstrap_audit_row (id : string) (account : Account) : AuditRow :=
  mkAuditRow id (ac_CreatedAt account) AuditActorSystem "bootstrap" "service_account.bootstrap"
    "service_account" (ac_ID account) (json_Marshal_map {["name" := ac_Name account]}).

(** The part of Bootstrap after the checks. *)
Definition bootstrap_insert (record : BootstrapRecord)
    : prog TxState (result (Account * bool)) :=
  let account := br_Account record in
  try _ := insertServiceAccount record in
  try _ := tx_stmt (upsert_state bootstrapCompletedKey (ac_ID account) (ac_CreatedAt account))
    catch wrap_with "write bootstrap state" in
  id ← tx_uuid_NewString;
  try _ := tx_stmt (insert_audit (bootstrap_audit_row id account))
    catch wrap_with "record bootstrap audit event" in
  try _ := tx_Commit catch mapped in
  Ret (Ok (account, true)).

Definition accounts_Bootstrap (record : BootstrapRecord) (ifNotExists force : bool)
    : M (result (Account * bool)) :=
  transaction (
    try _ := tx_BeginTx catch wrap_with "begin service-account bootstrap" in
    try existing := findServiceAccountByName (ac_Name (br_Account record)) in
    match existing with
    | Some account => if ifNotExists then Ret (Ok (account, false)) else Ret (Err sa_ErrAlreadyExists)
    | None =>
        marker ← tx_stmt (select_state bootstrapCompletedKey);
        match marker with
        | Err err => if errors_Is err sql_ErrNoRows then bootstrap_insert record
                     else wrap_with "read bootstrap state" err
        | Ok _ => if force then bootstrap_insert record else Ret (Err sa_ErrBootstrapCompleted)
        end
    end).

Definition sqlite_accounts : ServiceAccountStore :=
  mkServiceAccountStore accounts_Bootstrap accounts_Create accounts_Authenticate accounts_GetByID
    accounts_List accounts_Disable accounts_RotateCredential.

(** ** Effects of a transaction *)

(** Both the uncommitted and the committed database only evolve by statements. *)
Record tx_effect (t t' : TxState) : Prop := mk_tx_effect {
  te_step : (tx_step t ≤ tx_step t')%nat;
  te_db c : db_evolves c (tx_db t) → db_evolves c (tx_db t');
  te_committed c : db_evolves c (tx_db t) → db_evolves c (tx_committed t) →
    db_evolves c (tx_committed t');
}.

#[export] Instance tx_effect_preorder : PreOrder tx_effect.
Proof.
  split; [by intros t; split|]. intros t1 t2 t3 [] []. split; eauto. lia.
Qed.

Lemma tx_stmt_effect {B} (f : DB → result B * DB) :
  statement f → guarantees tx_effect (tx_stmt f).
Proof.
  intros Hf. apply guarantees_op. intros t. pose proof (Hf (tx_db t)) as Hs.
  destruct (env_fault (tx_step t)).
  - split; simpl; auto.
  - destruct (f (tx_db t)) as [r d]. split; simpl in *; auto. intros c Hc. by etrans.
Qed.

Lemma tx_BeginTx_effect : guarantees tx_effect tx_BeginTx.
Proof. apply guarantees_op. intros t. split; simpl; auto. Qed.

Lemma tx_Commit_effect : guarantees tx_effect tx_Commit.
Proof.
  apply guarantees_op. intros t. destruct (env_fault (tx_step t)) as [[m []]|]; split; simpl; auto.
Qed.

Lemma tx_uuid_effect : guarantees tx_effect tx_uuid_NewString.
Proof. apply guarantees_op. intros t. split; simpl; auto. Qed.

Lemma transaction_effect {B} (m : prog TxState B) :
  guarantees tx_effect m → guarantees db_effect (transaction m).
Proof.
  intros Hm. apply guarantees_op. intros w.
  pose proof (guarantees_run _ _ (mkTxState (w_step w) (w_db w) (w_db w)) Hm) as [Hs Hd Hc].
  destruct (run m _) as [b t]. simpl in *. split; [split; simpl; auto|]. simpl.
  by apply Hc.
Qed.

(** ** Runs of a transaction *)

Lemma tx_stmt_Ok_inv {B} (f : DB → result B * DB) t b t' :
  run (tx_stmt f) t = (Ok b, t') →
  f (tx_db t) = (Ok b, tx_db t') ∧ tx_committed t' = tx_committed t.
Proof.
  simpl. destruct (env_fault (tx_step t)); [done|]. destruct (f (tx_db t)) as [r d].
  intros [= -> <-]. done.
Qed.

Definition tx_uncommitted (t t' : TxState) : Prop := tx_committed t' = tx_committed t.

#[export] Instance tx_uncommitted_preorder : PreOrder tx_uncommitted.
Proof. split; [by intros ?|]. unfold tx_uncommitted. intros t1 t2 t3. congruence. Qed.

Lemma tx_stmt_uncommitted {B} (f : DB → result B * DB) : guarantees tx_uncommitted (tx_stmt f).
Proof.
  apply guarantees_op. intros t. destruct (env_fault (tx_step t)); [done|].
  by destruct (f (tx_db t)).
Qed.
Lemma tx_BeginTx_uncommitted : guarantees tx_uncommitted tx_BeginTx.
Proof. by apply guarantees_op. Qed.
Lemma tx_uuid_uncommitted : guarantees tx_uncommitted tx_uuid_NewString.
Proof. by apply guarantees_op. Qed.

Lemma tx_Commit_run t :
  let '(r, t') := run tx_Commit t in
  (r = Ok tt → tx_committed t' = tx_db t) ∧
  (tx_committed t' = tx_db t ∨ tx_committed t' = tx_committed t).
Proof. simpl. destruct (env_fault (tx_step t)) as [[m []]|]; simpl; naive_solver. Qed.
End store.

#[export] Hint Resolve tx_stmt_effect tx_BeginTx_effect tx_Commit_effect tx_uuid_effect
  transaction_effect tx_stmt_uncommitted tx_BeginTx_uncommitted tx_uuid_uncommitted : go.

(** ** Effects of the methods *)

Section effects.
Context `{P : Platform}.

#[local] Ltac effect := unfold mapped, findServiceAccountByName, insertServiceAccount; guarantees_tac.

Lemma read_statement {B} (f : DB → result B) : statement (λ d, (f d, d)).
Proof. intros d. reflexivity. Qed.
#[local] Hint Resolve read_statement : go.

Lemma bootstrap_insert_effect r : guarantees tx_effect (bootstrap_insert r).
Proof. unfold bootstrap_insert. effect. Qed.
#[local] Hint Resolve bootstrap_insert_effect : go.

Lemma accounts_Create_effect r : guarantees db_effect (accounts_Create r).
Proof. apply transaction_effect. effect. Qed.
Lemma accounts_Rotate_effect c i h n : guarantees db_effect (accounts_RotateCredential c i h n).
Proof. apply transaction_effect. unfold select_live_account. effect. Qed.
Lemma accounts_Bootstrap_effect r i f : guarantees db_effect (accounts_Bootstrap r i f).
Proof. apply transaction_effect. unfold select_state, select_account_by_name. effect. Qed.
Lemma accounts_GetByID_clock c : guarantees clock_only (accounts_GetByID c).
Proof. unfold accounts_GetByID, select_account. effect. Qed.
#[local] Hint Resolve accounts_GetByID_clock clock_effect : go.
Lemma accounts_Disable_effect c n : guarantees db_effect (accounts_Disable c n).
Proof. unfold accounts_Disable. effect. Qed.
Lemma accounts_Authenticate_clock c h n : guarantees clock_only (accounts_Authenticate c h n).
Proof. unfold accounts_Authenticate, select_authenticated. effect. Qed.
Lemma accounts_List_clock : guarantees clock_only accounts_List.
Proof. unfold accounts_List. effect. Qed.
End effects.

#[export] Hint Resolve accounts_Create_effect accounts_Rotate_effect accounts_Bootstrap_effect
  accounts_GetByID_clock accounts_Disable_effect accounts_Authenticate_clock
  accounts_List_clock : go.

(** ** What the methods do *)

Section lemmas.
Context `{P : Platform}.

Lemma query_row_Ok {A} (p : A → bool) l x : query_row p l = Ok x → x ∈ l ∧ p x = true.
Proof. unfold query_row. destruct (find p l) eqn:Hf; [|done]. intros [= ->]. by apply find_Some_elem. Qed.

Lemma query_row_none {A} (p : A → bool) l :
  (∀ x, x ∈ l → p x = false) → query_row p l = Err sql_ErrNoRows.
Proof.
  intros Hp. unfold query_row. destruct (find p l) as [x|] eqn:Hf; [|done].
  apply find_Some_elem in Hf as [Hx Hpx]. by rewrite (Hp x Hx) in Hpx.
Qed.

Lemma query_row_unique {A} (p : A → bool) l x :
  x ∈ l → p x = true → (∀ y, y ∈ l → p y = true → y = x) → query_row p l = Ok x.
Proof. intros. unfold query_row. by rewrite (find_unique p l x). Qed.

Lemma decode_account_ID row dis acc : decode_account row dis = Ok acc →
  ac_ID acc = sa_ID row ∧ ac_Name acc = sa_Name row ∧ ac_DisabledAt acc = dis.
Proof. unfold decode_account. case_match; [|done]. by intros [= <-]. Qed.

Lemma Authenticate_Ok_inv id h t w acc :
  (run (accounts_Authenticate id h t) w).1 = Ok acc →
  ∃ a c, a ∈ db_service_accounts (w_db w) ∧ c ∈ db_credentials (w_db w) ∧
    sa_ID a = id ∧ account_live a = true ∧ cr_ServiceAccountID c = id ∧
    credential_valid h t c = true ∧ ac_ID acc = id ∧ decode_account a None = Ok acc.
Proof.
  unfold accounts_Authenticate. rewrite run_catch. unfold select_authenticated.
  rewrite db_read_run. destruct (env_fault (w_step w)); [by simpl; rewrite ?errors_Is_New|].
  destruct (query_row _ _) as [a|e] eqn:Hq; [|by simpl; case_match].
  apply query_row_Ok in Hq as [Ha Hp]. apply andb_true_iff in Hp as [Hp Hc].
  apply andb_true_iff in Hp as [<-%bool_decide_eq_true Hl].
  apply existsb_true in Hc as (c & Hc & [Hid%bool_decide_eq_true Hv]%andb_true_iff).
  simpl. intros Hdec. pose proof (decode_account_ID _ _ _ Hdec). exists a, c. naive_solver.
Qed.

(** A credential of the database is still there, as it was once revoked. *)
Lemma credential_later d d' c :
  db_le d d' → c ∈ db_credentials d →
  ∃ c', c' ∈ db_credentials d' ∧ credential_le c c'.
Proof. intros Hle Hc. eapply rows_le_elem; [apply (le_credentials _ _ Hle)|done]. Qed.

Lemma account_later d d' a :
  db_le d d' → a ∈ db_service_accounts d →
  ∃ a', a' ∈ db_service_accounts d' ∧ account_le a a'.
Proof. intros Hle Ha. eapply rows_le_elem; [apply (le_accounts _ _ Hle)|done]. Qed.

(** With a revoked credential's secret nobody authenticates. *)
Lemma revoked_secret_fails w c id t acc :
  db_ok (w_db w) → c ∈ db_credentials (w_db w) → credential_live c = false →
  (run (accounts_Authenticate id (cr_SecretHash c) t) w).1 ≠ Ok acc.
Proof.
  intros Hok Hc Hl H. apply Authenticate_Ok_inv in H as (a & c2 & _ & Hc2 & _ & _ & _ & Hv & _).
  unfold credential_valid in Hv. apply andb_true_iff in Hv as [Hv _].
  apply andb_true_iff in Hv as [Hh%bool_decide_eq_true Hr].
  assert (c2 = c) as -> by (by apply (NoDup_fmap_inj cr_SecretHash (db_credentials (w_db w)));
    [apply Hok|..]).
  unfold credential_live in Hl. by rewrite Hl in Hr.
Qed.

Lemma Rotate_inv id cid h now w w' :
  run (accounts_RotateCredential id cid h now) w = (Ok tt, w') →
  (∃ a, a ∈ db_service_accounts (w_db w) ∧ sa_ID a = id ∧ account_live a = true) ∧
  insert_credential cid id h now (update_revoked_at now id (w_db w)).2 = (Ok tt, w_db w').
Proof.
  unfold accounts_RotateCredential, transaction. cbn [run act].
  destruct (run _ _) as [r t] eqn:Hr. intros [= -> <-].
  rewrite run_catch in Hr.
  destruct (run tx_BeginTx _) as [[[]|] t1] eqn:H1; [|done].
  assert (tx_db t1 = w_db w) as Hd1 by (simpl in H1; destruct (env_fault _); by simplify_eq).
  rewrite run_catch in Hr.
  destruct (run (tx_stmt (select_live_account _)) t1) as [[a|] t2] eqn:H2.
  2: { cbn [run] in Hr. by destruct (errors_Is _ _). }
  apply tx_stmt_Ok_inv in H2 as [H2 _]. injection H2 as H2 Hd2. rewrite run_catch in Hr.
  destruct (run (tx_stmt (update_revoked_at _ _)) t2) as [[n|] t3] eqn:H3; [|done].
  apply tx_stmt_Ok_inv in H3 as [H3 _]. rewrite run_catch in Hr.
  destruct (run (tx_stmt (insert_credential _ _ _ _)) t3) as [[[]|] t4] eqn:H4; [|done].
  apply tx_stmt_Ok_inv in H4 as [H4 _].
  pose proof (tx_Commit_run t4) as Hc. rewrite Hr in Hc. destruct Hc as [Hc _].
  rewrite <-Hd2, Hd1 in H3. split.
  - rewrite Hd1 in H2. apply query_row_Ok in H2 as [Ha [Hid%bool_decide_eq_true ?]%andb_true_iff].
    by exists a.
  - rewrite H3. simpl. by rewrite Hc.
Qed.

Lemma Disable_inv id now w acc w' :
  run (accounts_Disable id now) w = (Ok acc, w') →
  (∃ a, a ∈ db_service_accounts (w_db w) ∧ sa_ID a = id) ∧
  w_db w' = (update_disabled_at now id (w_db w)).2.
Proof.
  unfold accounts_Disable. rewrite run_catch.
  destruct (run (db_call _) w) as [[n|] w1] eqn:H1; [|done].
  apply db_call_Ok_inv in H1 as (d & H1 & ->). injection H1 as Hn <-.
  destruct (Z.eqb_spec n 0) as [|Hn0]; [done|]. intros Hg. split.
  - assert (existsb (λ a, bool_decide (sa_ID a = id) && account_live a)
      (db_service_accounts (w_db w)) = true) as Hex by (apply filter_pos; lia).
    apply existsb_true in Hex as (a & Ha & [Hid%bool_decide_eq_true _]%andb_true_iff). by exists a.
  - pose proof (guarantees_run _ _ (tick (set_db (set_service_accounts
      (map_if (λ a, bool_decide (sa_ID a = id) && account_live a)
        (λ a, mkServiceAccount (sa_ID a) (sa_Name a) (sa_Scopes a) (sa_CreatedAt a) now (Some now))
        (db_service_accounts (w_db w))) (w_db w)) w)) (accounts_GetByID_clock id)) as Hf.
    rewrite Hg in Hf. exact (co_db _ _ Hf).
Qed.
End lemmas.

(** ** Bootstrap *)

Section bootstrap.
Context `{P : Platform}.

(** The four rows of a bootstrap: the account, its credential, the marker and
    the audit event. *)
Definition bootstrapped (record : BootstrapRecord) (d d' : DB) : Prop :=
  let account := br_Account record in
  db_users d' = db_users d ∧ db_external_identities d' = db_external_identities d ∧
  db_service_accounts d' = db_service_accounts d ++
    [mkServiceAccount (ac_ID account) (ac_Name account) (json_Marshal_strings (ac_Scopes account))
       (ac_CreatedAt account) (ac_CreatedAt account) None] ∧
  db_credentials d' = db_credentials d ++
    [mkServiceAccountCredential (br_CredentialID record) (ac_ID account) (br_SecretHash record)
       (ac_CreatedAt account) None None] ∧
  mkSystemState bootstrapCompletedKey (ac_ID account) (ac_CreatedAt account) ∈ db_system_state d' ∧
  ∃ id, db_audit_events d' = db_audit_events d ++ [bootstrap_audit_row id account].

Definition marked (d : DB) : Prop := ∃ s, s ∈ db_system_state d ∧ ss_Key s = bootstrapCompletedKey.

Lemma insertServiceAccount_inv record t t' :
  run (insertServiceAccount record) t = (Ok tt, t') →
  let account := br_Account record in
  db_users (tx_db t') = db_users (tx_db t) ∧
  db_external_identities (tx_db t') = db_external_identities (tx_db t) ∧
  db_service_accounts (tx_db t') = db_service_accounts (tx_db t) ++
    [mkServiceAccount (ac_ID account) (ac_Name account) (json_Marshal_strings (ac_Scopes account))
       (ac_CreatedAt account) (ac_CreatedAt account) None] ∧
  db_credentials (tx_db t') = db_credentials (tx_db t) ++
    [mkServiceAccountCredential (br_CredentialID record) (ac_ID account) (br_SecretHash record)
       (ac_CreatedAt account) None None] ∧
  db_system_state (tx_db t') = db_system_state (tx_db t) ∧
  db_audit_events (tx_db t') = db_audit_events (tx_db t) ∧
  tx_committed t' = tx_committed t.
Proof.
  unfold insertServiceAccount. rewrite run_catch.
  destruct (run (tx_stmt _) t) as [[[]|] t1] eqn:H1; [|done]. rewrite run_catch.
  destruct (run (tx_stmt _) t1) as [[[]|] t2] eqn:H2; [|done]. intros [= <-].
  apply tx_stmt_Ok_inv in H1 as [H1 Hc1]. apply tx_stmt_Ok_inv in H2 as [H2 Hc2].
  unfold insert_service_account in H1. do 2 (case_match; [done|]). injection H1 as H1.
  unfold insert_credential in H2. do 3 (case_match; [done|]). injection H2 as H2.
  rewrite <-H2, <-H1, Hc2, Hc1. simpl. done.
Qed.

Lemma insertServiceAccount_uncommitted record : guarantees tx_uncommitted (insertServiceAccount record).
Proof. unfold insertServiceAccount, mapped. guarantees_tac. Qed.

Lemma upsert_state_marks key v u d : mkSystemState key v u ∈ db_system_state (upsert_state key v u d).2.
Proof.
  unfold upsert_state. simpl. destruct (existsb _ _) eqn:Hex.
  - apply existsb_true in Hex as (s & Hs & Hk). apply elem_of_map_if. exists s. by rewrite Hk.
  - apply elem_of_app. right. by left.
Qed.

Lemma bootstrap_insert_inv record t res t' :
  run (bootstrap_insert record) t = (res, t') →
  (tx_committed t' = tx_committed t ∨ bootstrapped record (tx_db t) (tx_committed t')) ∧
  (∀ a b, res = Ok (a, b) →
     a = br_Account record ∧ b = true ∧ bootstrapped record (tx_db t) (tx_committed t')).
Proof.
  unfold bootstrap_insert. rewrite run_try.
  pose proof (guarantees_run _ _ t (insertServiceAccount_uncommitted record)) as U1.
  destruct (run (insertServiceAccount record) t) as [[[]|] t1] eqn:H1; [|intros [= <- <-]; split; [left; exact U1|done]].
  apply insertServiceAccount_inv in H1 as (Hu & Hi & Ha & Hc & Hs & Hau & _).
  rewrite run_catch.
  set (m2 := tx_stmt (upsert_state _ _ _)).
  pose proof (guarantees_run _ _ t1 (tx_stmt_uncommitted _ : guarantees tx_uncommitted m2)) as U2.
  destruct (run m2 t1) as [[[]|] t2] eqn:H2;
    [|intros [= <- <-]; split; [left; exact (eq_trans U2 U1)|done]].
  apply tx_stmt_Ok_inv in H2 as [H2 _]. rewrite run_mbind. cbn [run tx_uuid_NewString act].
  rewrite run_catch. set (id := env_uuid (tx_step t2)).
  set (t3 := mkTxState _ _ _). set (m4 := tx_stmt (insert_audit _)).
  pose proof (guarantees_run _ _ t3 (tx_stmt_uncommitted _ : guarantees tx_uncommitted m4)) as U4.
  destruct (run m4 t3) as [[[]|] t4] eqn:H4;
    [|intros [= <- <-]; split; [left; exact (eq_trans U4 (eq_trans U2 U1))|done]].
  apply tx_stmt_Ok_inv in H4 as [H4 _]. rewrite run_catch. pose proof (tx_Commit_run t4) as HC.
  assert (bootstrapped record (tx_db t) (tx_db t4)) as HB.
  { unfold insert_audit in H4. destruct (existsb _ _) in H4; [done|]. injection H4 as H4. rewrite <-H4.
    pose proof (upsert_state_marks bootstrapCompletedKey (ac_ID (br_Account record))
      (ac_CreatedAt (br_Account record)) (tx_db t1)) as Hm. rewrite H2 in Hm.
    unfold upsert_state in H2. injection H2 as H2. unfold t3; simpl.
    split_and!; simpl; try (rewrite <-H2; simpl; by rewrite ?Hu, ?Hi, ?Ha, ?Hc); [done|].
    exists id. rewrite <-H2. simpl. by rewrite Hau. }
  destruct (run tx_Commit t4) as [[[]|] t5]; simpl; destruct HC as [HC1 HC2]; intros [= <- <-].
  - rewrite HC1 by done. split; [by right|]. by intros a b [= <- <-].
  - split; [|done]. destruct HC2 as [->| ->]; [by right|left].
    exact (eq_trans U4 (eq_trans U2 U1)).
Qed.
End bootstrap.

(** ** Create *)

Section create.
Context `{P : Platform}.

Lemma accounts_Create_inv record w w' :
  run (accounts_Create record) w = (Ok tt, w') →
  let account := br_Account record in
  db_users (w_db w') = db_users (w_db w) ∧
  db_external_identities (w_db w') = db_external_identities (w_db w) ∧
  db_service_accounts (w_db w') = db_service_accounts (w_db w) ++
    [mkServiceAccount (ac_ID account) (ac_Name account) (json_Marshal_strings (ac_Scopes account))
       (ac_CreatedAt account) (ac_CreatedAt account) None] ∧
  db_credentials (w_db w') = db_credentials (w_db w) ++
    [mkServiceAccountCredential (br_CredentialID record) (ac_ID account) (br_SecretHash record)
       (ac_CreatedAt account) None None] ∧
  db_audit_events (w_db w') = db_audit_events (w_db w).
Proof.
  unfold accounts_Create, transaction. cbn [run act]. destruct (run _ _) as [r t] eqn:Hr.
  intros [= -> <-]. rewrite run_catch in Hr.
  destruct (run tx_BeginTx _) as [[[]|] t1] eqn:H1; [|done].
  assert (tx_db t1 = w_db w) as Hd1 by (simpl in H1; destruct (env_fault _); by simplify_eq).
  rewrite run_try in Hr. destruct (run (insertServiceAccount _) t1) as [[[]|] t2] eqn:H2; [|done].
  apply insertServiceAccount_inv in H2 as (Hu & Hi & Ha & Hc & _ & Hau & _). rewrite Hd1 in *.
  rewrite run_catch in Hr. pose proof (tx_Commit_run t2) as HC.
  destruct (run tx_Commit t2) as [[[]|] t3]; [|done]. injection Hr as <-.
  destruct HC as [HC _]. simpl. rewrite HC by done. done.
Qed.

(** With the secret of a live credential the account authenticates. *)
Lemma Authenticate_run id c a acc t w :
  db_ok (w_db w) → env_fault (w_step w) = None →
  a ∈ db_service_accounts (w_db w) → sa_ID a = id → account_live a = true →
  c ∈ db_credentials (w_db w) → cr_ServiceAccountID c = id → credential_valid (cr_SecretHash c) t c = true →
  decode_account a None = Ok acc →
  run (accounts_Authenticate id (cr_SecretHash c) t) w = (Ok acc, tick w).
Proof.
  intros Hok Hf Ha Hid Hl Hc Hcid Hv Hdec. unfold accounts_Authenticate, select_authenticated.
  rewrite run_catch, db_read_run, Hf. rewrite (query_row_unique _ _ a); [by rewrite Hdec|done| |].
  - rewrite bool_decide_eq_true_2, Hl by done. simpl. apply existsb_true. exists c.
    by rewrite Hv, bool_decide_eq_true_2 by congruence.
  - intros y Hy [[Hyid%bool_decide_eq_true _]%andb_true_iff _]%andb_true_iff.
    apply (NoDup_fmap_inj sa_ID (db_service_accounts (w_db w))); [apply Hok|done|done|congruence].
Qed.

(** Without one it is refused. *)
Lemma Authenticate_refused id h t w :
  env_fault (w_step w) = None →
  (∀ c, c ∈ db_credentials (w_db w) → cr_ServiceAccountID c = id → credential_live c = true →
     cr_SecretHash c ≠ h) →
  run (accounts_Authenticate id h t) w = (Err sa_ErrInvalidCredential, tick w).
Proof.
  intros Hf Hno. unfold accounts_Authenticate, select_authenticated.
  rewrite run_catch, db_read_run, Hf, query_row_none; [done|]. intros a Ha.
  destruct (bool_decide _) eqn:Hid; [|done]. apply bool_decide_eq_true in Hid.
  destruct (account_live a); [|done]. apply existsb_false. intros c Hc.
  case_bool_decide as Hcid; [|done]. unfold credential_valid. simpl.
  case_bool_decide as Hh; [|done]. destruct (cr_RevokedAt c) eqn:Hr; [done|].
  destruct (Hno c Hc); [congruence| |done]. unfold credential_live. by rewrite Hr.
Qed.
(** The database keeps an account: its row, alive, and one live credential. *)
Definition account_kept (acc : Account) (h : string) (d : DB) : Prop :=
  (∃ a, a ∈ db_service_accounts d ∧ account_live a = true ∧ decode_account a None = Ok acc) ∧
  (∃ c, c ∈ db_credentials d ∧ cr_ServiceAccountID c = ac_ID acc ∧ credential_live c = true ∧
     cr_ExpiresAt c = None ∧ cr_SecretHash c = h) ∧
  ∀ c, c ∈ db_credentials d → cr_ServiceAccountID c = ac_ID acc → credential_live c = true →
    cr_SecretHash c = h.

(** The answer to each secret. *)
Lemma kept_Authenticate acc h h' t w :
  db_ok (w_db w) → account_kept acc h (w_db w) → env_fault (w_step w) = None →
  run (accounts_Authenticate (ac_ID acc) h' t) w =
    (if (h' == h)%go then Ok acc else Err sa_ErrInvalidCredential, tick w).
Proof.
  intros Hok ((a & Ha & Hal & Hdec) & (c & Hc & Hcid & Hcl & Hexp & Hch) & Honly) Hf.
  case_bool_decide as Hdig.
  - rewrite Hdig, <-Hch. apply (Authenticate_run _ c a acc); try done.
    + by destruct (decode_account_ID _ _ _ Hdec).
    + unfold credential_valid, credential_live in *. rewrite bool_decide_eq_true_2 by done.
      rewrite Hexp. by destruct (cr_RevokedAt c).
  - apply Authenticate_refused; [done|]. intros c' Hc' Hcid' Hcl' Hbad. destruct Hdig.
    by rewrite <-Hbad, (Honly c' Hc' Hcid' Hcl').
Qed.

(** What adding an account leaves is kept. *)
Lemma added_kept r (d d' d2 : DB) :
  let account := br_Account r in
  db_ok d → db_ok d' → ac_DisabledAt account = None →
  (∃ scopes, normalizeScopes scopes = Ok (ac_Scopes account)) →
  db_service_accounts d' = db_service_accounts d ++
    [mkServiceAccount (ac_ID account) (ac_Name account) (json_Marshal_strings (ac_Scopes account))
       (ac_CreatedAt account) (ac_CreatedAt account) None] →
  db_credentials d' = db_credentials d ++
    [mkServiceAccountCredential (br_CredentialID r) (ac_ID account) (br_SecretHash r)
       (ac_CreatedAt account) None None] →
  db_service_accounts d2 = db_service_accounts d' → db_credentials d2 = db_credentials d' →
  account_kept account (br_SecretHash r) d2.
Proof.
  intros account Hok Hok2 Hdis [n Hscopes] Hacc Hcred Ha1 Hc1.
  unfold account_kept. rewrite Ha1, Hc1, Hcred, Hacc. split; [|split].
  - eexists. split; [apply elem_of_app; right; by left|]. split; [done|].
    unfold decode_account. simpl. rewrite json_strings_roundtrip by by eapply normalized_json_safe.
    rewrite <-Hdis. by destruct account.
  - eexists. by split; [apply elem_of_app; right; by left|].
  - intros c [Hc|Hc%list_elem_of_singleton]%elem_of_app Hcid Hcl; [|by subst c].
    pose proof (ok_credentials_account _ Hok) as Hfk. rewrite Forall_forall in Hfk.
    specialize (Hfk c Hc). rewrite Hcid in Hfk.
    pose proof (ok_accounts_id _ Hok2) as Hnd. rewrite Hacc, fmap_app, NoDup_app in Hnd.
    destruct Hnd as (_ & Hnd & _). destruct (Hnd _ Hfk). by left.
Qed.
End create.

(** ** Properties *)

Section properties.
Context `{P : Platform}.

(** C35.  Rotation replaces the credential.  It only succeeds for an account
    that is not disabled; afterwards the account authenticates with the new
    secret, and with none of the secrets it had before, now or in any database
    the server can reach from there. *)
Theorem rotation_replaces_credential id cid h now w w1
    (Hok : db_ok (w_db w)) (Hrun : run (accounts_RotateCredential id cid h now) w = (Ok tt, w1)) :
  (∃ a, a ∈ db_service_accounts (w_db w1) ∧ sa_ID a = id ∧ account_live a = true) ∧
  (∀ w2 t acc, db_evolves (w_db w1) (w_db w2) →
     ∀ c, c ∈ db_credentials (w_db w) → cr_ServiceAccountID c = id →
       (run (accounts_Authenticate id (cr_SecretHash c) t) w2).1 ≠ Ok acc) ∧
  (∀ w2 t, w_db w2 = w_db w1 → env_fault (w_step w2) = None →
     ∃ row, row ∈ db_service_accounts (w_db w1) ∧ sa_ID row = id ∧
       run (accounts_Authenticate id h t) w2 = (decode_account row None, tick w2)).
Proof.
  assert (db_ok (w_db w1)) as Hok1.
  { pose proof (guarantees_run _ _ w (accounts_Rotate_effect id cid h now)) as [_ [_ H]].
    rewrite Hrun in H. by apply H. }
  destruct (Rotate_inv _ _ _ _ _ _ Hrun) as [(a & Ha & Hida & Hla) Hins].
  set (p := λ c, bool_decide (cr_ServiceAccountID c = id) && credential_live c).
  set (f := λ c, mkServiceAccountCredential (cr_ID c) (cr_ServiceAccountID c) (cr_SecretHash c)
              (cr_CreatedAt c) (cr_ExpiresAt c) (Some now)).
  assert (db_service_accounts (w_db w1) = db_service_accounts (w_db w) ∧
    db_credentials (w_db w1) = map_if p f (db_credentials (w_db w)) ++
      [mkServiceAccountCredential cid id h now None None]) as [Hacc Hcred].
  { revert Hins. unfold insert_credential. do 3 (case_match; [done|]). by intros [= <-]. }
  split; [exists a; by rewrite Hacc|]. split.
  - intros w2 t acc [Hle Hok2] c Hc Hcid. specialize (Hok2 Hok1).
    assert (∃ c1, c1 ∈ db_credentials (w_db w1) ∧ cr_SecretHash c1 = cr_SecretHash c ∧
      credential_live c1 = false) as (c1 & Hc1 & Hh1 & Hl1).
    { rewrite Hcred. exists (if p c then f c else c). split.
      - apply elem_of_app. left. apply elem_of_map_if. by exists c.
      - destruct (p c) eqn:Hpc; [done|]. split; [done|]. unfold p in Hpc.
        by rewrite bool_decide_eq_true_2 in Hpc. }
    destruct (credential_later _ _ _ Hle Hc1) as (c2 & Hc2 & _ & _ & _ & _ & Hfr).
    rewrite (Hfr Hl1) in Hc2. rewrite <-Hh1. by apply revoked_secret_fails.
  - intros w2 t Hdb Hf. exists a. rewrite Hacc. split; [done|]. split; [done|].
    unfold accounts_Authenticate. rewrite run_catch. unfold select_authenticated.
    rewrite db_read_run, Hf, Hdb. rewrite (query_row_unique _ _ a); [done|by rewrite Hacc| |].
    + rewrite bool_decide_eq_true_2, Hla by done. simpl. apply existsb_true.
      eexists. rewrite Hcred. split; [apply elem_of_app; right; by left|].
      unfold credential_valid; simpl. by rewrite !bool_decide_eq_true_2.
    + intros y Hy [[Hidy%bool_decide_eq_true _]%andb_true_iff _]%andb_true_iff.
      apply (NoDup_fmap_inj sa_ID (db_service_accounts (w_db w1))); [apply Hok1|done|by rewrite Hacc|].
      congruence.
Qed.

(** Disabling an account is final.  In every database the server can reach
    afterwards, no secret authenticates the account, looking it up shows it as
    disabled, and its credential cannot be rotated. *)
Theorem disabled_account_is_final id now w acc w1 w2
    (Hok : db_ok (w_db w)) (Hrun : run (accounts_Disable id now) w = (Ok acc, w1))
    (Hreach : db_evolves (w_db w1) (w_db w2)) :
  (∀ h t acc', (run (accounts_Authenticate id h t) w2).1 ≠ Ok acc') ∧
  (∀ acc', (run (accounts_GetByID id) w2).1 = Ok acc' → is_Some (ac_DisabledAt acc')) ∧
  (∀ cid h t, (run (accounts_RotateCredential id cid h t) w2).1 ≠ Ok tt).
Proof.
  assert (db_ok (w_db w1)) as Hok1.
  { pose proof (guarantees_run _ _ w (accounts_Disable_effect id now)) as [_ [_ H]].
    rewrite Hrun in H. by apply H. }
  destruct Hreach as [Hle Hok2]. specialize (Hok2 Hok1).
  destruct (Disable_inv _ _ _ _ _ Hrun) as [(a & Ha & Hid) Hdb].
  assert (∃ a2, a2 ∈ db_service_accounts (w_db w2) ∧ sa_ID a2 = id ∧ account_live a2 = false)
    as (a2 & Ha2 & Hid2 & Hl2).
  { assert (∃ a1, a1 ∈ db_service_accounts (w_db w1) ∧ sa_ID a1 = id ∧ account_live a1 = false)
      as (a1 & Ha1 & Hid1 & Hl1).
    { rewrite Hdb. simpl. eexists. split; [apply elem_of_map_if; by exists a|].
      destruct (bool_decide (sa_ID a = id) && account_live a) eqn:Hp; [done|]. split; [done|].
      by rewrite bool_decide_eq_true_2 in Hp. }
    destruct (account_later _ _ _ Hle Ha1) as (a2 & Ha2 & H1 & _ & _ & _ & Hfr).
    exists a2. rewrite (Hfr Hl1) in *. done. }
  assert (∀ y, y ∈ db_service_accounts (w_db w2) → sa_ID y = id → y = a2) as Huniq.
  { intros y Hy Hidy. apply (NoDup_fmap_inj sa_ID (db_service_accounts (w_db w2))); [apply Hok2|done..|].
    congruence. }
  split; [|split].
  - intros h t acc' H. apply Authenticate_Ok_inv in H as (b & c & Hb & _ & Hidb & Hlb & _).
    by rewrite (Huniq b Hb Hidb), Hl2 in Hlb.
  - intros acc'. unfold accounts_GetByID. rewrite run_catch. unfold select_account.
    rewrite db_read_run. destruct (env_fault (w_step w2)); [by simpl|].
    rewrite (query_row_unique _ _ a2); [|done|by apply bool_decide_eq_true|].
    + cbn [run fst]. intros (_ & _ & ->)%decode_account_ID.
      unfold account_live in Hl2. destruct (sa_DisabledAt a2); [by eexists|done].
    + intros y Hy Hp%bool_decide_eq_true. by apply Huniq.
  - intros cid h t Hr. destruct (run (accounts_RotateCredential id cid h t) w2) as [[[]|] w3] eqn:H;
      [|done]. apply Rotate_inv in H as [(b & Hb & Hidb & Hlb) _].
    by rewrite (Huniq b Hb Hidb), Hl2 in Hlb.
Qed.

Lemma accounts_Bootstrap_inv record ifNotExists force w res w1
    (Hrun : run (accounts_Bootstrap record ifNotExists force) w = (res, w1)) :
  let name := ac_Name (br_Account record) in
  (w_db w1 = w_db w ∨ bootstrapped record (w_db w) (w_db w1)) ∧
  (∀ a, res = Ok (a, true) →
     a = br_Account record ∧ bootstrapped record (w_db w) (w_db w1) ∧
     (force = true ∨ ¬ marked (w_db w)) ∧
     (∀ row, row ∈ db_service_accounts (w_db w) → sa_Name row ≠ name)) ∧
  (∀ a, res = Ok (a, false) →
     w_db w1 = w_db w ∧ ifNotExists = true ∧
     ∃ row, row ∈ db_service_accounts (w_db w) ∧ sa_Name row = name ∧ decode_account row None = Ok a).
Proof.
  unfold accounts_Bootstrap, transaction in Hrun. cbn [run act] in Hrun.
  destruct (run _ _) as [r t] eqn:Hr. injection Hrun as -> <-. simpl.
  rewrite run_catch in Hr.
  destruct (run tx_BeginTx _) as [b1 t1] eqn:H1.
  assert (tx_db t1 = w_db w ∧ tx_committed t1 = w_db w) as [Hd1 Hc1]
    by (simpl in H1; destruct (env_fault _); by simplify_eq).
  destruct b1 as [[]|e1]; [|injection Hr as <- <-; rewrite Hc1; naive_solver].
  rewrite run_try in Hr. unfold findServiceAccountByName in Hr. rewrite run_catch in Hr.
  set (m2 := tx_stmt (select_account_by_name _)) in Hr.
  pose proof (guarantees_run _ _ t1 (tx_stmt_uncommitted _ : guarantees tx_uncommitted m2)) as U2.
  assert (tx_db (run m2 t1).2 = tx_db t1) as Hd2 by (simpl; by destruct (env_fault _)).
  destruct (run m2 t1) as [[row|e] t2] eqn:H2; unfold tx_uncommitted in U2; simpl in U2, Hd2.
  { apply tx_stmt_Ok_inv in H2 as [H2 _]. injection H2 as H2 _. rewrite Hd1 in H2.
    apply query_row_Ok in H2 as [Hrow Hname%bool_decide_eq_true].
    destruct (decode_account row None) as [acc|] eqn:Hdec; simpl in Hr;
      [destruct ifNotExists|]; injection Hr as <- <-; rewrite U2, Hc1; naive_solver. }
  destruct (errors_Is e sql_ErrNoRows) eqn:He; cbn [run wrap_with] in Hr;
    [|injection Hr as <- <-; rewrite U2, Hc1; naive_solver].
  assert (∀ row, row ∈ db_service_accounts (w_db w) → sa_Name row ≠ ac_Name (br_Account record)) as Hno.
  { intros row Hrow Hname. simpl in H2. destruct (env_fault (tx_step t1)) as [ft|].
    - injection H2 as <- _. by rewrite errors_Is_New in He.
    - injection H2 as H2 _. rewrite Hd1 in H2. unfold query_row in H2.
      destruct (find _ (db_service_accounts _)) eqn:Hf; [done|].
      apply (find_None_elem _ _ row Hf) in Hrow. by rewrite bool_decide_eq_true_2 in Hrow. }
  rewrite run_mbind in Hr. set (m3 := tx_stmt (select_state _)) in Hr.
  pose proof (guarantees_run _ _ t2 (tx_stmt_uncommitted _ : guarantees tx_uncommitted m3)) as U3.
  assert (tx_db (run m3 t2).2 = tx_db t2) as Hd3 by (simpl; by destruct (env_fault _)).
  destruct (run m3 t2) as [mk t3] eqn:H3. unfold tx_uncommitted in U3; simpl in U3, Hd3.
  assert (∀ m, run (bootstrap_insert record) t3 = (res, t) → m →
    (tx_committed t = w_db w ∨ bootstrapped record (w_db w) (tx_committed t)) ∧
    (∀ a, res = Ok (a, true) → a = br_Account record ∧ bootstrapped record (w_db w) (tx_committed t) ∧ m ∧
      (∀ row, row ∈ db_service_accounts (w_db w) → sa_Name row ≠ ac_Name (br_Account record))) ∧
    (∀ a, res = Ok (a, false) → False)) as Hins.
  { intros m Hb Hm. apply bootstrap_insert_inv in Hb as [Hat HOk].
    rewrite Hd3, Hd2, Hd1, U3, U2, Hc1 in *. split; [done|]. split.
    - intros a Ha. destruct (HOk _ _ Ha) as (-> & _ & ?). done.
    - intros a Ha. by destruct (HOk _ _ Ha) as (_ & ? & _). }
  destruct mk as [s|e3].
  - destruct force; [|injection Hr as <- <-; rewrite U3, U2, Hc1; naive_solver].
    destruct (Hins (true = true ∨ ¬ marked (w_db w)) Hr) as (H4 & H5 & H6); [by left|].
    split; [exact H4|split; [exact H5|intros a Ha; by destruct (H6 a Ha)]].
  - destruct (errors_Is e3 sql_ErrNoRows) eqn:He3; [|injection Hr as <- <-; rewrite U3, U2, Hc1; naive_solver].
    destruct (Hins (force = true ∨ ¬ marked (w_db w)) Hr) as (H4 & H5 & H6);
      [|split; [exact H4|split; [exact H5|intros a Ha; by destruct (H6 a Ha)]]].
    right. intros (s & Hs & Hk). simpl in H3. destruct (env_fault (tx_step t2)) as [ft|].
    + injection H3 as <- _. by rewrite errors_Is_New in He3.
    + injection H3 as H3 _. rewrite Hd2, Hd1 in H3. unfold query_row in H3.
      destruct (find _ (db_system_state _)) eqn:Hf; [done|].
      apply (find_None_elem _ _ s Hf) in Hs. by rewrite bool_decide_eq_true_2 in Hs.
Qed.
(** C36.  Bootstrap is atomic and guarded.  Whatever fails on the way, the
    database is left as it was or with all four rows of the bootstrap; it
    reports a new account only when all of them are in place, no account had the
    name, and the installation had not been bootstrapped before unless forced;
    it reports an existing account only when asked to, and changes nothing then. *)
Theorem bootstrap_atomic_and_guarded record ifNotExists force w res w1
    (Hrun : run (accounts_Bootstrap record ifNotExists force) w = (res, w1)) :
  let name := ac_Name (br_Account record) in
  (w_db w1 = w_db w ∨ bootstrapped record (w_db w) (w_db w1)) ∧
  (∀ a, res = Ok (a, true) →
     a = br_Account record ∧ bootstrapped record (w_db w) (w_db w1) ∧
     (force = true ∨ ¬ marked (w_db w)) ∧
     (∀ row, row ∈ db_service_accounts (w_db w) → sa_Name row ≠ name)) ∧
  (∀ a, res = Ok (a, false) →
     w_db w1 = w_db w ∧ ifNotExists = true ∧
     ∃ row, row ∈ db_service_accounts (w_db w) ∧ sa_Name row = name ∧ decode_account row None = Ok a).
Proof.
  exact (accounts_Bootstrap_inv record ifNotExists force w res w1 Hrun).
Qed.
End properties.

(** ** Closed instances *)

Section instances.
#[local] Existing Instance calm.

Definition sample_record : BootstrapRecord :=
  mkBootstrapRecord (mkAccount "isa_ops" "ops" ["identra.admin"] 0 None) "iac_1" "hash-1".

(** A server bootstrapped with one account. *)
Definition with_ops : World := (run (accounts_Bootstrap sample_record false false) calm_world).2.

Lemma with_ops_ok : db_ok (w_db with_ops).
Proof.
  exact (proj2 (de_grows _ _ (guarantees_run _ _ calm_world
    (accounts_Bootstrap_effect sample_record false false))) empty_db_ok).
Qed.

Lemma rotation_replaces_credential_witness :
  let w1 := (run (accounts_RotateCredential "isa_ops" "iac_2" "hash-2" 5) with_ops).2 in
  (∀ acc, (run (accounts_Authenticate "isa_ops" "hash-1" 7) w1).1 ≠ Ok acc) ∧
  is_Ok (run (accounts_Authenticate "isa_ops" "hash-2" 7) w1).1 = true.
Proof.
  intros w1. destruct (rotation_replaces_credential "isa_ops" "iac_2" "hash-2" 5 with_ops w1
    with_ops_ok (surjective_pairing _)) as (_ & Hold & _).
  split; [|by vm_compute]. intros acc.
  apply (Hold w1 7 acc (reflexivity _)
    (mkServiceAccountCredential "iac_1" "isa_ops" "hash-1" 0 None None)); [by left|done].
Defined.

Lemma disabled_account_is_final_witness :
  let r := run (accounts_Disable "isa_ops" 5) with_ops in
  is_Ok r.1 = true ∧ (∀ acc, (run (accounts_Authenticate "isa_ops" "hash-1" 7) r.2).1 ≠ Ok acc).
Proof.
  intros r. assert (is_Ok r.1 = true) as Hr by (by vm_compute). split; [done|].
  destruct r as [[acc|] w1] eqn:Heq; [|done]. intros acc'.
  exact (proj1 (disabled_account_is_final "isa_ops" 5 with_ops acc w1 w1 with_ops_ok Heq
    (reflexivity _)) _ _ _).
Defined.

Lemma bootstrap_atomic_and_guarded_witness :
  let r := run (accounts_Bootstrap sample_record true false) with_ops in
  is_Ok r.1 = true ∧ w_db r.2 = w_db with_ops.
Proof.
  intros r. assert ((match r.1 with Ok (_, false) => true | _ => false end) = true) as Hr
    by (by vm_compute).
  destruct r as [[[a []]|] w1] eqn:Heq; try done. split; [done|].
  exact (proj1 (proj2 (proj2 (bootstrap_atomic_and_guarded sample_record true false with_ops
    (Ok (a, false)) w1 Heq)) a eq_refl)).
Defined.
End instances.
