(* ===== verification/SqliteAudit.v ===== *)
(** * Audit events in SQLite, internal/store/sqlite/audit.go *)

From S2P Require Import Prelude GoStrings Prog Data Platform RefPlatform SqliteQueries KeyManager.
From S2P Require Import World Tokens Interfaces SqliteStores.
#[local] Open Scope Z_scope.

Section store.
Context `{P : Platform}.

Definition audit_row (event : AuditEvent) : AuditRow :=
  mkAuditRow (ae_ID event) (ae_OccurredAt event) (ae_ActorType event) (ae_ActorID event)
    (ae_Action event) (ae_ResourceType event) (ae_ResourceID event)
    (json_Marshal_map (ae_Metadata event)).

Definition audit_Record (event : AuditEvent) : M (result unit) :=
  try _ := db_call (insert_audit (audit_row event)) catch wrap_with "record audit event" in
  Ret (Ok tt).

Definition decode_event (row : AuditRow) : result AuditEvent :=
  match json_Unmarshal_map (ar_Metadata row) with
  | Err err => Err (fmt_Errorf "decode audit metadata" err)
  | Ok metadata =>
      Ok (mkAuditEvent (ar_ID row) (ar_OccurredAt row) (ar_ActorType row) (ar_ActorID row)
            (ar_Action row) (ar_ResourceType row) (ar_ResourceID row) metadata)
  end.

Fixpoint decode_events (rows : list AuditRow) : result (list AuditEvent) :=
  match rows with
  | [] => Ok []
  | row :: rest => event ← decode_event row; events ← decode_events rest; Ok (event :: events)
  end.

Definition audit_List (offset limit : Z) : M (result (list AuditEvent)) :=
  try rows := db_query (select_audit limit offset) catch wrap_with "list audit events" in
  Ret (decode_events rows).

Definition sqlite_audit : AuditStore := mkAuditStore audit_Record audit_List.

Lemma audit_Record_effect e : guarantees db_effect (audit_Record e).
Proof. unfold audit_Record. guarantees_tac. Qed.

Lemma audit_List_clock o l : guarantees clock_only (audit_List o l).
Proof. unfold audit_List. guarantees_tac. Qed.

(** Decoding keeps the order, and one event that does not decode spoils all. *)
Lemma decode_events_fmap rows events :
  Forall2 (λ r e, decode_event r = Ok e) rows events → decode_events rows = Ok events.
Proof.
  induction 1 as [|r e rows events Hr _ IH]; [done|]. simpl. rewrite Hr. simpl. by rewrite IH.
Qed.

(** A row that was recorded decodes to the event it was recorded from. *)
Lemma decode_audit_row e :
  map_Forall (λ k v, json_safe k ∧ json_safe v) (ae_Metadata e) →
  decode_event (audit_row e) = Ok e.
Proof.
  intros He. unfold decode_event, audit_row. simpl. rewrite json_map_roundtrip by done.
  by destruct e.
Qed.

Lemma audit_Record_inv e w w' :
  run (audit_Record e) w = (Ok tt, w') →
  w_db w' = set_audit_events (db_audit_events (w_db w) ++ [audit_row e]) (w_db w).
Proof.
  unfold audit_Record. rewrite run_catch.
  destruct (run (db_call _) w) as [[[]|] w1] eqn:H; [|done]. intros [= <-].
  apply db_call_Ok_inv in H as (d & H & ->). unfold insert_audit in H.
  destruct (existsb _ _); [done|]. by injection H as <-.
Qed.
End store.

#[export] Hint Resolve audit_Record_effect audit_List_clock : go.
