(* ===== verification/App.v ===== *)
(** * Wiring, internal/app

    How the server puts its stores together (cache.go, oauth.go, stores.go,
    identra.go): the collaborators of the service for a given configuration, and
    the service of a sample configuration on the reference platform, used by the
    closed instances. *)

From S2P Require Import Prelude GoStrings Prog Data Config Migrations Messages Platform.
From S2P Require Import RefPlatform SqliteQueries KeyManager World Machine Tokens Interfaces.
From S2P Require Import RateLimiter Revocation EmailCode OAuthStates SqliteStores ServiceAccount.
From S2P Require Import SqliteAccounts SqliteAudit.
#[local] Open Scope Z_scope.

Section app.
Context `{P : Platform}.

(** internal/identra/config.go and service_accounts.go. *)
Definition DefaultOAuthStateExpiration : Z := 10 * time_Minute.
Definition DefaultAccessTokenExpiration : Z := 15 * time_Minute.
Definition DefaultRefreshTokenExpiration : Z := 7 * 24 * time_Hour.
Definition DefaultTokenIssuer : string := "identra".
Definition DefaultLoginMaxAttempts : Z := 5.
Definition DefaultLoginLockoutDuration : Z := 15 * time_Minute.
Definition DefaultSendCodeMaxAttempts : Z := 5.
Definition DefaultSendCodeWindow : Z := 1 * time_Hour.
Definition DefaultServiceTokenMaxAttempts : Z := 10.
Definition DefaultServiceTokenWindow : Z := 15 * time_Minute.

Definition buildGithubOAuthConfig (cfg : OAuthConfig) : OAuth2Config :=
  mkOAuth2Config (ocf_GithubClientID cfg) (ocf_GithubClientSecret cfg) ""
    ["read:user"; "user:email"].

Record redisDependencies := mkRedisDependencies {
  rd_emailCodeStore : EmailCodeStore;
  rd_oauthStateStore : OAuthStateStore;
  rd_loginRateLimiter : RateLimiter;
  rd_sendCodeRateLimiter : RateLimiter;
  rd_refreshTokenRevocations : RefreshTokenRevocationStore;
  rd_serviceTokenRateLimiter : RateLimiter;
}.

(** redis.NewRDB only fails when no URL is configured. *)
Definition NewRDB (cfg : RedisConfig) : result unit :=
  match rc_Urls cfg with
  | [] => Err (errors_New "redisclient: no redis hosts configured")
  | _ => Ok tt
  end.

Definition buildRedisDependencies (redisCfg : RedisConfig) (oauthCfg : OAuthConfig)
    : result redisDependencies :=
  _ ← wrapped_result "failed to initialize redis client" (NewRDB redisCfg);
  emailStore ← wrapped_result "failed to initialize email code store"
    (NewRedisEmailCodeStore (10 * time_Minute) true);
  let stateTTL := if ocf_StateExpirationDuration oauthCfg <=? 0 then DefaultOAuthStateExpiration
                  else ocf_StateExpirationDuration oauthCfg in
  oauthStore ← wrapped_result "failed to initialize oauth state store"
    (NewRedisOAuthStateStore stateTTL true);
  loginLimiter ← wrapped_result "failed to initialize login rate limiter"
    (NewRedisRateLimiter true "identra:rl:login:" DefaultLoginMaxAttempts
       DefaultLoginLockoutDuration);
  sendCodeLimiter ← wrapped_result "failed to initialize send-code rate limiter"
    (NewRedisRateLimiter true "identra:rl:send_code:" DefaultSendCodeMaxAttempts
       DefaultSendCodeWindow);
  refreshRevocations ← wrapped_result "failed to initialize refresh token revocation store"
    (NewRedisRefreshTokenRevocationStore true);
  serviceTokenLimiter ← wrapped_result "failed to initialize service-token rate limiter"
    (NewRedisRateLimiter true "identra:rl:service_token:" DefaultServiceTokenMaxAttempts
       DefaultServiceTokenWindow);
  Ok {|
    rd_emailCodeStore := redisEmailCodeStore_iface emailStore;
    rd_oauthStateStore := redis_states oauthStore;
    rd_loginRateLimiter := redisRateLimiter_iface loginLimiter;
    rd_sendCodeRateLimiter := redisRateLimiter_iface sendCodeLimiter;
    rd_refreshTokenRevocations := redisRefreshTokenRevocationStore refreshRevocations;
    rd_serviceTokenRateLimiter := redisRateLimiter_iface serviceTokenLimiter;
  |}.

(** The capabilities of this build. *)
Definition capabilities : list string :=
  ["auth.password"; "auth.email_code"; "auth.oauth.github"; "service_accounts";
   "user_management"; "audit_events"].

Definition buildServerInfo (version commit date : string) : ServerInfo :=
  mkServerInfo version commit date CurrentSchemaVersion capabilities.

(** The stores of stores.go, with the function that closes their database. *)
Record Stores := mkStores {
  st_users : UserStore;
  st_identities : ExternalIdentityStore;
  st_accounts : ServiceAccountStore;
  st_audit : AuditStore;
  st_cleanup : MM (result unit);
}.

(** What buildStores returns once the database is open. *)
Definition sqlite_stores : Stores :=
  mkStores sqlite_users sqlite_identities sqlite_accounts sqlite_audit db_Close.

(** The dependencies buildIdentraDependencies returns, once the database is
    open, the keys are loaded and the configured account is bootstrapped. *)
Definition assemble (stores : Stores) (redisDeps : redisDependencies) (oauthCfg : OAuthConfig)
    (tokenConfig : TokenConfig) (mailer : option EmailSender) (info : ServerInfo)
    : Dependencies := {|
  d_UserStore := Some (st_users stores);
  d_ExternalIdentityStore := Some (st_identities stores);
  d_ServiceAccountStore := Some (st_accounts stores);
  d_KeyManager := true;
  d_TokenConfig := tokenConfig;
  d_OAuthStateStore := Some (rd_oauthStateStore redisDeps);
  d_EmailCodeStore := Some (rd_emailCodeStore redisDeps);
  d_GithubOAuthConfig := Some (buildGithubOAuthConfig oauthCfg);
  d_OAuthFetchEmailIfMissing := ocf_FetchEmailIfMissing oauthCfg;
  d_Mailer := mailer;
  d_UserStoreCleanup := Some (st_cleanup stores);
  d_LoginRateLimiter := Some (rd_loginRateLimiter redisDeps);
  d_SendCodeRateLimiter := Some (rd_sendCodeRateLimiter redisDeps);
  d_RefreshTokenRevocations := Some (rd_refreshTokenRevocations redisDeps);
  d_ServiceTokenRateLimiter := Some (rd_serviceTokenRateLimiter redisDeps);
  d_AuditStore := Some (st_audit stores);
  d_ServerInfo := info;
|}.

(** bootstrapServiceAccount: at every start, when configured. *)
Definition bootstrapServiceAccount (cfg : BootstrapConfig) (store : ServiceAccountStore)
    : M (result unit) :=
  if negb (bc_Enabled cfg) then Ret (Ok tt) else
  try res := Bootstrap store (mkBootstrapRequest (bc_Name cfg) (bc_Scopes cfg) (bc_ClientID cfg)
                                (bc_ClientSecret cfg) true false)
    catch wrap_with "bootstrap configured service account" in
  if negb (EqualFold (ac_ID (bs_Account res)) (TrimSpace (bc_ClientID cfg)))
  then Ret (Err (errors_New ("bootstrap service account " +:+ Quote (bc_Name cfg) +:+
                             " already exists with a different client ID")))
  else Ret (Ok tt).

(** The stores a running server has. *)
Definition server_redis (oauthCfg : OAuthConfig) : redisDependencies := {|
  rd_emailCodeStore :=
    redisEmailCodeStore_iface (mkRedisEmailCodeStore (10 * time_Minute) "identra:email_code:");
  rd_oauthStateStore :=
    redis_states (mkRedisOAuthStateStore
      (if ocf_StateExpirationDuration oauthCfg <=? 0 then DefaultOAuthStateExpiration
       else ocf_StateExpirationDuration oauthCfg) "identra:oauth_state:");
  rd_loginRateLimiter :=
    redisRateLimiter_iface (mkRedisRateLimiter "identra:rl:login:" 5 DefaultLoginLockoutDuration);
  rd_sendCodeRateLimiter :=
    redisRateLimiter_iface (mkRedisRateLimiter "identra:rl:send_code:" 5 DefaultSendCodeWindow);
  rd_refreshTokenRevocations := redisRefreshTokenRevocationStore "identra:revoked_refresh:";
  rd_serviceTokenRateLimiter :=
    redisRateLimiter_iface (mkRedisRateLimiter "identra:rl:service_token:" 10
      DefaultServiceTokenWindow);
|}.

Lemma buildRedisDependencies_ok redisCfg oauthCfg :
  rc_Urls redisCfg ≠ [] → buildRedisDependencies redisCfg oauthCfg = Ok (server_redis oauthCfg).
Proof.
  intros Hurls. unfold buildRedisDependencies, server_redis, NewRDB.
  destruct (rc_Urls redisCfg) as [|u urls]; [done|]. simpl.
  destruct (Z.leb_spec (ocf_StateExpirationDuration oauthCfg) 0) as [|H]; [done|].
  unfold NewRedisOAuthStateStore. by rewrite (proj2 (Z.leb_gt _ _)).
Qed.
End app.

(** ** The sample server *)

Section sample.
#[local] Existing Instance calm.

Definition sample_oauth : OAuthConfig := mkOAuthConfig 0 "client" "secret" true.

(** A mail server that accepts everything. *)
Definition sample_mailer : EmailSender :=
  mkEmailSender (λ m, act (λ w, (Ok tt, tick (set_mail (m :: w_mail w) w)))).

Definition sample_service : Service := {|
  s_emailCodeStore := rd_emailCodeStore (server_redis sample_oauth);
  s_oauthStateStore := rd_oauthStateStore (server_redis sample_oauth);
  s_userStore := sqlite_users;
  s_externalIdentityStore := sqlite_identities;
  s_serviceAccountStore := sqlite_accounts;
  s_userStoreCleanup := Some db_Close;
  s_tokenCfg := sample_config;
  s_githubOAuthConfig := buildGithubOAuthConfig sample_oauth;
  s_oauthFetchEmailIfMissing := true;
  s_mailer := Some sample_mailer;
  s_loginRateLimiter := Some (rd_loginRateLimiter (server_redis sample_oauth));
  s_sendCodeRateLimiter := Some (rd_sendCodeRateLimiter (server_redis sample_oauth));
  s_refreshTokenRevocations := Some (rd_refreshTokenRevocations (server_redis sample_oauth));
  s_serviceTokenRateLimiter := Some (rd_serviceTokenRateLimiter (server_redis sample_oauth));
  s_auditStore := Some sqlite_audit;
  s_serverInfo := buildServerInfo "dev" "none" "unknown";
|}.

Lemma sample_mints n : mints (s_tokenCfg sample_service) n.
Proof. split; [intros i _; by eexists|done]. Qed.
End sample.
