(* ===== verification/ConfiguredBootstrap.v ===== *)
(** * The account the configuration bootstraps

    What internal/app/identra.go's bootstrapServiceAccount, run at every start,
    guarantees with the SQLite store: the configured client exists afterwards and
    can authenticate, and a restart changes nothing. *)

From S2P Require Import Prelude GoStrings Prog Data Config Platform RefPlatform SqliteQueries.
From S2P Require Import KeyManager World Tokens Interfaces SqliteStores ServiceAccount.
From S2P Require Import SqliteAccounts App.
#[local] Open Scope Z_scope.

Section bootstrap.
Context `{P : Platform}.

(** A record for a client identifier and a secret that were supplied. *)
Lemma newBootstrapRecord_inv req w r secret w' :
  TrimSpace (bq_ClientID req) ≠ "" →
  run (newBootstrapRecord req) w = (Ok (r, secret), w') →
  let account := br_Account r in
  clock_only w w' ∧ ac_ID account = TrimSpace (bq_ClientID req) ∧
  checked_name (bq_Name req) = Ok (ac_Name account) ∧
  normalizeScopes (bq_Scopes req) = Ok (ac_Scopes account) ∧ ac_DisabledAt account = None ∧
  br_SecretHash r = secretHash (TrimSpace (bq_ClientSecret req)) ∧
  TrimSpace (bq_ClientSecret req) ≠ "".
Proof.
  intros Hid. unfold newBootstrapRecord. rewrite (bool_decide_eq_false_2 (TrimSpace (bq_ClientID req) = _)) by done.
  cbn [andb orb]. case_bool_decide as Hsec; [done|].
  destruct (negb _); [done|]. destruct (_ <? 32); [done|]. destruct (512 <? _); [done|].
  rewrite run_try. cbn [run]. destruct (checked_name _) as [nm|]; [|done].
  rewrite run_try. cbn [run]. destruct (normalizeScopes _) as [sc|]; [|done]. rewrite run_catch.
  destruct (run (randomValue credentialIDPrefix _) w) as [[cid|] w1] eqn:H1; [|done].
  apply randomValue_inv in H1 as (-> & b1 & _ & ->). cbn. intros [= <- <- <-]. simpl.
  split_and!; try done. do 2 (etrans; [apply tick_closed|]). reflexivity.
Qed.

Lemma newBootstrapRecord_clock req : guarantees clock_only (newBootstrapRecord req).
Proof. unfold newBootstrapRecord, newRecord, randomValue, wrap_with. guarantees_tac. Qed.

(** The account a bootstrap made can authenticate with its secret. *)
Lemma bootstrapped_authenticates record scopes id secret db0 w1 w2 :
  db_ok (w_db w1) → bootstrapped record db0 (w_db w1) →
  ac_DisabledAt (br_Account record) = None →
  normalizeScopes scopes = Ok (ac_Scopes (br_Account record)) →
  TrimSpace id = ac_ID (br_Account record) → TrimSpace id ≠ "" →
  secretHash (TrimSpace secret) = br_SecretHash record → TrimSpace secret ≠ "" →
  w_db w2 = w_db w1 → env_fault (S (w_step w2)) = None →
  (run (Authenticate sqlite_accounts id secret) w2).1 = Ok (br_Account record).
Proof.
  intros Hg Hboot Hdis Hsc Hacid Hid Hhash Hsec Hw2 Hf. destruct Hboot as (_ & _ & Hacc & Hcred & _).
  unfold Authenticate. rewrite !bool_decide_eq_false_2 by done. cbn [orb].
  rewrite run_mbind. cbn [run act time_Now ss_Authenticate sqlite_accounts].
  rewrite Hacid, Hhash. set (a := br_Account record) in *.
  pose (row := mkServiceAccount (ac_ID a) (ac_Name a) (json_Marshal_strings (ac_Scopes a))
    (ac_CreatedAt a) (ac_CreatedAt a) None).
  pose (c := mkServiceAccountCredential (br_CredentialID record) (ac_ID a) (br_SecretHash record)
    (ac_CreatedAt a) None None).
  assert (row ∈ db_service_accounts (w_db (tick w2))) as Hin.
  { change (w_db (tick w2)) with (w_db w2). rewrite Hw2, Hacc. apply elem_of_app. right. by left. }
  assert (c ∈ db_credentials (w_db (tick w2))) as Hinc.
  { change (w_db (tick w2)) with (w_db w2). rewrite Hw2, Hcred. apply elem_of_app. right. by left. }
  assert (decode_account row None = Ok a) as Hdec.
  { unfold decode_account. cbn. rewrite json_strings_roundtrip by (by eapply normalized_json_safe).
    rewrite <-Hdis. by destruct a. }
  assert (credential_valid (cr_SecretHash c) (w_now w2) c = true) as Hcv.
  { unfold credential_valid. by rewrite bool_decide_eq_true_2. }
  assert (db_ok (w_db (tick w2))) as Hok2 by (by change (w_db (tick w2)) with (w_db w2); rewrite Hw2).
  exact (f_equal fst (Authenticate_run (ac_ID a) c row a (w_now w2) (tick w2) Hok2 Hf Hin eq_refl
    eq_refl Hinc eq_refl Hcv Hdec)).
Qed.

(** The request the configuration makes. *)
Definition request_of (cfg : BootstrapConfig) : BootstrapRequest :=
  mkBootstrapRequest (bc_Name cfg) (bc_Scopes cfg) (bc_ClientID cfg) (bc_ClientSecret cfg) true false.

Lemma bootstrap_Ok_inv cfg w w1 :
  bc_Enabled cfg = true → run (bootstrapServiceAccount cfg sqlite_accounts) w = (Ok tt, w1) →
  ∃ record secret w0 acc created,
    run (newBootstrapRecord (request_of cfg)) w = (Ok (record, secret), w0) ∧
    run (accounts_Bootstrap record true false) w0 = (Ok (acc, created), w1) ∧
    EqualFold (ac_ID acc) (TrimSpace (bc_ClientID cfg)) = true.
Proof.
  intros Hen. unfold bootstrapServiceAccount. rewrite Hen. cbn [negb]. fold (request_of cfg).
  rewrite run_catch. unfold Bootstrap. rewrite run_try.
  destruct (run (newBootstrapRecord _) w) as [[[record secret]|] w0] eqn:H0; [|done].
  rewrite run_try. cbn [ss_Bootstrap sqlite_accounts bq_IfNotExists bq_Force request_of].
  destruct (run (accounts_Bootstrap record true false) w0) as [[[acc created]|] w1'] eqn:H1; [|done].
  cbn [run bs_Account]. destruct (EqualFold _ _) eqn:He; [|done]. cbn. intros [= <-].
  by exists record, secret, w0, acc, created.
Qed.

Lemma newBootstrapRecord_db req w :
  w_db (run (newBootstrapRecord req) w).2 = w_db w.
Proof. apply (co_db _ _ (guarantees_run _ _ w (newBootstrapRecord_clock req))). Qed.

(** Once an account has the configured name, starting changes nothing. *)
Lemma bootstrap_named_unchanged cfg w row :
  db_ok (w_db w) → bc_Enabled cfg = true → TrimSpace (bc_ClientID cfg) ≠ "" →
  row ∈ db_service_accounts (w_db w) → sa_Name row = TrimSpace (bc_Name cfg) →
  w_db (run (bootstrapServiceAccount cfg sqlite_accounts) w).2 = w_db w.
Proof.
  intros Hok Hen Hid Hrow Hname. unfold bootstrapServiceAccount. rewrite Hen. cbn [negb].
  fold (request_of cfg). rewrite run_catch. unfold Bootstrap. rewrite run_try.
  pose proof (newBootstrapRecord_db (request_of cfg) w) as H0.
  destruct (run (newBootstrapRecord _) w) as [[[record secret]|] w0] eqn:Hrec; [|done].
  apply newBootstrapRecord_inv in Hrec as (_ & _ & Hn & _); [|done].
  apply checked_name_inv in Hn. cbn [snd] in H0.
  rewrite run_try. cbn [ss_Bootstrap sqlite_accounts bq_IfNotExists bq_Force request_of].
  destruct (run (accounts_Bootstrap record true false) w0) as [res w1] eqn:H1.
  assert (w_db w1 = w_db w) as Hw1.
  { pose proof (proj2 (de_grows _ _ (guarantees_run _ _ w0 (accounts_Bootstrap_effect record true false)))) as Hg.
    rewrite H1, H0 in Hg. specialize (Hg Hok).
    destruct (accounts_Bootstrap_inv _ _ _ _ _ _ H1) as ([Hsame|Hboot] & _); [congruence|].
    rewrite H0 in Hboot. destruct Hboot as (_ & _ & Hacc & _).
    pose proof (ok_accounts_name _ Hg) as Hnd. cbn [snd] in Hnd. rewrite Hacc, fmap_app in Hnd.
    apply NoDup_app in Hnd as (_ & Hdis & _). destruct (Hdis (sa_Name row)).
    - by apply list_elem_of_fmap_2.
    - cbn. rewrite Hname, Hn. by left. }
  destruct res as [[acc created]|]; [|done]. cbn. by destruct (negb _).
Qed.

(** C25.  A start with a bootstrap account configured succeeds only when that client
    exists: an account of the configured name whose identifier is the configured
    one, up to case.  The start that creates it makes the configured secret its
    credential, with the normalised scopes, while nothing had its name and no
    installation had been bootstrapped; every other start, such as a restart,
    leaves the database as it is. *)
Theorem configured_bootstrap cfg w w1 (Hok : db_ok (w_db w)) (Hvalid : valid_bootstrap cfg)
    (Hen : bc_Enabled cfg = true)
    (Hrun : run (bootstrapServiceAccount cfg sqlite_accounts) w = (Ok tt, w1)) :
  (∃ row, row ∈ db_service_accounts (w_db w1) ∧ sa_Name row = TrimSpace (bc_Name cfg) ∧
     EqualFold (sa_ID row) (TrimSpace (bc_ClientID cfg)) = true) ∧
  (w_db w1 = w_db w ∨
   ¬ marked (w_db w) ∧
   (∀ row, row ∈ db_service_accounts (w_db w) → sa_Name row ≠ TrimSpace (bc_Name cfg)) ∧
   ∀ w2, w_db w2 = w_db w1 → env_fault (S (w_step w2)) = None →
     ∃ acc, (run (Authenticate sqlite_accounts (bc_ClientID cfg) (bc_ClientSecret cfg)) w2).1 = Ok acc ∧
       ac_ID acc = TrimSpace (bc_ClientID cfg) ∧ normalizeScopes (bc_Scopes cfg) = Ok (ac_Scopes acc)) ∧
  (∀ w2, w_db w2 = w_db w1 →
     w_db (run (bootstrapServiceAccount cfg sqlite_accounts) w2).2 = w_db w2).
Proof.
  destruct (Hvalid Hen) as (_ & Hid & _). apply bool_decide_eq_false in Hid.
  pose proof (bootstrap_Ok_inv cfg w w1 Hen Hrun) as (record & secret & w0 & acc & created & H0 & H1 & Hfold).
  pose proof (newBootstrapRecord_db (request_of cfg) w) as Hdb0. rewrite H0 in Hdb0. cbn [snd] in Hdb0.
  apply newBootstrapRecord_inv in H0 as (_ & Hacid & Hn & Hsc & Hdis & Hhash & Hsec); [|done].
  apply checked_name_inv in Hn. cbn [request_of bq_Name bq_ClientID bq_ClientSecret bq_Scopes] in *.
  pose proof (proj2 (de_grows _ _ (guarantees_run _ _ w0 (accounts_Bootstrap_effect record true false)))) as Hg.
  rewrite H1, Hdb0 in Hg. specialize (Hg Hok). cbn [snd] in Hg.
  destruct (accounts_Bootstrap_inv _ _ _ _ _ _ H1) as (_ & Hnew & Hold). rewrite Hdb0 in *.
  assert (∃ row, row ∈ db_service_accounts (w_db w1) ∧ sa_Name row = TrimSpace (bc_Name cfg) ∧
    EqualFold (sa_ID row) (TrimSpace (bc_ClientID cfg)) = true) as Hrow.
  { destruct created.
    - destruct (Hnew acc eq_refl) as (-> & Hboot & _). destruct Hboot as (_ & _ & Hacc & _).
      eexists. rewrite Hacc. split; [apply elem_of_app; right; by left|]. cbn. by rewrite <-Hn.
    - destruct (Hold acc eq_refl) as (-> & _ & row & Hin & Hrn & Hdec). exists row.
      rewrite Hrn. split_and!; [done|done|]. by rewrite <-(proj1 (decode_account_ID _ _ _ Hdec)). }
  split; [done|]. split.
  2: { intros w2 Hw2. destruct Hrow as (row & Hin & Hrn & _).
       rewrite <-Hw2 in Hg, Hin. exact (bootstrap_named_unchanged _ _ row Hg Hen Hid Hin Hrn). }
  destruct created; [right|left; by apply (Hold acc)].
  destruct (Hnew acc eq_refl) as (-> & Hboot & Hmark & Hno).
  split; [by destruct Hmark|]. split; [intros row Hin; rewrite <-Hn; by apply Hno|].
  intros w2 Hw2 Hf. exists (br_Account record). split; [|by rewrite <-Hacid].
  eapply bootstrapped_authenticates; try done; congruence.
Qed.
End bootstrap.

(** ** Closed instances *)

Section instances.
#[local] Existing Instance calm.

Definition admin_config : BootstrapConfig :=
  mkBootstrapConfig true "platform-admin" ["identra.admin"] "platform-admin"
    "correct-horse-battery-staple-0123".

#[local] Notation first := (run (bootstrapServiceAccount admin_config sqlite_accounts) calm_world).

(** The first start of an installation. *)
Lemma configured_bootstrap_witness :
  length (db_service_accounts (w_db first.2)) = 1%nat ∧
  is_Ok (run (Authenticate sqlite_accounts "platform-admin" "correct-horse-battery-staple-0123") first.2).1
    = true.
Proof.
  assert (length (db_service_accounts (w_db first.2)) = 1%nat) as Hone by (by vm_compute).
  assert (is_Ok first.1 = true) as Hok by (by vm_compute). split; [exact Hone|].
  assert (valid_bootstrap admin_config) as Hvalid.
  { intros _. split; [by vm_compute|]. split; [by vm_compute|]. split; [by vm_compute|done]. }
  pose proof (empty_db_ok : db_ok (w_db calm_world)) as Hdb.
  pose proof (eq_refl : db_service_accounts (w_db calm_world) = []) as Hempty.
  generalize dependent calm_world. intros w Hone Hok Hdb Hempty.
  destruct (run (bootstrapServiceAccount admin_config sqlite_accounts) w) as [[[]|] w1]
    eqn:Hrun; [|discriminate Hok].
  destruct (configured_bootstrap admin_config w w1 Hdb Hvalid eq_refl Hrun)
    as (_ & [Hsame|(_ & _ & Hauth)] & _).
  - cbn [snd] in Hone. rewrite Hsame, Hempty in Hone. discriminate Hone.
  - destruct (Hauth w1 eq_refl eq_refl) as (acc & Hacc & _). cbn [snd].
    cbn [admin_config bc_ClientID bc_ClientSecret] in Hacc. by rewrite Hacc.
Defined.
End instances.
