(* ===== verification/Handlers.v ===== *)
(** * What the handlers share

    status.Error, the bearer token of a request (service_login_info.go), the
    keys of the rate limiters and their use (service_rate_limit.go), and the
    record of a login (service_user.go), with the lemmas about them. *)

From S2P Require Import Prelude GoStrings Prog Data Messages Platform RefPlatform SqliteQueries.
From S2P Require Import KeyManager World Tokens Interfaces RateLimiter SqliteStores.
From Stdlib Require Import Ascii.
#[local] Open Scope Z_scope.

Section shared.
Context `{P : Platform}.

(** status.Error. *)
Definition fail {A} (c : code) (msg : string) : M (result A) := Ret (Err (status_Error c msg)).

(** ** service_login_info.go: the caller's token *)

Definition bearerToken (header : string) : string :=
  match Fields (TrimSpace header) with
  | [scheme; token] => if negb (EqualFold scheme "Bearer") then "" else token
  | _ => ""
  end.

(** The first value of a list that maps to something. *)
Fixpoint first_nonempty {A} (f : A → string) (l : list A) : string :=
  match l with
  | [] => ""
  | a :: l => if (f a == "")%go then first_nonempty f l else f a
  end.

Definition accessTokenFromMetadata (ctx : Ctx) : string :=
  first_nonempty bearerToken (ValueFromIncomingContext ctx "authorization").

(** ** service_rate_limit.go *)

Definition firstHeaderValue (value : string) : string :=
  let value := TrimSpace value in
  if (value == "")%go then "" else
  TrimSpace (cut_before ","%char value).1.

Definition clientRateLimitIdentity (ctx : Ctx) : string :=
  first_nonempty
    (λ key, first_nonempty firstHeaderValue (ValueFromIncomingContext ctx key))
    ["x-forwarded-for"; "x-real-ip"; "x-client-id"].

Definition emailRateLimitKey (scope email : string) : string :=
  scope +:+ ":email:" +:+ ToLower (TrimSpace email).

Definition rateLimitKeys (ctx : Ctx) (scope email : string) : list string :=
  let client := clientRateLimitIdentity ctx in
  emailRateLimitKey scope email ::
  (if (client == "")%go then [] else [scope +:+ ":client:" +:+ client]).

Fixpoint rateLimitAllowed (limiter : RateLimiter) (keys : list string) : M (result bool) :=
  match keys with
  | [] => Ret (Ok true)
  | key :: keys =>
      try allowed := rl_IsAllowed limiter key in
      if negb allowed then Ret (Ok false) else rateLimitAllowed limiter keys
  end.

Fixpoint recordRateLimit (limiter : RateLimiter) (keys : list string) : M (result unit) :=
  match keys with
  | [] => Ret (Ok tt)
  | key :: keys =>
      try _ := rl_Record limiter key in
      recordRateLimit limiter keys
  end.

(** The checks the handlers make of a limiter that may be absent: an error of
    the limiter lets the request pass. *)
Definition allowed_or_open (limiter : option RateLimiter) (keys : list string) : M bool :=
  match limiter with
  | None => Ret true
  | Some limiter =>
      r ← rateLimitAllowed limiter keys;
      Ret (match r with Ok allowed => allowed | Err _ => true end)
  end.

(** Recording and resetting, with the error only logged. *)
Definition record_failure (limiter : option RateLimiter) (keys : list string) : M unit :=
  match limiter with
  | None => Ret tt
  | Some limiter => _ ← recordRateLimit limiter keys; Ret tt
  end.

Definition reset_failures (limiter : option RateLimiter) (key : string) : M unit :=
  match limiter with
  | None => Ret tt
  | Some limiter => _ ← rl_Reset limiter key; Ret tt
  end.

Variable s : Service.

(** ** service_user.go

    Logging aside, the outcome of the update is ignored. *)
Definition recordLogin (usr : UserModel) : M unit :=
  now ← time_Now;
  _ ← us_Update (s_userStore s) (mkUserModel (um_ID usr) (um_CreatedAt usr) (um_UpdatedAt usr)
        (um_Email usr) (um_HashedPassword usr) (um_VerificationHash usr) (Some now));
  Ret tt.
End shared.

(** ** Lemmas *)

Section lemmas.
Context `{P : Platform}.
Implicit Types (w : World) (s : Service).

Lemma run_fail {A} (c : code) msg w : run (fail c msg : M (result A)) w = (Err (status_Error c msg), w).
Proof. done. Qed.

(** A bearer token is never empty: a field holds a character. *)
Lemma first_nonempty_spec {A} (f : A → string) l :
  first_nonempty f l = "" ∨ ∃ a, a ∈ l ∧ first_nonempty f l = f a.
Proof.
  induction l as [|a l IH]; simpl; [by left|]. case_bool_decide as Ha.
  - destruct IH as [?|(b & Hb & ?)]; [by left|right]. exists b. by rewrite elem_of_cons; auto.
  - right. exists a. by rewrite elem_of_cons; auto.
Qed.

(** The counter of an address and that of a client are never the same. *)
Lemma emailRateLimitKey_not_client scope email client :
  emailRateLimitKey scope email ≠ scope +:+ ":client:" +:+ client.
Proof. unfold emailRateLimitKey. by intros H%string_app_inj_r. Qed.

Lemma rateLimitKeys_head ctx scope email :
  ∃ rest, rateLimitKeys ctx scope email = emailRateLimitKey scope email :: rest ∧
          Forall (λ k, k ≠ emailRateLimitKey scope email) rest.
Proof.
  unfold rateLimitKeys. eexists. split; [done|]. case_bool_decide as Hb; constructor; [|done].
  intros Hl. by destruct (emailRateLimitKey_not_client scope email (clientRateLimitIdentity ctx)).
Qed.

(** Effects: a limiter within [R] is used within [R]. *)
Section effects.
Variables (R : relation World) (limiter : RateLimiter).

Lemma rateLimitAllowed_guarantees keys :
  (∀ k, guarantees R (rl_IsAllowed limiter k)) → guarantees R (rateLimitAllowed limiter keys).
Proof.
  intros H. induction keys as [|k keys IH]; simpl; [constructor|].
  apply guarantees_try; [done|]. intros a. case_match; [constructor|done].
Qed.

Lemma recordRateLimit_guarantees keys :
  (∀ k, guarantees R (rl_Record limiter k)) → guarantees R (recordRateLimit limiter keys).
Proof.
  intros H. induction keys as [|k keys IH]; simpl; [constructor|].
  apply guarantees_try; [done|]. intros _. done.
Qed.
End effects.

(** A limiter that may be absent. *)
Definition limiter_within (pre : string) (limiter : option RateLimiter) : Prop :=
  ∀ l, limiter = Some l → LimiterSpec pre l.

Section limiter_effects.
Context pre limiter (Hl : limiter_within pre limiter).

Lemma allowed_or_open_clock keys : guarantees clock_only (allowed_or_open limiter keys).
Proof.
  unfold allowed_or_open. destruct limiter as [l|]; [|constructor].
  destruct (Hl l eq_refl). apply guarantees_mbind; [|constructor].
  by apply rateLimitAllowed_guarantees.
Qed.

Lemma record_failure_only keys : guarantees (redis_only pre) (record_failure limiter keys).
Proof.
  unfold record_failure. destruct limiter as [l|]; [|constructor].
  destruct (Hl l eq_refl). apply guarantees_mbind; [|constructor].
  by apply recordRateLimit_guarantees.
Qed.

Lemma reset_failures_only key : guarantees (redis_only pre) (reset_failures limiter key).
Proof.
  unfold reset_failures. destruct limiter as [l|]; [|constructor].
  destruct (Hl l eq_refl). apply guarantees_mbind; [done|constructor].
Qed.
End limiter_effects.

(** A key that is refused makes the check answer false or fail. *)
Lemma rateLimitAllowed_refused limiter k keys w w1 :
  run (rl_IsAllowed limiter k) w = (Ok false, w1) →
  run (rateLimitAllowed limiter (k :: keys)) w = (Ok false, w1).
Proof. intros H. simpl. rewrite run_try, H. done. Qed.

(** ** recordLogin on SQLite *)

(** Only the user's own row is touched, and only if it is live. *)
Definition touched (m : UserModel) (now : Z) (u : User) : User :=
  mkUser (u_ID u) (u_CreatedAt u) now (u_DeletedAt u) (um_Email m) (um_HashedPassword m)
    (um_VerificationHash m) (um_LastLoginAt m).

Lemma users_Update_run_db m w :
  w_db (run (users_Update m) w).2 = w_db w ∨
  ∃ now, w_db (run (users_Update m) w).2 =
    set_users (map_if (live_with_id (um_ID m)) (touched m now) (db_users (w_db w))) (w_db w).
Proof.
  unfold users_Update. rewrite run_mbind. cbn [run time_Now act]. rewrite run_catch.
  set (f := updateUser _ _ _ _ _ _).
  assert (∀ d, (f d).2 = d ∨ (f d).2 =
    set_users (map_if (live_with_id (um_ID m)) (touched m (w_now w)) (db_users d)) d) as Hf.
  { intros d. unfold f, updateUser. simpl. case_match; simpl; [by left|by right]. }
  assert (∀ r w1, run (db_call f) (tick w) = (r, w1) → w_db w1 = w_db w ∨ w_db w1 = (f (w_db w)).2)
    as Hcall.
  { intros r w1. simpl. destruct (f _) as [r' d']. simpl. unfold with_fault.
    destruct (env_fault _) as [[msg []]|]; intros [= _ <-]; simpl; auto. }
  destruct (run (db_call f) (tick w)) as [[n|] w1] eqn:Hc; specialize (Hcall _ _ eq_refl).
  - assert (w_db (run (if n =? 0 then Ret (Err identra_ErrNotFound) else
      Ret (Ok (mkUserModel (um_ID m) (um_CreatedAt m) (w_now w) (um_Email m) (um_HashedPassword m)
        (um_VerificationHash m) (um_LastLoginAt m)))) w1).2 = w_db w1) as -> by by case_match.
    destruct Hcall as [->| ->]; [by left|]. destruct (Hf (w_db w)) as [->| ->]; eauto.
  - simpl. destruct Hcall as [->| ->]; [by left|]. destruct (Hf (w_db w)) as [->| ->]; eauto.
Qed.

(** A login leaves its time in the user's row, at most. *)
Definition login_recorded (u : User) (d d' : DB) : Prop :=
  d' = d ∨ ∃ login now,
    d' = set_users (map_if (live_with_id (u_ID u))
           (λ v, mkUser (u_ID v) (u_CreatedAt v) now (u_DeletedAt v) (u_Email u)
                   (u_HashedPassword u) (u_Hash u) (Some login)) (db_users d)) d.

Lemma recordLogin_run s u w :
  s_userStore s = sqlite_users →
  login_recorded u (w_db w) (w_db (run (recordLogin s (userToDomain u)) w).2).
Proof.
  intros Hs. unfold recordLogin. rewrite Hs, run_mbind. cbn [run time_Now act].
  rewrite run_mbind. cbn [us_Update sqlite_users].
  set (m := mkUserModel _ _ _ _ _ _ _).
  pose proof (users_Update_run_db m (tick w)) as H.
  destruct (run (users_Update m) (tick w)) as [r w1]. simpl in *.
  destruct H as [->|(now & ->)]; [by left|]. right. by exists (w_now w), now.
Qed.

(** The user is still there after it, with the same credentials. *)
Lemma login_recorded_row u d d' :
  login_recorded u d d' → u ∈ db_users d → user_live u = true →
  ∃ v, v ∈ db_users d' ∧ user_live v = true ∧ u_ID v = u_ID u ∧ u_Email v = u_Email u ∧
       u_HashedPassword v = u_HashedPassword u.
Proof.
  intros [->|(login & now & ->)] Hu Hl; [by exists u|]. simpl.
  eexists. split; [apply elem_of_map_if; by exists u|]. unfold live_with_id.
  by rewrite bool_decide_eq_true_2, Hl.
Qed.

Lemma recordLogin_effect s m :
  s_userStore s = sqlite_users → guarantees db_effect (recordLogin s m).
Proof. intros Hs. unfold recordLogin. rewrite Hs. cbn [us_Update sqlite_users]. guarantees_tac. Qed.
End lemmas.

Definition no_ctx : Ctx := mkCtx [].

#[export] Hint Resolve rateLimitAllowed_guarantees recordRateLimit_guarantees : go.
