(* ===== verification/PasswordLogin.v ===== *)
(** * Password login, internal/identra/service_password.go

    Registration and login with a password: a login succeeds only for a live
    user whose stored hash the password verifies against; what was registered
    can log in; and the number of wrong guesses per address and window is
    bounded. *)

From S2P Require Import Prelude GoStrings Prog Data Messages Platform RefPlatform SqliteQueries.
From S2P Require Import KeyManager World Password Tokens Interfaces RateLimiter SqliteStores App.
From S2P Require Import Handlers.
#[local] Open Scope Z_scope.

Section handlers.
Context `{P : Platform}.
Variable s : Service.

Definition no_tokens : string := "failed to create token pair".

Definition RegisterWithPassword (ctx : Ctx) (req : RegisterWithPasswordRequest)
    : M (result RegisterWithPasswordResponse) :=
  let email := TrimSpace (rwp_Email req) in
  let password := rwp_Password req in
  if ((email == "") || (password == ""))%go
  then fail InvalidArgument "email and password are required" else
  found ← us_GetByEmail (s_userStore s) email;
  match found with
  | Ok _ => fail AlreadyExists "user already exists"
  | Err err =>
      if negb (errors_Is err identra_ErrNotFound) then fail Internal "failed to fetch user" else
      try hash := HashPassword password
        catch (λ _, fail Internal "failed to process password") in
      try usr := us_Create (s_userStore s)
                   (mkUserModel "" time_zero time_zero email (Some hash) None None)
        catch (λ createErr,
          if errors_Is createErr identra_ErrAlreadyExists
          then fail AlreadyExists "user already exists"
          else fail Internal "failed to create user") in
      _ ← recordLogin s usr;
      try tokenPair := NewTokenPair (um_ID usr) (s_tokenCfg s)
        catch (λ _, fail Internal no_tokens) in
      Ret (Ok (mkRegisterWithPasswordResponse tokenPair))
  end.

Definition LoginWithPassword (ctx : Ctx) (req : LoginWithPasswordRequest)
    : M (result LoginWithPasswordResponse) :=
  let email := TrimSpace (lwp_Email req) in
  let password := lwp_Password req in
  if ((email == "") || (password == ""))%go
  then fail InvalidArgument "email and password are required" else
  allowed ← allowed_or_open (s_loginRateLimiter s) (rateLimitKeys ctx "login" email);
  if negb allowed
  then fail ResourceExhausted "too many failed attempts, please try again later" else
  try usr := us_GetByEmail (s_userStore s) email
    catch (λ err,
      if errors_Is err identra_ErrNotFound then fail NotFound "user not found"
      else fail Internal "failed to fetch user") in
  match um_HashedPassword usr with
  | None => fail FailedPrecondition "password login not set up for this account"
  | Some hash =>
      try valid := Ret (VerifyPassword password hash)
        catch (λ _, fail Internal "failed to verify password") in
      if negb valid then
        _ ← record_failure (s_loginRateLimiter s) (rateLimitKeys ctx "login" email);
        fail Unauthenticated "invalid credentials"
      else
        _ ← reset_failures (s_loginRateLimiter s) (emailRateLimitKey "login" email);
        _ ← recordLogin s usr;
        try tokenPair := NewTokenPair (um_ID usr) (s_tokenCfg s)
          catch (λ _, fail Internal no_tokens) in
        Ret (Ok (mkLoginWithPasswordResponse tokenPair))
  end.
End handlers.

Section lemmas.
Context `{P : Platform}.
Context (s : Service) (Hs : s_userStore s = sqlite_users).
Implicit Types (w : World).

(** What a login answers once the tokens are attempted. *)
Definition login_answer (r : result TokenPair) : result LoginWithPasswordResponse :=
  match r with
  | Ok p => Ok (mkLoginWithPasswordResponse p)
  | Err _ => Err (status_Error Internal no_tokens)
  end.

Definition locked_out : result LoginWithPasswordResponse :=
  Err (status_Error ResourceExhausted "too many failed attempts, please try again later").
Definition invalid_credentials {A} : result A :=
  Err (status_Error Unauthenticated "invalid credentials").
Definition guess_failed (a : result LoginWithPasswordResponse) : bool :=
  match a with
  | Err e => bool_decide (Err e = (invalid_credentials : result unit))
  | Ok _ => false
  end.

Lemma Login_locked ctx req w w1 :
  TrimSpace (lwp_Email req) ≠ "" → lwp_Password req ≠ "" →
  run (allowed_or_open (s_loginRateLimiter s)
         (rateLimitKeys ctx "login" (TrimSpace (lwp_Email req)))) w = (false, w1) →
  run (LoginWithPassword s ctx req) w = (locked_out, w1).
Proof.
  intros He Hp Hg. unfold LoginWithPassword. rewrite !bool_decide_eq_false_2 by done.
  simpl. by rewrite run_mbind, Hg.
Qed.

(** A login whose gate is open, on a database that answers, for a user with a
    password. *)
Lemma Login_open ctx req w w1 u hash :
  TrimSpace (lwp_Email req) ≠ "" → lwp_Password req ≠ "" →
  let keys := rateLimitKeys ctx "login" (TrimSpace (lwp_Email req)) in
  run (allowed_or_open (s_loginRateLimiter s) keys) w = (true, w1) →
  env_fault (w_step w1) = None →
  find (live_with_email (TrimSpace (lwp_Email req))) (db_users (w_db w1)) = Some u →
  u_HashedPassword u = Some hash →
  run (LoginWithPassword s ctx req) w =
    match VerifyPassword (lwp_Password req) hash with
    | Err _ => (Err (status_Error Internal "failed to verify password"), tick w1)
    | Ok false =>
        (invalid_credentials, (run (record_failure (s_loginRateLimiter s) keys) (tick w1)).2)
    | Ok true =>
        let w2 := (run (reset_failures (s_loginRateLimiter s)
                     (emailRateLimitKey "login" (TrimSpace (lwp_Email req)))) (tick w1)).2 in
        let w3 := (run (recordLogin s (userToDomain u)) w2).2 in
        let '(r, w4) := run (NewTokenPair (u_ID u) (s_tokenCfg s)) w3 in
        (login_answer r, w4)
    end.
Proof.
  intros He Hp keys Hg Hf Hu Hh. unfold LoginWithPassword. rewrite !bool_decide_eq_false_2 by done.
  simpl orb. cbv iota. fold keys. rewrite run_mbind, Hg. simpl negb. cbv iota.
  rewrite run_catch, Hs. cbn [us_GetByEmail sqlite_users]. rewrite users_GetByEmail_run, Hf, Hu.
  simpl um_HashedPassword. rewrite Hh, run_catch. cbn [run].
  destruct (VerifyPassword _ _) as [[|]|]; [| |done]; simpl negb; cbv iota.
  - rewrite run_mbind. destruct (run (reset_failures _ _) _) as [[] w2]. rewrite run_mbind.
    cbn [snd]. destruct (run (recordLogin _ _) w2) as [[] w3]. rewrite run_catch. cbn [snd].
    by destruct (run (NewTokenPair _ _) w3) as [[p|] w4].
  - rewrite run_mbind. by destruct (run (record_failure _ _) _) as [[] w2].
Qed.

(** The database keeps a user: still alive, with the same address and password. *)
Definition user_kept (u : User) (d : DB) : Prop :=
  ∃ u', u' ∈ db_users d ∧ user_live u' = true ∧ u_ID u' = u_ID u ∧ u_Email u' = u_Email u ∧
    u_HashedPassword u' = u_HashedPassword u.

(** The answer to each candidate password, for a user whose password is
    stored. *)
Lemma Login_stored pre ctx email candidate password salt u w :
  limiter_within pre (s_loginRateLimiter s) → db_ok (w_db w) →
  user_kept u (w_db w) → u_Email u = TrimSpace email →
  u_HashedPassword u = Some (stored_hash password salt) → String.length salt = 16%nat →
  TrimSpace email ≠ "" → candidate ≠ "" →
  (∀ i, (w_step w ≤ i)%nat → env_fault i = None) → mints (s_tokenCfg s) (w_step w) →
  (run (allowed_or_open (s_loginRateLimiter s)
          (rateLimitKeys ctx "login" (TrimSpace email))) w).1 = true →
  let login := run (LoginWithPassword s ctx (mkLoginWithPasswordRequest email candidate)) w in
  if (argon2_default candidate salt == argon2_default password salt)%go
  then ∃ pair v, login.1 = Ok (mkLoginWithPasswordResponse pair) ∧
         run (NewTokenPair (u_ID u) (s_tokenCfg s)) v = (Ok pair, login.2)
  else login.1 = invalid_credentials.
Proof.
  intros Hl Hok (u' & Hu & Hul & Hid & Hue' & Hh') Hue Hh Hsalt He Hcand Hf Hm Hopen.
  pose proof (guarantees_run _ _ w (allowed_or_open_clock _ _ Hl
    (rateLimitKeys ctx "login" (TrimSpace email)))) as Hg.
  destruct (run (allowed_or_open _ _) w) as [a w4] eqn:Hgate. cbn [fst snd] in *. subst a.
  cbv zeta. rewrite (Login_open ctx _ w w4 u' (stored_hash password salt));
    cbn [lwp_Email lwp_Password]; try done.
  - rewrite VerifyPassword_stored by done. case_bool_decide; [|done]. cbv zeta. rewrite <-Hid.
    pose proof (guarantees_run _ _ (tick w4) (reset_failures_only _ _ Hl
      (emailRateLimitKey "login" (TrimSpace email)))) as Hro.
    set (w5 := (run (reset_failures _ _) _).2) in *.
    pose proof (guarantees_run _ _ w5 (recordLogin_effect s (userToDomain u') Hs)) as [Hd _].
    set (w6 := (run (recordLogin _ _) _).2) in *.
    destruct (NewTokenPair_mints (u_ID u') (s_tokenCfg s) w6) as (pair & w7 & Hpair).
    { apply (mints_later _ (w_step w)); [|done]. pose proof (co_step _ _ Hg).
      pose proof (ro_step _ _ _ Hro) as H1. pose proof (do_step _ _ Hd). simpl in H1. lia. }
    rewrite Hpair. by exists pair, w6.
  - apply Hf, Hg.
  - rewrite <-Hue, <-Hue', (co_db _ _ Hg). by apply find_live_email.
  - congruence.
Qed.

(** The rest of the outcomes end right after the user was looked up. *)
Lemma Login_cases ctx req w :
  run (LoginWithPassword s ctx req) w =
    (Err (status_Error InvalidArgument "email and password are required"), w) ∨
  ∃ allowed w1,
    TrimSpace (lwp_Email req) ≠ "" ∧ lwp_Password req ≠ "" ∧
    run (allowed_or_open (s_loginRateLimiter s)
           (rateLimitKeys ctx "login" (TrimSpace (lwp_Email req)))) w = (allowed, w1) ∧
    (allowed = false ∧ run (LoginWithPassword s ctx req) w = (locked_out, w1) ∨
     allowed = true ∧ (∃ e, run (LoginWithPassword s ctx req) w = (Err e, tick w1) ∧
                            guess_failed (Err e) = false) ∨
     allowed = true ∧ ∃ u hash, env_fault (w_step w1) = None ∧
       find (live_with_email (TrimSpace (lwp_Email req))) (db_users (w_db w1)) = Some u ∧
       u_HashedPassword u = Some hash).
Proof.
  destruct (decide (TrimSpace (lwp_Email req) = "")) as [He|He];
    [left; unfold LoginWithPassword; by rewrite (bool_decide_eq_true_2 _ He)|].
  destruct (decide (lwp_Password req = "")) as [Hp|Hp];
    [left; unfold LoginWithPassword; by rewrite (bool_decide_eq_true_2 _ Hp), orb_true_r|].
  right. destruct (run (allowed_or_open _ _) w) as [allowed w1] eqn:Hg. exists allowed, w1.
  do 3 (split; [done|]). destruct allowed; [right|left; split; [done|by apply Login_locked]].
  destruct (env_fault (w_step w1)) as [ft|] eqn:Hf;
    [|destruct (find (live_with_email (TrimSpace (lwp_Email req))) (db_users (w_db w1)))
        as [u|] eqn:Hu; [destruct (u_HashedPassword u) as [hash|] eqn:Hh|]]; [left|right|left|left].
  2: { split; [done|]. by exists u, hash. }
  all: split; [done|]; unfold LoginWithPassword; rewrite !bool_decide_eq_false_2 by done;
    simpl orb; cbv iota; rewrite run_mbind, Hg; simpl negb; cbv iota;
    rewrite run_catch, Hs; cbn [us_GetByEmail sqlite_users]; rewrite users_GetByEmail_run, Hf.
  - rewrite errors_Is_New, bool_decide_eq_false_2 by done. by eexists.
  - rewrite Hu. simpl um_HashedPassword. rewrite Hh. by eexists.
  - rewrite Hu. by eexists.
Qed.
End lemmas.

Section register.
Context `{P : Platform}.
Context (s : Service) (Hs : s_userStore s = sqlite_users).

Lemma Register_Ok_inv ctx req resp w w' :
  run (RegisterWithPassword s ctx req) w = (Ok resp, w') →
  let email := TrimSpace (rwp_Email req) in
  email ≠ "" ∧ rwp_Password req ≠ "" ∧
  ∃ row salt d1 w2, String.length salt = 16%nat ∧
    d1 = set_users (db_users (w_db w) ++ [row]) (w_db w) ∧
    user_live row = true ∧ u_Email row = email ∧
    u_HashedPassword row = Some (stored_hash (rwp_Password req) salt) ∧
    (∀ x, x ∈ db_users (w_db w) → u_ID x ≠ u_ID row ∧ u_Email x ≠ email) ∧
    login_recorded row d1 (w_db w2) ∧
    run (NewTokenPair (u_ID row) (s_tokenCfg s)) w2 = (Ok (rwpr_Tokens resp), w').
Proof.
  unfold RegisterWithPassword. case_bool_decide as He; [done|]. case_bool_decide as Hp; [done|].
  simpl orb. cbv iota. rewrite run_mbind, Hs. cbn [us_GetByEmail us_Create sqlite_users].
  rewrite users_GetByEmail_run. destruct (match env_fault _ with Some _ => _ | None => _ end)
    as [|err]; [done|]. destruct (negb _); [done|]. rewrite run_catch.
  destruct (run (HashPassword _) _) as [[h|] w1] eqn:Hh; [|done].
  apply HashPassword_inv in Hh as (-> & salt & Hsalt & ->). rewrite run_catch.
  destruct (run (users_Create _) _) as [[m|e] w2] eqn:Hc; [|by destruct (errors_Is e _)].
  destruct (users_Create_inv _ _ _ _ Hc) as (row & Hdb & <- & Hlive & He2 & Hp2 & _ & Hfresh).
  rewrite run_mbind. pose proof (recordLogin_run s row w2 Hs) as Hrec.
  destruct (run (recordLogin s _) w2) as [[] w3]. rewrite run_catch.
  destruct (run (NewTokenPair _ _) w3) as [[p|] w4] eqn:Hpair; [|done]. intros [= <- <-].
  do 2 (split; [done|]). exists row, salt, (w_db w2), w3. simpl in *.
  rewrite <-He2, Hdb in *. done.
Qed.

Lemma Register_effect ctx req : guarantees db_effect (RegisterWithPassword s ctx req).
Proof.
  unfold RegisterWithPassword, HashPassword, fail. rewrite Hs.
  cbn [us_GetByEmail us_Create sqlite_users]. pose proof (λ m, recordLogin_effect s m Hs).
  guarantees_tac.
Qed.
End register.

(** ** Guessing against the Redis limiter *)

Section guessing.
Context `{P : Platform}.
Context (s : Service) (Hs : s_userStore s = sqlite_users).
Context (r : redisRateLimiter) (Hr : s_loginRateLimiter s = Some (redisRateLimiter_iface r)).
Hypothesis Hf : ∀ i, env_fault i = None.

Lemma redis_within : limiter_within (rrl_prefix r) (s_loginRateLimiter s).
Proof. intros l Hl. rewrite Hr in Hl. injection Hl as <-. apply _. Qed.

(** Recording at other keys leaves an address's counter alone. *)
Lemma recordRateLimit_frame keys k w :
  Forall (λ k', k' ≠ k) keys →
  let w' := (run (recordRateLimit (redisRateLimiter_iface r) keys) w).2 in
  (w_step w ≤ w_step w')%nat ∧
  redis_entry (w_redis w') (fullKey r k) = redis_entry (w_redis w) (fullKey r k).
Proof.
  revert w. induction keys as [|k' keys IH]; intros w Hk; [done|]. apply Forall_cons in Hk as [Hne Hk].
  cbn [recordRateLimit]. rewrite run_try. cbn [rl_Record redisRateLimiter_iface].
  unfold Record_. rewrite run_try, redis_call_ok by done.
  pose proof (recordScript_frame (fullKey r k') (window_seconds r) (w_now w) (w_redis w) (fullKey r k))
    as Hfr.
  destruct (recordScript _ _ _ _) as [[n|] st]; simpl in *;
    [destruct (IH (tick (set_redis st w)) Hk) as [IH1 IH2]; simpl in IH1, IH2|]; rewrite ?IH2;
    (split; [lia|]); apply Hfr; by intros ?%fullKey_inj.
Qed.

Lemma attempts_same k n w0 w w' :
  attempts r k n w0 w → clock_only w w' → attempts r k n w0 w'.
Proof. intros H Hc. eapply attempts_other; [done|apply Hc|]. by rewrite (co_redis _ _ Hc). Qed.

Lemma record_failure_attempt k rest n w0 w :
  Forall (λ k', k' ≠ k) rest → attempts r k n w0 w →
  attempts r k (S n) w0 (run (record_failure (s_loginRateLimiter s) (k :: rest)) w).2.
Proof.
  intros Hk Ha. unfold record_failure. rewrite Hr, run_mbind.
  pose proof (attempts_record r k n w0 w Ha (Hf _)) as Ha'.
  cbn [recordRateLimit]. rewrite run_try. cbn [rl_Record redisRateLimiter_iface].
  destruct (run (Record_ r k) w) as [[u|] w1]; [|done].
  pose proof (recordRateLimit_frame rest k w1 Hk) as [H1 H2].
  destruct (run (recordRateLimit _ rest) w1) as [u2 w2]. simpl in *.
  by eapply attempts_other.
Qed.

(** A request that presents a password no live user of its address has. *)
Definition wrong_guess (d : DB) (req : LoginWithPasswordRequest) : Prop :=
  ∀ u h, u ∈ db_users d → user_live u = true → u_Email u = TrimSpace (lwp_Email req) →
    u_HashedPassword u = Some h → VerifyPassword (lwp_Password req) h ≠ Ok true.

Definition guess_key (req : LoginWithPasswordRequest) : string :=
  emailRateLimitKey "login" (TrimSpace (lwp_Email req)).

Lemma Login_guess ctx req w :
  wrong_guess (w_db w) req →
  let '(a, w') := run (LoginWithPassword s ctx req) w in
  is_Ok a = false ∧ w_db w' = w_db w ∧ (w_step w ≤ w_step w')%nat ∧
  ((run (IsAllowed r (guess_key req)) w).1 = Ok false → guess_failed a = false) ∧
  ∀ n w0, attempts r (guess_key req) n w0 w →
    attempts r (guess_key req) (if guess_failed a then S n else n) w0 w'.
Proof.
  intros Hw. destruct (Login_cases s Hs ctx req w) as [->|(allowed & w1 & He & Hp & Hg & Hc)];
    [done|].
  set (keys := rateLimitKeys _ _ _) in Hg.
  pose proof (guarantees_run _ _ w (allowed_or_open_clock _ _ redis_within keys)) as Hck.
  rewrite Hg in Hck. simpl in Hck.
  assert (clock_only w (tick w1)) as Hck1 by (etrans; [exact Hck|apply tick_closed]).
  destruct Hc as [(_ & ->)|[(_ & e & -> & Hne)|(-> & u & h & Hf1 & Hu & Hh)]].
  - split_and!; try done; try apply Hck.
    intros n w0 Ha. by eapply attempts_same.
  - rewrite Hne. split_and!; try done; try apply Hck1.
    intros n w0 Ha. by eapply attempts_same.
  - pose proof (find_Some_elem _ _ _ Hu) as [Hin [Hue%bool_decide_eq_true Hul]%andb_true_iff].
    rewrite (co_db _ _ Hck) in Hin. pose proof (Hw u h Hin Hul Hue Hh) as Hv.
    rewrite (Login_open s Hs ctx req w w1 u h) by done.
    destruct (rateLimitKeys_head ctx "login" (TrimSpace (lwp_Email req))) as (rest & Hk & Hrest).
    fold (guess_key req) in Hk, Hrest.
    destruct (VerifyPassword _ _) as [[|]|]; [done| |].
    + fold keys. unfold keys in *. rewrite Hk in *.
      pose proof (guarantees_run _ _ (tick w1) (record_failure_only _ _ redis_within
        (guess_key req :: rest))) as Hro.
      split_and!; [done|by rewrite (ro_db _ _ _ Hro), (co_db _ _ Hck1)| | |].
      * etrans; [apply Hck1|apply Hro].
      * intros Hno. unfold allowed_or_open in Hg. rewrite Hr, run_mbind in Hg.
        destruct (run (IsAllowed r (guess_key req)) w) as [a0 w2] eqn:H0. simpl in Hno. subst a0.
        rewrite (rateLimitAllowed_refused _ _ _ _ w2) in Hg by done. by injection Hg.
      * intros n w0 Ha. apply record_failure_attempt; [done|]. by eapply attempts_same.
    + split_and!; try done; try apply Hck1.
      intros n w0 Ha. by eapply attempts_same.
Qed.
End guessing.

(** A series of login attempts, one after the other. *)
Fixpoint run_logins `{P : Platform} (s : Service) (l : list (Ctx * LoginWithPasswordRequest))
    (w : World) : list (result LoginWithPasswordResponse) * World :=
  match l with
  | [] => ([], w)
  | (ctx, req) :: l =>
      let '(a, w1) := run (LoginWithPassword s ctx req) w in
      let '(answers, w2) := run_logins s l w1 in (a :: answers, w2)
  end.

Section series.
Context `{P : Platform}.
Context (s : Service) (Hs : s_userStore s = sqlite_users).
Context (r : redisRateLimiter) (Hr : s_loginRateLimiter s = Some (redisRateLimiter_iface r)).
Hypothesis Hok : limiter_ok r.
Hypothesis Hf : ∀ i, env_fault i = None.
Variables (key : string) (w0 : World).
Hypothesis Hno : no_attempts r key w0.

(** Inside the window that starts at [w0]. *)
Definition in_window (w : World) : Prop :=
  w_now w < w_now w0 + window_seconds r * time_Second - time_Millisecond.

Lemma in_window_le w w' : (w_step w ≤ w_step w')%nat → in_window w' → in_window w.
Proof. intros H%w_now_le. unfold in_window. lia. Qed.

Lemma attempts_allowed n w :
  attempts r key n w0 w → Z.of_nat n ≤ max_int64 → in_window w →
  (run (IsAllowed r key) w).1 = Ok (Z.of_nat n <? rrl_maxAttempts r).
Proof.
  intros Ha Hn Hw. destruct (attempts_counter _ _ _ _ _ Ha Hok Hno Hn Hw) as (_ & c & Hc & Hct).
  rewrite (IsAllowed_run r key w c) by done. unfold counter_allowed. by rewrite Hct.
Qed.

Definition wrong_series (d : DB) (l : list (Ctx * LoginWithPasswordRequest)) : Prop :=
  Forall (λ g, guess_key g.2 = key ∧ wrong_guess d g.2) l.

Definition guesses_checked (answers : list (result LoginWithPasswordResponse)) : nat :=
  length (List.filter guess_failed answers).

Lemma run_logins_frame l w :
  wrong_series (w_db w) l →
  let '(answers, w') := run_logins s l w in
  w_db w' = w_db w ∧ (w_step w ≤ w_step w')%nat ∧ Forall (λ a, is_Ok a = false) answers ∧
  length answers = length l.
Proof.
  revert w. induction l as [|[ctx req] l IH]; intros w Hl; [done|].
  apply Forall_cons in Hl as [[_ Hw] Hl]. simpl.
  pose proof (Login_guess s Hs r Hr Hf ctx req w Hw) as Hg.
  destruct (run (LoginWithPassword s ctx req) w) as [a w1]. destruct Hg as (Ha & Hd & Hst & _).
  rewrite <-Hd in Hl. specialize (IH w1 Hl). destruct (run_logins s l w1) as [answers w2].
  destruct IH as (Hd2 & Hst2 & Hall & Hlen). rewrite Hd2. split_and!; [done|lia|by constructor|].
  simpl. by rewrite Hlen.
Qed.

Lemma run_logins_attempts l n w :
  wrong_series (w_db w) l → attempts r key n w0 w →
  Z.of_nat (n + length l) ≤ max_int64 → Z.of_nat n ≤ rrl_maxAttempts r →
  let '(answers, w') := run_logins s l w in
  in_window w' →
  attempts r key (n + guesses_checked answers) w0 w' ∧
  Z.of_nat (n + guesses_checked answers) ≤ rrl_maxAttempts r.
Proof.
  revert n w. induction l as [|[ctx req] l IH]; intros n w Hl Ha Hn Hmax.
  { intros _. unfold guesses_checked; simpl. by rewrite Nat.add_0_r. }
  apply Forall_cons in Hl as [[Hk Hw] Hl]. simpl in *.
  pose proof (Login_guess s Hs r Hr Hf ctx req w Hw) as Hg. rewrite Hk in Hg.
  destruct (run (LoginWithPassword s ctx req) w) as [a w1].
  destruct Hg as (_ & Hd & Hst & Hlock & Hatt). rewrite <-Hd in Hl. specialize (Hatt _ _ Ha).
  pose proof (run_logins_frame l w1 Hl) as Hfr.
  specialize (IH (if guess_failed a then S n else n) w1 Hl Hatt).
  destruct (run_logins s l w1) as [answers w2]. destruct Hfr as (_ & Hst2 & _). intros Hin.
  unfold guesses_checked in *. simpl. destruct (guess_failed a) eqn:Hgf; [|by apply IH; [lia|..]].
  assert (Z.of_nat n < rrl_maxAttempts r) as Hlt.
  { pose proof (attempts_allowed n w Ha ltac:(lia)) as H.
    specialize (H (in_window_le w w2 ltac:(lia) Hin)).
    destruct (Z.ltb_spec (Z.of_nat n) (rrl_maxAttempts r)); [done|]. by specialize (Hlock H). }
  simpl length. rewrite <-Nat.add_succ_comm. apply IH; [lia|lia|done].
Qed.
End series.

(** ** Properties *)

Section properties.
Context `{P : Platform}.

(** C5.  What was registered can log in.  After RegisterWithPassword succeeds,
    the database holds a live user of the trimmed address, for whom the answered
    tokens were minted.  From then on, while the database keeps that user's
    address and password (other rows and the time of the user's logins may
    change), the database and the random source answer, the key signs, and the
    limiter lets the request through: LoginWithPassword for the address answers
    tokens minted for that user to a candidate password whose Argon2id digest is
    the stored one (so to the registered password itself), and "invalid
    credentials" to every other candidate. *)
Theorem register_then_login s pre ctx email password resp w w1
    (Hs : s_userStore s = sqlite_users) (Hl : limiter_within pre (s_loginRateLimiter s))
    (Hok : db_ok (w_db w))
    (Hreg : run (RegisterWithPassword s ctx (mkRegisterWithPasswordRequest email password)) w
      = (Ok resp, w1)) :
  ∃ u salt, u ∈ db_users (w_db w1) ∧ user_live u = true ∧ u_Email u = TrimSpace email ∧
    String.length salt = 16%nat ∧
    (∃ v v', run (NewTokenPair (u_ID u) (s_tokenCfg s)) v = (Ok (rwpr_Tokens resp), v')) ∧
    ∀ ctx' candidate w2, candidate ≠ "" → db_ok (w_db w2) → user_kept u (w_db w2) →
      (∀ i, (w_step w2 ≤ i)%nat → env_fault i = None) → mints (s_tokenCfg s) (w_step w2) →
      (run (allowed_or_open (s_loginRateLimiter s)
         (rateLimitKeys ctx' "login" (TrimSpace email))) w2).1 = true →
      let login := run (LoginWithPassword s ctx' (mkLoginWithPasswordRequest email candidate)) w2 in
      if (argon2_default candidate salt == argon2_default password salt)%go
      then ∃ pair v, login.1 = Ok (mkLoginWithPasswordResponse pair) ∧
             run (NewTokenPair (u_ID u) (s_tokenCfg s)) v = (Ok pair, login.2)
      else login.1 = invalid_credentials.
Proof.
  destruct (Register_Ok_inv s Hs _ _ _ _ _ Hreg)
    as (He & _ & row & salt & d1 & w3 & Hsalt & Hd1 & Hlive & Hemail & Hhash & Hfresh & Hrec & Hpair).
  cbn [rwp_Email rwp_Password] in *.
  pose proof (guarantees_run _ _ w3 (NewTokenPair_clock (u_ID row) (s_tokenCfg s))) as Hc.
  rewrite Hpair in Hc. simpl in Hc.
  destruct (login_recorded_row row d1 (w_db w3)) as (u & Hu & Hul & Hid & Hue & Huh); [done| |done|].
  { rewrite Hd1. simpl. apply elem_of_app. right. by left. }
  exists u, salt. rewrite (co_db _ _ Hc). do 2 (split; [done|]). split; [congruence|].
  split; [done|]. rewrite Hid. split; [by eexists _, _|].
  intros ctx' candidate w2 Hcand Hok2 Hkept Hf Hm Hopen. rewrite <-Hid.
  apply (Login_stored s Hs pre); try done; [congruence|by rewrite Huh].
Qed.

(** C2.  A login proves the password.  LoginWithPassword only succeeds if the
    limiter did not refuse it and the database held, when the request was
    checked, a live user of the trimmed address whose stored hash the password
    verifies against; the tokens are minted for that user, and the only change
    to the database is the time of the login in that user's row. *)
Theorem LoginWithPassword_sound s pre ctx req resp w w'
    (Hs : s_userStore s = sqlite_users) (Hl : limiter_within pre (s_loginRateLimiter s))
    (Hrun : run (LoginWithPassword s ctx req) w = (Ok resp, w')) :
  (run (allowed_or_open (s_loginRateLimiter s)
     (rateLimitKeys ctx "login" (TrimSpace (lwp_Email req)))) w).1 = true ∧
  ∃ u h, u ∈ db_users (w_db w) ∧ user_live u = true ∧ u_Email u = TrimSpace (lwp_Email req) ∧
    u_HashedPassword u = Some h ∧ VerifyPassword (lwp_Password req) h = Ok true ∧
    login_recorded u (w_db w) (w_db w') ∧
    ∃ v, run (NewTokenPair (u_ID u) (s_tokenCfg s)) v = (Ok (lwpr_Tokens resp), w').
Proof.
  destruct (Login_cases s Hs ctx req w) as [H|(allowed & w1 & He & Hp & Hg & Hc)]; [congruence|].
  destruct Hc as [(_ & H)|[(_ & e & H & _)|(-> & u & h & Hf & Hu & Hh)]]; [by rewrite H in Hrun..|].
  rewrite Hg. split; [done|]. rewrite (Login_open s Hs ctx req w w1 u h) in Hrun by done.
  pose proof (guarantees_run _ _ w (allowed_or_open_clock _ _ Hl
    (rateLimitKeys ctx "login" (TrimSpace (lwp_Email req))))) as Hck.
  rewrite Hg in Hck. simpl in Hck. rewrite (co_db _ _ Hck) in Hu.
  pose proof (find_Some_elem _ _ _ Hu) as [Hin [Hue%bool_decide_eq_true Hul]%andb_true_iff].
  exists u, h. do 4 (split; [done|]).
  destruct (VerifyPassword _ _) as [[|]|]; [|done..]. split; [done|].
  pose proof (guarantees_run _ _ (tick w1) (reset_failures_only _ _ Hl
    (emailRateLimitKey "login" (TrimSpace (lwp_Email req))))) as Hro. cbv zeta in Hrun.
  pose proof (recordLogin_run s u (run (reset_failures (s_loginRateLimiter s)
    (emailRateLimitKey "login" (TrimSpace (lwp_Email req)))) (tick w1)).2 Hs) as Hrec.
  set (w3 := (run (recordLogin s _) _).2) in *.
  rewrite (ro_db _ _ _ Hro) in Hrec. simpl in Hrec. rewrite (co_db _ _ Hck) in Hrec.
  pose proof (guarantees_run _ _ w3 (NewTokenPair_clock (u_ID u) (s_tokenCfg s))) as Hc.
  destruct (run (NewTokenPair _ _) w3) as [[p|] w4] eqn:Hpair; [|done]. injection Hrun as <- <-.
  cbn [snd] in Hc. rewrite (co_db _ _ Hc). split; [done|]. by exists w3.
Qed.

(** C6.  Guessing is bounded.  With the Redis limiter, from a moment when no
    attempt counts against an address (whatever its letter case) and while Redis
    and the database answer: of any series of requests with wrong passwords for
    it that fits in the window, from whatever clients, none succeeds and at most
    the configured maximum is checked against a password; once that many were,
    every further request for the address is refused, the right password
    included. *)
Theorem brute_force_bounded s r l key w
    (Hs : s_userStore s = sqlite_users)
    (Hr : s_loginRateLimiter s = Some (redisRateLimiter_iface r)) (Hok : limiter_ok r)
    (Hf : ∀ i, env_fault i = None) (Hno : no_attempts r key w)
    (Hlen : Z.of_nat (length l) ≤ max_int64) (Hl : wrong_series key (w_db w) l)
    (Hwin : in_window r w (run_logins s l w).2) :
  let '(answers, w') := run_logins s l w in
  Forall (λ a, is_Ok a = false) answers ∧
  Z.of_nat (guesses_checked answers) ≤ rrl_maxAttempts r ∧
  (Z.of_nat (guesses_checked answers) = rrl_maxAttempts r →
   ∀ ctx req, guess_key req = key → TrimSpace (lwp_Email req) ≠ "" → lwp_Password req ≠ "" →
     (run (LoginWithPassword s ctx req) w').1 = locked_out).
Proof.
  pose proof (run_logins_frame s Hs r Hr Hf key l w Hl) as Hfr.
  pose proof (run_logins_attempts s Hs r Hr Hok Hf key w Hno l 0 w Hl (attempts_nil r key w) Hlen)
    as Ha.
  destruct (run_logins s l w) as [answers w']. destruct Hfr as (_ & _ & Hall & Hla).
  destruct Ha as [Ha Hmax]; [destruct Hok; lia|done|]. do 2 (split; [done|]).
  intros Heq ctx req Hkey He Hp. simpl in *.
  assert (guesses_checked answers ≤ length l)%nat as Hle
    by (rewrite <-Hla; apply List.filter_length_le).
  pose proof (attempts_allowed r Hok Hf key w Hno _ _ Ha ltac:(lia) Hwin) as Hno'.
  rewrite Heq, Z.ltb_irrefl in Hno'. destruct (rateLimitKeys_head ctx "login"
    (TrimSpace (lwp_Email req))) as (rest & Hk & _). fold (guess_key req) in Hk. rewrite Hkey in Hk.
  destruct (run (IsAllowed r key) w') as [a w2] eqn:Hrun. simpl in Hno'.
  rewrite (Login_locked s ctx req w' w2); try done.
  rewrite Hk, Hr. unfold allowed_or_open. rewrite run_mbind.
  rewrite (rateLimitAllowed_refused _ _ _ _ w2); [done|]. by rewrite <-Hno'.
Qed.
End properties.

(** ** Closed instances *)

Section instances.
#[local] Existing Instance calm.

#[local] Notation bob_registers :=
  (run (RegisterWithPassword sample_service no_ctx
         (mkRegisterWithPasswordRequest " bob@example.org " "hunter2")) calm_world).
Definition with_bob : World := bob_registers.2.
Definition bob_login (password : string) : LoginWithPasswordRequest :=
  mkLoginWithPasswordRequest " bob@example.org " password.

Definition login_limiter : redisRateLimiter :=
  mkRedisRateLimiter "identra:rl:login:" 5 DefaultLoginLockoutDuration.

Lemma sample_limiter_within : limiter_within "identra:rl:login:" (s_loginRateLimiter sample_service).
Proof. exact (redis_within sample_service login_limiter eq_refl). Qed.

(** After Bob, Carol registers: the database has changed, Bob logs in. *)
#[local] Notation carol_registers :=
  (run (RegisterWithPassword sample_service no_ctx
         (mkRegisterWithPasswordRequest "carol@example.org" "swordfish")) with_bob).

Lemma register_then_login_witness :
  let w2 := carol_registers.2 in
  length (db_users (w_db w2)) = 2%nat ∧
  is_Ok (run (LoginWithPassword sample_service no_ctx (bob_login "hunter2")) w2).1 = true.
Proof.
  intros w2. assert (length (db_users (w_db w2)) = 2%nat) as H2 by (by vm_compute).
  assert (is_Ok bob_registers.1 = true) as Hok by (by vm_compute).
  assert ((run (allowed_or_open (s_loginRateLimiter sample_service)
    (rateLimitKeys no_ctx "login" (TrimSpace " bob@example.org "))) w2).1 = true) as Hopen
    by (by vm_compute).
  assert (db_users (w_db w2) !! 0%nat = db_users (w_db with_bob) !! 0%nat) as Hrow by (by vm_compute).
  assert (length (db_users (w_db with_bob)) = 1%nat) as H1 by (by vm_compute).
  assert (db_ok (w_db with_bob)) as Hdb1.
  { exact (proj2 (de_grows _ _ (guarantees_run _ _ calm_world (Register_effect sample_service eq_refl
      no_ctx (mkRegisterWithPasswordRequest " bob@example.org " "hunter2")))) empty_db_ok). }
  assert (db_ok (w_db w2)) as Hdb2.
  { exact (proj2 (de_grows _ _ (guarantees_run _ _ with_bob (Register_effect sample_service eq_refl
      no_ctx (mkRegisterWithPasswordRequest "carol@example.org" "swordfish")))) Hdb1). }
  assert (∃ resp, bob_registers = (Ok resp, with_bob)) as [resp Hreg].
  { unfold with_bob. destruct bob_registers as [[resp|] w1]; [by exists resp|discriminate Hok]. }
  split; [exact H2|]. clear Hok. generalize dependent w2. generalize dependent with_bob.
  intros w1 H1 Hdb1 Hreg w2 H2 Hopen Hrow Hdb2.
  destruct (register_then_login sample_service "identra:rl:login:" no_ctx " bob@example.org "
    "hunter2" resp calm_world w1 eq_refl sample_limiter_within empty_db_ok Hreg)
    as (u & salt & Hu & Hul & _ & _ & _ & H).
  assert (db_users (w_db w1) !! 0%nat = Some u) as Hu0.
  { destruct (db_users (w_db w1)) as [|x [|]]; [discriminate H1| |discriminate H1].
    apply list_elem_of_singleton in Hu as ->. done. }
  specialize (H no_ctx "hunter2" w2 ltac:(discriminate) Hdb2).
  rewrite bool_decide_eq_true_2 in H by reflexivity. destruct H as (pair & v & Hv & _).
  - exists u. rewrite Hu0 in Hrow. apply list_elem_of_lookup_2 in Hrow. done.
  - done.
  - apply sample_mints.
  - exact Hopen.
  - unfold bob_login. by rewrite Hv.
Defined.

Lemma LoginWithPassword_sound_witness :
  ∃ u, u ∈ db_users (w_db with_bob) ∧ u_Email u = "bob@example.org".
Proof.
  assert (is_Ok (run (LoginWithPassword sample_service no_ctx (bob_login "hunter2")) with_bob).1 = true)
    as Hok by (by vm_compute).
  generalize dependent with_bob. intros w Hok.
  destruct (run (LoginWithPassword _ _ _) w) as [[resp|] w'] eqn:Hrun; [|discriminate Hok].
  destruct (LoginWithPassword_sound sample_service "identra:rl:login:" no_ctx (bob_login "hunter2") resp
    w w' eq_refl sample_limiter_within Hrun) as (_ & u & h & Hu & _ & He & _).
  exists u. exact (conj Hu He).
Defined.

(** A decidable form of [wrong_guess]. *)
Definition wrong_guess_check (d : DB) (req : LoginWithPasswordRequest) : bool :=
  forallb (λ u, match u_HashedPassword u with
                | Some h => match VerifyPassword (lwp_Password req) h with
                            | Ok true => false | _ => true end
                | None => true
                end) (db_users d).

Lemma wrong_guess_check_sound d req : wrong_guess_check d req = true → wrong_guess d req.
Proof.
  intros Hc u h Hu _ _ Hh. unfold wrong_guess_check in Hc. rewrite forallb_forall in Hc.
  specialize (Hc u (proj1 (list_elem_of_In _ _) Hu)). rewrite Hh in Hc.
  by destruct (VerifyPassword _ _) as [[]|].
Qed.

Lemma wrong_series_check key d l :
  forallb (λ g, bool_decide (guess_key g.2 = key) && wrong_guess_check d g.2) l = true →
  wrong_series key d l.
Proof.
  intros H. apply Forall_forall. intros g Hg%list_elem_of_In. rewrite forallb_forall in H.
  apply H in Hg as [Hk%bool_decide_eq_true Hw]%andb_true_iff.
  split; [done|by apply wrong_guess_check_sound].
Qed.

Definition six_guesses : list (Ctx * LoginWithPasswordRequest) :=
  (λ p, (no_ctx, bob_login p)) <$> ["a"; "b"; "c"; "d"; "e"; "f"].

(** Five guesses are checked, the sixth is not; then even Bob is refused. *)
Lemma brute_force_bounded_witness :
  (run (LoginWithPassword sample_service no_ctx (bob_login "hunter2"))
     (run_logins sample_service six_guesses with_bob).2).1 = locked_out.
Proof.
  assert (no_attempts login_limiter "login:email:bob@example.org" with_bob) as Hno.
  { exists None. split; [split; [|done]|done]. apply is_None_true. by vm_compute. }
  assert (wrong_series "login:email:bob@example.org" (w_db with_bob) six_guesses) as Hl.
  { apply wrong_series_check. by vm_compute. }
  assert (in_window login_limiter with_bob (run_logins sample_service six_guesses with_bob).2) as Hwin
    by (by vm_compute).
  pose proof (brute_force_bounded sample_service login_limiter six_guesses
    "login:email:bob@example.org" with_bob eq_refl eq_refl ltac:(by split; vm_compute) (λ _, eq_refl) Hno
    ltac:(by vm_compute) Hl Hwin) as H.
  assert (guesses_checked (run_logins sample_service six_guesses with_bob).1 = 5%nat) as H5
    by (by vm_compute).
  destruct (run_logins _ _ _) as [answers w']. destruct H as (_ & _ & H). apply H.
  - simpl in H5. by rewrite H5.
  - by vm_compute.
  - by vm_compute.
  - discriminate.
Defined.
End instances.
