(* ===== verification/EmailLogin.v ===== *)
(** * Login by e-mailed code, internal/identra/service_email_code.go

    A code is sent to an address and stored; whoever presents it logs in, and
    is registered if the address is new.  However many requests race with one
    code, at most one of them logs in. *)

From S2P Require Import Prelude GoStrings Prog Data Messages Platform RefPlatform SqliteQueries.
From S2P Require Import KeyManager World Tokens Interfaces RateLimiter EmailCode SqliteStores App.
From S2P Require Import Handlers.
From Stdlib Require Import Ascii.
#[local] Open Scope Z_scope.

(** ** The message *)

Section message.

Definition nl : string := String "010"%char "".
Definition tab (n : nat) (s : string) : string := l2s (replicate n "009"%char) +:+ s +:+ nl.
Definition quoted (s : string) : string := String "034"%char "" +:+ s +:+ String "034"%char "".
Definition div_class (cls body : string) : string :=
  "<div class=" +:+ quoted cls +:+ ">" +:+ body.

(** The two texts of sendVerificationCode. *)
Definition htmlBody (code : string) (expiryMinutes : Z) : string :=
  nl +:+ tab 0 "<!DOCTYPE html>" +:+ tab 0 "<html>" +:+ tab 0 "<head>" +:+
  tab 1 ("<meta charset=" +:+ quoted "UTF-8" +:+ ">") +:+ tab 1 "<style>" +:+
  tab 2 "body { font-family: Arial, sans-serif; line-height: 1.6; color: #333; }" +:+
  tab 2 ".container { max-width: 600px; margin: 0 auto; padding: 20px; }" +:+
  tab 2 ".header { background-color: #4CAF50; color: white; padding: 20px; text-align: center; }" +:+
  tab 2 ".content { background-color: #f9f9f9; padding: 30px; border-radius: 5px; margin-top: 20px; }" +:+
  tab 2 ".code { font-size: 32px; font-weight: bold; color: #4CAF50; text-align: center; letter-spacing: 5px; padding: 20px; background-color: #fff; border-radius: 5px; margin: 20px 0; }" +:+
  tab 2 ".footer { text-align: center; margin-top: 20px; color: #666; font-size: 12px; }" +:+
  tab 1 "</style>" +:+ tab 0 "</head>" +:+ tab 0 "<body>" +:+
  tab 1 (div_class "container" "") +:+ tab 2 (div_class "header" "") +:+
  tab 3 "<h1>Verification Code</h1>" +:+ tab 2 "</div>" +:+ tab 2 (div_class "content" "") +:+
  tab 3 "<p>Hello,</p>" +:+
  tab 3 "<p>You have requested a verification code. Please use the code below to complete your verification:</p>" +:+
  tab 3 (div_class "code" code +:+ "</div>") +:+
  tab 3 ("<p>This code will expire in <strong>" +:+ Itoa expiryMinutes +:+ " minutes</strong>.</p>") +:+
  tab 3 "<p>If you did not request this code, please ignore this email.</p>" +:+
  tab 2 "</div>" +:+ tab 2 (div_class "footer" "") +:+
  tab 3 "<p>This is an automated message, please do not reply.</p>" +:+
  tab 2 "</div>" +:+ tab 1 "</div>" +:+ tab 0 "</body>" +:+ tab 0 "</html>".

Definition verification_message (to code : string) (expiryMinutes : Z) (useHTML : bool)
    : EmailMessage :=
  if useHTML then mkEmailMessage [to] "Your Verification Code" (htmlBody code expiryMinutes) true
  else mkEmailMessage [to] "Your Verification Code"
    ("Your verification code is: " +:+ code +:+ " (valid for " +:+ Itoa expiryMinutes +:+
     " minutes)") false.
End message.

Section handlers.
Context `{P : Platform}.
Variable s : Service.

Definition generateEmailCode : M (result string) :=
  try num := rand_Int 1000000 in
  Ret (Ok (pad_zeros 6 num)).

Definition sendVerificationCode (mailer : EmailSender) (to code : string) (expiryMinutes : Z)
    (useHTML : bool) : M (result unit) :=
  em_SendEmail mailer (verification_message to code expiryMinutes useHTML).

(** The send-code limiter: attempts are recorded unless the limiter failed. *)
Definition send_allowed (keys : list string) : M bool :=
  match s_sendCodeRateLimiter s with
  | None => Ret true
  | Some limiter =>
      r ← rateLimitAllowed limiter keys;
      match r with
      | Err _ => Ret true
      | Ok false => Ret false
      | Ok true => _ ← recordRateLimit limiter keys; Ret true
      end
  end.

Definition RequestEmailLoginCode (ctx : Ctx) (req : RequestEmailLoginCodeRequest)
    : M (result RequestEmailLoginCodeResponse) :=
  match s_mailer s with
  | None => fail FailedPrecondition "mail service is disabled"
  | Some mailer =>
      let email := TrimSpace (relc_Email req) in
      if (email == "")%go then fail InvalidArgument "email is required" else
      allowed ← send_allowed (rateLimitKeys ctx "send_code" email);
      if negb allowed
      then fail ResourceExhausted "too many verification code requests, please try again later" else
      try code := generateEmailCode catch (λ _, fail Internal "failed to generate code") in
      try _ := ec_Set (s_emailCodeStore s) email code
        catch (λ _, fail Internal "failed to store verification code") in
      try _ := sendVerificationCode mailer email code 10 (relc_UseHtml req)
        catch (λ _, fail Internal "failed to send verification email") in
      Ret (Ok mkRequestEmailLoginCodeResponse)
  end.

(** The user of an address, created without a password when there is none. *)
Definition user_of_email (email : string) : M (result UserModel) :=
  found ← us_GetByEmail (s_userStore s) email;
  match found with
  | Ok usr => Ret (Ok usr)
  | Err err =>
      if errors_Is err identra_ErrNotFound then
        try usr := us_Create (s_userStore s)
                     (mkUserModel "" time_zero time_zero email None None None)
          catch (λ _, fail Internal "failed to create user") in
        Ret (Ok usr)
      else fail Internal "failed to fetch user"
  end.

Definition LoginWithEmailCode (ctx : Ctx) (req : LoginWithEmailCodeRequest)
    : M (result LoginWithEmailCodeResponse) :=
  let email := TrimSpace (lwec_Email req) in
  let code := TrimSpace (lwec_Code req) in
  if ((email == "") || (code == ""))%go
  then fail InvalidArgument "email and code are required" else
  allowed ← allowed_or_open (s_loginRateLimiter s) (rateLimitKeys ctx "login" email);
  if negb allowed
  then fail ResourceExhausted "too many failed attempts, please try again later" else
  consumed ← ec_Consume (s_emailCodeStore s) email code;
  match consumed with
  | Err _ => fail Internal "failed to validate code"
  | Ok false =>
      _ ← record_failure (s_loginRateLimiter s) (rateLimitKeys ctx "login" email);
      fail Unauthenticated "invalid or expired code"
  | Ok true =>
      try usr := user_of_email email in
      _ ← reset_failures (s_loginRateLimiter s) (emailRateLimitKey "login" email);
      _ ← recordLogin s usr;
      try tokenPair := NewTokenPair (um_ID usr) (s_tokenCfg s)
        catch (λ _, fail Internal "failed to create token pair") in
      Ret (Ok (mkLoginWithEmailCodeResponse tokenPair))
  end.
End handlers.

(** What mail servers leave alone. *)
Definition redis_same `{P : Platform} : relation World := λ w w', w_redis w' = w_redis w.

#[export] Instance redis_same_preorder `{P : Platform} : PreOrder redis_same.
Proof. split; [by intros w|]. unfold redis_same. intros w1 w2 w3. congruence. Qed.

(** ** The code *)

Section lemmas.
Context `{P : Platform}.
Implicit Types (s : Service) (w : World).

Lemma length_digits_bound fuel n acc k :
  0 ≤ n < 10 ^ Z.of_nat k → (0 < k)%nat →
  (length (digits fuel n acc) ≤ k + length acc)%nat.
Proof.
  revert n acc k. induction fuel as [|fuel IH]; intros n acc k Hn Hk; simpl; [lia|].
  case_match eqn:Hlt; simpl; [lia|]. destruct k as [|k]; [lia|].
  rewrite Nat2Z.inj_succ, Z.pow_succ_r in Hn by lia.
  assert (0 ≤ n / 10 < 10 ^ Z.of_nat k) as Hn'.
  { split; [apply Z.div_pos; lia|]. apply Z.div_lt_upper_bound; lia. }
  destruct k as [|k].
  - simpl in Hn'. lia.
  - etrans; [apply (IH _ _ (S k) Hn'); lia|]. simpl. lia.
Qed.

Lemma generateEmailCode_inv code w w' :
  run generateEmailCode w = (Ok code, w') →
  w' = tick w ∧ ∃ n, 0 ≤ n < 1000000 ∧ code = pad_zeros 6 n.
Proof.
  unfold generateEmailCode. rewrite run_try. simpl.
  destruct (env_rand_int (w_step w) 1000000) as [n|] eqn:Hn; [|done]. intros [= <- <-].
  split; [done|]. exists n. split; [|done]. by apply (env_rand_int_range (w_step w)).
Qed.
Lemma pad_zeros_length n : 0 ≤ n < 1000000 → String.length (pad_zeros 6 n) = 6%nat.
Proof.
  intros Hn. unfold pad_zeros. rewrite string_length_app, <-length_s2l.
  rewrite String.list_ascii_of_string_of_list_ascii, length_replicate.
  assert (String.length (Itoa n) ≤ 6)%nat; [|lia].
  unfold Itoa. rewrite (proj2 (Z.ltb_ge n 0)) by lia.
  rewrite <-length_s2l, String.list_ascii_of_string_of_list_ascii.
  pose proof (length_digits_bound (digits_fuel n) n [] 6 Hn ltac:(lia)). simpl in *. lia.
Qed.

Lemma user_of_email_effect s email :
  s_userStore s = sqlite_users → guarantees db_effect (user_of_email s email).
Proof.
  intros Hs. unfold user_of_email, fail. rewrite Hs. cbn [us_GetByEmail us_Create sqlite_users].
  guarantees_tac.
Qed.

Lemma user_of_email_inv s (Hs : s_userStore s = sqlite_users) email w m w' :
  run (user_of_email s email) w = (Ok m, w') →
  ∃ u users, user_live u = true ∧ u_Email u = email ∧ userToDomain u = m ∧
    (u ∈ db_users (w_db w) ∧ users = db_users (w_db w) ∨
     u_HashedPassword u = None ∧ users = db_users (w_db w) ++ [u] ∧
     (∀ x, x ∈ db_users (w_db w) → u_Email x ≠ email)) ∧
    w_db w' = set_users users (w_db w).
Proof.
  unfold user_of_email. rewrite run_mbind, Hs. cbn [us_GetByEmail us_Create sqlite_users].
  rewrite users_GetByEmail_run. destruct (env_fault (w_step w)) as [ft|].
  { destruct (errors_Is (errors_New _) _) eqn:He; [|done]. rewrite errors_Is_New in He.
    by apply bool_decide_eq_true in He. }
  destruct (find _ _) as [u|] eqn:Hf.
  - intros [= <- <-]. apply find_Some_elem in Hf as [Hu [He%bool_decide_eq_true Hl]%andb_true_iff].
    exists u, (db_users (w_db w)). do 3 (split; [done|]). split; [by left|]. simpl.
    by destruct (w_db w).
  - rewrite errors_Is_refl, run_catch.
    destruct (run (users_Create _) _) as [[m'|] w2] eqn:Hc; [|done]. intros [= <- <-].
    destruct (users_Create_inv _ _ _ _ Hc) as (row & Hdb & <- & Hlive & He & Hp & _ & Hfresh).
    simpl in *. exists row, (db_users (w_db w) ++ [row]). do 3 (split; [done|]).
    split; [right|done]. split; [done|]. split; [done|]. intros x Hx. rewrite <-He.
    by apply Hfresh.
Qed.

(** ** Who can take a code *)

Section race.
Context s `{!OneShotCodes (s_emailCodeStore s)} (pre email : string).
Hypothesis Hs : s_userStore s = sqlite_users.
Hypothesis Hl : limiter_within pre (s_loginRateLimiter s).
Hypothesis Hp1 : HasPrefix pre (codes_prefix (ec:=s_emailCodeStore s)) = false.
Hypothesis Hp2 : HasPrefix (codes_prefix (ec:=s_emailCodeStore s)) pre = false.

Abbreviation keeps := (keeps_gone (codes_gone (ec:=s_emailCodeStore s) email)).

Lemma limiter_keeps w w' : redis_only pre w w' → keeps w w'.
Proof.
  intros H Hg. eapply codes_gone_frame; [|exact Hg]. intros k Hk. apply (ro_redis _ _ _ H).
  by eapply HasPrefix_apart.
Qed.

Lemma db_keeps w w' : db_effect w w' → keeps w w'.
Proof.
  intros [H _] Hg. eapply codes_gone_frame; [|exact Hg]. intros k _. by rewrite (do_redis _ _ H).
Qed.

Lemma clock_keeps w w' : clock_only w w' → keeps w w'.
Proof. intros H. apply db_keeps. by apply clock_only_effect. Qed.

(** A login with a code for the address only succeeds by taking the code. *)
Lemma LoginWithEmailCode_claims ctx req :
  TrimSpace (lwec_Email req) = email →
  claims (codes_gone (ec:=s_emailCodeStore s) email) (λ r, is_Ok r = true)
    (LoginWithEmailCode s ctx req).
Proof.
  intros He. unfold LoginWithEmailCode. rewrite He.
  destruct (_ || _); [by constructor|]. apply claims_bind.
  { eapply guarantees_mono; [apply clock_keeps|]. by eapply allowed_or_open_clock. }
  intros []; simpl negb; cbv iota; [|by constructor].
  assert (∀ keys, guarantees keeps (record_failure (s_loginRateLimiter s) keys)) as Hrec.
  { intros keys. eapply guarantees_mono; [apply limiter_keeps|]. by apply record_failure_only. }
  assert (∀ key, guarantees keeps (reset_failures (s_loginRateLimiter s) key)) as Hreset.
  { intros key. eapply guarantees_mono; [apply limiter_keeps|]. by apply reset_failures_only. }
  assert (guarantees keeps (user_of_email s email)) as Huser.
  { eapply guarantees_mono; [apply db_keeps|]. by apply user_of_email_effect. }
  assert (∀ m, guarantees keeps (recordLogin s m)) as Hlogin.
  { intros m. eapply guarantees_mono; [apply db_keeps|]. by apply recordLogin_effect. }
  assert (∀ uid, guarantees keeps (NewTokenPair uid (s_tokenCfg s))) as Hpair.
  { intros uid. eapply guarantees_mono; [apply clock_keeps|]. apply NewTokenPair_clock. }
  apply Consume_claims.
  - intros r. unfold fail. guarantees_tac.
  - intros [[]|e] Hne; [done| |by constructor]. apply claims_bind; [done|]. by constructor.
Qed.
End race.
End lemmas.

(** ** Properties *)

Section properties.
Context `{P : Platform}.

(** C8.  One code, one login.  However many LoginWithEmailCode requests for one
    address run concurrently, with whatever codes and in whatever interleaving
    of their actions, at most one of them succeeds (until another code is
    requested): the code is taken by the atomic step that checks it. *)
Theorem email_code_one_login s `{!OneShotCodes (s_emailCodeStore s)} pre email
    (reqs : list (Ctx * LoginWithEmailCodeRequest)) w ms w' i j a b
    (Hs : s_userStore s = sqlite_users)
    (Hl : limiter_within pre (s_loginRateLimiter s))
    (Hp1 : HasPrefix pre (codes_prefix (ec:=s_emailCodeStore s)) = false)
    (Hp2 : HasPrefix (codes_prefix (ec:=s_emailCodeStore s)) pre = false)
    (Hreqs : Forall (λ g, TrimSpace (lwec_Email g.2) = email) reqs)
    (Hrun : rtc pool_step ((λ g, LoginWithEmailCode s g.1 g.2) <$> reqs, w) (ms, w'))
    (Hi : ms !! i = Some (Ret (Ok a))) (Hj : ms !! j = Some (Ret (Ok b))) :
  i = j.
Proof.
  apply (one_winner (codes_gone (ec:=s_emailCodeStore s) email) (λ r, is_Ok r = true)
    _ _ _ _ _ _ _ _ (proj2 (Forall_fmap _ _ _)
      (Forall_impl _ _ _ Hreqs (λ g Hg, LoginWithEmailCode_claims s pre email Hs Hl Hp1 Hp2 g.1 g.2 Hg)))
    Hrun Hi Hj); done.
Qed.

(** C40.  A login by code proves possession of the code.  LoginWithEmailCode
    only succeeds if the limiter did not refuse it and the store consumed the
    trimmed code for the trimmed address; the tokens are minted for the live
    user of that address, one that was there or one without a password that the
    request created. *)
Theorem LoginWithEmailCode_sound s `{!OneShotCodes (s_emailCodeStore s)} pre ctx req resp w w'
    (Hs : s_userStore s = sqlite_users)
    (Hl : limiter_within pre (s_loginRateLimiter s))
    (Hrun : run (LoginWithEmailCode s ctx req) w = (Ok resp, w')) :
  let email := TrimSpace (lwec_Email req) in
  ∃ w1 w2, run (allowed_or_open (s_loginRateLimiter s) (rateLimitKeys ctx "login" email)) w
      = (true, w1) ∧
    run (ec_Consume (s_emailCodeStore s) email (TrimSpace (lwec_Code req))) w1 = (Ok true, w2) ∧
  ∃ u users, user_live u = true ∧ u_Email u = email ∧
    (u ∈ db_users (w_db w) ∧ users = db_users (w_db w) ∨
     u_HashedPassword u = None ∧ users = db_users (w_db w) ++ [u] ∧
     (∀ x, x ∈ db_users (w_db w) → u_Email x ≠ email)) ∧
    login_recorded u (set_users users (w_db w)) (w_db w') ∧
    ∃ v, run (NewTokenPair (u_ID u) (s_tokenCfg s)) v = (Ok (lwecr_Tokens resp), w').
Proof.
  intros email. unfold LoginWithEmailCode in Hrun. fold email in Hrun.
  destruct (_ || _); [done|]. rewrite run_mbind in Hrun.
  destruct (run (allowed_or_open _ _) w) as [[] w1] eqn:H1; [|done].
  cbn [negb] in Hrun. rewrite run_mbind in Hrun.
  destruct (run (ec_Consume _ _ _) w1) as [[[]|] w2] eqn:H2; [| |done].
  2: { rewrite run_mbind in Hrun. by destruct (run (record_failure _ _) w2). }
  exists w1, w2. split; [done|]. split; [done|].
  pose proof (guarantees_run _ _ w (allowed_or_open_clock _ _ Hl (rateLimitKeys ctx "login" email)))
    as G1. rewrite H1 in G1. cbn [snd] in G1.
  pose proof (guarantees_run _ _ w1 (codes_only email (TrimSpace (lwec_Code req)))) as G2.
  rewrite H2 in G2. cbn [snd] in G2.
  assert (w_db w2 = w_db w) as Hdb2 by by rewrite (ro_db _ _ _ G2), (co_db _ _ G1).
  rewrite run_catch in Hrun || rewrite run_try in Hrun.
  destruct (run (user_of_email s email) w2) as [[m|] w3] eqn:H3; [|done].
  rewrite run_mbind in Hrun.
  pose proof (guarantees_run _ _ w3 (reset_failures_only _ _ Hl (emailRateLimitKey "login" email))) as G3.
  destruct (run (reset_failures _ _) w3) as [[] w4]. cbn [snd] in G3. rewrite run_mbind in Hrun.
  apply (user_of_email_inv s Hs) in H3 as (u & users & Hlive & Hemail & <- & Hcase & Hdb3).
  pose proof (recordLogin_run s u w4 Hs) as Hrec.
  destruct (run (recordLogin s _) w4) as [[] w5]. cbn [snd] in Hrec. rewrite run_catch in Hrun.
  pose proof (guarantees_run _ _ w5 (NewTokenPair_clock (um_ID (userToDomain u)) (s_tokenCfg s))) as G4.
  destruct (run (NewTokenPair _ _) w5) as [[p|] w6] eqn:H5; [|done]. injection Hrun as <- <-.
  cbn [snd] in G4. rewrite Hdb2 in *. exists u, users. do 2 (split; [done|]). split; [done|].
  rewrite (co_db _ _ G4). rewrite (ro_db _ _ _ G3), Hdb3 in Hrec. split; [done|]. by exists w5.
Qed.
(** The code that is mailed is the code that is stored.  When
    RequestEmailLoginCode succeeds with the Redis store, the mail server took a
    message to the trimmed address whose code is a six-digit number, and until
    the time to live has passed since it was stored (to the millisecond) that
    code, and no other, is consumed for the address. *)
Theorem RequestEmailLoginCode_delivers s c mailer ctx req resp w w'
    (Hm : s_mailer s = Some mailer) (Hc : s_emailCodeStore s = redisEmailCodeStore_iface c)
    (Httl : 0 < rec_ttl c)
    (Hsend : ∀ m, guarantees redis_same (em_SendEmail mailer m))
    (Hrun : run (RequestEmailLoginCode s ctx req) w = (Ok resp, w')) :
  let email := TrimSpace (relc_Email req) in
  ∃ n w1 w2, let code := pad_zeros 6 n in
    0 ≤ n < 1000000 ∧ String.length code = 6%nat ∧
    run (ec_Set (s_emailCodeStore s) email code) w1 = (Ok tt, w2) ∧
    run (em_SendEmail mailer (verification_message email code 10 (relc_UseHtml req))) w2 = (Ok tt, w') ∧
    ∀ w3 presented, env_fault (w_step w3) = None →
      redis_entry (w_redis w3) (email_code_key c email) = redis_entry (w_redis w') (email_code_key c email) →
      w_now w3 < w_now w1 + rec_ttl c - time_Millisecond →
      (run (ec_Consume (s_emailCodeStore s) email presented) w3).1 = Ok (bool_decide (code = presented)).
Proof.
  intros email. unfold RequestEmailLoginCode in Hrun. rewrite Hm in Hrun. fold email in Hrun.
  case_bool_decide; [done|]. rewrite run_mbind in Hrun.
  destruct (run (send_allowed _ _) w) as [[] v1]; [|done]. cbn [negb] in Hrun.
  rewrite run_catch in Hrun. destruct (run generateEmailCode v1) as [[code|] w1] eqn:Hgen; [|done].
  apply generateEmailCode_inv in Hgen as (_ & n & Hn & ->). rewrite run_catch in Hrun.
  destruct (run (ec_Set _ _ _) w1) as [[[]|] w2] eqn:Hset; [|done]. rewrite run_catch in Hrun.
  unfold sendVerificationCode in Hrun.
  pose proof (guarantees_run _ _ w2 (Hsend (verification_message email (pad_zeros 6 n) 10
    (relc_UseHtml req)))) as Hred.
  destruct (run (em_SendEmail _ _) w2) as [[[]|] w3'] eqn:Hmail; [|done]. injection Hrun as <-.
  exists n, w1, w2. intros code. split; [done|]. split; [by apply pad_zeros_length|].
  do 2 (split; [done|]). intros w3 presented Hf Hkept Htime. cbn [snd] in Hred.
  rewrite Hc in Hset |- *. cbn [ec_Set ec_Consume redisEmailCodeStore_iface] in *.
  unfold Set_ in Hset. apply redis_call_Ok_inv in Hset as (st & [= <-] & ->).
  unfold redis_same in Hred. rewrite Hred in Hkept. simpl in Hkept. rewrite redis_SET_spec, decide_True in Hkept by done.
  pose proof (Consume_run c email presented w3 Hf) as HC.
  destruct (run (Consume c email presented) w3) as [r w4]. destruct HC as (-> & _).
  rewrite Hkept. simpl. pose proof (redis_deadline_bounds (w_now w1) (rec_ttl c) Httl).
  rewrite (proj2 (Z.ltb_lt _ _)) by lia. f_equal. apply bool_decide_ext. unfold code. naive_solver.
Qed.
End properties.

(** ** Closed instances *)

Section instances.
#[local] Existing Instance calm.

Definition code_store : redisEmailCodeStore :=
  mkRedisEmailCodeStore (10 * time_Minute) "identra:email_code:".

#[local] Notation request_code :=
  (run (RequestEmailLoginCode sample_service no_ctx
          (mkRequestEmailLoginCodeRequest "carol@example.org" false)) calm_world).

(** The code the sample server mails. *)
Definition carol_code : string :=
  match env_rand_int (Env:=@pf_env calm) 2 1000000 with Some n => pad_zeros 6 n | None => "" end.
Definition with_code : World := request_code.2.
Definition carol_logs_in (code : string) : M (result LoginWithEmailCodeResponse) :=
  LoginWithEmailCode sample_service no_ctx (mkLoginWithEmailCodeRequest "carol@example.org" code).

Lemma email_login_within : limiter_within "identra:rl:login:" (s_loginRateLimiter sample_service).
Proof.
  intros l Hl. injection Hl as <-.
  exact (redis_limiter_spec (mkRedisRateLimiter "identra:rl:login:" 5 DefaultLoginLockoutDuration)).
Qed.

Lemma RequestEmailLoginCode_delivers_witness :
  is_Ok request_code.1 = true ∧ ∃ n, 0 ≤ n < 1000000.
Proof.
  assert (is_Ok request_code.1 = true) as Hok by (by vm_compute). split; [exact Hok|].
  destruct request_code as [[resp|] w'] eqn:Hrun; [|discriminate Hok].
  destruct (RequestEmailLoginCode_delivers sample_service code_store sample_mailer no_ctx _ resp
    calm_world w' eq_refl eq_refl eq_refl ltac:(intros m; constructor; [reflexivity|constructor]) Hrun)
    as (n & _ & _ & Hn & _).
  exists n. exact Hn.
Defined.

Lemma LoginWithEmailCode_sound_witness :
  ∃ u, user_live u = true ∧ u_Email u = "carol@example.org" ∧
       ¬ (u ∈ db_users (w_db with_code)).
Proof.
  assert (is_Ok (run (carol_logs_in carol_code) with_code).1 = true) as Hok by (by vm_compute).
  assert (db_users (w_db with_code) = []) as Hnone by (by apply nil_length_inv; vm_compute).
  generalize dependent with_code. intros w Hok Hnone. unfold carol_logs_in in Hok.
  destruct (run (LoginWithEmailCode _ _ _) w) as [[resp|] w'] eqn:Hrun; [|discriminate Hok].
  destruct (@LoginWithEmailCode_sound _ sample_service (redis_one_shot_codes code_store) "identra:rl:login:" no_ctx _ resp w w' eq_refl
    email_login_within Hrun) as (_ & _ & _ & _ & u & _ & Hlive & He & _).
  exists u. split; [exact Hlive|]. split; [exact He|]. rewrite Hnone. apply not_elem_of_nil.
Defined.

(** Carol presents her code three times at once. *)
Definition carol_requests : list (Ctx * LoginWithEmailCodeRequest) :=
  replicate 3 (no_ctx, mkLoginWithEmailCodeRequest "carol@example.org" carol_code).
Definition carol_contest : list (M (result LoginWithEmailCodeResponse)) * World :=
  schedule (concat (repeat [2; 0; 1]%nat 20))
    ((λ g, LoginWithEmailCode sample_service g.1 g.2) <$> carol_requests, with_code).

Lemma email_code_one_login_witness :
  ∃ i, finished_ok <$> carol_contest.1 !! i = Some true ∧
       ∀ j, finished_ok <$> carol_contest.1 !! j = Some true → i = j.
Proof.
  assert (finished_ok <$> carol_contest.1 !! 2%nat = Some true) as H2 by (by vm_compute).
  assert (rtc pool_step ((λ g, LoginWithEmailCode sample_service g.1 g.2) <$> carol_requests, with_code)
    (carol_contest.1, carol_contest.2)) as Hrun by (rewrite <-surjective_pairing; apply schedule_steps).
  assert (Forall (λ g, TrimSpace (lwec_Email g.2) = "carol@example.org") carol_requests) as Hreqs
    by (repeat (constructor; [reflexivity|]); constructor).
  generalize dependent carol_contest. intros [ms w'] H2 Hrun. cbn [fst snd] in *.
  assert (∀ i, finished_ok <$> ms !! i = Some true → ∃ a, ms !! i = Some (Ret (Ok a))) as Hret.
  { intros i. destruct (ms !! i) as [[[a|]|]|]; simpl; [|discriminate..]. intros _. by exists a. }
  exists 2%nat. split; [exact H2|]. intros j Hj.
  destruct (Hret _ H2) as [a Ha], (Hret _ Hj) as [b Hb].
  exact (@email_code_one_login _ sample_service (redis_one_shot_codes code_store) "identra:rl:login:"
    "carol@example.org" carol_requests with_code ms w' 2%nat j a b eq_refl email_login_within eq_refl
    eq_refl Hreqs Hrun Ha Hb).
Defined.
End instances.
