(* ===== verification/OAuthLogin.v ===== *)
(** * OAuth login, internal/identra/service_oauth.go, user_info_provider.go and
    service_login_info.go

    The GitHub provider, the OAuth flow (start, login, link), the resolution of
    an external identity to a user, and the current-user query.  The exchange
    with GitHub is a parameter; the choice of an email among those it lists is
    not. *)

From S2P Require Import Prelude GoStrings Prog Data Messages Platform RefPlatform SqliteQueries.
From S2P Require Import KeyManager World Tokens Interfaces OAuthStates SqliteStores App Handlers.
#[local] Open Scope Z_scope.

(** ** user_info_provider.go *)

Section provider.
Context `{P : Platform}.

(** A provider that also implements EmailProvider has its GetEmail. *)
Record UserInfoProvider := mkUserInfoProvider {
  uip_GetUserInfo : string → M (result UserInfo);
  uip_GetEmail : option (string → M (result string));
}.

(** A call to GitHub: it changes nothing of the server's. *)
Definition github_call {A} (f : nat → result A) : M (result A) :=
  act (λ w, (f (w_step w), tick w)).

Definition GitHub_GetUserInfo (token : string) : M (result UserInfo) :=
  try user := github_call (λ i, github_Users_Get i token) in
  Ret (Ok (mkUserInfo "github" (Itoa (gh_ID user)) (gh_Email user) (gh_Login user)
             (gh_AvatarURL user))).

(** The loop of GetEmail, with the two candidates it carries. *)
Fixpoint pick_email (firstVerified firstAny : string) (emails : list GitHubEmail) : string :=
  match emails with
  | [] => if negb (firstVerified == "")%go then firstVerified else firstAny
  | e :: emails =>
      let email := ge_Email e in
      if (email == "")%go then pick_email firstVerified firstAny emails else
      let firstAny := if (firstAny == "")%go then email else firstAny in
      if ge_Primary e && ge_Verified e then email else
      let firstVerified :=
        if (firstVerified == "")%go && ge_Verified e then email else firstVerified in
      pick_email firstVerified firstAny emails
  end.

Definition GitHub_GetEmail (token : string) : M (result string) :=
  try emails := github_call (λ i, github_Users_ListEmails i token) in
  Ret (Ok (pick_email "" "" emails)).

Definition GitHubUserInfoProvider : UserInfoProvider :=
  mkUserInfoProvider GitHub_GetUserInfo (Some GitHub_GetEmail).

Definition GetUserProvider (name : string) : result UserInfoProvider :=
  if (name == "github")%go then Ok GitHubUserInfoProvider
  else Err (errors_New ("provider " +:+ name +:+ " not supported")).
End provider.

(** ** service_oauth.go *)

Section handlers.
Context `{P : Platform}.
Variable s : Service.

Definition github_configured : bool :=
  negb ((oc_ClientID (s_githubOAuthConfig s) == "") ||
        (oc_ClientSecret (s_githubOAuthConfig s) == ""))%go.

Definition ListOAuthProviders (ctx : Ctx) (req : ListOAuthProvidersRequest)
    : result ListOAuthProvidersResponse :=
  let github :=
    if (oc_ClientID (s_githubOAuthConfig s) == "")%go
    then mkAuthProviderStatus AUTH_PROVIDER_GITHUB false UNAVAILABLE_REASON_MISSING_CLIENT_ID else
    if (oc_ClientSecret (s_githubOAuthConfig s) == "")%go
    then mkAuthProviderStatus AUTH_PROVIDER_GITHUB false UNAVAILABLE_REASON_MISSING_CLIENT_SECRET
    else mkAuthProviderStatus AUTH_PROVIDER_GITHUB true UNAVAILABLE_REASON_UNSPECIFIED in
  Ok (mkListOAuthProvidersResponse [github]).

Definition authProviderName (provider : AuthProvider) : option string :=
  match provider with AUTH_PROVIDER_GITHUB => Some "github" | _ => None end.

Definition authProviderValue (provider : string) : AuthProvider :=
  if (ToLower (TrimSpace provider) == "github")%go then AUTH_PROVIDER_GITHUB
  else AUTH_PROVIDER_UNSPECIFIED.

Definition oauthConfigForRedirect (redirectURL : string) : OAuth2Config :=
  let cfg := s_githubOAuthConfig s in
  mkOAuth2Config (oc_ClientID cfg) (oc_ClientSecret cfg) redirectURL (oc_Scopes cfg).

Definition generateOAuthState : M (result string) :=
  try buf := rand_Read 32 in
  Ret (Ok (hex_encode buf)).

Definition StartOAuthLogin (ctx : Ctx) (req : StartOAuthLoginRequest)
    : M (result StartOAuthLoginResponse) :=
  match authProviderName (sol_Provider req) with
  | None => fail InvalidArgument "provider is required and must be supported"
  | Some provider =>
      let redirectURL := TrimSpace (sol_RedirectUrl req) in
      if (redirectURL == "")%go then fail InvalidArgument "redirect URL is required" else
      if negb github_configured then fail FailedPrecondition "GitHub OAuth is not configured" else
      let oauthCfg := oauthConfigForRedirect redirectURL in
      try state := generateOAuthState catch (λ _, fail Internal "failed to generate oauth state") in
      try _ := oss_Add (s_oauthStateStore s) state provider redirectURL
        catch (λ _, fail Internal "failed to store oauth state") in
      Ret (Ok (mkStartOAuthLoginResponse (oauth2_AuthCodeURL oauthCfg state) state))
  end.

Definition updateEmailIfNeeded (usr : UserModel) (email : string) : M (result UserModel) :=
  if ((um_Email usr == email) || (email == ""))%go then Ret (Ok usr) else
  try usr := us_Update (s_userStore s)
               (mkUserModel (um_ID usr) (um_CreatedAt usr) (um_UpdatedAt usr) email
                  (um_HashedPassword usr) (um_VerificationHash usr) (um_LastLoginAt usr))
    catch (λ _, fail Internal "failed to update user email") in
  Ret (Ok usr).

Definition maybeFillOAuthEmail (provider : UserInfoProvider) (accessToken : string)
    (info : UserInfo) : M UserInfo :=
  if negb (ui_Email info == "")%go || negb (s_oauthFetchEmailIfMissing s) then Ret info else
  if (TrimSpace accessToken == "")%go then Ret info else
  match uip_GetEmail provider with
  | None => Ret info
  | Some GetEmail =>
      email ← GetEmail accessToken;
      match email with
      | Err _ => Ret info
      | Ok email =>
          if (TrimSpace email == "")%go then Ret info else
          Ret (mkUserInfo (ui_Provider info) (ui_ID info) (TrimSpace email) (ui_Username info)
                 (ui_AvatarURL info))
      end
  end.

Definition new_identity (userID : string) (info : UserInfo) : ExternalIdentityModel :=
  mkExternalIdentityModel "" userID (ui_Provider info) (ui_ID info) time_zero time_zero.

(** Merge: link the identity to the user that has its email. *)
Definition link_existing_user (info : UserInfo) (byEmail : UserModel) : M (result UserModel) :=
  created ← es_Create (s_externalIdentityStore s) (new_identity (um_ID byEmail) info);
  match created with
  | Ok _ => Ret (Ok byEmail)
  | Err createErr =>
      if errors_Is createErr identra_ErrAlreadyExists then
        try existingIdentity :=
          es_GetByProviderID (s_externalIdentityStore s) (ui_Provider info) (ui_ID info)
          catch (λ _, fail Internal "failed to verify oauth account link") in
        if (em_UserID existingIdentity == um_ID byEmail)%go then Ret (Ok byEmail)
        else fail AlreadyExists "oauth account already linked to another user"
      else fail Internal "failed to link oauth account"
  end.

(** A new user and its identity; without the identity the user is removed
    again. *)
Definition create_oauth_user (info : UserInfo) : M (result UserModel) :=
  try userModel := us_Create (s_userStore s)
                     (mkUserModel "" time_zero time_zero (ui_Email info) None None None)
    catch (λ createErr,
      if errors_Is createErr identra_ErrAlreadyExists then fail AlreadyExists "user already exists"
      else fail Internal "failed to create user") in
  try _ := es_Create (s_externalIdentityStore s) (new_identity (um_ID userModel) info)
    catch (λ createErr,
      let isConflict := errors_Is createErr identra_ErrAlreadyExists in
      _ ← us_Delete (s_userStore s) (um_ID userModel);
      if isConflict then fail AlreadyExists "oauth account already linked"
      else fail Internal "failed to create oauth identity") in
  Ret (Ok userModel).

Definition ensureOAuthUser (info : UserInfo) : M (result UserModel) :=
  if (ui_ID info == "")%go then fail Internal "provider user id is empty" else
  if (ui_Provider info == "")%go then fail Internal "provider name is empty" else
  existing ← es_GetByProviderID (s_externalIdentityStore s) (ui_Provider info) (ui_ID info);
  match existing with
  | Ok existing =>
      try usr := us_GetByID (s_userStore s) (em_UserID existing)
        catch (λ _, fail Internal "failed to fetch user linked to oauth identity") in
      updateEmailIfNeeded usr (ui_Email info)
  | Err err =>
      if errors_Is err identra_ErrNotFound then
        if negb (TrimSpace (ui_Email info) == "")%go then
          byEmail ← us_GetByEmail (s_userStore s) (ui_Email info);
          match byEmail with
          | Ok byEmail => link_existing_user info byEmail
          | Err emailErr =>
              if errors_Is emailErr identra_ErrNotFound then create_oauth_user info
              else fail Internal "failed to fetch user by email"
          end
        else fail FailedPrecondition "oauth provider did not supply an email address"
      else fail Internal "failed to fetch user by provider id"
  end.

(** What login and link do with a consumed state: exchange the code, ask the
    provider who it is. *)
Definition fetch_user_info (code : string) (stateData : OAuthState)
    : M (result (UserInfoProvider * string * UserInfo)) :=
  let oauthCfg := oauthConfigForRedirect (os_RedirectURL stateData) in
  try token := github_call (λ i, oauth2_Exchange i oauthCfg code)
    catch (λ _, fail Unauthenticated "failed to exchange authorization code") in
  try userProvider := Ret (GetUserProvider (os_Provider stateData))
    catch (λ _, fail Internal "failed to get user provider") in
  try userInfo := uip_GetUserInfo userProvider token
    catch (λ _, fail Unauthenticated "failed to fetch user info") in
  Ret (Ok (userProvider, token, userInfo)).

Definition oauth_profile (info : UserInfo) : OAuthUserProfile :=
  mkOAuthUserProfile (ui_Username info) (ui_AvatarURL info) (ui_Email info).

Definition LoginWithOAuth (ctx : Ctx) (req : LoginWithOAuthRequest)
    : M (result LoginWithOAuthResponse) :=
  if (TrimSpace (lwo_Code req) == "")%go then fail InvalidArgument "code is required" else
  if (TrimSpace (lwo_State req) == "")%go then fail InvalidArgument "state is required" else
  consumed ← oss_Consume (s_oauthStateStore s) (lwo_State req);
  match consumed with
  | Err _ => fail Internal "failed to validate oauth state"
  | Ok None => fail InvalidArgument "invalid or expired state"
  | Ok (Some stateData) =>
      try (userProvider, token, userInfo) := fetch_user_info (lwo_Code req) stateData in
      userInfo ← maybeFillOAuthEmail userProvider token userInfo;
      try authUser := ensureOAuthUser userInfo in
      _ ← recordLogin s authUser;
      try tokenPair := NewTokenPair (um_ID authUser) (s_tokenCfg s)
        catch (λ _, fail Internal "failed to create token pair") in
      Ret (Ok (mkLoginWithOAuthResponse tokenPair (oauth_profile userInfo)))
  end.

(** Linking: the identity is the caller's afterwards, or the link fails. *)
Definition link_identity (bindingUser : UserModel) (provider : string) (userInfo : UserInfo)
    : M (result unit) :=
  providerIdentity ← es_GetByProviderID (s_externalIdentityStore s) provider (ui_ID userInfo);
  match providerIdentity with
  | Ok providerIdentity =>
      if negb (em_UserID providerIdentity == um_ID bindingUser)%go
      then fail AlreadyExists "oauth account already linked to another user"
      else Ret (Ok tt)
  | Err err =>
      if errors_Is err identra_ErrNotFound then
        created ← es_Create (s_externalIdentityStore s)
          (mkExternalIdentityModel "" (um_ID bindingUser) provider (ui_ID userInfo)
             time_zero time_zero);
        match created with
        | Ok _ => Ret (Ok tt)
        | Err createErr =>
            if errors_Is createErr identra_ErrAlreadyExists then
              try existing :=
                es_GetByProviderID (s_externalIdentityStore s) provider (ui_ID userInfo)
                catch (λ _, fail Internal "failed to verify oauth link") in
              if negb (em_UserID existing == um_ID bindingUser)%go
              then fail AlreadyExists "oauth account already linked to another user"
              else Ret (Ok tt)
            else fail Internal "failed to link oauth account"
        end
      else fail Internal "failed to check existing oauth link"
  end.

Definition LinkOAuthAccount (ctx : Ctx) (req : LinkOAuthAccountRequest)
    : M (result LinkOAuthAccountResponse) :=
  let accessToken := accessTokenFromMetadata ctx in
  if (accessToken == "")%go then fail Unauthenticated "access token is required" else
  if (TrimSpace (loaq_Code req) == "")%go then fail InvalidArgument "code is required" else
  if (TrimSpace (loaq_State req) == "")%go then fail InvalidArgument "state is required" else
  try claims := ValidateAccessToken accessToken (tc_PublicKey (s_tokenCfg s))
    catch (λ _, fail Unauthenticated "invalid access token") in
  try bindingUser := us_GetByID (s_userStore s) (sc_UserID claims)
    catch (λ err,
      if errors_Is err identra_ErrNotFound then fail NotFound "user not found"
      else fail Internal "failed to fetch user") in
  consumed ← oss_Consume (s_oauthStateStore s) (loaq_State req);
  match consumed with
  | Err _ => fail Internal "failed to validate oauth state"
  | Ok None => fail InvalidArgument "invalid or expired state"
  | Ok (Some stateData) =>
      try (_, userInfo) := fetch_user_info (loaq_Code req) stateData in
      if (ui_ID userInfo == "")%go then fail Internal "provider returned empty user id" else
      try _ := link_identity bindingUser (os_Provider stateData) userInfo in
      _ ← recordLogin s bindingUser;
      try tokenPair := NewTokenPair (um_ID bindingUser) (s_tokenCfg s)
        catch (λ _, fail Internal "failed to create token pair") in
      Ret (Ok (mkLinkOAuthAccountResponse tokenPair (oauth_profile userInfo)))
  end.

(** ** service_login_info.go *)

Definition password_enabled (usr : UserModel) : bool :=
  match um_HashedPassword usr with
  | Some h => negb (TrimSpace h == "")%go
  | None => false
  end.

Definition GetCurrentUser (ctx : Ctx) (req : GetCurrentUserRequest)
    : M (result GetCurrentUserResponse) :=
  let accessToken := accessTokenFromMetadata ctx in
  if (accessToken == "")%go then fail Unauthenticated "access token is required" else
  try claims := ValidateAccessToken accessToken (tc_PublicKey (s_tokenCfg s))
    catch (λ _, fail Unauthenticated "invalid access token") in
  try usr := us_GetByID (s_userStore s) (sc_UserID claims)
    catch (λ err,
      if errors_Is err identra_ErrNotFound then fail NotFound "user not found"
      else fail Internal "failed to fetch user") in
  identities ← es_GetByUserID (s_externalIdentityStore s) (um_ID usr);
  let linked := match identities with
    | Err _ => []
    | Ok identities =>
        (λ identity, mkLinkedOAuthAccount (authProviderValue (em_Provider identity))
                       (em_ProviderUserID identity)) <$> identities
    end in
  Ret (Ok (mkGetCurrentUserResponse
             (mkUserProto (um_ID usr) (um_Email usr) (password_enabled usr) linked))).
End handlers.

(** ** Resolving an identity *)

Section resolve.
Context `{P : Platform}.
Context (s : Service) (Hs : s_userStore s = sqlite_users).
Hypothesis Hi : s_externalIdentityStore s = sqlite_identities.

(** The database links the identity to the user, who is live. *)
Definition linked_to (d : DB) (provider id uid : string) : Prop :=
  (∃ e, e ∈ db_external_identities d ∧ identity_of provider id e = true ∧ ei_UserID e = uid) ∧
  (∃ u, u ∈ db_users d ∧ user_live u = true ∧ u_ID u = uid).

Lemma live_with_id_inv id u : live_with_id id u = true → user_live u = true ∧ u_ID u = id.
Proof. by intros [?%bool_decide_eq_true ?]%andb_true_iff. Qed.

Lemma users_GetByID_Ok_inv id w m w' :
  run (users_GetByID id) w = (Ok m, w') →
  w' = tick w ∧ ∃ u, u ∈ db_users (w_db w) ∧ user_live u = true ∧ u_ID u = id ∧ m = userToDomain u.
Proof.
  rewrite users_GetByID_run. destruct (env_fault _); [done|].
  destruct (find _ _) as [u|] eqn:Hf; [|done]. intros [= <- <-]. split; [done|].
  apply find_Some_elem in Hf as [Hu [Hl Hid]%live_with_id_inv]. by exists u.
Qed.

Lemma users_GetByEmail_Ok_inv email w m w' :
  run (users_GetByEmail email) w = (Ok m, w') →
  w' = tick w ∧ ∃ u, u ∈ db_users (w_db w) ∧ user_live u = true ∧ u_Email u = email ∧
    m = userToDomain u.
Proof.
  rewrite users_GetByEmail_run. destruct (env_fault _); [done|].
  destruct (find _ _) as [u|] eqn:Hf; [|done]. intros [= <- <-]. split; [done|].
  apply find_Some_elem in Hf as [Hu [Hl%bool_decide_eq_true Hid]%andb_true_iff]. by exists u.
Qed.

Lemma identities_Get_Ok_inv provider id w m w' :
  run (identities_GetByProviderID provider id) w = (Ok m, w') →
  w' = tick w ∧ ∃ e, find (identity_of provider id) (db_external_identities (w_db w)) = Some e ∧
    e ∈ db_external_identities (w_db w) ∧ identity_of provider id e = true ∧
    m = externalIdentityToDomain e.
Proof.
  rewrite identities_GetByProviderID_run. destruct (env_fault _); [done|].
  destruct (find _ _) as [e|] eqn:Hf; [|done]. intros [= <- <-]. split; [done|].
  pose proof (find_Some_elem _ _ _ Hf) as [??]. by exists e.
Qed.

Lemma updateEmail_linked usr email provider id w m w' :
  run (updateEmailIfNeeded s usr email) w = (Ok m, w') →
  linked_to (w_db w) provider id (um_ID usr) →
  um_ID m = um_ID usr ∧ linked_to (w_db w') provider id (um_ID m).
Proof.
  unfold updateEmailIfNeeded. destruct (_ || _); [by intros [= <- <-]|].
  rewrite run_catch, Hs. cbn [us_Update sqlite_users].
  destruct (run (users_Update _) w) as [[m'|] w1] eqn:Hu; [|done]. intros [= <- <-].
  apply users_Update_inv in Hu as (Hid & v & now & Hv & Hl & Hdb). simpl in Hid.
  intros [He (u & Hu & Hul & Huid)]. split; [done|]. rewrite Hdb, Hid. split; [exact He|].
  simpl. apply live_with_id_inv in Hl as [Hvl Hvid]. simpl in Hvid.
  eexists. split; [apply elem_of_map_if; exists v; split; [exact Hv|done]|].
  unfold live_with_id. simpl. rewrite Hvl, bool_decide_eq_true_2 by done. done.
Qed.

Lemma create_identity_linked i uid w m w' :
  run (identities_Create i) w = (Ok m, w') → em_UserID i = uid →
  (∃ u, u ∈ db_users (w_db w) ∧ user_live u = true ∧ u_ID u = uid) →
  linked_to (w_db w') (em_Provider i) (em_ProviderUserID i) uid.
Proof.
  intros (row & Hdb & _ & Hof & Huid)%identities_Create_inv <- Hu. rewrite Hdb. split; [|exact Hu].
  exists row. split; [apply elem_of_app; right; by left|]. by rewrite <-Huid.
Qed.

Lemma link_existing_linked info byEmail w m w' :
  run (link_existing_user s info byEmail) w = (Ok m, w') →
  (∃ u, u ∈ db_users (w_db w) ∧ user_live u = true ∧ u_ID u = um_ID byEmail) →
  m = byEmail ∧ linked_to (w_db w') (ui_Provider info) (ui_ID info) (um_ID byEmail).
Proof.
  unfold link_existing_user. rewrite run_mbind, Hi.
  cbn [es_Create es_GetByProviderID sqlite_identities]. intros Hrun Hu.
  pose proof (guarantees_run _ _ w (identities_Create_users (new_identity (um_ID byEmail) info))) as Hsame.
  destruct (run (identities_Create _) w) as [[i|e] w1] eqn:Hc; cbn [snd] in Hsame.
  - injection Hrun as <- <-. split; [done|]. by apply (create_identity_linked _ _ _ _ _ Hc eq_refl).
  - destruct (errors_Is e _); [|done]. rewrite run_catch in Hrun.
    destruct (run (identities_GetByProviderID _ _) w1) as [[x|] w2] eqn:Hg; [|done].
    case_bool_decide as Hx; [|done]. injection Hrun as <- <-. split; [done|].
    apply identities_Get_Ok_inv in Hg as (-> & e' & _ & He' & Hof & ->). split.
    + exists e'. done.
    + simpl. rewrite Hsame. exact Hu.
Qed.

Lemma create_oauth_linked info w m w' :
  run (create_oauth_user s info) w = (Ok m, w') →
  linked_to (w_db w') (ui_Provider info) (ui_ID info) (um_ID m).
Proof.
  unfold create_oauth_user. rewrite run_catch, Hs, Hi. cbn [us_Create es_Create sqlite_users sqlite_identities].
  destruct (run (users_Create _) w) as [[m'|e] w1] eqn:Hc; [|by destruct (errors_Is e _)].
  rewrite run_catch. destruct (run (identities_Create _) w1) as [[i|e] w2] eqn:Hc2.
  - intros [= <- <-]. apply (create_identity_linked _ _ _ _ _ Hc2 eq_refl).
    apply users_Create_inv in Hc as (row & Hdb & <- & Hl & _). exists row. rewrite Hdb. simpl.
    split; [apply elem_of_app; right; by left|done].
  - rewrite run_mbind. destruct (run (us_Delete _ _) w2). by destruct (errors_Is e _).
Qed.

Lemma link_identity_Ok_inv u provider info w w' :
  run (link_identity s u provider info) w = (Ok tt, w') →
  (∃ e, e ∈ db_external_identities (w_db w') ∧ identity_of provider (ui_ID info) e = true ∧
        ei_UserID e = um_ID u) ∧
  (∀ e, find (identity_of provider (ui_ID info)) (db_external_identities (w_db w)) = Some e →
        ei_UserID e = um_ID u).
Proof.
  unfold link_identity. rewrite run_mbind, Hi. cbn [es_Create es_GetByProviderID sqlite_identities].
  destruct (run (identities_GetByProviderID _ _) w) as [[ex|er] w1] eqn:Hg.
  - apply identities_Get_Ok_inv in Hg as (-> & e & Hf & He & Hof & ->). simpl.
    case_bool_decide as Hu; [|done]. intros [= <-]. split; [by exists e|]. rewrite Hf. by intros ? [= <-].
  - rewrite identities_GetByProviderID_run in Hg. destruct (env_fault _) as [ft|].
    { injection Hg as <- <-. by rewrite errors_Is_New, bool_decide_eq_false_2. }
    destruct (find _ _) eqn:Hnone; [done|]. injection Hg as <- <-. rewrite errors_Is_refl, run_mbind.
    destruct (run (identities_Create _) _) as [[m|e] w2] eqn:Hc.
    + intros [= <-]. split; [|done]. apply identities_Create_inv in Hc as (row & Hdb & _ & Hof & Hu).
      exists row. rewrite Hdb. split; [apply elem_of_app; right; by left|done].
    + destruct (errors_Is e _); [|done]. rewrite run_catch.
      destruct (run (identities_GetByProviderID _ _) w2) as [[x|] w3] eqn:Hg2; [|done].
      case_bool_decide as Hu; [|done]. intros [= <-].
      apply identities_Get_Ok_inv in Hg2 as (-> & e' & _ & He' & Hof & ->). split; [by exists e'|done].
Qed.

Lemma recordLogin_identities u w :
  db_external_identities (w_db (run (recordLogin s (userToDomain u)) w).2) =
    db_external_identities (w_db w).
Proof. by destruct (recordLogin_run s u w Hs) as [->|(login & now & ->)]. Qed.

Lemma elem_of_order_by {A} n (le : A → A → bool) l x : x ∈ sql_order_by n le l ↔ x ∈ l.
Proof. by rewrite sql_order_by_perm. Qed.
End resolve.

(** ** Effects *)

Section effects.
Context `{P : Platform}.
Context (s : Service) (Hs : s_userStore s = sqlite_users).
Hypothesis Hi : s_externalIdentityStore s = sqlite_identities.

Lemma github_call_clock {A} (f : nat → result A) : guarantees clock_only (github_call f).
Proof. apply guarantees_op. intros w. apply tick_closed. Qed.
#[local] Hint Resolve github_call_clock : go.

Lemma provider_clock name p :
  GetUserProvider name = Ok p →
  (∀ t, guarantees clock_only (uip_GetUserInfo p t)) ∧
  (∀ g, uip_GetEmail p = Some g → ∀ t, guarantees clock_only (g t)).
Proof.
  unfold GetUserProvider. case_bool_decide; [|done]. intros [= <-]. split.
  - intros t. simpl. unfold GitHub_GetUserInfo. guarantees_tac.
  - intros g [= <-] t. unfold GitHub_GetEmail. guarantees_tac.
Qed.

Lemma fetch_clock code st : guarantees clock_only (fetch_user_info s code st).
Proof.
  unfold fetch_user_info, fail. apply guarantees_catch; [apply github_call_clock|constructor|].
  intros token. destruct (GetUserProvider _) as [p|] eqn:Hp; [|repeat constructor].
  unfold prog_catch. simpl. apply guarantees_mbind; [apply (provider_clock _ _ Hp)|].
  intros []; constructor.
Qed.

(** What follows fetch_user_info only sees known providers. *)
Lemma fetch_guarantees R {B} code st (k : _ → M B) :
  (∀ w, R w (tick w)) →
  (∀ p t i, GetUserProvider (os_Provider st) = Ok p → guarantees R (k (Ok (p, t, i)))) →
  (∀ e, guarantees R (k (Err e))) →
  guarantees R (fetch_user_info s code st ≫= k).
Proof.
  intros HR Hk He. unfold fetch_user_info, fail, GetUserProvider in *.
  apply guarantees_act; [intros w; apply HR|]. intros [t|e]; [|apply He].
  case_bool_decide; [|apply He].
  apply guarantees_act; [intros w; apply HR|]. intros [u|e]; [by apply Hk|apply He].
Qed.

(** The user GitHub answers with, as the service keeps it. *)
Definition github_info (gh : GitHubUser) : UserInfo :=
  mkUserInfo "github" (Itoa (gh_ID gh)) (gh_Email gh) (gh_Login gh) (gh_AvatarURL gh).

(** The code was exchanged for a token, and the token for a GitHub account. *)
Definition github_account (code : string) (st : OAuthState) w (t : string) (gh : GitHubUser) : Prop :=
  os_Provider st = "github" ∧
  oauth2_Exchange (w_step w) (oauthConfigForRedirect s (os_RedirectURL st)) code = Ok t ∧
  github_Users_Get (S (w_step w)) t = Ok gh.

Lemma fetch_Ok_inv code st w p t i w' :
  run (fetch_user_info s code st) w = (Ok (p, t, i), w') →
  p = GitHubUserInfoProvider ∧ ∃ gh, github_account code st w t gh ∧ i = github_info gh.
Proof.
  unfold fetch_user_info, GetUserProvider, github_account. rewrite run_catch. cbn [run github_call act].
  destruct (oauth2_Exchange _ _ _) as [tok|]; [|done]. rewrite run_catch.
  case_bool_decide as Hp; [|done]. cbn [run]. rewrite run_catch. cbn.
  destruct (github_Users_Get _ tok) as [gh|] eqn:Hgh; cbn; [|done].
  intros [= <- <- <- _]. split; [done|]. by exists gh.
Qed.

Lemma maybeFill_clock name p t i :
  GetUserProvider name = Ok p → guarantees clock_only (maybeFillOAuthEmail s p t i).
Proof.
  intros Hp. unfold maybeFillOAuthEmail. destruct (_ || _); [constructor|].
  case_bool_decide; [constructor|]. destruct (uip_GetEmail p) as [g|] eqn:Hg; [|constructor].
  apply guarantees_mbind; [by apply (provider_clock _ _ Hp)|].
  intros [e|]; [case_bool_decide|]; constructor.
Qed.

Lemma ensureOAuthUser_effect info : guarantees db_effect (ensureOAuthUser s info).
Proof.
  unfold ensureOAuthUser, link_existing_user, create_oauth_user, updateEmailIfNeeded, fail.
  rewrite Hs, Hi. cbn [us_GetByID us_GetByEmail us_Create us_Update us_Delete es_Create
    es_GetByProviderID sqlite_users sqlite_identities]. guarantees_tac.
Qed.

Lemma link_identity_effect u p i : guarantees db_effect (link_identity s u p i).
Proof.
  unfold link_identity, fail. rewrite Hi. cbn [es_Create es_GetByProviderID sqlite_identities].
  guarantees_tac.
Qed.

Lemma GetCurrentUser_clock ctx req : guarantees clock_only (GetCurrentUser s ctx req).
Proof.
  unfold GetCurrentUser, ValidateAccessToken, ValidateToken, fail. rewrite Hs, Hi.
  cbn [us_GetByID es_GetByUserID sqlite_users sqlite_identities]. guarantees_tac.
Qed.

(** ** Who can take a state *)

Section race.
Context `{!OneShotStates (s_oauthStateStore s)} (state : string).
Abbreviation keeps := (keeps_gone (state_gone (st:=s_oauthStateStore s) state)).

Lemma db_keeps_state w w' : db_effect w w' → keeps w w'.
Proof.
  intros [H _] Hg. eapply state_gone_frame; [apply (do_redis _ _ H)|apply (do_oauth_mem _ _ H)|done].
Qed.

Lemma clock_keeps_state w w' : clock_only w w' → keeps w w'.
Proof. intros H. by apply db_keeps_state, clock_only_effect. Qed.

Lemma db_keeps_state_prog {A} (m : M A) : guarantees db_effect m → guarantees keeps m.
Proof. apply guarantees_mono, db_keeps_state. Qed.
Lemma clock_keeps_state_prog {A} (m : M A) : guarantees clock_only m → guarantees keeps m.
Proof. apply guarantees_mono, clock_keeps_state. Qed.

Lemma tick_keeps_state w : keeps w (tick w).
Proof. apply clock_keeps_state, tick_closed. Qed.

Lemma NewTokenPair_keeps uid cfg : guarantees keeps (NewTokenPair uid cfg).
Proof. apply clock_keeps_state_prog, NewTokenPair_clock. Qed.
Lemma recordLogin_keeps m : guarantees keeps (recordLogin s m).
Proof. by apply db_keeps_state_prog, recordLogin_effect. Qed.
Lemma ensureOAuthUser_keeps i : guarantees keeps (ensureOAuthUser s i).
Proof. apply db_keeps_state_prog, ensureOAuthUser_effect. Qed.
Lemma link_identity_keeps u p i : guarantees keeps (link_identity s u p i).
Proof. apply db_keeps_state_prog, link_identity_effect. Qed.
Lemma maybeFill_keeps name p t i :
  GetUserProvider name = Ok p → guarantees keeps (maybeFillOAuthEmail s p t i).
Proof. intros Hp. by eapply clock_keeps_state_prog, maybeFill_clock. Qed.
#[local] Hint Resolve NewTokenPair_keeps recordLogin_keeps ensureOAuthUser_keeps
  link_identity_keeps : go.

Lemma LoginWithOAuth_claims ctx req :
  lwo_State req = state →
  claims (state_gone (st:=s_oauthStateStore s) state) (λ r, is_Ok r = true)
    (LoginWithOAuth s ctx req).
Proof.
  intros He. unfold LoginWithOAuth. rewrite He. case_bool_decide; [by constructor|].
  case_bool_decide; [by constructor|]. apply Consume_claims.
  - intros [[d|]|e]; [|constructor..]. apply fetch_guarantees; [apply tick_keeps_state| |constructor].
    intros p t i Hp. apply guarantees_mbind; [by eapply maybeFill_keeps|]. intros info.
    unfold fail. guarantees_tac.
  - intros [[d|]|e] Hne; [by destruct (Hne d)|by constructor..].
Qed.

Lemma LinkOAuthAccount_claims ctx req :
  loaq_State req = state →
  claims (state_gone (st:=s_oauthStateStore s) state) (λ r, is_Ok r = true)
    (LinkOAuthAccount s ctx req).
Proof.
  intros He. unfold LinkOAuthAccount. rewrite He. do 3 (case_bool_decide; [by constructor|]).
  apply claims_bind.
  { apply clock_keeps_state_prog. unfold ValidateAccessToken, ValidateToken. guarantees_tac. }
  intros [c|e]; [|by constructor]. apply claims_bind.
  { apply clock_keeps_state_prog. rewrite Hs. apply users_GetByID_clock. }
  intros [u|e]; [|by destruct (errors_Is e _); constructor]. apply Consume_claims.
  - intros [[d|]|e]; [|constructor..]. apply fetch_guarantees; [apply tick_keeps_state| |constructor].
    intros p t i Hp. unfold fail. guarantees_tac.
  - intros [[d|]|e] Hne; [by destruct (Hne d)|by constructor..].
Qed.
End race.
End effects.

(** ** The choice of an email *)

Definition has_email (e : GitHubEmail) : bool := negb (ge_Email e == "")%go.
Definition verified_email (e : GitHubEmail) : bool := has_email e && ge_Verified e.
Definition primary_email (e : GitHubEmail) : bool := verified_email e && ge_Primary e.

(** The first email that qualifies, or else [d]. *)
Definition first_email (p : GitHubEmail → bool) (l : list GitHubEmail) (d : string) : string :=
  match find p l with Some e => ge_Email e | None => d end.

(** A candidate found so far stands; otherwise the rest is searched. *)
Definition or_first (found : string) (p : GitHubEmail → bool) (l : list GitHubEmail) (d : string)
    : string :=
  if (found == "")%go then first_email p l d else found.

Lemma pick_email_spec fv fa l :
  pick_email fv fa l =
    first_email primary_email l (or_first fv verified_email l (or_first fa has_email l "")).
Proof.
  revert fv fa. induction l as [|e l IH]; intros fv fa; simpl.
  - unfold first_email, or_first, first_email. simpl. by repeat case_bool_decide; subst.
  - rewrite !IH. unfold first_email, or_first, first_email, primary_email, verified_email, has_email.
    simpl. destruct (ge_Primary e), (ge_Verified e);
      repeat (case_bool_decide; simpl; subst; try done).
Qed.

(** ** Attempts on a state *)

Inductive oauth_attempt :=
  | AttemptLogin (ctx : Ctx) (req : LoginWithOAuthRequest)
  | AttemptLink (ctx : Ctx) (req : LinkOAuthAccountRequest).

Definition attempt_state (a : oauth_attempt) : string :=
  match a with AttemptLogin _ req => lwo_State req | AttemptLink _ req => loaq_State req end.

(** Whether the handler answers with tokens. *)
Definition attempt `{P : Platform} (s : Service) (a : oauth_attempt) : M bool :=
  match a with
  | AttemptLogin ctx req => LoginWithOAuth s ctx req ≫= λ r, Ret (is_Ok r)
  | AttemptLink ctx req => LinkOAuthAccount s ctx req ≫= λ r, Ret (is_Ok r)
  end.

(** ** Properties *)

Section properties.
Context `{P : Platform}.

(** Which of the addresses GitHub lists GetEmail answers: the first one
    that is primary and verified; if there is none, the first verified one; if
    there is none, the first non-empty one, verified or not; otherwise none. *)
Theorem GetEmail_choice emails :
  pick_email "" "" emails =
    first_email primary_email emails
      (first_email verified_email emails (first_email has_email emails "")).
Proof. by rewrite pick_email_spec. Qed.

(** C16.  ensureOAuthUser links.  When it answers a user, the database holds
    the identity of the provider's account, linked to that user, who is live;
    and an account that was linked before is answered the user it was linked
    to. *)
Theorem ensureOAuthUser_links s info m w w'
    (Hs : s_userStore s = sqlite_users) (Hi : s_externalIdentityStore s = sqlite_identities)
    (Hrun : run (ensureOAuthUser s info) w = (Ok m, w')) :
  linked_to (w_db w') (ui_Provider info) (ui_ID info) (um_ID m) ∧
  ∀ e, find (identity_of (ui_Provider info) (ui_ID info)) (db_external_identities (w_db w)) = Some e →
    um_ID m = ei_UserID e.
Proof.
  unfold ensureOAuthUser in Hrun. case_bool_decide; [done|]. case_bool_decide; [done|].
  rewrite run_mbind in Hrun. rewrite Hi in Hrun at 1. cbn [es_GetByProviderID sqlite_identities] in Hrun.
  destruct (run (identities_GetByProviderID _ _) w) as [[ex|e] w1] eqn:Hg.
  - apply identities_Get_Ok_inv in Hg as (-> & e & Hf & He & Hof & ->). rewrite run_catch in Hrun.
    rewrite Hs in Hrun at 1. cbn [us_GetByID sqlite_users] in Hrun.
    destruct (run (users_GetByID _) _) as [[usr|] w2] eqn:Hu; [|done].
    apply users_GetByID_Ok_inv in Hu as (-> & u & Hu & Hul & Hid & ->).
    apply (updateEmail_linked s Hs _ _ (ui_Provider info) (ui_ID info)) in Hrun as [Hm Hl].
    + split; [exact Hl|]. rewrite Hf. intros e' [= <-]. by rewrite Hm.
    + split; [by exists e|by exists u].
  - assert (w_db w1 = w_db w ∧
      (errors_Is e identra_ErrNotFound = true →
       find (identity_of (ui_Provider info) (ui_ID info)) (db_external_identities (w_db w)) = None))
      as [Hdb Hnone].
    { rewrite identities_GetByProviderID_run in Hg. destruct (env_fault _) as [ft|].
      - injection Hg as <- <-. split; [done|]. rewrite errors_Is_New. by intros ?%bool_decide_eq_true.
      - destruct (find _ _); [done|]. by injection Hg as _ <-. }
    destruct (errors_Is e _); [|done]. rewrite Hnone by done. split; [|done].
    destruct (negb _); [|done]. rewrite run_mbind in Hrun. rewrite Hs in Hrun at 1.
    cbn [us_GetByEmail sqlite_users] in Hrun.
    destruct (run (users_GetByEmail _) w1) as [[byEmail|e2] w2] eqn:Hu.
    + apply users_GetByEmail_Ok_inv in Hu as (-> & u & Hu & Hul & _ & ->).
      apply (link_existing_linked s Hi) in Hrun as [-> Hl]; [done|]. by exists u.
    + destruct (errors_Is e2 _); [|done]. by apply (create_oauth_linked s Hs Hi) in Hrun.
Qed.

(** C17.  Linking is for the caller.  When LinkOAuthAccount succeeds, the
    request carried a valid access token of a live user, the state was one the
    store handed out, GitHub exchanged the request's code, under the redirect URL
    of that state, for a token, and answered that token with an account; the
    identity of that account, by its number, is linked to the caller afterwards
    and was to nobody else before; the answer has the profile of that account and
    tokens minted for the caller. *)
Theorem LinkOAuthAccount_sound s `{!OneShotStates (s_oauthStateStore s)} ctx req resp w w'
    (Hs : s_userStore s = sqlite_users) (Hi : s_externalIdentityStore s = sqlite_identities)
    (Hrun : run (LinkOAuthAccount s ctx req) w = (Ok resp, w')) :
  ∃ c d t gh w2, accepts ValidateAccessToken (accessTokenFromMetadata ctx)
      (tc_PublicKey (s_tokenCfg s)) w c ∧
    run (oss_Consume (s_oauthStateStore s) (loaq_State req)) (tick (tick w)) = (Ok (Some d), w2) ∧
    github_account s (loaq_Code req) d w2 t gh ∧
    (∃ e, e ∈ db_external_identities (w_db w') ∧
          identity_of "github" (Itoa (gh_ID gh)) e = true ∧ ei_UserID e = sc_UserID c) ∧
    (∀ e, find (identity_of "github" (Itoa (gh_ID gh))) (db_external_identities (w_db w)) = Some e →
          ei_UserID e = sc_UserID c) ∧
    loar_Profile resp = oauth_profile (github_info gh) ∧
    (∃ u, u ∈ db_users (w_db w) ∧ user_live u = true ∧ u_ID u = sc_UserID c) ∧
    ∃ v, run (NewTokenPair (sc_UserID c) (s_tokenCfg s)) v = (Ok (loar_Tokens resp), w').
Proof.
  unfold LinkOAuthAccount in Hrun. do 3 (case_bool_decide; [done|]). rewrite run_catch in Hrun.
  destruct (run (ValidateAccessToken _ _) w) as [[c|] w1] eqn:Hval; [|done].
  assert (w1 = tick w) as ->.
  { rewrite ValidateAccessToken_run in Hval. by injection Hval as _ <-. }
  rewrite run_catch in Hrun. rewrite Hs in Hrun at 1. cbn [us_GetByID sqlite_users] in Hrun.
  destruct (run (users_GetByID _) (tick w)) as [[m|e] w2] eqn:Hu; [|by destruct (errors_Is e _)].
  apply users_GetByID_Ok_inv in Hu as (-> & u & Hu & Hul & Hid & ->). rewrite run_mbind in Hrun.
  pose proof (guarantees_run _ _ (tick (tick w)) (Consume_db (loaq_State req))) as G1.
  destruct (run (oss_Consume _ _) (tick (tick w))) as [[[d|]|] w2] eqn:Hcons; [|done..].
  rewrite run_try in Hrun.
  pose proof (guarantees_run _ _ w2 (fetch_clock s (loaq_Code req) d)) as G2.
  destruct (run (fetch_user_info _ _ _) w2) as [[[[p t] info]|] w3] eqn:Hfetch; [|done].
  apply fetch_Ok_inv in Hfetch as (_ & gh & Hgh & ->). pose proof Hgh as (Hprov & _ & _).
  case_bool_decide; [done|]. rewrite run_try in Hrun. cbn [snd] in G1, G2.
  destruct (run (link_identity _ _ _ _) w3) as [[[]|] w4] eqn:Hlink; [|done].
  apply (link_identity_Ok_inv s Hi) in Hlink as [Hlinked Hbefore]. rewrite run_mbind in Hrun.
  pose proof (recordLogin_identities s Hs u w4) as G3.
  destruct (run (recordLogin s _) w4) as [[] w5]. cbn [snd] in G3. rewrite run_catch in Hrun.
  pose proof (guarantees_run _ _ w5 (NewTokenPair_clock (um_ID (userToDomain u)) (s_tokenCfg s))) as G4.
  destruct (run (NewTokenPair _ _) w5) as [[pair|] w6] eqn:Hpair; [|done]. injection Hrun as <- <-.
  cbn [snd um_ID userToDomain] in *. rewrite Hid in *.
  assert (w_db w3 = w_db w) as Hdb3 by (by rewrite (co_db _ _ G2), G1).
  exists c, d, t, gh, w2. split; [unfold accepts; by rewrite Hval|].
  do 2 (split; [done|]). rewrite (co_db _ _ G4), G3. rewrite Hprov in Hlinked, Hbefore.
  split; [done|]. rewrite <-Hdb3. split; [done|]. split; [done|].
  rewrite Hdb3. split; [by exists u|]. by exists w5.
Qed.

(** C15.  One state, one use.  However many LoginWithOAuth and LinkOAuthAccount
    requests present one state concurrently, in whatever interleaving, at most
    one of them is answered with tokens, with either of the two state stores. *)
Theorem oauth_state_one_use s `{!OneShotStates (s_oauthStateStore s)} state
    (attempts : list oauth_attempt) w ms w' i j
    (Hs : s_userStore s = sqlite_users) (Hi : s_externalIdentityStore s = sqlite_identities)
    (Hstate : Forall (λ a, attempt_state a = state) attempts)
    (Hrun : rtc pool_step (attempt s <$> attempts, w) (ms, w'))
    (H1 : ms !! i = Some (Ret true)) (H2 : ms !! j = Some (Ret true)) :
  i = j.
Proof.
  assert (Forall (claims (state_gone (st:=s_oauthStateStore s) state) (λ b, b = true))
    (attempt s <$> attempts)) as Hclaims.
  { apply Forall_fmap. eapply Forall_impl; [exact Hstate|]. intros [ctx req|ctx req] Ha;
      apply claims_map; [by apply LoginWithOAuth_claims|by apply LinkOAuthAccount_claims]. }
  by eapply (one_winner _ _ _ _ _ _ _ _ _ _ Hclaims Hrun H1 H2).
Qed.

(** GetCurrentUser answers the caller.  It changes nothing; it only
    succeeds for a valid access token of a live user, and then answers that
    user's identifier, email and whether a password is set, and, when the
    database answers, exactly the provider accounts linked to the user. *)
Theorem GetCurrentUser_spec s ctx req resp w w'
    (Hs : s_userStore s = sqlite_users) (Hi : s_externalIdentityStore s = sqlite_identities)
    (Hrun : run (GetCurrentUser s ctx req) w = (Ok resp, w')) :
  clock_only w w' ∧ ∃ c u, accepts ValidateAccessToken (accessTokenFromMetadata ctx)
      (tc_PublicKey (s_tokenCfg s)) w c ∧
    u ∈ db_users (w_db w) ∧ user_live u = true ∧ u_ID u = sc_UserID c ∧
    up_Id (gcu_User resp) = u_ID u ∧ up_Email (gcu_User resp) = u_Email u ∧
    (up_PasswordLoginEnabled (gcu_User resp) = true →
       ∃ h, u_HashedPassword u = Some h ∧ TrimSpace h ≠ "") ∧
    (env_fault (w_step (tick (tick w))) = None → ∀ l,
       l ∈ up_LinkedOauthAccounts (gcu_User resp) ↔
       ∃ e, e ∈ db_external_identities (w_db w) ∧ identity_live e = true ∧ ei_UserID e = u_ID u ∧
            l = mkLinkedOAuthAccount (authProviderValue (ei_Provider e)) (ei_ProviderUserID e)).
Proof.
  pose proof (guarantees_run _ _ w (GetCurrentUser_clock s Hs Hi ctx req)) as Hck.
  rewrite Hrun in Hck. split; [exact Hck|]. clear Hck.
  unfold GetCurrentUser in Hrun. case_bool_decide; [done|]. rewrite run_catch in Hrun.
  destruct (run (ValidateAccessToken _ _) w) as [[c|] w1] eqn:Hval; [|done].
  assert (w1 = tick w) as -> by (rewrite ValidateAccessToken_run in Hval; by injection Hval as _ <-).
  rewrite run_catch, Hs, Hi in Hrun. cbn [us_GetByID es_GetByUserID sqlite_users sqlite_identities] in Hrun.
  destruct (run (users_GetByID _) _) as [[m|e] w2] eqn:Hu; [|by destruct (errors_Is e _)].
  apply users_GetByID_Ok_inv in Hu as (-> & u & Hu & Hul & Hid & ->). rewrite run_mbind in Hrun.
  destruct (run (identities_GetByUserID _) _) as [ids w2] eqn:Hids. injection Hrun as <- <-.
  exists c, u. split; [unfold accepts; by rewrite Hval|]. simpl.
  do 5 (split; [done|]). split.
  - unfold password_enabled. simpl. destruct (u_HashedPassword u) as [h|]; [|done].
    intros Hb. exists h. split; [done|]. by apply negb_true_iff, bool_decide_eq_false in Hb.
  - intros Hf l. unfold identities_GetByUserID in Hids. rewrite run_try in Hids.
    rewrite db_query_run in Hids. simpl in Hids, Hf. rewrite Hf in Hids.
    injection Hids as <- <-. rewrite list_elem_of_fmap. setoid_rewrite list_elem_of_fmap.
    setoid_rewrite elem_of_order_by. split.
    + intros (m & -> & e & -> & [He [Hue%bool_decide_eq_true Hl]%andb_true_iff]%list_elem_of_In%filter_In).
      exists e. rewrite list_elem_of_In. done.
    + intros (e & He & Hl & Hue & ->). exists (externalIdentityToDomain e). split; [done|].
      exists e. split; [done|]. apply list_elem_of_In, filter_In. split; [by apply list_elem_of_In|].
      by rewrite Hl, bool_decide_eq_true_2.
Qed.
End properties.

(** ** Closed instances *)

Section instances.
#[local] Existing Instance calm.

Definition octocat_info : UserInfo :=
  mkUserInfo "github" "583231" "octocat@github.com" "octocat" "https://github.com/octocat.png".

Lemma ensureOAuthUser_links_witness :
  ∃ m w', run (ensureOAuthUser sample_service octocat_info) calm_world = (Ok m, w') ∧
    linked_to (w_db w') "github" "583231" (um_ID m).
Proof.
  assert (is_Ok (run (ensureOAuthUser sample_service octocat_info) calm_world).1 = true) as Hok
    by (by vm_compute).
  destruct (run (ensureOAuthUser sample_service octocat_info) calm_world) as [[m|] w'] eqn:Hrun;
    [|discriminate Hok].
  exists m, w'. split; [reflexivity|].
  exact (proj1 (ensureOAuthUser_links sample_service octocat_info m calm_world w' eq_refl eq_refl Hrun)).
Defined.

(** Alice holds a session and starts an OAuth flow. *)
#[local] Notation alice_pair := (run (NewTokenPair "uuid-1" sample_config) with_alice).
#[local] Notation start := (run (StartOAuthLogin sample_service no_ctx
  (mkStartOAuthLoginRequest AUTH_PROVIDER_GITHUB "https://app/cb")) alice_pair.2).

Definition alice_ctx : Ctx :=
  mkCtx [("authorization",
    ["Bearer " +:+ match alice_pair.1 with Ok p => tk_Value (tp_AccessToken p) | Err _ => "" end])].
Definition alice_state : string := match start.1 with Ok r => solr_State r | Err _ => "" end.
Definition flow_started : World := start.2.

Definition link_request : LinkOAuthAccountRequest := mkLinkOAuthAccountRequest "code" alice_state.

Lemma LinkOAuthAccount_sound_witness :
  is_Ok (run (LinkOAuthAccount sample_service alice_ctx link_request) flow_started).1 = true ∧
  ∃ w' e, e ∈ db_external_identities (w_db w').
Proof.
  assert (is_Ok (run (LinkOAuthAccount sample_service alice_ctx link_request) flow_started).1 = true)
    as Hok by (by vm_compute).
  split; [exact Hok|]. generalize dependent flow_started. intros w Hok.
  destruct (run (LinkOAuthAccount sample_service alice_ctx link_request) w) as [[resp|] w'] eqn:Hrun;
    [|discriminate Hok].
  destruct (@LinkOAuthAccount_sound _ sample_service
    (redis_one_shot (mkRedisOAuthStateStore DefaultOAuthStateExpiration "identra:oauth_state:"))
    alice_ctx link_request resp w w' eq_refl eq_refl Hrun)
    as (c & d & t & gh & w2 & _ & _ & _ & (e & He & _) & _).
  exists w', e. exact He.
Defined.

(** One state, presented by a login and by a link at once. *)
Definition contenders : list oauth_attempt :=
  [AttemptLogin no_ctx (mkLoginWithOAuthRequest "code" alice_state);
   AttemptLink alice_ctx link_request].
Definition contest : list (M bool) * World :=
  schedule (concat (repeat [1; 0]%nat 20)) (attempt sample_service <$> contenders, flow_started).
Definition answered (m : M bool) : bool := match m with Ret b => b | Act _ _ => false end.

Lemma oauth_state_one_use_witness :
  ∃ i, answered <$> contest.1 !! i = Some true ∧
       ∀ j, answered <$> contest.1 !! j = Some true → i = j.
Proof.
  assert (answered <$> contest.1 !! 0%nat = Some true ∨ answered <$> contest.1 !! 1%nat = Some true)
    as Hone by (vm_compute; tauto).
  assert (rtc pool_step (attempt sample_service <$> contenders, flow_started) (contest.1, contest.2))
    as Hrun by (rewrite <-surjective_pairing; apply schedule_steps).
  assert (Forall (λ a, attempt_state a = alice_state) contenders) as Hst.
  { constructor; [reflexivity|]. constructor; [reflexivity|]. constructor. }
  generalize dependent contest. intros [ms w'] Hone Hrun. cbn [fst snd] in *.
  assert (∀ i, answered <$> ms !! i = Some true → ms !! i = Some (Ret true)) as Hret.
  { intros i. destruct (ms !! i) as [[b|]|]; simpl; [|discriminate..]. by intros [= ->]. }
  assert (∀ i j, answered <$> ms !! i = Some true → answered <$> ms !! j = Some true → i = j) as Huniq.
  { intros i j Hi Hj. exact (@oauth_state_one_use _ sample_service
      (redis_one_shot (mkRedisOAuthStateStore DefaultOAuthStateExpiration "identra:oauth_state:"))
      alice_state contenders flow_started ms w' i j eq_refl eq_refl Hst Hrun (Hret i Hi) (Hret j Hj)). }
  destruct Hone as [H|H]; eexists; (split; [exact H|]); intros j Hj; exact (Huniq _ _ H Hj).
Defined.

Lemma GetCurrentUser_spec_witness :
  ∃ resp u, (run (GetCurrentUser sample_service alice_ctx mkGetCurrentUserRequest) flow_started).1 = Ok resp ∧
    u ∈ db_users (w_db flow_started) ∧ up_Id (gcu_User resp) = u_ID u.
Proof.
  assert (is_Ok (run (GetCurrentUser sample_service alice_ctx mkGetCurrentUserRequest) flow_started).1
    = true) as Hok by (by vm_compute).
  generalize dependent flow_started. intros w Hok.
  destruct (run (GetCurrentUser sample_service alice_ctx mkGetCurrentUserRequest) w)
    as [[resp|] w'] eqn:Hrun; [|discriminate Hok].
  destruct (GetCurrentUser_spec sample_service alice_ctx mkGetCurrentUserRequest resp w w'
    eq_refl eq_refl Hrun) as (_ & c & u & _ & Hu & _ & _ & Hid & _).
  exists resp, u. split; [reflexivity|]. split; [exact Hu|exact Hid].
Defined.
End instances.
