(* ===== verification/Authorization.v ===== *)
(** * Authorisation of management calls, internal/identra/service_accounts.go
    and audit.go

    The caller of a management method is the service account of its token; what
    it may do is what its scopes in the database grant.  Successful calls leave
    an audit event. *)

From S2P Require Import Prelude GoStrings Prog Data Messages Platform RefPlatform SqliteQueries.
From S2P Require Import KeyManager World Tokens Interfaces SqliteStores ServiceAccount.
From S2P Require Import SqliteAccounts SqliteAudit App Handlers.
#[local] Open Scope Z_scope.

Section handlers.
Context `{P : Platform}.
Variable s : Service.

Definition ScopeAdmin : string := "identra.admin".
Definition ScopeServiceAccountsRead : string := "identra.service_accounts.read".
Definition ScopeServiceAccountsManage : string := "identra.service_accounts.manage".
Definition ScopeUsersRead : string := "identra.users.read".
Definition ScopeUsersManage : string := "identra.users.manage".
Definition ScopeAuditRead : string := "identra.audit.read".

Fixpoint hasServiceScope (scopes : list string) (required : string) : bool :=
  match scopes with
  | [] => false
  | scope :: scopes =>
      if ((scope == ScopeAdmin) || (scope == required))%go then true else
      if HasSuffix scope "*" && HasPrefix required (TrimSuffix scope "*") then true
      else hasServiceScope scopes required
  end.

Definition authorizeServiceAccount (ctx : Ctx) (requiredScopes : list string)
    : M (result Account) :=
  let token := accessTokenFromMetadata ctx in
  if (token == "")%go then fail Unauthenticated "service token is required" else
  try claims := ValidateServiceToken token (tc_PublicKey (s_tokenCfg s))
    catch (λ _, fail Unauthenticated "invalid service token") in
  try account := ss_GetByID (s_serviceAccountStore s) (sc_ServiceAccountID claims)
    catch (λ _, fail Unauthenticated "service account is inactive") in
  match ac_DisabledAt account with
  | Some _ => fail Unauthenticated "service account is inactive"
  | None =>
      if existsb (hasServiceScope (ac_Scopes account)) requiredScopes then Ret (Ok account)
      else fail PermissionDenied "service account lacks the required scope"
  end.

(** The outcome of recording is only logged. *)
Definition recordManagementAudit (actor : Account) (action resourceType resourceID : string)
    : M unit :=
  match s_auditStore s with
  | None => Ret tt
  | Some auditStore =>
      id ← uuid_NewString;
      now ← time_Now;
      _ ← as_Record auditStore (mkAuditEvent id now AuditActorServiceAccount (ac_ID actor) action
            resourceType resourceID ∅);
      Ret tt
  end.
End handlers.

Section lemmas.
Context `{P : Platform}.
Context (s : Service) (Hsa : s_serviceAccountStore s = sqlite_accounts).
Hypothesis Haudit : s_auditStore s = Some sqlite_audit.

Lemma hasServiceScope_existsb scopes required :
  hasServiceScope scopes required =
    existsb (λ scope, bool_decide (scope = ScopeAdmin) || bool_decide (scope = required) ||
      HasSuffix scope "*" && HasPrefix required (TrimSuffix scope "*")) scopes.
Proof.
  induction scopes as [|scope scopes IH]; [done|]. simpl. rewrite <-IH.
  by destruct (_ || _), (_ && _).
Qed.

Lemma authorize_clock ctx req : guarantees clock_only (authorizeServiceAccount s ctx req).
Proof.
  unfold authorizeServiceAccount, ValidateServiceToken, ValidateToken, fail. rewrite Hsa.
  cbn [ss_GetByID sqlite_accounts]. guarantees_tac.
Qed.

Lemma recordManagementAudit_effect actor action rt rid :
  guarantees db_effect (recordManagementAudit s actor action rt rid).
Proof.
  unfold recordManagementAudit. rewrite Haudit. cbn [as_Record sqlite_audit]. guarantees_tac.
Qed.

(** The caller is allowed: its token, its row, its scopes. *)
Definition authorized (ctx : Ctx) (required : list string) (w : World) (actor : Account) : Prop :=
  ∃ c row, accepts ValidateServiceToken (accessTokenFromMetadata ctx)
      (tc_PublicKey (s_tokenCfg s)) w c ∧
    row ∈ db_service_accounts (w_db w) ∧ sa_ID row = sc_ServiceAccountID c ∧
    account_live row = true ∧ decode_account row None = Ok actor ∧
    ∃ r, r ∈ required ∧ hasServiceScope (ac_Scopes actor) r = true.

Lemma accounts_GetByID_run id w :
  run (accounts_GetByID id) w =
    (match env_fault (w_step w) with
     | Some ft => Err (fmt_Errorf "get service account" (errors_New (fault_msg ft)))
     | None => match find (λ a, bool_decide (sa_ID a = id)) (db_service_accounts (w_db w)) with
               | Some a => decode_account a (sa_DisabledAt a)
               | None => Err sa_ErrNotFound
               end
     end, tick w).
Proof.
  unfold accounts_GetByID. rewrite run_catch. unfold select_account. rewrite db_read_run.
  destruct (env_fault (w_step w)); [by rewrite errors_Is_New, bool_decide_eq_false_2|].
  unfold query_row. by destruct (find _ _).
Qed.

Lemma authorize_Ok_inv ctx required w actor w' :
  run (authorizeServiceAccount s ctx required) w = (Ok actor, w') →
  authorized ctx required w actor ∧ w' = tick (tick w).
Proof.
  unfold authorizeServiceAccount. case_bool_decide; [done|]. rewrite run_catch.
  destruct (run (ValidateServiceToken _ _) w) as [[c|] w1] eqn:Hval; [|done].
  assert (w1 = tick w) as -> by (rewrite ValidateServiceToken_run in Hval; by injection Hval as _ <-).
  rewrite run_catch, Hsa. cbn [ss_GetByID sqlite_accounts]. rewrite accounts_GetByID_run.
  destruct (env_fault _); [done|]. destruct (find _ _) as [row|] eqn:Hf; [|done].
  apply find_Some_elem in Hf as [Hrow Hid%bool_decide_eq_true].
  destruct (decode_account row _) as [acc|] eqn:Hdec; [|done].
  pose proof (decode_account_ID _ _ _ Hdec) as (_ & _ & Hdis). rewrite Hdis.
  destruct (sa_DisabledAt row) eqn:Hlive; [done|].
  destruct (existsb _ required) eqn:Hex; [|done]. intros [= <- <-]. split; [|done].
  exists c, row. split; [unfold accepts; by rewrite Hval|]. do 2 (split; [done|]).
  split; [unfold account_live; by rewrite Hlive|]. split; [done|]. by apply existsb_true in Hex.
Qed.

Lemma authorized_run ctx required w actor :
  accessTokenFromMetadata ctx ≠ "" → db_ok (w_db w) → env_fault (w_step (tick w)) = None →
  authorized ctx required w actor →
  run (authorizeServiceAccount s ctx required) w = (Ok actor, tick (tick w)).
Proof.
  intros Htok Hok Hf (c & row & Hacc & Hrow & Hid & Hlive & Hdec & Hsc).
  unfold authorizeServiceAccount. rewrite bool_decide_eq_false_2 by done. rewrite run_catch.
  unfold accepts in Hacc. rewrite ValidateServiceToken_run in Hacc |- *. cbn [fst] in Hacc.
  rewrite Hacc, run_catch, Hsa. cbn [ss_GetByID sqlite_accounts].
  rewrite accounts_GetByID_run, Hf. change (w_db (tick w)) with (w_db w).
  rewrite (find_unique _ _ row Hrow).
  - unfold account_live in Hlive. destruct (sa_DisabledAt row) eqn:Hd; [done|]. rewrite Hdec.
    pose proof (decode_account_ID _ _ _ Hdec) as (_ & _ & ->).
    by rewrite (proj2 (existsb_true _ required)) by exact Hsc.
  - by apply bool_decide_eq_true.
  - intros y Hy Hyid%bool_decide_eq_true. apply (NoDup_fmap_inj sa_ID (db_service_accounts (w_db w)));
      [apply Hok|done|done|congruence].
Qed.

(** ** Audit events *)

(** The row a successful call leaves, unless recording it failed. *)
Definition audited (actor : Account) (action rt rid : string) (d d' : DB) : Prop :=
  d' = d ∨ ∃ id now, d' = set_audit_events (db_audit_events d ++
    [audit_row (mkAuditEvent id now AuditActorServiceAccount (ac_ID actor) action rt rid ∅)]) d.

Lemma audited_same actor action rt rid d d' :
  audited actor action rt rid d d' →
  db_users d' = db_users d ∧ db_external_identities d' = db_external_identities d ∧
  db_service_accounts d' = db_service_accounts d ∧ db_credentials d' = db_credentials d.
Proof. by intros [->|(id & now & ->)]. Qed.

Lemma insert_audit_db r d :
  (insert_audit r d).2 = d ∨ (insert_audit r d).2 = set_audit_events (db_audit_events d ++ [r]) d.
Proof. unfold insert_audit. case_match; [by left|by right]. Qed.

Lemma recordManagementAudit_run actor action rt rid w :
  audited actor action rt rid (w_db w) (w_db (run (recordManagementAudit s actor action rt rid) w).2) ∧
  (env_fault (w_step (tick (tick w))) = None →
   env_uuid (w_step w) ∉ ar_ID <$> db_audit_events (w_db w) →
   w_db (run (recordManagementAudit s actor action rt rid) w).2 ≠ w_db w).
Proof.
  unfold recordManagementAudit. rewrite Haudit, run_mbind. cbn [run uuid_NewString act].
  rewrite run_mbind. cbn [run time_Now act]. rewrite run_mbind. cbn [as_Record sqlite_audit].
  set (e := mkAuditEvent _ _ _ _ _ _ _ _). unfold audit_Record. rewrite run_catch.
  pose proof (insert_audit_db (audit_row e) (w_db w)) as Hins.
  assert (env_uuid (w_step w) ∉ ar_ID <$> db_audit_events (w_db w) →
    insert_audit (audit_row e) (w_db w) = (Ok tt, set_audit_events (db_audit_events (w_db w) ++ [audit_row e]) (w_db w)))
    as Hnew.
  { intros Hfresh. unfold insert_audit. destruct (existsb _ _) eqn:Hex; [|done].
    apply existsb_true in Hex as (a & Ha & Hid%bool_decide_eq_true). destruct Hfresh.
    apply list_elem_of_fmap. exists a. done. }
  destruct (run (db_call (insert_audit (audit_row e))) (tick (tick w))) as [r w1] eqn:Hc.
  assert (w_db (run match r with Ok _ => Ret (Ok tt) | Err e0 => wrap_with "record audit event" e0 end w1).2
    = w_db w1) as Hsame by by destruct r.
  split.
  - assert (w_db w1 = w_db w ∨ w_db w1 = (insert_audit (audit_row e) (w_db w)).2) as Hw1.
    { simpl in Hc. destruct (insert_audit _ _) as [r' d']. simpl. unfold with_fault in Hc.
      destruct (env_fault _) as [[m []]|]; injection Hc as _ <-; simpl; auto. }
    assert (audited actor action rt rid (w_db w) (w_db w1)) as Ha.
    { destruct Hw1 as [->| ->]; [by left|]. destruct Hins as [->| ->]; [by left|].
      right. by eexists _, _. }
    destruct r; simpl; exact Ha.
  - intros Hf Hfresh. rewrite db_call_ok in Hc by done. simpl in Hc.
    rewrite (Hnew Hfresh) in Hc. injection Hc as <- <-. simpl.
    intros Heq%(f_equal (length ∘ db_audit_events)). simpl in Heq.
    rewrite length_app in Heq. simpl in Heq. lia.
Qed.
End lemmas.

#[export] Hint Resolve authorize_clock recordManagementAudit_effect : go.

(** ** Properties *)

Section properties.
Context `{P : Platform}.

(** What a scope grants.  hasServiceScope holds exactly when one of the
    scopes is the administrator's, or the required one, or a pattern that ends
    in a star and whose part before the star starts the required scope. *)
Theorem hasServiceScope_spec scopes required :
  hasServiceScope scopes required = true ↔
  ∃ scope, scope ∈ scopes ∧
    (scope = ScopeAdmin ∨ scope = required ∨
     ∃ start rest, scope = start +:+ "*" ∧ required = start +:+ rest).
Proof.
  rewrite hasServiceScope_existsb, existsb_true.
  assert (∀ scope, HasSuffix scope "*" && HasPrefix required (TrimSuffix scope "*") = true ↔
    ∃ start rest, scope = start +:+ "*" ∧ required = start +:+ rest) as Hstar.
  { intros scope. rewrite andb_true_iff, HasSuffix_spec, HasPrefix_spec. split.
    - intros [(start & ->) (rest & Hr)]. rewrite TrimSuffix_app in Hr. by exists start, rest.
    - intros (start & rest & -> & ->). split; [by exists start|]. rewrite TrimSuffix_app. by exists rest. }
  split; intros (scope & Hin & H); exists scope; (split; [done|]);
    rewrite !orb_true_iff, !bool_decide_eq_true, Hstar in *; naive_solver.
Qed.

(** C14.  Authorisation is by the database.  authorizeServiceAccount changes
    nothing; on a well-formed database that answers it accepts a caller exactly
    when its service token is valid, the account of the token is there and not
    disabled, and the scopes of the account's row (whatever the token says)
    grant one of the required ones. *)
Theorem authorizeServiceAccount_spec s ctx required w
    (Hsa : s_serviceAccountStore s = sqlite_accounts) (Hok : db_ok (w_db w))
    (Hf : env_fault (w_step (tick w)) = None) :
  guarantees clock_only (authorizeServiceAccount s ctx required) ∧
  ∀ actor, (run (authorizeServiceAccount s ctx required) w).1 = Ok actor ↔
           accessTokenFromMetadata ctx ≠ "" ∧ authorized s ctx required w actor.
Proof.
  split; [by apply authorize_clock|]. intros actor. split.
  - destruct (run _ w) as [r w'] eqn:Hrun. simpl. intros ->. split.
    + unfold authorizeServiceAccount in Hrun. by case_bool_decide.
    + by apply (authorize_Ok_inv s Hsa) in Hrun as [? _].
  - intros [Htok Hau]. by rewrite (authorized_run s Hsa ctx required w actor).
Qed.
End properties.

(** ** Closed instances *)

Section instances.
#[local] Existing Instance calm.

(** The account the sample database is bootstrapped with holds a token. *)
#[local] Notation ops_token :=
  (run (NewServiceToken (ac_ID (br_Account sample_record)) [] sample_config) with_ops).
Definition ops_ctx : Ctx :=
  mkCtx [("authorization",
    ["Bearer " +:+ match ops_token.1 with Ok t => tk_Value t | Err _ => "" end])].
Definition with_token : World := ops_token.2.

Lemma with_token_ok : db_ok (w_db with_token).
Proof.
  unfold with_token. pose proof (guarantees_run _ _ with_ops (NewServiceToken_clock
    (ac_ID (br_Account sample_record)) [] sample_config)) as H.
  rewrite (co_db _ _ H). exact with_ops_ok.
Qed.

Lemma authorizeServiceAccount_spec_witness :
  ∃ actor, authorized sample_service ops_ctx [ScopeUsersManage] with_token actor.
Proof.
  assert (is_Ok (run (authorizeServiceAccount sample_service ops_ctx [ScopeUsersManage]) with_token).1
    = true) as Hok by (by vm_compute).
  pose proof with_token_ok as Hdb. generalize dependent with_token. intros w Hok Hdb.
  destruct (run (authorizeServiceAccount sample_service ops_ctx [ScopeUsersManage]) w).1
    as [actor|] eqn:Hrun; [|discriminate Hok].
  exists actor. exact (proj2 (proj1 (proj2 (authorizeServiceAccount_spec sample_service ops_ctx
    [ScopeUsersManage] w eq_refl Hdb eq_refl) actor) Hrun)).
Defined.
End instances.
