(* ===== verification/ServiceAccountsApi.v ===== *)
(** * The service-account API, internal/identra/service_accounts.go

    The token exchange and the management of accounts.  A created account can
    exchange the credential it was created with; a token is only issued for a
    credential that is in the database; management is authorised and audited. *)

From S2P Require Import Prelude GoStrings Prog Data Messages Platform RefPlatform SqliteQueries.
From S2P Require Import KeyManager World Tokens Interfaces RateLimiter SqliteStores.
From S2P Require Import ServiceAccount SqliteAccounts SqliteAudit App Handlers Authorization.
#[local] Open Scope Z_scope.

Section handlers.
Context `{P : Platform}.
Variable s : Service.

Definition exchange_key (clientID : string) : string :=
  if (clientID == "")%go then "client_id:missing" else "client_id:" +:+ clientID.

(** The exchange's limiter: unlike the login's, it fails closed. *)
Definition exchange_allowed (key : string) : M (result bool) :=
  match s_serviceTokenRateLimiter s with
  | None => Ret (Ok true)
  | Some limiter => rl_IsAllowed limiter key
  end.

Definition exchange_record (key : string) : M unit :=
  match s_serviceTokenRateLimiter s with
  | None => Ret tt
  | Some limiter => _ ← rl_Record limiter key; Ret tt
  end.

Definition ExchangeServiceToken (ctx : Ctx) (req : ExchangeServiceTokenRequest)
    : M (result ExchangeServiceTokenResponse) :=
  let rateLimitKey := exchange_key (TrimSpace (est_ClientId req)) in
  try allowed := exchange_allowed rateLimitKey
    catch (λ _, fail Internal "failed to check service-token rate limit") in
  if negb allowed then fail ResourceExhausted "too many service-token attempts" else
  try account := Authenticate (s_serviceAccountStore s) (est_ClientId req) (est_ClientSecret req)
    catch (λ err,
      if errors_Is err sa_ErrInvalidCredential || errors_Is err sa_ErrNotFound then
        _ ← exchange_record rateLimitKey;
        fail Unauthenticated "invalid service-account credential"
      else fail Internal "failed to authenticate service account") in
  _ ← reset_failures (s_serviceTokenRateLimiter s) rateLimitKey;
  try token := NewServiceToken (ac_ID account) (ac_Scopes account) (s_tokenCfg s)
    catch (λ _, fail Internal "failed to issue service token") in
  Ret (Ok (mkExchangeServiceTokenResponse token)).

Definition serviceAccountProto (account : Account) : ServiceAccountProto :=
  mkServiceAccountProto (ac_ID account) (ac_Name account) (ac_Scopes account)
    (ac_CreatedAt account) (ac_DisabledAt account).

(** Which errors of serviceaccount.Create blame the request. *)
Definition create_error {A} (err : error) : M (result A) :=
  if errors_Is err sa_ErrAlreadyExists then fail AlreadyExists "service account already exists" else
  if Contains (error_Error err) "required" || Contains (error_Error err) "invalid scope" ||
     Contains (error_Error err) "must not exceed"
  then fail InvalidArgument (error_Error err)
  else fail Internal "failed to create service account".

Definition CreateServiceAccount (ctx : Ctx) (req : CreateServiceAccountRequest)
    : M (result CreateServiceAccountResponse) :=
  try actor := authorizeServiceAccount s ctx [ScopeServiceAccountsManage] in
  try result := Create (s_serviceAccountStore s) (csa_Name req) (csa_Scopes req)
    catch create_error in
  _ ← recordManagementAudit s actor "service_account.create" "service_account"
        (ac_ID (bs_Account result));
  Ret (Ok (mkCreateServiceAccountResponse (serviceAccountProto (bs_Account result))
             (mkServiceAccountCredentialProto (ac_ID (bs_Account result)) (bs_ClientSecret result)))).

Definition ListServiceAccounts (ctx : Ctx) (req : ListServiceAccountsRequest)
    : M (result ListServiceAccountsResponse) :=
  try _ := authorizeServiceAccount s ctx [ScopeServiceAccountsRead; ScopeServiceAccountsManage] in
  try accounts := ss_List (s_serviceAccountStore s)
    catch (λ _, fail Internal "failed to list service accounts") in
  Ret (Ok (mkListServiceAccountsResponse (serviceAccountProto <$> accounts))).

Definition DisableServiceAccount (ctx : Ctx) (req : DisableServiceAccountRequest)
    : M (result DisableServiceAccountResponse) :=
  try actor := authorizeServiceAccount s ctx [ScopeServiceAccountsManage] in
  let clientID := TrimSpace (dsa_ClientId req) in
  if (clientID == "")%go then fail InvalidArgument "client ID is required" else
  if (clientID == ac_ID actor)%go
  then fail FailedPrecondition "a service account cannot disable itself" else
  now ← time_Now;
  try account := ss_Disable (s_serviceAccountStore s) clientID now
    catch (λ err,
      if errors_Is err sa_ErrNotFound then fail NotFound "active service account not found"
      else fail Internal "failed to disable service account") in
  _ ← recordManagementAudit s actor "service_account.disable" "service_account" (ac_ID account);
  Ret (Ok (mkDisableServiceAccountResponse (serviceAccountProto account))).

Definition RotateServiceAccountSecret (ctx : Ctx) (req : RotateServiceAccountSecretRequest)
    : M (result RotateServiceAccountSecretResponse) :=
  try actor := authorizeServiceAccount s ctx [ScopeServiceAccountsManage] in
  let clientID := TrimSpace (rsas_ClientId req) in
  if (clientID == "")%go then fail InvalidArgument "client ID is required" else
  try secret := RotateCredential (s_serviceAccountStore s) clientID
    catch (λ err,
      if errors_Is err sa_ErrNotFound then fail NotFound "active service account not found"
      else fail Internal "failed to rotate service-account secret") in
  _ ← recordManagementAudit s actor "service_account.rotate_secret" "service_account" clientID;
  Ret (Ok (mkRotateServiceAccountSecretResponse
             (mkServiceAccountCredentialProto clientID secret))).
End handlers.

(** ** Lemmas *)

Section lemmas.
Context `{P : Platform}.
Context (s : Service) (Hsa : s_serviceAccountStore s = sqlite_accounts).

Definition exchange_answer (r : result Token) : result ExchangeServiceTokenResponse :=
  match r with
  | Ok t => Ok (mkExchangeServiceTokenResponse t)
  | Err _ => Err (status_Error Internal "failed to issue service token")
  end.

Definition invalid_credential : result ExchangeServiceTokenResponse :=
  Err (status_Error Unauthenticated "invalid service-account credential").

Lemma exchange_allowed_clock pre key :
  limiter_within pre (s_serviceTokenRateLimiter s) → guarantees clock_only (exchange_allowed s key).
Proof.
  intros Hl. unfold exchange_allowed. destruct (s_serviceTokenRateLimiter s) as [l|]; [|constructor].
  destruct (Hl l eq_refl). done.
Qed.

Lemma exchange_record_only pre key :
  limiter_within pre (s_serviceTokenRateLimiter s) →
  guarantees (redis_only pre) (exchange_record s key).
Proof.
  intros Hl. unfold exchange_record. destruct (s_serviceTokenRateLimiter s) as [l|]; [|constructor].
  destruct (Hl l eq_refl). apply guarantees_mbind; [done|constructor].
Qed.

(** An exchange whose gate is open, by the answer of the account store. *)
Lemma Exchange_open ctx req w w1 :
  let id := TrimSpace (est_ClientId req) in
  let secret := TrimSpace (est_ClientSecret req) in
  run (exchange_allowed s (exchange_key id)) w = (Ok true, w1) → id ≠ "" → secret ≠ "" →
  run (ExchangeServiceToken s ctx req) w =
    match run (accounts_Authenticate id (secretHash secret) (w_now w1)) (tick w1) with
    | (Ok acc, w2) =>
        let w3 := (run (reset_failures (s_serviceTokenRateLimiter s) (exchange_key id)) w2).2 in
        let '(r, w4) := run (NewServiceToken (ac_ID acc) (ac_Scopes acc) (s_tokenCfg s)) w3 in
        (exchange_answer r, w4)
    | (Err err, w2) =>
        if errors_Is err sa_ErrInvalidCredential || errors_Is err sa_ErrNotFound
        then (invalid_credential, (run (exchange_record s (exchange_key id)) w2).2)
        else (Err (status_Error Internal "failed to authenticate service account"), w2)
    end.
Proof.
  intros id secret Hg Hid Hsec. unfold ExchangeServiceToken. fold id. rewrite run_catch, Hg.
  cbn [negb]. rewrite run_catch, Hsa. unfold Authenticate. fold id secret.
  rewrite !bool_decide_eq_false_2 by done. cbn [orb]. rewrite run_mbind. cbn [run time_Now act].
  cbn [ss_Authenticate sqlite_accounts].
  destruct (run (accounts_Authenticate _ _ _) _) as [[acc|err] w2].
  - rewrite run_mbind. destruct (run (reset_failures _ _) w2) as [[] w3]. rewrite run_catch. cbn [snd].
    by destruct (run (NewServiceToken _ _ _) w3) as [[t|] w4].
  - destruct (_ || _); [|done]. rewrite run_mbind. by destruct (run (exchange_record _ _) w2) as [[] w3].
Qed.

Lemma Create_Ok_inv name scopes w res w' :
  run (Create (s_serviceAccountStore s) name scopes) w = (Ok res, w') →
  ∃ r w1, run (newRecord name scopes) w = (Ok (r, bs_ClientSecret res), w1) ∧
    bs_Account res = br_Account r ∧ run (accounts_Create r) w1 = (Ok tt, w').
Proof.
  unfold Create. rewrite run_try, Hsa. destruct (run (newRecord _ _) w) as [[[r sec]|] w1] eqn:H1; [|done].
  rewrite run_try. cbn [ss_Create sqlite_accounts].
  destruct (run (accounts_Create r) w1) as [[[]|] w2] eqn:H2; [|done]. intros [= <- <-].
  exists r, w1. done.
Qed.

(** The answer to each secret, for an account that is kept. *)
Lemma Exchange_kept pre ctx acc h secret w (id := ac_ID acc) :
  limiter_within pre (s_serviceTokenRateLimiter s) → db_ok (w_db w) →
  account_kept acc h (w_db w) → TrimSpace id = id → id ≠ "" → TrimSpace secret ≠ "" →
  (∀ i, (w_step w ≤ i)%nat → env_fault i = None) → mints (s_tokenCfg s) (w_step w) →
  (run (exchange_allowed s (exchange_key id)) w).1 = Ok true →
  let answer := run (ExchangeServiceToken s ctx (mkExchangeServiceTokenRequest id secret)) w in
  if (secretHash (TrimSpace secret) == h)%go
  then ∃ token v, answer.1 = Ok (mkExchangeServiceTokenResponse token) ∧
         run (NewServiceToken id (ac_Scopes acc) (s_tokenCfg s)) v = (Ok token, answer.2)
  else answer.1 = invalid_credential.
Proof.
  intros Hl Hok Hkept Hidtrim Hidne Hsecret Hf Hm Hopen.
  pose proof (guarantees_run _ _ w (exchange_allowed_clock pre (exchange_key id) Hl)) as Hg.
  destruct (run (exchange_allowed _ _) w) as [b w3] eqn:Hgate. cbn [fst snd] in *. subst b.
  cbv zeta. rewrite (Exchange_open ctx _ w w3); cbn [est_ClientId est_ClientSecret];
    rewrite ?Hidtrim; try done.
  assert (env_fault (w_step (tick w3)) = None) as Hf3.
  { apply Hf. etrans; [apply Hg|]. simpl. lia. }
  assert (account_kept acc h (w_db (tick w3))) as Hkept3
    by (change (w_db (tick w3)) with (w_db w3); by rewrite (co_db _ _ Hg)).
  assert (db_ok (w_db (tick w3))) as Hok3
    by (change (w_db (tick w3)) with (w_db w3); by rewrite (co_db _ _ Hg)).
  fold id. unfold id. rewrite (kept_Authenticate _ _ _ _ _ Hok3 Hkept3 Hf3).
  case_bool_decide as Hdig; [|done]. cbv zeta.
  pose proof (guarantees_run _ _ (tick (tick w3)) (reset_failures_only _ _ Hl (exchange_key id))) as Hro.
  unfold id in Hro. set (w4 := (run (reset_failures _ _) _).2) in *.
  destruct (NewServiceToken_mints (ac_ID acc) (ac_Scopes acc) (s_tokenCfg s) w4) as (t & w5 & Ht).
  { apply (mints_later _ (w_step w)); [|done]. pose proof (co_step _ _ Hg).
    pose proof (ro_step _ _ _ Hro) as H1. simpl in H1. lia. }
  rewrite Ht. by exists t, w4.
Qed.

Hypothesis Haudit : s_auditStore s = Some sqlite_audit.

Lemma create_error_not_Ok {A} e w (a : A) w' : run (create_error e) w ≠ (Ok a, w').
Proof. unfold create_error. by repeat case_match. Qed.

Lemma CreateServiceAccount_Ok_inv ctx req resp w w' :
  run (CreateServiceAccount s ctx req) w = (Ok resp, w') →
  let account := csar_ServiceAccount resp in
  let cred := csar_Credential resp in
  ∃ actor r w1 w2,
    authorized s ctx [ScopeServiceAccountsManage] w actor ∧
    run (newRecord (csa_Name req) (csa_Scopes req)) (tick (tick w)) = (Ok (r, sacp_ClientSecret cred), w1) ∧
    run (accounts_Create r) w1 = (Ok tt, w2) ∧
    account = serviceAccountProto (br_Account r) ∧ sacp_ClientId cred = ac_ID (br_Account r) ∧
    audited actor "service_account.create" "service_account" (ac_ID (br_Account r)) (w_db w2) (w_db w').
Proof.
  unfold CreateServiceAccount. rewrite run_try.
  destruct (run (authorizeServiceAccount _ _ _) w) as [[actor|] w1] eqn:Hau; [|done].
  apply (authorize_Ok_inv s Hsa) in Hau as [Hau ->]. rewrite run_catch.
  destruct (run (Create _ _ _) _) as [[res|e] w2] eqn:Hc; [|by intros ?%create_error_not_Ok].
  apply Create_Ok_inv in Hc as (r & w1 & H1 & Hacc & H2). rewrite run_mbind.
  pose proof (proj1 (recordManagementAudit_run s Haudit actor "service_account.create"
    "service_account" (ac_ID (bs_Account res)) w2)) as Ha.
  destruct (run (recordManagementAudit _ _ _ _ _) w2) as [[] w3]. intros [= <- <-]. simpl in *.
  rewrite Hacc in *. by exists actor, r, w1, w2.
Qed.

Lemma CreateServiceAccount_effect ctx req : guarantees db_effect (CreateServiceAccount s ctx req).
Proof.
  unfold CreateServiceAccount, Create, newRecord, randomValue, create_error, wrap_with, fail.
  rewrite Hsa. cbn [ss_Create sqlite_accounts].
  pose proof (λ r, clock_effect _ (authorize_clock s Hsa ctx r)).
  pose proof (recordManagementAudit_effect s Haudit). guarantees_tac.
Qed.
End lemmas.

(** ** Properties *)

Section properties.
Context `{P : Platform}.

(** C12.  What was created can be exchanged.  After CreateServiceAccount
    succeeds, the database holds the account, alive, with the normalised scopes,
    and the secret of the response as its only credential.  From then on, while
    the database keeps that account and credential (whatever happens to other
    rows), the database and the random source answer, the key signs, and the
    limiter lets the request through: ExchangeServiceToken for the new client
    identifier answers a service token minted for the account with those scopes
    to the issued secret (which has no white space to lose) and to any other with
    its digest, and "invalid credential" to every other secret. *)
Theorem create_then_exchange s pre ctx req resp w w1
    (Hsa : s_serviceAccountStore s = sqlite_accounts) (Haudit : s_auditStore s = Some sqlite_audit)
    (Hl : limiter_within pre (s_serviceTokenRateLimiter s)) (Hok : db_ok (w_db w))
    (Hrun : run (CreateServiceAccount s ctx req) w = (Ok resp, w1)) :
  let id := sacp_ClientId (csar_Credential resp) in
  let issued := sacp_ClientSecret (csar_Credential resp) in
  TrimSpace issued = issued ∧ ∃ acc, ac_ID acc = id ∧ ac_Name acc = TrimSpace (csa_Name req) ∧
    normalizeScopes (csa_Scopes req) = Ok (ac_Scopes acc) ∧
    account_kept acc (secretHash issued) (w_db w1) ∧
    ∀ ctx' secret w2, TrimSpace secret ≠ "" → db_ok (w_db w2) →
      account_kept acc (secretHash issued) (w_db w2) →
      (∀ i, (w_step w2 ≤ i)%nat → env_fault i = None) → mints (s_tokenCfg s) (w_step w2) →
      (run (exchange_allowed s (exchange_key id)) w2).1 = Ok true →
      let answer := run (ExchangeServiceToken s ctx' (mkExchangeServiceTokenRequest id secret)) w2 in
      if (secretHash (TrimSpace secret) == secretHash issued)%go
      then ∃ token v, answer.1 = Ok (mkExchangeServiceTokenResponse token) ∧
             run (NewServiceToken id (ac_Scopes acc) (s_tokenCfg s)) v = (Ok token, answer.2)
      else answer.1 = invalid_credential.
Proof.
  intros id issued. destruct (CreateServiceAccount_Ok_inv s Hsa Haudit _ _ _ _ _ Hrun)
    as (actor & r & v1 & v2 & _ & Hnew & Hcreate & _ & Hid & Haud). fold id in Hid. fold issued in Hnew.
  apply newRecord_inv in Hnew as (Hck & Hname & Hscopes & Hdis & Hhash & Htrim & Hne & Hidtrim & Hidne).
  assert (w_db v1 = w_db w) as Hv1 by exact (co_db _ _ Hck).
  clearbody id issued. subst id. rewrite <-Hhash.
  split; [done|]. exists (br_Account r). apply checked_name_inv in Hname. do 3 (split; [done|]). split.
  - pose proof (guarantees_run _ _ v1 (accounts_Create_effect r)) as [_ [_ Hok2]].
    rewrite Hcreate, Hv1 in Hok2. specialize (Hok2 Hok). cbn [snd] in Hok2.
    destruct (accounts_Create_inv _ _ _ Hcreate) as (_ & _ & Hacc & Hcred & _). rewrite Hv1 in *.
    apply audited_same in Haud as (_ & _ & Ha1 & Hc1).
    apply (added_kept r (w_db w) (w_db v2)); try done. by eexists.
  - intros ctx' secret w2 Hsecret Hok2 Hkept Hf Hm Hopen.
    by apply (Exchange_kept s Hsa pre).
Qed.

(** C13.  A service token is only issued for a credential.  When
    ExchangeServiceToken succeeds, the limiter allowed the client and the
    database held a live account with the trimmed client identifier and an
    unrevoked, unexpired credential of it with the digest of the trimmed secret;
    the token is minted for that account with the scopes of its row, and the
    database is unchanged. *)
Theorem ExchangeServiceToken_sound s pre ctx req resp w w'
    (Hsa : s_serviceAccountStore s = sqlite_accounts)
    (Hl : limiter_within pre (s_serviceTokenRateLimiter s))
    (Hrun : run (ExchangeServiceToken s ctx req) w = (Ok resp, w')) :
  w_db w' = w_db w ∧
  (run (exchange_allowed s (exchange_key (TrimSpace (est_ClientId req)))) w).1 = Ok true ∧
  ∃ a c acc t v, a ∈ db_service_accounts (w_db w) ∧ sa_ID a = TrimSpace (est_ClientId req) ∧
    account_live a = true ∧ c ∈ db_credentials (w_db w) ∧ cr_ServiceAccountID c = sa_ID a ∧
    w_now w ≤ t ∧ credential_valid (secretHash (TrimSpace (est_ClientSecret req))) t c = true ∧
    decode_account a None = Ok acc ∧
    run (NewServiceToken (sa_ID a) (ac_Scopes acc) (s_tokenCfg s)) v = (Ok (estr_Token resp), w').
Proof.
  destruct (run (exchange_allowed s (exchange_key (TrimSpace (est_ClientId req)))) w) as [ra w1] eqn:Hg.
  pose proof (guarantees_run _ _ w (exchange_allowed_clock s pre
    (exchange_key (TrimSpace (est_ClientId req))) Hl)) as Hck. rewrite Hg in Hck. cbn [snd] in Hck.
  assert (ra = Ok true ∧ TrimSpace (est_ClientId req) ≠ "" ∧ TrimSpace (est_ClientSecret req) ≠ "")
    as (-> & Hid & Hsec).
  { unfold ExchangeServiceToken in Hrun. rewrite run_catch, Hg in Hrun.
    destruct ra as [[]|]; [|done..]. cbn [negb] in Hrun. rewrite run_catch in Hrun.
    split; [done|]. unfold Authenticate in Hrun.
    destruct (decide (TrimSpace (est_ClientId req) = "" ∨ TrimSpace (est_ClientSecret req) = ""))
      as [Hbad|?]; [|tauto].
    assert ((TrimSpace (est_ClientId req) == "")%go || (TrimSpace (est_ClientSecret req) == "")%go = true)
      as Hb by (apply orb_true_iff; by rewrite !bool_decide_eq_true).
    rewrite Hb in Hrun. cbn [run] in Hrun. rewrite errors_Is_refl in Hrun. cbn [orb] in Hrun.
    rewrite run_mbind in Hrun. by destruct (run (exchange_record _ _) w1). }
  rewrite (Exchange_open s Hsa ctx req w w1) in Hrun by done.
  pose proof (guarantees_run _ _ (tick w1) (accounts_Authenticate_clock (TrimSpace (est_ClientId req))
    (secretHash (TrimSpace (est_ClientSecret req))) (w_now w1))) as Hck2.
  destruct (run (accounts_Authenticate _ _ _) _) as [[acc|e] w2] eqn:Hauth; [|by case_match].
  cbn [snd] in Hck2.
  pose proof (Authenticate_Ok_inv _ _ _ (tick w1) acc (f_equal fst Hauth))
    as (a & c & Ha & Hc & Haid & Hlive & Hcid & Hv & Hacc & Hdec).
  pose proof (guarantees_run _ _ w2 (reset_failures_only _ _ Hl
    (exchange_key (TrimSpace (est_ClientId req))))) as Hro. cbv zeta in Hrun.
  set (w3 := (run (reset_failures _ _) w2).2) in *.
  pose proof (guarantees_run _ _ w3 (NewServiceToken_clock (ac_ID acc) (ac_Scopes acc) (s_tokenCfg s)))
    as Hck4.
  destruct (run (NewServiceToken _ _ _) w3) as [[tok|] w4] eqn:Htok; [|done]. injection Hrun as <- <-.
  cbn [snd] in Hck4. change (w_db (tick w1)) with (w_db w1) in *. rewrite (co_db _ _ Hck) in *.
  split; [by rewrite (co_db _ _ Hck4), (ro_db _ _ _ Hro), (co_db _ _ Hck2); apply (co_db _ _ Hck)|].
  split; [done|]. exists a, c, acc, (w_now w1), w3. rewrite Haid.
  do 3 (split; [done|]). split; [done|]. split; [done|]. split; [apply w_now_le, Hck|].
  split; [done|]. split; [done|]. by rewrite <-Hacc.
Qed.
End properties.

(** ** Closed instances *)

Section instances.
#[local] Existing Instance calm.

Definition service_token_limiter : redisRateLimiter :=
  mkRedisRateLimiter "identra:rl:service_token:" 10 DefaultServiceTokenWindow.

Lemma service_token_within :
  limiter_within "identra:rl:service_token:" (s_serviceTokenRateLimiter sample_service).
Proof. intros l Hl. injection Hl as <-. exact (redis_limiter_spec service_token_limiter). Qed.

#[local] Notation create_ci :=
  (run (CreateServiceAccount sample_service ops_ctx
          (mkCreateServiceAccountRequest "ci" ["ci.write"; "ci.read"; " ci.read "])) with_token).

Lemma create_then_exchange_witness :
  ∃ resp w1, create_ci = (Ok resp, w1) ∧
    is_Ok (run (ExchangeServiceToken sample_service no_ctx (mkExchangeServiceTokenRequest
       (sacp_ClientId (csar_Credential resp)) (sacp_ClientSecret (csar_Credential resp)))) w1).1
      = true.
Proof.
  assert (match create_ci with
          | (Ok resp, w1) => match (run (exchange_allowed sample_service
              (exchange_key (sacp_ClientId (csar_Credential resp)))) w1).1 with
              Ok true => true | _ => false end &&
              negb (TrimSpace (sacp_ClientSecret (csar_Credential resp)) == "")%go
          | _ => false end = true) as Hok by (by vm_compute).
  pose proof with_token_ok as Hdb. generalize dependent with_token. intros w Hok Hdb.
  destruct (run (CreateServiceAccount _ _ _) w) as [[resp|] w1] eqn:Hrun; [|discriminate Hok].
  exists resp, w1. split; [reflexivity|]. apply andb_true_iff in Hok as [Hopen Hsec].
  apply negb_true_iff, bool_decide_eq_false in Hsec.
  destruct (run (exchange_allowed _ _) w1).1 as [[]|] eqn:Hopen'; try discriminate Hopen.
  pose proof (guarantees_run _ _ w (CreateServiceAccount_effect sample_service eq_refl eq_refl ops_ctx
    (mkCreateServiceAccountRequest "ci" ["ci.write"; "ci.read"; " ci.read "]))) as [_ [_ Hok1]].
  rewrite Hrun in Hok1. specialize (Hok1 Hdb). cbn [snd] in Hok1.
  destruct (create_then_exchange sample_service "identra:rl:service_token:" ops_ctx _ resp w w1
    eq_refl eq_refl service_token_within Hdb Hrun) as (Htrim & acc & _ & _ & _ & Hkept & H).
  specialize (H no_ctx _ w1 Hsec Hok1 Hkept (λ _ _, eq_refl) (sample_mints _) Hopen').
  rewrite bool_decide_eq_true_2 in H by (by rewrite Htrim). destruct H as (t & v & Hv & _).
  by rewrite Hv.
Defined.

(** The account the database starts with, with a secret that is known. *)
Definition known_record : BootstrapRecord :=
  mkBootstrapRecord (mkAccount "isa_known" "known" ["identra.admin"] 0 None) "iac_known"
    (secretHash "opensesame").
Definition with_known : World := (run (accounts_Create known_record) calm_world).2.

Lemma ExchangeServiceToken_sound_witness :
  ∃ a, a ∈ db_service_accounts (w_db with_known) ∧ sa_ID a = "isa_known".
Proof.
  assert (is_Ok (run (ExchangeServiceToken sample_service no_ctx
    (mkExchangeServiceTokenRequest "isa_known" "opensesame")) with_known).1 = true) as Hok
    by (by vm_compute).
  generalize dependent with_known. intros w Hok.
  destruct (run (ExchangeServiceToken _ _ _) w) as [[resp|] w'] eqn:Hrun; [|discriminate Hok].
  destruct (ExchangeServiceToken_sound sample_service "identra:rl:service_token:" no_ctx _ resp w w'
    eq_refl service_token_within Hrun) as (_ & _ & a & _ & _ & _ & _ & Ha & Hid & _).
  exists a. split; [exact Ha|exact Hid].
Defined.
End instances.
