(* ===== verification/Session.v ===== *)
(** * Sessions, internal/identra/service_tokens.go

    Rotation and revocation of refresh tokens, against the interface of the
    revocation store. *)

From S2P Require Import Prelude GoStrings Prog Data Messages Platform RefPlatform SqliteQueries.
From S2P Require Import KeyManager World Tokens Interfaces Revocation SqliteStores App Handlers.
#[local] Open Scope Z_scope.

Section session.
Context `{P : Platform}.
Variable s : Service.

Definition ensureRefreshTokenActive (claims : StandardClaims) : M (result unit) :=
  match s_refreshTokenRevocations s with
  | None => Ret (Ok tt)
  | Some revocations =>
      try revoked := rr_IsRevoked revocations (sc_TokenID claims)
        catch (λ _, fail Internal "failed to validate refresh token") in
      if revoked then fail Unauthenticated "refresh token has been revoked"
      else Ret (Ok tt)
  end.

Definition revokeRefreshClaims (claims : StandardClaims) : M (result unit) :=
  match s_refreshTokenRevocations s, sc_ExpiresAt claims with
  | Some revocations, Some expiresAt =>
      try _ := rr_Revoke revocations (sc_TokenID claims) expiresAt
        catch (λ _, fail Internal "failed to revoke refresh token") in
      Ret (Ok tt)
  | _, _ => Ret (Ok tt)
  end.

Definition RefreshSession (ctx : Ctx) (req : RefreshSessionRequest)
    : M (result RefreshSessionResponse) :=
  let refreshToken := TrimSpace (rsq_RefreshToken req) in
  if (refreshToken == "")%go then fail InvalidArgument "refresh token is required" else
  try claims := ValidateRefreshToken refreshToken (tc_PublicKey (s_tokenCfg s))
    catch (λ _, fail Unauthenticated "invalid refresh token") in
  try _ := ensureRefreshTokenActive claims in
  try _ := us_GetByID (s_userStore s) (sc_UserID claims)
    catch (λ err,
      if errors_Is err identra_ErrNotFound then fail Unauthenticated "user is inactive"
      else fail Internal "failed to validate refresh token") in
  try tokenPair := NewTokenPair (sc_UserID claims) (s_tokenCfg s)
    catch (λ _, fail Internal "failed to refresh token") in
  try _ := revokeRefreshClaims claims in
  Ret (Ok (mkRefreshSessionResponse tokenPair)).

Definition RevokeSession (ctx : Ctx) (req : RevokeSessionRequest)
    : M (result RevokeSessionResponse) :=
  let refreshToken := TrimSpace (rvq_RefreshToken req) in
  if (refreshToken == "")%go then fail InvalidArgument "refresh token is required" else
  try claims := ValidateRefreshToken refreshToken (tc_PublicKey (s_tokenCfg s))
    catch (λ _, fail Unauthenticated "invalid refresh token") in
  try _ := ensureRefreshTokenActive claims in
  try _ := revokeRefreshClaims claims in
  Ret (Ok mkRevokeSessionResponse).
End session.

(** ** What the handlers do *)

Section handlers.
Context `{P : Platform}.
Implicit Types (s : Service) (w : World) (c : StandardClaims).

(** The checks both handlers start with. *)
Definition checked_refresh s (tok : string) w c w' : Prop :=
  accepts ValidateRefreshToken tok (tc_PublicKey (s_tokenCfg s)) w c ∧
  run (ensureRefreshTokenActive s c) (tick w) = (Ok tt, w').

Lemma ValidateRefreshToken_Ok tok pk w c w' :
  run (ValidateRefreshToken tok pk) w = (Ok c, w') →
  accepts ValidateRefreshToken tok pk w c ∧ w' = tick w.
Proof.
  intros H. unfold accepts. rewrite H. split; [done|].
  rewrite ValidateRefreshToken_run in H. by injection H.
Qed.

Lemma RefreshSession_Ok_inv s ctx req resp w w' :
  run (RefreshSession s ctx req) w = (Ok resp, w') →
  ∃ c u w1 w2 w3,
    checked_refresh s (TrimSpace (rsq_RefreshToken req)) w c w1 ∧
    run (us_GetByID (s_userStore s) (sc_UserID c)) w1 = (Ok u, w2) ∧
    run (NewTokenPair (sc_UserID c) (s_tokenCfg s)) w2 = (Ok (rsr_Tokens resp), w3) ∧
    run (revokeRefreshClaims s c) w3 = (Ok tt, w').
Proof.
  unfold RefreshSession. case_bool_decide; [done|]. rewrite run_catch.
  destruct (run (ValidateRefreshToken _ _) w) as [[c|] w1] eqn:H1; [|done].
  apply ValidateRefreshToken_Ok in H1 as [H1 ->]. rewrite run_try.
  destruct (run (ensureRefreshTokenActive s c) _) as [[[]|] w2] eqn:H2; [|done]. rewrite run_catch.
  destruct (run (us_GetByID _ _) w2) as [[u|e] w3] eqn:H3; [|by destruct (errors_Is e _)].
  rewrite run_catch. destruct (run (NewTokenPair _ _) w3) as [[p|] w4] eqn:H4; [|done].
  rewrite run_try. destruct (run (revokeRefreshClaims s c) w4) as [[[]|] w5] eqn:H5; [|done].
  intros [= <- <-]. exists c, u, w2, w3, w4. done.
Qed.

Lemma RevokeSession_Ok_inv s ctx req resp w w' :
  run (RevokeSession s ctx req) w = (Ok resp, w') →
  ∃ c w1, checked_refresh s (TrimSpace (rvq_RefreshToken req)) w c w1 ∧
    run (revokeRefreshClaims s c) w1 = (Ok tt, w').
Proof.
  unfold RevokeSession. case_bool_decide; [done|]. rewrite run_catch.
  destruct (run (ValidateRefreshToken _ _) w) as [[c|] w1] eqn:H1; [|done].
  apply ValidateRefreshToken_Ok in H1 as [H1 ->]. rewrite run_try.
  destruct (run (ensureRefreshTokenActive s c) _) as [[[]|] w2] eqn:H2; [|done]. rewrite run_try.
  destruct (run (revokeRefreshClaims s c) w2) as [[[]|] w3] eqn:H3; [|done].
  intros [= <-]. exists c, w2. done.
Qed.

(** A token that is accepted twice has the same claims both times. *)
Lemma accepts_refresh_verify tok pk w c :
  accepts ValidateRefreshToken tok pk w c → jwt_verify tok pk = Ok c.
Proof.
  unfold accepts. rewrite ValidateRefreshToken_run. simpl.
  intros [H _]%typed_ok. by apply (ValidateToken_ok tok pk w) in H as (_ & ? & _).
Qed.

(** The store is asked without a word to the database. *)
Lemma ensure_db s c w w' :
  (∀ rr, s_refreshTokenRevocations s = Some rr → ∀ id, guarantees clock_only (rr_IsRevoked rr id)) →
  run (ensureRefreshTokenActive s c) w = (Ok tt, w') → w_db w' = w_db w.
Proof.
  intros Hrr Hens. unfold ensureRefreshTokenActive in Hens.
  destruct (s_refreshTokenRevocations s) as [rr|]; [|by injection Hens as <-].
  rewrite run_catch in Hens.
  pose proof (guarantees_run _ _ w (Hrr rr eq_refl (sc_TokenID c))) as Hg.
  destruct (run (rr_IsRevoked rr _) _) as [[[]|] v]; try done. injection Hens as <-.
  simpl in Hg. by rewrite (co_db _ _ Hg).
Qed.

(** A session is only renewed for a live user. *)
Lemma RefreshSession_user s ctx req resp w w' :
  s_userStore s = sqlite_users →
  (∀ rr, s_refreshTokenRevocations s = Some rr → ∀ id, guarantees clock_only (rr_IsRevoked rr id)) →
  run (RefreshSession s ctx req) w = (Ok resp, w') →
  ∃ c u w3, accepts ValidateRefreshToken (TrimSpace (rsq_RefreshToken req))
      (tc_PublicKey (s_tokenCfg s)) w c ∧
    find (live_with_id (sc_UserID c)) (db_users (w_db w)) = Some u ∧
    ∃ w4, run (NewTokenPair (sc_UserID c) (s_tokenCfg s)) w3 = (Ok (rsr_Tokens resp), w4).
Proof.
  intros Husers Hrr (c & m & w1 & w2 & w3 & [Hacc Hens] & Hget & Hpair & _)%RefreshSession_Ok_inv.
  apply ensure_db in Hens as Hdb1; [|done]. rewrite Husers in Hget.
  change (run (users_GetByID (sc_UserID c)) w1 = (Ok m, w2)) in Hget.
  rewrite users_GetByID_run, Hdb1 in Hget. change (w_db (tick w)) with (w_db w) in Hget.
  destruct (env_fault (w_step w1)); [done|].
  destruct (find _ _) as [u|] eqn:Hf; [|done]. exists c, u, w2. do 2 (split; [done|]). by exists w3.
Qed.

Section revocation.
Context s (rr : RefreshTokenRevocationStore) `{!RevocationSpec rr}.
Hypothesis Hrr : s_refreshTokenRevocations s = Some rr.

Lemma ensure_step c w : (w_step w ≤ w_step (run (ensureRefreshTokenActive s c) w).2)%nat.
Proof.
  unfold ensureRefreshTokenActive. rewrite Hrr, run_catch.
  pose proof (rr_IsRevoked_step (sc_TokenID c) w) as H.
  destruct (run (rr_IsRevoked rr _) w) as [[[]|] w1]; done.
Qed.

(** A revoked token does not pass the checks. *)
Lemma revoked_not_checked tok c e w w' c' :
  jwt_verify tok (tc_PublicKey (s_tokenCfg s)) = Ok c →
  sc_TokenID c ≠ "" → rr_revoked w (sc_TokenID c) e →
  w_now (tick w) < e - time_Millisecond → ¬ checked_refresh s tok w c' w'.
Proof.
  intros Hv Hid Hrev Hlt [Hacc%accepts_refresh_verify Hen]. rewrite Hv in Hacc. simplify_eq.
  unfold ensureRefreshTokenActive in Hen. rewrite Hrr, run_catch in Hen.
  assert (rr_revoked (tick w) (sc_TokenID c') e) as Hrev'
    by (by apply (rr_revoked_frame w)).
  pose proof (rr_IsRevoked_spec _ _ _ Hid Hrev' Hlt) as Hne.
  destruct (run (rr_IsRevoked rr _) _) as [[[]|] w1]; done.
Qed.

(** Once the claims are revoked the store remembers it. *)
Lemma revokeRefreshClaims_Ok c e w w' :
  sc_ExpiresAt c = Some e → sc_TokenID c ≠ "" → run (revokeRefreshClaims s c) w = (Ok tt, w') →
  w_now w' < e → rr_revoked w' (sc_TokenID c) e.
Proof.
  intros He Hid. unfold revokeRefreshClaims. rewrite Hrr, He, run_catch.
  destruct (run (rr_Revoke rr _ _) w) as [[[]|] w1] eqn:H; [|done]. intros [= <-] Hlt.
  by eapply rr_Revoke_spec.
Qed.

Lemma not_checked_rejected ctx w :
  (∀ req, (∀ c w', ¬ checked_refresh s (TrimSpace (rsq_RefreshToken req)) w c w') →
     is_Ok (run (RefreshSession s ctx req) w).1 = false) ∧
  (∀ req, (∀ c w', ¬ checked_refresh s (TrimSpace (rvq_RefreshToken req)) w c w') →
     is_Ok (run (RevokeSession s ctx req) w).1 = false).
Proof.
  split; intros req Hno.
  - destruct (run (RefreshSession s ctx req) w) as [[resp|] w'] eqn:H; [|done].
    apply RefreshSession_Ok_inv in H as (c & u & w1 & w2 & w3 & Hc & _). by apply Hno in Hc.
  - destruct (run (RevokeSession s ctx req) w) as [[resp|] w'] eqn:H; [|done].
    apply RevokeSession_Ok_inv in H as (c & w1 & Hc & _). by apply Hno in Hc.
Qed.
End revocation.
End handlers.

(** ** Properties *)

Section properties.
Context `{P : Platform}.

(** C39.  A refresh token ends with its use.  After a RefreshSession or a
    RevokeSession that succeeded, any later RefreshSession or RevokeSession with
    the same token is rejected, as long as the revocation store keeps the
    revocation: until the token expires, up to the millisecond Redis measures
    expiry in, because the token is revoked; and from its expiry on because it
    is expired. *)
Theorem refresh_token_single_use s rr `{!RevocationSpec rr} ctx tok c e w w1 w2
    (Hrr : s_refreshTokenRevocations s = Some rr)
    (Hver : jwt_verify tok (tc_PublicKey (s_tokenCfg s)) = Ok c)
    (Hexp : sc_ExpiresAt c = Some e) (Hid : sc_TokenID c ≠ "")
    (Hused :
      (∃ req resp, TrimSpace (rsq_RefreshToken req) = tok ∧
         run (RefreshSession s ctx req) w = (Ok resp, w1)) ∨
      (∃ req resp, TrimSpace (rvq_RefreshToken req) = tok ∧
         run (RevokeSession s ctx req) w = (Ok resp, w1)))
    (Hlater : (w_step w1 ≤ w_step w2)%nat)
    (Hkept : rr_revoked w1 (sc_TokenID c) e → rr_revoked w2 (sc_TokenID c) e)
    (Htime : w_now (tick w2) < e - time_Millisecond ∨ e ≤ w_now w2) :
  (∀ req, TrimSpace (rsq_RefreshToken req) = tok →
     is_Ok (run (RefreshSession s ctx req) w2).1 = false) ∧
  (∀ req, TrimSpace (rvq_RefreshToken req) = tok →
     is_Ok (run (RevokeSession s ctx req) w2).1 = false).
Proof.
  assert (∀ c' w', ¬ checked_refresh s tok w2 c' w') as Hno.
  { intros c' w' Hc. destruct Htime as [Hlt|Hge].
    - revert Hc. apply (revoked_not_checked s rr Hrr tok c e); try done. apply Hkept.
      assert (w_now w1 < e).
      { pose proof (w_now_le w1 w2 Hlater). pose proof (w_now_tick w2).
        unfold time_Millisecond in *. lia. }
      destruct Hused as [(req & resp & <- & Hr)|(req & resp & <- & Hr)].
      + apply RefreshSession_Ok_inv in Hr as (c2 & u & v1 & v2 & v3 & [Ha _] & _ & _ & Hrev).
        apply accepts_refresh_verify in Ha. rewrite Hver in Ha. simplify_eq.
        by eapply (revokeRefreshClaims_Ok s rr Hrr).
      + apply RevokeSession_Ok_inv in Hr as (c2 & v1 & [Ha _] & Hrev).
        apply accepts_refresh_verify in Ha. rewrite Hver in Ha. simplify_eq.
        by eapply (revokeRefreshClaims_Ok s rr Hrr).
    - destruct Hc as [Hacc _]. unfold accepts in Hacc. rewrite ValidateRefreshToken_run in Hacc.
      simpl in Hacc. apply typed_ok in Hacc as [Hacc _].
      apply (ValidateToken_ok tok (tc_PublicKey (s_tokenCfg s)) w2) in Hacc as (_ & Hv & Ht).
      rewrite Hver in Hv. simplify_eq. unfold jwt_times_valid in Ht. rewrite Hexp in Ht.
      apply andb_true_iff in Ht as [Ht _]. lia. }
  destruct (not_checked_rejected s ctx w2) as [H1 H2].
  split; intros req <-; [apply H1|apply H2]; apply Hno.
Qed.

(** A session is only renewed for a user that exists.  When RefreshSession
    succeeds on the SQLite stores, the token was an unexpired refresh token
    signed with the server's key, its user is in the database and not deleted,
    and the new pair is minted for that same user. *)
Theorem RefreshSession_sound s ctx req resp sk w w'
    (Husers : s_userStore s = sqlite_users)
    (Hsk : tc_PrivateKey (s_tokenCfg s) = Some sk) (Hiss : json_safe (tc_Issuer (s_tokenCfg s)))
    (Hsafe : ∀ u, u ∈ db_users (w_db w) → json_safe (u_ID u))
    (Hrr : ∀ rr, s_refreshTokenRevocations s = Some rr → ∀ id, guarantees clock_only (rr_IsRevoked rr id))
    (Hrun : run (RefreshSession s ctx req) w = (Ok resp, w')) :
  ∃ c u ca cr wm, accepts ValidateRefreshToken (TrimSpace (rsq_RefreshToken req))
      (tc_PublicKey (s_tokenCfg s)) w c ∧
    u ∈ db_users (w_db w) ∧ user_live u = true ∧ u_ID u = sc_UserID c ∧
    (∃ wp, pair_minted (u_ID u) (s_tokenCfg s) sk wp (rsr_Tokens resp) ca cr wm) ∧
    sc_UserID ca = u_ID u ∧ sc_UserID cr = u_ID u.
Proof.
  destruct (RefreshSession_user s ctx req resp w w' Husers Hrr Hrun)
    as (c & u & w3 & Hacc & Hf & w4 & Hpair).
  apply find_Some_elem in Hf as [Hu Hl]. apply andb_true_iff in Hl as [Hid%bool_decide_eq_true Hl].
  rewrite <-Hid in Hpair.
  destruct (NewTokenPair_inv _ _ _ _ _ _ Hsk (Hsafe u Hu) Hiss Hpair) as (ca & cr & Hm).
  exists c, u, ca, cr, w4. do 4 (split; [done|]). split; [by eexists|].
  split; [apply (minted_uid _ _ _ _ _ _ (pm_access _ _ _ _ _ _ _ _ Hm))|].
  apply (minted_uid _ _ _ _ _ _ (pm_refresh _ _ _ _ _ _ _ _ Hm)).
Qed.
End properties.

(** ** Closed instances *)

Section instances.
#[local] Existing Instance calm.

(** Alice is registered and holds a token pair. *)
Definition alice_pair_run : result TokenPair * World :=
  run (NewTokenPair "uuid-1" sample_config) with_alice.
Definition alice_refresh : string :=
  match alice_pair_run.1 with Ok p => tk_Value (tp_RefreshToken p) | Err _ => "" end.
Definition with_session : World := alice_pair_run.2.

Definition alice_claims : StandardClaims :=
  match jwt_verify alice_refresh (tc_PublicKey sample_config) with
  | Ok c => c | Err _ => mkStandardClaims "" "" None None None "" "" "" "" "" []
  end.

Lemma refresh_token_single_use_witness :
  let refresh := RefreshSession sample_service no_ctx (mkRefreshSessionRequest alice_refresh) in
  is_Ok (run refresh with_session).1 = true ∧
  is_Ok (run refresh (run refresh with_session).2).1 = false.
Proof.
  intros refresh. assert (is_Ok (run refresh with_session).1 = true) as Hok by (by vm_compute).
  split; [done|]. destruct (run refresh with_session) as [[resp|] w1] eqn:Hr; [|done].
  assert (sc_ExpiresAt alice_claims = Some (jwt_NewNumericDate (1700604800 * time_Second))) as He
    by (by vm_compute).
  assert (w_now (tick w1) < jwt_NewNumericDate (1700604800 * time_Second) - time_Millisecond) as Ht.
  { change w1 with ((Ok resp, w1).2). rewrite <-Hr. by vm_compute. }
  refine (proj1 (refresh_token_single_use sample_service
    (redisRefreshTokenRevocationStore "identra:revoked_refresh:") no_ctx alice_refresh alice_claims _
    with_session w1 w1 eq_refl _ He _ (or_introl _) (le_n _) (λ H, H) (or_introl Ht)) _ _).
  - by vm_compute.
  - by vm_compute.
  - exists (mkRefreshSessionRequest alice_refresh), resp. split; [by vm_compute|exact Hr].
  - by vm_compute.
Defined.
Lemma RefreshSession_sound_witness :
  ∃ u, u ∈ db_users (w_db with_session) ∧ user_live u = true ∧ u_ID u = "uuid-1".
Proof.
  assert (is_Ok (run (RefreshSession sample_service no_ctx (mkRefreshSessionRequest alice_refresh))
    with_session).1 = true) as Hok by (by vm_compute).
  destruct (run _ with_session) as [[resp|] w1] eqn:Hr; [|done].
  assert (Forall (λ u, json_safe (u_ID u)) (db_users (w_db with_session))) as Hsafe
    by (repeat constructor; by vm_compute).
  destruct (RefreshSession_sound sample_service no_ctx (mkRefreshSessionRequest alice_refresh) resp
    key_0 with_session w1 eq_refl eq_refl eq_refl (proj1 (Forall_forall _ _) Hsafe)
    (λ rr H, ltac:(injection H as <-; apply IsRevoked_clock_only)) Hr)
    as (c & u & ca & cr & wm & _ & Hu & Hl & _).
  exists u. split; [done|]. split; [done|]. apply list_elem_of_singleton in Hu. by subst.
Defined.

(** The two refreshes interleave up to their last actions: both look for a
    revocation before either writes one. *)
Definition interleaved_refreshes : list (prog World (result RefreshSessionResponse)) * World :=
  let refresh := RefreshSession sample_service no_ctx (mkRefreshSessionRequest alice_refresh) in
  schedule (concat (repeat [0; 1]%nat 12)) ([refresh; refresh], with_session).

(** The single use of a refresh token is not guaranteed between concurrent
    requests.  RefreshSession looks for a revocation, and writes one, in two
    separate actions, so two requests with one token can interleave (in the
    sample server, at a schedule of its atomic actions) in such a way that both
    succeed, each with a token pair of its own. *)
Theorem concurrent_refresh_double_spend :
  ∃ ms w', rtc pool_step
      (repeat (RefreshSession sample_service no_ctx (mkRefreshSessionRequest alice_refresh)) 2,
       with_session) (ms, w') ∧
    forallb finished_ok ms = true ∧ length ms = 2%nat ∧
    is_Ok (run (RefreshSession sample_service no_ctx (mkRefreshSessionRequest alice_refresh)) w').1
      = false.
Proof.
  exists interleaved_refreshes.1, interleaved_refreshes.2.
  split; [rewrite <-surjective_pairing; apply schedule_steps|].
  split; [by vm_compute|]. split; by vm_compute.
Qed.
End instances.
