(* ===== verification/UserManagement.v ===== *)
(** * User management, the audit log and the read-only queries:
    internal/identra/user_management.go, audit.go, system.go, service_jwks.go

    Management of users by service accounts: the pages of the listings cover
    them, a reset replaces the password, a deletion ends the user's sessions. *)

From S2P Require Import Prelude GoStrings Prog Data Messages Platform RefPlatform SqliteQueries.
From S2P Require Import KeyManager World Password Tokens Interfaces RateLimiter Revocation.
From S2P Require Import SqliteStores ServiceAccount SqliteAccounts SqliteAudit App Handlers.
From S2P Require Import Authorization PasswordLogin OAuthLogin Session.
#[local] Open Scope Z_scope.

Section handlers.
Context `{P : Platform}.
Variable s : Service.

(** The token is trimmed to see whether it is empty, and parsed as it is. *)
Definition pageOffset (token : string) : result Z :=
  if (TrimSpace token == "")%go then Ok 0 else
  match Atoi token with
  | Some offset =>
      if offset <? 0 then Err (status_Error InvalidArgument "invalid page token") else Ok offset
  | None => Err (status_Error InvalidArgument "invalid page token")
  end.

Definition managedUserProto (user : UserModel) : ManagedUser :=
  mkManagedUser (um_ID user) (um_Email user)
    (match um_HashedPassword user with Some _ => true | None => false end)
    (um_CreatedAt user) (um_UpdatedAt user) (um_LastLoginAt user).

(** A page of at most [pageSize] of the rows read, one more than fits, and the
    token of the next page. *)
Definition cut_page {A} (offset pageSize : Z) (rows : list A) : list A * string :=
  if pageSize <? Z.of_nat (length rows)
  then (take (Z.to_nat pageSize) rows, Itoa (wrap_int64 (offset + pageSize)))
  else (rows, "").

Definition ListUsers (ctx : Ctx) (req : ListUsersRequest) : M (result ListUsersResponse) :=
  try _ := authorizeServiceAccount s ctx [ScopeUsersRead; ScopeUsersManage] in
  let pageSize := luq_PageSize req in
  let pageSize := if pageSize =? 0 then 50 else pageSize in
  if (pageSize <? 0) || (200 <? pageSize)
  then fail InvalidArgument "page size must be between 1 and 200" else
  try offset := Ret (pageOffset (luq_PageToken req)) in
  try users := us_List (s_userStore s) offset (pageSize + 1)
    catch (λ _, fail Internal "failed to list users") in
  let '(users, next) := cut_page offset pageSize users in
  Ret (Ok (mkListUsersResponse (managedUserProto <$> users) next)).

Definition CreatePasswordUser (ctx : Ctx) (req : CreatePasswordUserRequest)
    : M (result CreatePasswordUserResponse) :=
  try actor := authorizeServiceAccount s ctx [ScopeUsersManage] in
  let email := TrimSpace (cpu_Email req) in
  if ((email == "") || (cpu_Password req == ""))%go
  then fail InvalidArgument "email and password are required" else
  try hash := HashPassword (cpu_Password req)
    catch (λ _, fail Internal "failed to process password") in
  try user := us_Create (s_userStore s)
                (mkUserModel "" time_zero time_zero email (Some hash) None None)
    catch (λ err,
      if errors_Is err identra_ErrAlreadyExists then fail AlreadyExists "user already exists"
      else fail Internal "failed to create user") in
  _ ← recordManagementAudit s actor "user.create" "user" (um_ID user);
  Ret (Ok (mkCreatePasswordUserResponse (managedUserProto user))).

Definition DeleteUser (ctx : Ctx) (req : DeleteUserRequest) : M (result DeleteUserResponse) :=
  try actor := authorizeServiceAccount s ctx [ScopeUsersManage] in
  let userID := TrimSpace (duq_UserId req) in
  if (userID == "")%go then fail InvalidArgument "user ID is required" else
  try _ := us_Delete (s_userStore s) userID
    catch (λ err,
      if errors_Is err identra_ErrNotFound then fail NotFound "user not found"
      else fail Internal "failed to delete user") in
  _ ← recordManagementAudit s actor "user.delete" "user" userID;
  Ret (Ok mkDeleteUserResponse).

Definition ResetUserPassword (ctx : Ctx) (req : ResetUserPasswordRequest)
    : M (result ResetUserPasswordResponse) :=
  try actor := authorizeServiceAccount s ctx [ScopeUsersManage] in
  let userID := TrimSpace (rup_UserId req) in
  if ((userID == "") || (rup_Password req == ""))%go
  then fail InvalidArgument "user ID and password are required" else
  try hash := HashPassword (rup_Password req)
    catch (λ _, fail Internal "failed to process password") in
  try _ := us_SetPassword (s_userStore s) userID hash
    catch (λ err,
      if errors_Is err identra_ErrNotFound then fail NotFound "user not found"
      else fail Internal "failed to reset password") in
  try user := us_GetByID (s_userStore s) userID
    catch (λ _, fail Internal "failed to read user") in
  _ ← recordManagementAudit s actor "user.reset_password" "user" userID;
  Ret (Ok (mkResetUserPasswordResponse (managedUserProto user))).

(** ** audit.go *)

Definition auditEventProto (event : AuditEvent) : AuditEventProto :=
  let actorType :=
    if (ae_ActorType event == AuditActorSystem)%go then AUDIT_ACTOR_TYPE_SYSTEM else
    if (ae_ActorType event == AuditActorServiceAccount)%go then AUDIT_ACTOR_TYPE_SERVICE_ACCOUNT
    else AUDIT_ACTOR_TYPE_UNSPECIFIED in
  mkAuditEventProto (ae_ID event) (ae_OccurredAt event) actorType (ae_ActorID event)
    (ae_Action event) (ae_ResourceType event) (ae_ResourceID event) (ae_Metadata event).

(** The audit store of a service is never nil; without one the Go code would
    panic.  The token is trimmed before it is parsed. *)
Definition ListAuditEvents (auditStore : AuditStore) (ctx : Ctx) (req : ListAuditEventsRequest)
    : M (result ListAuditEventsResponse) :=
  try _ := authorizeServiceAccount s ctx [ScopeAuditRead] in
  let pageSize := laq_PageSize req in
  let pageSize := if pageSize =? 0 then 50 else pageSize in
  if 200 <? pageSize then fail InvalidArgument "page size must not exceed 200" else
  let token := TrimSpace (laq_PageToken req) in
  let parsed := if (token == "")%go then Some 0 else
    match Atoi token with Some value => if value <? 0 then None else Some value | None => None end in
  match parsed with
  | None => fail InvalidArgument "invalid page token"
  | Some offset =>
      try events := as_List auditStore offset (pageSize + 1)
        catch (λ _, fail Internal "failed to list audit events") in
      let '(events, next) := cut_page offset pageSize events in
      Ret (Ok (mkListAuditEventsResponse (auditEventProto <$> events) next))
  end.

(** ** system.go and service_jwks.go *)

Definition GetServerInfo (ctx : Ctx) (req : GetServerInfoRequest)
    : result GetServerInfoResponse :=
  Ok (mkGetServerInfoResponse (si_Version (s_serverInfo s)) (si_Commit (s_serverInfo s))
        (si_BuildDate (s_serverInfo s)) (si_SchemaVersion (s_serverInfo s))
        (si_Capabilities (s_serverInfo s))).

Definition ListSigningKeys (ctx : Ctx) (req : ListSigningKeysRequest)
    : M (result ListSigningKeysResponse) :=
  keys_call (λ _ km, (Ok (mkListSigningKeysResponse (KeyManager.ListSigningKeys km)), km)).
End handlers.

(** ** Pages *)

Section pages.
Context `{P : Platform}.

Lemma cut_page_spec {A} offset n (rows : list A) :
  0 ≤ offset → 0 < n → offset + n ≤ max_int64 ∨ Z.of_nat (length rows) ≤ offset + n →
  let '(page, next) := cut_page offset n (sql_page (n + 1) offset rows) in
  page = take (Z.to_nat n) (drop (Z.to_nat offset) rows) ∧
  next = if Z.of_nat (length rows) <=? offset + n then "" else Itoa (offset + n).
Proof.
  intros Ho Hn Hov. unfold cut_page, sql_page. rewrite (proj2 (Z.ltb_ge (n + 1) 0)) by lia.
  set (rest := drop _ rows). set (page := take _ rest).
  assert (length page = Z.to_nat (n + 1) `min` (length rows - Z.to_nat offset))%nat as Hlen
    by (unfold page, rest; by rewrite length_take, length_drop).
  destruct (Z.leb_spec (Z.of_nat (length rows)) (offset + n)) as [Hle|Hgt].
  - rewrite (proj2 (Z.ltb_ge n (Z.of_nat (length page)))) by lia. split; [|done].
    unfold page, rest. rewrite !take_ge; [done|rewrite length_drop; lia..].
  - rewrite (proj2 (Z.ltb_lt n (Z.of_nat (length page)))) by lia. unfold page, rest. split.
    + rewrite take_take. f_equal. lia.
    + rewrite wrap_int64_id; [done|]. unfold min_int64. lia.
Qed.

(** The token of a page leads to its offset. *)
Lemma pageOffset_Itoa z : 0 ≤ z ≤ max_int64 → pageOffset (Itoa z) = Ok z.
Proof.
  intros Hz. unfold pageOffset. rewrite TrimSpace_plain by (apply Itoa_plain; lia).
  rewrite bool_decide_eq_false_2 by apply Itoa_not_empty.
  rewrite Atoi_Itoa by (unfold min_int64; lia). by rewrite (proj2 (Z.ltb_ge _ _)) by lia.
Qed.

Lemma pageOffset_range token o : pageOffset token = Ok o → 0 ≤ o ≤ max_int64.
Proof.
  unfold pageOffset. case_bool_decide; [intros [= <-]; by vm_compute|].
  destruct (Atoi token) as [z|] eqn:Hz; [|done]. destruct (Z.ltb_spec z 0); [done|].
  intros [= <-]. apply Atoi_range in Hz. lia.
Qed.

(** The users a listing goes through, and the order query [n] has them in. *)
Definition live_users (d : DB) : list User := List.filter user_live (db_users d).
Definition listed (n : nat) (d : DB) : list ManagedUser :=
  (λ u, managedUserProto (userToDomain u)) <$> sql_order_by n by_created_desc (live_users d).

Lemma listed_length n d : length (listed n d) = length (live_users d).
Proof. unfold listed. by rewrite length_fmap, sql_order_by_perm. Qed.

Lemma listed_same n d d' : db_users d' = db_users d → listed n d' = listed n d.
Proof. unfold listed, live_users. by intros ->. Qed.

(** No two of them were created at the same time: the condition for the order to
    be the same in every query. *)
Definition distinct_times (d : DB) : Prop := NoDup (u_CreatedAt <$> live_users d).
Definition newer (u v : User) : Prop := u_CreatedAt v < u_CreatedAt u.

Lemma listed_sorted n d :
  StronglySorted (λ u v, by_created_desc u v = true) (sql_order_by n by_created_desc (live_users d)).
Proof. apply sql_order_by_sorted; unfold by_created_desc; intros; rewrite ?Z.leb_le in *; lia. Qed.

Lemma listed_unique n n' d : distinct_times d → listed n d = listed n' d.
Proof.
  intros Hd. unfold listed. f_equal.
  apply (StronglySorted_unique_strong _ _ _) with (2 := listed_sorted n d) (3 := listed_sorted n' d);
    [|by rewrite !sql_order_by_perm].
  intros u v. rewrite !sql_order_by_perm. unfold by_created_desc. rewrite !Z.leb_le. intros Hu Hv ??.
  apply (NoDup_fmap_inj u_CreatedAt (live_users d)); [done..|lia].
Qed.

Lemma listed_newest_first n d :
  distinct_times d → StronglySorted newer (sql_order_by n by_created_desc (live_users d)).
Proof.
  intros Hd. pose proof (listed_sorted n d) as Hs. unfold distinct_times in Hd.
  rewrite <-(sql_order_by_perm n by_created_desc (live_users d)) in Hd.
  induction Hs as [|u l _ IH Hu]; [constructor|]. rewrite fmap_cons, NoDup_cons in Hd.
  destruct Hd as [Hnew Hd]. constructor; [by apply IH|].
  rewrite Forall_forall in Hu |- *. intros v Hv. specialize (Hu v Hv). unfold by_created_desc, newer in *.
  rewrite Z.leb_le in Hu. assert (u_CreatedAt v ≠ u_CreatedAt u); [|lia].
  intros He. apply Hnew. rewrite <-He. by apply list_elem_of_fmap_2.
Qed.

Context (s : Service) (Hs : s_userStore s = sqlite_users).

Definition page_size (req : ListUsersRequest) : Z :=
  if luq_PageSize req =? 0 then 50 else luq_PageSize req.

Lemma ListUsers_run ctx req w actor w1 o :
  run (authorizeServiceAccount s ctx [ScopeUsersRead; ScopeUsersManage]) w = (Ok actor, w1) →
  0 < page_size req ≤ 200 → pageOffset (luq_PageToken req) = Ok o →
  run (ListUsers s ctx req) w =
    match env_fault (w_step w1) with
    | Some _ => (Err (status_Error Internal "failed to list users"), tick w1)
    | None =>
        let '(page, next) := cut_page o (page_size req)
          (sql_page (page_size req + 1) o (listed (w_step w1) (w_db w1))) in
        (Ok (mkListUsersResponse page next), tick w1)
    end.
Proof.
  intros Hau Hn Ho. unfold ListUsers. rewrite run_try, Hau. fold (page_size req).
  rewrite (proj2 (Z.ltb_ge (page_size req) 0)), (proj2 (Z.ltb_ge 200 (page_size req))) by lia.
  cbn [orb]. rewrite run_try. cbn [run]. rewrite Ho, run_catch, Hs.
  cbn [us_List sqlite_users]. unfold users_List. apply pageOffset_range in Ho.
  rewrite (proj2 (Z.ltb_ge o 0)), (proj2 (Z.leb_gt (page_size req + 1) 0)) by lia.
  rewrite run_try, db_query_run. destruct (env_fault (w_step w1)); [done|].
  unfold listUsers. cbn [run]. unfold listed.
  assert (∀ {A B} (f : A → B) lim off (l : list A), sql_page lim off (f <$> l) = f <$> sql_page lim off l)
    as Hpage.
  { intros A B f lim off l. unfold sql_page. rewrite <-fmap_drop. case_match; [done|].
    by rewrite <-fmap_take. }
  rewrite (list_fmap_compose userToDomain managedUserProto), !Hpage.
  set (l := sql_page _ _ _). unfold cut_page. rewrite !length_fmap.
  destruct (_ <? _); [|done]. by rewrite fmap_take.
Qed.

(** Following the page tokens, from [token] to the last page: the users on the
    [k] pages.  Other requests may run in between that leave the users alone. *)
Inductive user_walk (ctx : Ctx) (size : Z) : nat → string → World → list ManagedUser → Prop :=
  | user_walk_last token w resp w1 :
      run (ListUsers s ctx (mkListUsersRequest size token)) w = (Ok resp, w1) →
      lur_NextPageToken resp = "" →
      user_walk ctx size 1 token w (lur_Users resp)
  | user_walk_more k token w resp w1 w2 rest :
      run (ListUsers s ctx (mkListUsersRequest size token)) w = (Ok resp, w1) →
      lur_NextPageToken resp ≠ "" →
      db_users (w_db w2) = db_users (w_db w1) →
      user_walk ctx size k (lur_NextPageToken resp) w2 rest →
      user_walk ctx size (S k) token w (lur_Users resp ++ rest).

Context (Hsa : s_serviceAccountStore s = sqlite_accounts).

(** What a page that was answered holds. *)
Lemma ListUsers_Ok_inv ctx req w resp w1 :
  run (ListUsers s ctx req) w = (Ok resp, w1) →
  Z.of_nat (length (live_users (w_db w))) ≤ max_int64 →
  w_db w1 = w_db w ∧ 0 < page_size req ≤ 200 ∧
  ∃ o n, pageOffset (luq_PageToken req) = Ok o ∧
    lur_Users resp = take (Z.to_nat (page_size req)) (drop (Z.to_nat o) (listed n (w_db w))) ∧
    lur_NextPageToken resp = if Z.of_nat (length (live_users (w_db w))) <=? o + page_size req
                             then "" else Itoa (o + page_size req).
Proof.
  intros Hrun Hlen. destruct (run (authorizeServiceAccount s ctx [ScopeUsersRead; ScopeUsersManage]) w)
    as [[actor|] w0] eqn:Hau.
  2: { unfold ListUsers in Hrun. by rewrite run_try, Hau in Hrun. }
  pose proof (guarantees_run _ _ w (authorize_clock s Hsa ctx [ScopeUsersRead; ScopeUsersManage])) as Hck.
  rewrite Hau in Hck. cbn [snd] in Hck.
  assert (0 < page_size req ≤ 200 ∧ ∃ o, pageOffset (luq_PageToken req) = Ok o) as [Hn [o Ho]].
  { unfold ListUsers in Hrun. rewrite run_try, Hau in Hrun. fold (page_size req) in Hrun.
    destruct (Z.ltb_spec (page_size req) 0); [done|]. destruct (Z.ltb_spec 200 (page_size req)); [done|].
    cbn [orb] in Hrun. rewrite run_try in Hrun. cbn [run] in Hrun.
    destruct (pageOffset _) as [o|]; [|done]. split; [|by exists o].
    unfold page_size in *. destruct (Z.eqb_spec (luq_PageSize req) 0); lia. }
  rewrite (ListUsers_run ctx req w actor w0 o) in Hrun by done.
  destruct (env_fault (w_step w0)); [done|]. rewrite (co_db _ _ Hck) in Hrun.
  pose proof (pageOffset_range _ _ Ho).
  pose proof (cut_page_spec o (page_size req) (listed (w_step w0) (w_db w))) as Hcut.
  rewrite listed_length in Hcut.
  destruct (cut_page _ _ _) as [page next]. injection Hrun as <- <-. simpl.
  destruct Hcut as [-> ->]; [lia..|]. split; [by rewrite (co_db _ _ Hck)|]. split; [done|].
  by exists o, (w_step w0).
Qed.

(** As many entries as there are users left; and, when the order is the same for
    every query, the rest of that order. *)
Lemma user_walk_spec ctx size k token w us o :
  user_walk ctx size k token w us → pageOffset token = Ok o →
  Z.of_nat (length (live_users (w_db w))) ≤ max_int64 →
  length us = (length (live_users (w_db w)) - Z.to_nat o)%nat ∧
  (k = 1%nat ∨ o + Z.of_nat (k - 1) < Z.of_nat (length (live_users (w_db w)))) ∧
  (distinct_times (w_db w) → us = drop (Z.to_nat o) (listed 0 (w_db w))).
Proof.
  intros Hwalk. revert o. induction Hwalk as [token w resp w1 Hrun Hlast|
    k token w resp w1 w2 rest Hrun Hmore Hsame Hwalk IH]; intros o Ho Hlen;
    destruct (ListUsers_Ok_inv _ _ _ _ _ Hrun Hlen) as (Hdb & Hn & o' & i & Ho' & Hus & Hnext);
    simpl in Ho'; rewrite Ho in Ho'; injection Ho' as <-; apply pageOffset_range in Ho as Hr;
    set (n := page_size (mkListUsersRequest size token)) in *;
    rewrite Hnext in *; destruct (Z.leb_spec (Z.of_nat (length (live_users (w_db w)))) (o + n)).
  - rewrite Hus, take_ge by (rewrite length_drop, listed_length; lia).
    split; [by rewrite length_drop, listed_length|]. split; [by left|].
    intros Hd. by rewrite (listed_unique i 0 _ Hd).
  - by destruct (Itoa_not_empty (o + n)).
  - done.
  - rewrite Hdb in Hsame. assert (live_users (w_db w2) = live_users (w_db w)) as Hlive
      by (unfold live_users; by rewrite Hsame).
    unfold distinct_times in *. rewrite Hlive in IH.
    destruct (IH (o + n)) as (Hl & Hk & Hrest); [apply pageOffset_Itoa; lia|done|]. split_and!.
    + rewrite Hus, length_app, length_take, length_drop, listed_length, Hl. lia.
    + right. destruct Hk as [->|Hk]; lia.
    + intros Hd. rewrite (Hrest Hd), Hus, (listed_unique i 0 _ Hd), (listed_same 0 _ _ Hsame).
      replace (Z.to_nat (o + n)) with (Z.to_nat o + Z.to_nat n)%nat by lia.
      by rewrite <-drop_drop, take_drop.
Qed.

(** As long as the caller stays authorised and the database answers, the walk
    gets to an end. *)
Lemma user_walk_exists ctx size w token o i :
  (∀ j, env_fault j = None) → 0 < page_size (mkListUsersRequest size "") ≤ 200 →
  Z.of_nat (length (live_users (w_db w))) ≤ max_int64 →
  (∀ j, (j ≤ length (live_users (w_db w)))%nat →
     is_Ok (run (authorizeServiceAccount s ctx [ScopeUsersRead; ScopeUsersManage])
              (set_step (3 * j + w_step w) w)).1 = true) →
  pageOffset token = Ok o → (i ≤ length (live_users (w_db w)))%nat → Z.of_nat i ≤ o →
  ∃ k us, user_walk ctx size k token (set_step (3 * i + w_step w) w) us.
Proof.
  intros Hf Hn Hlen Hauth.
  remember (length (live_users (w_db w)) - i)%nat as m eqn:Hm.
  revert token o i Hm. induction m as [m IH] using (well_founded_induction lt_wf).
  intros token o i Hm Ho Hi Hio. set (wi := set_step (3 * i + w_step w) w).
  specialize (Hauth i Hi) as Hok.
  destruct (run (authorizeServiceAccount s ctx _) _) as [[actor|] w1] eqn:Hau; [clear Hok|done].
  destruct (authorize_Ok_inv s Hsa _ _ _ _ _ Hau) as [_ ->].
  pose proof (ListUsers_run ctx (mkListUsersRequest size token) wi actor _ o Hau Hn Ho) as Hrun.
  rewrite Hf in Hrun. change (w_db (tick (tick wi))) with (w_db w) in Hrun.
  fold (page_size (mkListUsersRequest size "")) in Hrun.
  change (page_size (mkListUsersRequest size token)) with (page_size (mkListUsersRequest size "")) in Hrun.
  set (n := page_size _) in *. pose proof (pageOffset_range _ _ Ho) as Hr.
  pose proof (cut_page_spec o n (listed (w_step (tick (tick wi))) (w_db w))) as Hcut.
  rewrite listed_length in Hcut.
  destruct (cut_page _ _ _) as [page next]. destruct Hcut as [_ Hnext]; [lia..|].
  destruct (decide (next = "")) as [He|Hne].
  - exists 1%nat, (lur_Users (mkListUsersResponse page next)).
    eapply user_walk_last; [exact Hrun|done].
  - destruct (Z.leb_spec (Z.of_nat (length (live_users (w_db w)))) (o + n)) as [|Hlt]; [done|].
    destruct (IH (length (live_users (w_db w)) - S i)%nat ltac:(lia) next (o + n) (S i))
      as (k & us & Hwalk); [done|rewrite Hnext; apply pageOffset_Itoa; lia|lia|lia|].
    exists (S k), (lur_Users (mkListUsersResponse page next) ++ us).
    eapply (user_walk_more ctx size k token wi _ _ (set_step (3 * S i + w_step w) w));
      [exact Hrun|done|done|exact Hwalk].
Qed.
End pages.

(** ** Properties *)

Section properties.
Context `{P : Platform}.

(** C30.  The pages of a listing cover it.  Following the page tokens of
    ListUsers from the first page to the last, with other requests in between
    that leave the users alone, yields as many entries as there are users that are
    not deleted, in at most one page per user; when no two of those were created at
    the same time, each of them exactly once, newest first.  (ListUsers sorts by
    the time of creation alone, and SQLite may order equal times differently in
    each query, so that two users of the same instant can change places between
    two pages.)  While the caller stays authorised and the database answers, the
    last page is reached. *)
Theorem ListUsers_pages_cover s ctx size w
    (Hs : s_userStore s = sqlite_users) (Hsa : s_serviceAccountStore s = sqlite_accounts)
    (Hlen : Z.of_nat (length (live_users (w_db w))) ≤ max_int64) :
  (∀ k us, user_walk s ctx size k "" w us →
     length us = length (live_users (w_db w)) ∧ (k ≤ 1 `max` length us)%nat ∧
     (distinct_times (w_db w) →
      ∃ l, us = (λ u, managedUserProto (userToDomain u)) <$> l ∧ l ≡ₚ live_users (w_db w) ∧
           StronglySorted newer l)) ∧
  ((∀ j, env_fault j = None) → 0 < page_size (mkListUsersRequest size "") ≤ 200 →
   (∀ j, (j ≤ length (live_users (w_db w)))%nat →
      is_Ok (run (authorizeServiceAccount s ctx [ScopeUsersRead; ScopeUsersManage])
               (set_step (3 * j + w_step w) w)).1 = true) →
   ∃ k us, user_walk s ctx size k "" w us).
Proof.
  split.
  - intros k us Hwalk.
    destruct (user_walk_spec s Hs Hsa ctx size k "" w us 0 Hwalk eq_refl Hlen) as (Hl & Hk & Hus).
    simpl in *. rewrite Nat.sub_0_r in Hl. split; [done|]. split; [lia|]. intros Hd.
    exists (sql_order_by 0 by_created_desc (live_users (w_db w))). rewrite (Hus Hd), drop_0.
    split; [done|]. split; [apply sql_order_by_perm|by apply listed_newest_first].
  - intros Hf Hn Hauth.
    destruct (user_walk_exists s Hs Hsa ctx size w "" 0 0 Hf Hn Hlen Hauth) as (k & us & H);
      [done|lia..|].
    exists k, us. by destruct w.
Qed.
End properties.

(** ** Closed instances *)

Section instances.
#[local] Existing Instance calm.

(** Two users on a server whose operator holds a token. *)
Definition with_users : World :=
  (run (users_Create (mkUserModel "" time_zero time_zero "carol@example.com" None None None))
    (run (users_Create alice) with_token).2).2.

Lemma ListUsers_pages_cover_witness :
  ∃ k us, user_walk sample_service ops_ctx 1 k "" with_users us ∧
          mu_Email <$> us = ["carol@example.com"; "alice@example.com"].
Proof.
  assert ((λ u, (u_Email u, u_CreatedAt u)) <$> live_users (w_db with_users) =
    [("alice@example.com", 1700000000012000000); ("carol@example.com", 1700000000015000000)])
    as Hlive by (by vm_compute).
  assert (forallb (λ j, is_Ok (run (authorizeServiceAccount sample_service ops_ctx
    [ScopeUsersRead; ScopeUsersManage]) (set_step (3 * j + w_step with_users) with_users)).1)
    (seq 0 (S (length (live_users (w_db with_users))))) = true) as Hauth by (by vm_compute).
  generalize dependent with_users. intros w Hlive Hauth.
  destruct (live_users (w_db w)) as [|ua [|uc [|]]] eqn:Hus; try discriminate Hlive.
  injection Hlive as Hea Hta Hec Htc.
  destruct (ListUsers_pages_cover sample_service ops_ctx 1 w eq_refl eq_refl) as [Hall Hex];
    [rewrite Hus; by vm_compute|].
  destruct Hex as (k & us & Hwalk); [reflexivity|change (0 < 1 ≤ 200); lia| |].
  - rewrite Hus. intros j Hj. rewrite forallb_forall in Hauth. apply Hauth, in_seq.
    change (length [ua; uc]) with 2%nat in *. lia.
  - exists k, us. split; [exact Hwalk|].
    destruct (Hall k us Hwalk) as (_ & _ & Hcover). destruct Hcover as (l & -> & Hperm & Hsorted).
    + unfold distinct_times. rewrite Hus. cbn. rewrite Hta, Htc. apply (bool_decide_unpack _). by vm_compute.
    + rewrite Hus in Hperm. symmetry in Hperm. apply Permutation_length_2_inv in Hperm as [->| ->].
      * apply StronglySorted_inv in Hsorted as [_ Hn]. apply Forall_cons in Hn as [Hn _].
        unfold newer in Hn. lia.
      * cbn. rewrite Hea, Hec. reflexivity.
Defined.

(** Two users of the same instant: the second page can start with the user the
    first one ended with, and the other is on none. *)
Definition with_tied : World :=
  (run (users_Create (mkUserModel "" 7 7 "carol@example.com" None None None))
    (run (users_Create (mkUserModel "" 7 7 "alice@example.com" None None None)) with_token).2).2.

Example tied_users_repeat :
  let '(first, w1) := run (ListUsers sample_service ops_ctx (mkListUsersRequest 1 "")) with_tied in
  let '(second, _) := run (ListUsers sample_service ops_ctx (mkListUsersRequest 1 "1")) w1 in
  (λ r, (mu_Email <$> lur_Users r, lur_NextPageToken r)) <$> first = Ok (["alice@example.com"], "1") ∧
  (λ r, (mu_Email <$> lur_Users r, lur_NextPageToken r)) <$> second = Ok (["alice@example.com"], "") ∧
  length (live_users (w_db with_tied)) = 2%nat.
Proof. by vm_compute. Qed.
End instances.
