(* ===== verification/UserLifecycle.v ===== *)
(** * What management of a user means for logins and sessions

    A reset replaces the password, a deletion ends every way in; and the race
    between a login and a reset. *)

From S2P Require Import Prelude GoStrings Prog Data Messages Platform RefPlatform SqliteQueries.
From S2P Require Import KeyManager World Password Tokens Interfaces RateLimiter Revocation.
From S2P Require Import EmailCode SqliteStores ServiceAccount SqliteAccounts SqliteAudit App.
From S2P Require Import Handlers Authorization PasswordLogin EmailLogin OAuthLogin Session.
From S2P Require Import UserManagement.
#[local] Open Scope Z_scope.

Section lemmas.
Context `{P : Platform}.
Context (s : Service) (Hs : s_userStore s = sqlite_users).
Context (Hsa : s_serviceAccountStore s = sqlite_accounts).
Hypothesis Haudit : s_auditStore s = Some sqlite_audit.
Implicit Types (w : World).

(** ** ResetUserPassword *)

Lemma Reset_Ok_inv ctx req resp w w' :
  run (ResetUserPassword s ctx req) w = (Ok resp, w') →
  ∃ u salt now, u ∈ db_users (w_db w) ∧ live_with_id (TrimSpace (rup_UserId req)) u = true ∧
    String.length salt = 16%nat ∧
    db_users (w_db w') = map_if (live_with_id (TrimSpace (rup_UserId req)))
      (λ u, mkUser (u_ID u) (u_CreatedAt u) now (u_DeletedAt u) (u_Email u)
              (Some (stored_hash (rup_Password req) salt)) (u_Hash u) (u_LastLoginAt u))
      (db_users (w_db w)).
Proof.
  unfold ResetUserPassword. rewrite run_try.
  destruct (run (authorizeServiceAccount _ _ _) w) as [[actor|] w1] eqn:Hau; [|done].
  apply (authorize_Ok_inv s Hsa) in Hau as [_ ->].
  destruct (_ || _); [done|]. rewrite run_catch.
  destruct (run (HashPassword _) _) as [[h|] w1] eqn:Hh; [|done].
  apply HashPassword_inv in Hh as (-> & salt & Hsalt & ->). rewrite run_catch, Hs.
  cbn [us_SetPassword us_GetByID sqlite_users].
  destruct (run (users_SetPassword _ _) _) as [[[]|e] w2] eqn:Hset; [|by destruct (errors_Is e _)].
  apply users_SetPassword_inv in Hset as (u & now & Hu & Hl & Hdb). rewrite run_catch.
  destruct (run (users_GetByID _) w2) as [[m|] w3] eqn:Hget; [|done].
  rewrite users_GetByID_run in Hget. injection Hget as _ <-. rewrite run_mbind.
  pose proof (proj1 (recordManagementAudit_run s Haudit actor "user.reset_password" "user"
    (TrimSpace (rup_UserId req)) (tick w2))) as Ha.
  destruct (run (recordManagementAudit _ _ _ _ _) _) as [[] w4]. intros [= _ <-].
  apply audited_same in Ha as [Ha _]. cbn [snd] in Ha.
  exists u, salt, now. do 3 (split; [done|]). by rewrite Ha; change (w_db (tick w2)) with (w_db w2); rewrite Hdb.
Qed.

Lemma Reset_effect ctx req : guarantees db_effect (ResetUserPassword s ctx req).
Proof.
  unfold ResetUserPassword, HashPassword, fail. rewrite Hs.
  cbn [us_SetPassword us_GetByID sqlite_users].
  pose proof (λ r, clock_effect _ (authorize_clock s Hsa ctx r)).
  pose proof (recordManagementAudit_effect s Haudit). guarantees_tac.
Qed.

(** ** DeleteUser *)

Lemma Delete_Ok_inv ctx req resp w w' :
  run (DeleteUser s ctx req) w = (Ok resp, w') →
  ∃ w2, run (users_Delete (TrimSpace (duq_UserId req))) (tick (tick w)) = (Ok tt, w2) ∧
        db_evolves (w_db w2) (w_db w').
Proof.
  unfold DeleteUser. rewrite run_try.
  destruct (run (authorizeServiceAccount _ _ _) w) as [[actor|] w1] eqn:Hau; [|done].
  apply (authorize_Ok_inv s Hsa) in Hau as [_ ->]. case_bool_decide; [done|].
  rewrite run_catch, Hs. cbn [us_Delete sqlite_users].
  destruct (run (users_Delete _) _) as [[[]|e] w2] eqn:Hdel; [|by destruct (errors_Is e _)].
  rewrite run_mbind.
  pose proof (guarantees_run _ _ w2 (recordManagementAudit_effect s Haudit actor "user.delete" "user"
    (TrimSpace (duq_UserId req)))) as Hg.
  destruct (run (recordManagementAudit _ _ _ _ _) w2) as [u3 w3]. intros [= <-].
  exists w2. split; [done|]. apply Hg.
Qed.

(** ** Behind a tombstone *)

Section hidden.
Context (v : User) (w : World) (Hok : db_ok (w_db w)).
Context (Hv : v ∈ db_users (w_db w)) (Hdead : user_live v = false).

Lemma no_live_email u : u ∈ db_users (w_db w) → user_live u = true → u_Email u ≠ u_Email v.
Proof.
  intros Hu Hl He. pose proof (proj2 (tombstone_hides _ v Hok Hv Hdead)) as Hn.
  rewrite <-He, (find_live_email _ u) in Hn by done. done.
Qed.

Context pre (Hl : limiter_within pre (s_loginRateLimiter s)).

Lemma hidden_register ctx req :
  TrimSpace (rwp_Email req) = u_Email v → is_Ok (run (RegisterWithPassword s ctx req) w).1 = false.
Proof.
  intros He. destruct (run _ w) as [[resp|] w'] eqn:Hrun; [|done].
  apply (Register_Ok_inv s Hs) in Hrun as (_ & _ & row & salt & d1 & w2 & _ & _ & _ & _ & _ & Hfresh & _).
  destruct (Hfresh v Hv) as [_ Hne]. by rewrite He in Hne.
Qed.

Lemma hidden_password ctx req :
  TrimSpace (lwp_Email req) = u_Email v → is_Ok (run (LoginWithPassword s ctx req) w).1 = false.
Proof.
  intros He. destruct (Login_cases s Hs ctx req w) as [->|(a & w1 & _ & _ & Hg & Hc)]; [done|].
  destruct Hc as [(_ & ->)|[(_ & e & -> & _)|(-> & u & h & _ & Hu & _)]]; [done..|].
  pose proof (guarantees_run _ _ w (allowed_or_open_clock _ _ Hl
    (rateLimitKeys ctx "login" (TrimSpace (lwp_Email req))))) as Hck.
  rewrite Hg in Hck. cbn [snd] in Hck. rewrite (co_db _ _ Hck), He in Hu.
  by rewrite (proj2 (tombstone_hides _ v Hok Hv Hdead)) in Hu.
Qed.

Lemma hidden_code `{!OneShotCodes (s_emailCodeStore s)} ctx req :
  TrimSpace (lwec_Email req) = u_Email v → is_Ok (run (LoginWithEmailCode s ctx req) w).1 = false.
Proof.
  intros He. unfold LoginWithEmailCode. rewrite He. destruct (_ || _); [done|]. rewrite run_mbind.
  pose proof (guarantees_run _ _ w (allowed_or_open_clock _ _ Hl
    (rateLimitKeys ctx "login" (u_Email v)))) as G1.
  destruct (run (allowed_or_open _ _) w) as [[] w1]; [|done]. cbn [negb]. rewrite run_mbind.
  pose proof (guarantees_run _ _ w1 (codes_only (u_Email v) (TrimSpace (lwec_Code req)))) as G2.
  destruct (run (ec_Consume _ _ _) w1) as [[[]|] w2]; [| |done]; cbn [snd] in *.
  2: { rewrite run_mbind. by destruct (run (record_failure _ _) w2). }
  assert (w_db w2 = w_db w) as Hdb by by rewrite (ro_db _ _ _ G2), (co_db _ _ G1).
  rewrite run_try. destruct (run (user_of_email s _) w2) as [[m|] w3] eqn:H3; [|done].
  apply (user_of_email_inv s Hs) in H3 as (u & users & Hul & Hue & _ & Hc & _). rewrite Hdb in Hc.
  destruct Hc as [[Hu _]|(_ & _ & Hfresh)]; [by destruct (no_live_email u Hu Hul)|].
  by destruct (Hfresh v Hv).
Qed.

Lemma hidden_refresh ctx req c :
  (∀ rr, s_refreshTokenRevocations s = Some rr → ∀ id, guarantees clock_only (rr_IsRevoked rr id)) →
  accepts ValidateRefreshToken (TrimSpace (rsq_RefreshToken req)) (tc_PublicKey (s_tokenCfg s)) w c →
  sc_UserID c = u_ID v → is_Ok (run (RefreshSession s ctx req) w).1 = false.
Proof.
  intros Hrr Hacc Hid. destruct (run _ w) as [[resp|] w'] eqn:Hrun; [|done].
  apply RefreshSession_user in Hrun as (c' & u & w3 & Hacc' & Hf & _); [|done..].
  unfold accepts in Hacc, Hacc'. rewrite Hacc in Hacc'. injection Hacc' as <-. rewrite Hid in Hf.
  by rewrite (proj1 (tombstone_hides _ v Hok Hv Hdead)) in Hf.
Qed.

Lemma hidden_access ctx req c :
  accepts ValidateAccessToken (accessTokenFromMetadata ctx) (tc_PublicKey (s_tokenCfg s)) w c →
  sc_UserID c = u_ID v → is_Ok (run (GetCurrentUser s ctx req) w).1 = false.
Proof.
  intros Hacc Hid. unfold GetCurrentUser. case_bool_decide; [done|]. rewrite run_catch.
  unfold accepts in Hacc. rewrite ValidateAccessToken_run in Hacc |- *. cbn [fst] in Hacc.
  rewrite Hacc, run_catch, Hs. cbn [us_GetByID sqlite_users]. rewrite users_GetByID_run, Hid.
  change (w_db (tick w)) with (w_db w). rewrite (proj1 (tombstone_hides _ v Hok Hv Hdead)).
  destruct (env_fault _); by case_match.
Qed.
End hidden.
End lemmas.

(** ** Properties *)

Section properties.
Context `{P : Platform}.

(** C11.  A reset replaces the password.  After ResetUserPassword succeeded, the
    user it named is live with a new stored hash.  From then on, while the
    database keeps the user's address and that hash (other rows and the time of
    the user's logins may change), the database and the random source answer, the
    key signs, and the limiter lets the request through: LoginWithPassword for
    the user's address answers tokens minted for the user to a candidate password
    whose Argon2id digest is the new stored one (so to the new password), and
    "invalid credentials" to every other candidate, the replaced password
    included. *)
Theorem reset_replaces_password s pre ctx id password resp w w1
    (Hs : s_userStore s = sqlite_users) (Hsa : s_serviceAccountStore s = sqlite_accounts)
    (Haudit : s_auditStore s = Some sqlite_audit) (Hl : limiter_within pre (s_loginRateLimiter s))
    (Hok : db_ok (w_db w))
    (Hreset : run (ResetUserPassword s ctx (mkResetUserPasswordRequest id password)) w = (Ok resp, w1)) :
  ∃ u salt, u ∈ db_users (w_db w1) ∧ user_live u = true ∧ u_ID u = TrimSpace id ∧
    String.length salt = 16%nat ∧
    (∃ u0, u0 ∈ db_users (w_db w) ∧ user_live u0 = true ∧ u_ID u0 = u_ID u ∧ u_Email u0 = u_Email u) ∧
    ∀ ctx' email candidate w2, u_Email u = TrimSpace email → TrimSpace email ≠ "" → candidate ≠ "" →
      db_ok (w_db w2) → user_kept u (w_db w2) →
      (∀ i, (w_step w2 ≤ i)%nat → env_fault i = None) → mints (s_tokenCfg s) (w_step w2) →
      (run (allowed_or_open (s_loginRateLimiter s)
         (rateLimitKeys ctx' "login" (TrimSpace email))) w2).1 = true →
      let login := run (LoginWithPassword s ctx' (mkLoginWithPasswordRequest email candidate)) w2 in
      if (argon2_default candidate salt == argon2_default password salt)%go
      then ∃ pair v, login.1 = Ok (mkLoginWithPasswordResponse pair) ∧
             run (NewTokenPair (u_ID u) (s_tokenCfg s)) v = (Ok pair, login.2)
      else login.1 = invalid_credentials.
Proof.
  destruct (Reset_Ok_inv s Hs Hsa Haudit _ _ _ _ _ Hreset) as (u & salt & now & Hu & Hid & Hsalt & Hus).
  cbn [rup_UserId rup_Password] in *. pose proof (live_with_id_inv _ _ Hid) as [Hul Huid].
  set (row := mkUser (u_ID u) (u_CreatedAt u) now (u_DeletedAt u) (u_Email u)
    (Some (stored_hash password salt)) (u_Hash u) (u_LastLoginAt u)).
  exists row, salt. split; [rewrite Hus; apply elem_of_map_if; exists u; by rewrite Hid|].
  do 3 (split; [done|]). split; [by exists u|].
  intros ctx' email candidate w2 Hue Hemail Hcand Hok2 Hkept Hf Hm Hopen.
  by apply (Login_stored s Hs pre).
Qed.

(** A deletion ends every way in.  After DeleteUser succeeded for a user,
    in every state whose database the server can reach from there: registering
    the user's address, logging in to it with any password or any emailed code,
    renewing a session with any refresh token of the user, and reading the
    profile with any access token of the user, all fail. *)
Theorem deleted_user_locked_out s `{!OneShotCodes (s_emailCodeStore s)} pre ctx req resp w w1 w2
    (Hs : s_userStore s = sqlite_users) (Hsa : s_serviceAccountStore s = sqlite_accounts)
    (Haudit : s_auditStore s = Some sqlite_audit) (Hl : limiter_within pre (s_loginRateLimiter s))
    (Hrr : ∀ rr, s_refreshTokenRevocations s = Some rr → ∀ id, guarantees clock_only (rr_IsRevoked rr id))
    (Hok : db_ok (w_db w))
    (Hdel : run (DeleteUser s ctx req) w = (Ok resp, w1))
    (Hreach : db_evolves (w_db w1) (w_db w2)) :
  ∃ u, u ∈ db_users (w_db w) ∧ user_live u = true ∧ u_ID u = TrimSpace (duq_UserId req) ∧
    ∀ ctx',
    (∀ req', TrimSpace (rwp_Email req') = u_Email u →
       is_Ok (run (RegisterWithPassword s ctx' req') w2).1 = false) ∧
    (∀ req', TrimSpace (lwp_Email req') = u_Email u →
       is_Ok (run (LoginWithPassword s ctx' req') w2).1 = false) ∧
    (∀ req', TrimSpace (lwec_Email req') = u_Email u →
       is_Ok (run (LoginWithEmailCode s ctx' req') w2).1 = false) ∧
    (∀ req' c, accepts ValidateRefreshToken (TrimSpace (rsq_RefreshToken req'))
         (tc_PublicKey (s_tokenCfg s)) w2 c → sc_UserID c = u_ID u →
       is_Ok (run (RefreshSession s ctx' req') w2).1 = false) ∧
    (∀ req' c, accepts ValidateAccessToken (accessTokenFromMetadata ctx')
         (tc_PublicKey (s_tokenCfg s)) w2 c → sc_UserID c = u_ID u →
       is_Ok (run (GetCurrentUser s ctx' req') w2).1 = false).
Proof.
  destruct (Delete_Ok_inv s Hs Hsa Haudit _ _ _ _ _ Hdel) as (wd & Hrun & Hev).
  destruct (users_Delete_inv _ _ _ Hrun) as (u & _ & Hu & Hid & _).
  change (w_db (tick (tick w))) with (w_db w) in Hu.
  destruct (deleted_row (TrimSpace (duq_UserId req)) u (tick (tick w)) wd (w_db w2) Hok Hu Hid Hrun)
    as (now & Hv & Hok2); [by etrans|].
  pose proof (live_with_id_inv _ _ Hid) as [Hul Huid].
  exists u. do 3 (split; [done|]). intros ctx'.
  change (u_Email u) with (u_Email (tombstone u now)). change (u_ID u) with (u_ID (tombstone u now)).
  set (v := tombstone u now) in *. assert (user_live v = false) as Hdead by done.
  split_and!; intros.
  - by apply (hidden_register s Hs v w2).
  - by apply (hidden_password s Hs v w2 Hok2 Hv Hdead pre Hl).
  - by apply (hidden_code s Hs v w2 Hok2 Hv Hdead pre Hl).
  - by apply (hidden_refresh s Hs v w2 Hok2 Hv Hdead ctx' req' c).
  - by apply (hidden_access s Hs v w2 Hok2 Hv Hdead ctx' req' c).
Qed.
End properties.

(** ** Closed instances *)

Section instances.
#[local] Existing Instance calm.

(** Bob is registered with a password and the operator holds a token. *)
Definition bob_and_ops : World :=
  (run (RegisterWithPassword sample_service no_ctx
          (mkRegisterWithPasswordRequest "bob@example.org" "hunter2")) with_token).2.
Definition bob_id : string :=
  match find (live_with_email "bob@example.org") (db_users (w_db bob_and_ops)) with
  | Some u => u_ID u | None => ""
  end.

#[local] Notation reset_bob password :=
  (ResetUserPassword sample_service ops_ctx (mkResetUserPasswordRequest bob_id password)).
#[local] Notation delete_bob :=
  (DeleteUser sample_service ops_ctx (mkDeleteUserRequest bob_id)).

(** Forget what a request answers besides its success. *)
Definition outcome {A} (m : M (result A)) : M (result unit) :=
  m ≫= λ r, Ret (match r with Ok _ => Ok tt | Err e => Err e end).

(** Bob's login has read his row when the reset happens, and writes the whole
    row back when it records the time of the login. *)
Definition login_and_reset : list (M (result unit)) :=
  [outcome (LoginWithPassword sample_service no_ctx (bob_login "hunter2"));
   outcome (reset_bob "stolen no more")].
Definition login_around_reset : list (M (result unit)) * World :=
  schedule (replicate 3 0 ++ replicate 20 1 ++ replicate 20 0)%nat (login_and_reset, bob_and_ops).

(** A concurrent login can undo a password reset.  recordLogin writes back
    the row the login read earlier, the stored hash included, so in some
    interleaving (in the sample server) of one login and one ResetUserPassword
    both succeed, and afterwards the replaced password still logs in while the
    new one is refused. *)
Theorem login_undoes_reset :
  ∃ ms w', rtc pool_step (login_and_reset, bob_and_ops) (ms, w') ∧
    forallb finished_ok ms = true ∧ length ms = 2%nat ∧
    is_Ok (run (LoginWithPassword sample_service no_ctx (bob_login "hunter2")) w').1 = true ∧
    (run (LoginWithPassword sample_service no_ctx (bob_login "stolen no more")) w').1 =
      invalid_credentials.
Proof.
  exists login_around_reset.1, login_around_reset.2.
  split; [rewrite <-surjective_pairing; apply schedule_steps|].
  split; [by vm_compute|]. split_and!; by vm_compute.
Qed.

Lemma bob_and_ops_ok : db_ok (w_db bob_and_ops).
Proof.
  exact (proj2 (de_grows _ _ (guarantees_run _ _ with_token (Register_effect sample_service eq_refl
    no_ctx (mkRegisterWithPasswordRequest "bob@example.org" "hunter2")))) with_token_ok).
Qed.

(** Bob logs in with the new password, and not with the old one. *)
Lemma reset_replaces_password_witness :
  let w2 := (run (reset_bob "stolen no more") bob_and_ops).2 in
  is_Ok (run (LoginWithPassword sample_service no_ctx
    (mkLoginWithPasswordRequest "bob@example.org" "stolen no more")) w2).1 = true.
Proof.
  intros w2. assert (is_Ok (run (reset_bob "stolen no more") bob_and_ops).1 = true) as Hr by (by vm_compute).
  assert ((run (allowed_or_open (s_loginRateLimiter sample_service) (rateLimitKeys no_ctx "login"
    (TrimSpace "bob@example.org"))) w2).1 = true) as Hopen by (by vm_compute).
  assert (find (live_with_id bob_id) (db_users (w_db bob_and_ops)) =
    find (live_with_email "bob@example.org") (db_users (w_db bob_and_ops))) as Hbob by (by vm_compute).
  assert (TrimSpace bob_id = bob_id) as Hid by (by vm_compute).
  pose proof bob_and_ops_ok as Hdb. subst w2. generalize dependent bob_id.
  generalize dependent bob_and_ops. intros w Hdb id Hr Hopen Hbob Hid.
  pose proof (guarantees_run _ _ w (Reset_effect sample_service eq_refl eq_refl eq_refl ops_ctx
    (mkResetUserPasswordRequest id "stolen no more"))) as [_ [_ Hok2]]. specialize (Hok2 Hdb).
  destruct (run (ResetUserPassword _ _ _) w) as [[resp|] w2] eqn:Hrun; [|discriminate Hr]. cbn [snd] in *.
  destruct (reset_replaces_password sample_service "identra:rl:login:" ops_ctx id
    "stolen no more" resp w w2 eq_refl eq_refl eq_refl sample_limiter_within Hdb Hrun)
    as (u & salt & Hu & Hl & Huid & Hsalt & (u0 & Hu0 & Hl0 & Hid0 & He0) & H).
  specialize (H no_ctx "bob@example.org" "stolen no more" w2).
  rewrite bool_decide_eq_true_2 in H by reflexivity. destruct H as (pair & v & Hv & _).
  - rewrite Hid in Huid. rewrite <-Huid, <-Hid0, (find_live_id _ u0 Hdb Hu0 Hl0) in Hbob. symmetry in Hbob.
    apply find_Some_elem in Hbob as [_ [He%bool_decide_eq_true _]%andb_true_iff]. by rewrite <-He0.
  - discriminate.
  - discriminate.
  - exact Hok2.
  - exists u. exact (conj Hu (conj Hl (conj eq_refl (conj eq_refl eq_refl)))).
  - intros i _. reflexivity.
  - apply sample_mints.
  - exact Hopen.
  - cbn [snd]. by rewrite Hv.
Defined.

(** Bob's account is deleted: his password is of no use any more. *)
Lemma deleted_user_locked_out_witness :
  is_Ok (run (LoginWithPassword sample_service no_ctx (mkLoginWithPasswordRequest "bob@example.org" "hunter2"))
     (run delete_bob bob_and_ops).2).1 = false.
Proof.
  assert (is_Ok (run delete_bob bob_and_ops).1 = true) as Hr by (by vm_compute).
  assert (find (live_with_id bob_id) (db_users (w_db bob_and_ops)) =
    find (live_with_email "bob@example.org") (db_users (w_db bob_and_ops))) as Hbob by (by vm_compute).
  assert (TrimSpace bob_id = bob_id) as Hid by (by vm_compute).
  pose proof bob_and_ops_ok as Hdb. generalize dependent bob_id. generalize dependent bob_and_ops.
  intros w Hdb id Hr Hbob Hid.
  destruct (run (DeleteUser _ _ _) w) as [[resp|] w1] eqn:Hrun; [|discriminate Hr]. cbn [snd] in *.
  destruct (@deleted_user_locked_out _ sample_service (redis_one_shot_codes code_store)
    "identra:rl:login:" ops_ctx (mkDeleteUserRequest id) resp w w1 w1 eq_refl eq_refl eq_refl
    sample_limiter_within (λ rr H, ltac:(injection H as <-; apply IsRevoked_clock_only)) Hdb Hrun
    (reflexivity _)) as (u & Hu & Hl & Huid & H).
  cbn [duq_UserId] in Huid. rewrite Hid in Huid.
  rewrite <-Huid, (find_live_id _ u Hdb Hu Hl) in Hbob. symmetry in Hbob.
  apply find_Some_elem in Hbob as [_ [He%bool_decide_eq_true _]%andb_true_iff].
  apply (H no_ctx). rewrite He. reflexivity.
Defined.
End instances.
