(* ===== verification/Server.v ===== *)
(** * The server: every RPC, concurrently

    The requests the eight gRPC services of cmd/identra/main.go accept, the
    handler each is answered by, and what holds of all of them at once, under
    any interleaving of their atomic actions. *)

From S2P Require Import Prelude GoStrings Prog Data Config Messages Platform RefPlatform.
From S2P Require Import SqliteQueries KeyManager World Machine Password Tokens Interfaces.
From S2P Require Import RateLimiter Revocation EmailCode OAuthStates SqliteStores ServiceAccount.
From S2P Require Import SqliteAccounts SqliteAudit App Handlers Authorization PasswordLogin.
From S2P Require Import EmailLogin OAuthLogin Session ServiceAccountsApi UserManagement.
#[local] Open Scope Z_scope.

(** ** Requests and their handlers *)

Inductive Request :=
  (* AuthService *)
  | ReqRegisterWithPassword (req : RegisterWithPasswordRequest)
  | ReqLoginWithPassword (req : LoginWithPasswordRequest)
  | ReqRequestEmailLoginCode (req : RequestEmailLoginCodeRequest)
  | ReqLoginWithEmailCode (req : LoginWithEmailCodeRequest)
  | ReqListOAuthProviders (req : ListOAuthProvidersRequest)
  | ReqStartOAuthLogin (req : StartOAuthLoginRequest)
  | ReqLoginWithOAuth (req : LoginWithOAuthRequest)
  (* SessionService *)
  | ReqRefreshSession (req : RefreshSessionRequest)
  | ReqRevokeSession (req : RevokeSessionRequest)
  (* UserService *)
  | ReqGetCurrentUser (req : GetCurrentUserRequest)
  | ReqLinkOAuthAccount (req : LinkOAuthAccountRequest)
  (* KeyService *)
  | ReqListSigningKeys (req : ListSigningKeysRequest)
  (* ServiceAccountService *)
  | ReqExchangeServiceToken (req : ExchangeServiceTokenRequest)
  | ReqCreateServiceAccount (req : CreateServiceAccountRequest)
  | ReqListServiceAccounts (req : ListServiceAccountsRequest)
  | ReqDisableServiceAccount (req : DisableServiceAccountRequest)
  | ReqRotateServiceAccountSecret (req : RotateServiceAccountSecretRequest)
  (* UserManagementService *)
  | ReqListUsers (req : ListUsersRequest)
  | ReqCreatePasswordUser (req : CreatePasswordUserRequest)
  | ReqDeleteUser (req : DeleteUserRequest)
  | ReqResetUserPassword (req : ResetUserPasswordRequest)
  (* AuditService *)
  | ReqListAuditEvents (req : ListAuditEventsRequest)
  (* SystemService *)
  | ReqGetServerInfo (req : GetServerInfoRequest).

Inductive Response :=
  | RspRegisterWithPassword (rsp : RegisterWithPasswordResponse)
  | RspLoginWithPassword (rsp : LoginWithPasswordResponse)
  | RspRequestEmailLoginCode (rsp : RequestEmailLoginCodeResponse)
  | RspLoginWithEmailCode (rsp : LoginWithEmailCodeResponse)
  | RspListOAuthProviders (rsp : ListOAuthProvidersResponse)
  | RspStartOAuthLogin (rsp : StartOAuthLoginResponse)
  | RspLoginWithOAuth (rsp : LoginWithOAuthResponse)
  | RspRefreshSession (rsp : RefreshSessionResponse)
  | RspRevokeSession (rsp : RevokeSessionResponse)
  | RspGetCurrentUser (rsp : GetCurrentUserResponse)
  | RspLinkOAuthAccount (rsp : LinkOAuthAccountResponse)
  | RspListSigningKeys (rsp : ListSigningKeysResponse)
  | RspExchangeServiceToken (rsp : ExchangeServiceTokenResponse)
  | RspCreateServiceAccount (rsp : CreateServiceAccountResponse)
  | RspListServiceAccounts (rsp : ListServiceAccountsResponse)
  | RspDisableServiceAccount (rsp : DisableServiceAccountResponse)
  | RspRotateServiceAccountSecret (rsp : RotateServiceAccountSecretResponse)
  | RspListUsers (rsp : ListUsersResponse)
  | RspCreatePasswordUser (rsp : CreatePasswordUserResponse)
  | RspDeleteUser (rsp : DeleteUserResponse)
  | RspResetUserPassword (rsp : ResetUserPasswordResponse)
  | RspListAuditEvents (rsp : ListAuditEventsResponse)
  | RspGetServerInfo (rsp : GetServerInfoResponse).

Section server.
Context `{P : Platform}.
Variable s : Service.
(** The audit store of the service; NewService insists on one. *)
Variable auditStore : AuditStore.

Definition reply {A} (c : A → Response) (m : M (result A)) : M (result Response) :=
  try rsp := m in Ret (Ok (c rsp)).

Definition handle (ctx : Ctx) (req : Request) : M (result Response) :=
  match req with
  | ReqRegisterWithPassword r => reply RspRegisterWithPassword (RegisterWithPassword s ctx r)
  | ReqLoginWithPassword r => reply RspLoginWithPassword (LoginWithPassword s ctx r)
  | ReqRequestEmailLoginCode r => reply RspRequestEmailLoginCode (RequestEmailLoginCode s ctx r)
  | ReqLoginWithEmailCode r => reply RspLoginWithEmailCode (LoginWithEmailCode s ctx r)
  | ReqListOAuthProviders r => reply RspListOAuthProviders (Ret (ListOAuthProviders s ctx r))
  | ReqStartOAuthLogin r => reply RspStartOAuthLogin (StartOAuthLogin s ctx r)
  | ReqLoginWithOAuth r => reply RspLoginWithOAuth (LoginWithOAuth s ctx r)
  | ReqRefreshSession r => reply RspRefreshSession (RefreshSession s ctx r)
  | ReqRevokeSession r => reply RspRevokeSession (RevokeSession s ctx r)
  | ReqGetCurrentUser r => reply RspGetCurrentUser (GetCurrentUser s ctx r)
  | ReqLinkOAuthAccount r => reply RspLinkOAuthAccount (LinkOAuthAccount s ctx r)
  | ReqListSigningKeys r => reply RspListSigningKeys (ListSigningKeys ctx r)
  | ReqExchangeServiceToken r => reply RspExchangeServiceToken (ExchangeServiceToken s ctx r)
  | ReqCreateServiceAccount r => reply RspCreateServiceAccount (CreateServiceAccount s ctx r)
  | ReqListServiceAccounts r => reply RspListServiceAccounts (ListServiceAccounts s ctx r)
  | ReqDisableServiceAccount r => reply RspDisableServiceAccount (DisableServiceAccount s ctx r)
  | ReqRotateServiceAccountSecret r =>
      reply RspRotateServiceAccountSecret (RotateServiceAccountSecret s ctx r)
  | ReqListUsers r => reply RspListUsers (ListUsers s ctx r)
  | ReqCreatePasswordUser r => reply RspCreatePasswordUser (CreatePasswordUser s ctx r)
  | ReqDeleteUser r => reply RspDeleteUser (DeleteUser s ctx r)
  | ReqResetUserPassword r => reply RspResetUserPassword (ResetUserPassword s ctx r)
  | ReqListAuditEvents r => reply RspListAuditEvents (ListAuditEvents s auditStore ctx r)
  | ReqGetServerInfo r => reply RspGetServerInfo (Ret (GetServerInfo s ctx r))
  end.

(** internal/bootstrap/interceptors.go: the request identifier of a call, its
    own or a fresh one, is also in the response header. *)
Definition request_id (ctx : Ctx) : M string :=
  match ValueFromIncomingContext ctx "x-request-id" with
  | id :: _ => if (id == "")%go then uuid_NewString else Ret id
  | [] => uuid_NewString
  end.

Definition serve (call : Ctx * Request) : M (string * result Response) :=
  requestID ← request_id call.1;
  resp ← handle call.1 call.2;
  Ret (requestID, resp).
End server.

(** ** What the handlers do is what their collaborators do

    [R] is a preorder on worlds that allows the clock and the counter of actions to
    move.  When every method of the collaborators stays within [R], so does every
    handler.  [revocable] restricts what is asked of the revocation store: only
    the identifiers and expiries of tokens that verify are revoked. *)

Section frame.
Context `{P : Platform}.
Context (R : relation World) `{!PreOrder R} (Hclock : ∀ w w', clock_only w w' → R w w').
Context (revocable : string → Z → Prop).

#[local] Instance R_tick : TickClosed R.
Proof. intros w. apply Hclock, tick_closed. Qed.

Lemma clock_R {A} (m : M A) : guarantees clock_only m → guarantees R m.
Proof. apply guarantees_mono, Hclock. Qed.

(** A limiter that may be absent. *)
Definition limiter_ok (limiter : option RateLimiter) : Prop :=
  ∀ l, limiter = Some l → ∀ k, guarantees R (rl_IsAllowed l k) ∧
    guarantees R (rl_Record l k) ∧ guarantees R (rl_Reset l k).

(** What the collaborators of a service promise. *)
Record collaborators (s : Service) : Prop := {
  cb_login : limiter_ok (s_loginRateLimiter s);
  cb_send : limiter_ok (s_sendCodeRateLimiter s);
  cb_exchange : limiter_ok (s_serviceTokenRateLimiter s);
  cb_set e c : guarantees R (ec_Set (s_emailCodeStore s) e c);
  cb_code e c : guarantees R (ec_Consume (s_emailCodeStore s) e c);
  cb_add a p r : guarantees R (oss_Add (s_oauthStateStore s) a p r);
  cb_state a : guarantees R (oss_Consume (s_oauthStateStore s) a);
  cb_revoke rr i e :
    s_refreshTokenRevocations s = Some rr → revocable i e → guarantees R (rr_Revoke rr i e);
  cb_revoked rr i : s_refreshTokenRevocations s = Some rr → guarantees R (rr_IsRevoked rr i);
  cb_mail m msg : s_mailer s = Some m → guarantees R (em_SendEmail m msg);
  cb_user_id i : guarantees R (us_GetByID (s_userStore s) i);
  cb_user_email e : guarantees R (us_GetByEmail (s_userStore s) e);
  cb_user_list o l : guarantees R (us_List (s_userStore s) o l);
  cb_user_create u : guarantees R (us_Create (s_userStore s) u);
  cb_user_update u : guarantees R (us_Update (s_userStore s) u);
  cb_user_password i h : guarantees R (us_SetPassword (s_userStore s) i h);
  cb_user_delete i : guarantees R (us_Delete (s_userStore s) i);
  cb_identity_create i : guarantees R (es_Create (s_externalIdentityStore s) i);
  cb_identity_id p u : guarantees R (es_GetByProviderID (s_externalIdentityStore s) p u);
  cb_identity_user u : guarantees R (es_GetByUserID (s_externalIdentityStore s) u);
  cb_account_auth i h n : guarantees R (ss_Authenticate (s_serviceAccountStore s) i h n);
  cb_account_id i : guarantees R (ss_GetByID (s_serviceAccountStore s) i);
  cb_account_list : guarantees R (ss_List (s_serviceAccountStore s));
  cb_account_create r : guarantees R (ss_Create (s_serviceAccountStore s) r);
  cb_account_disable i n : guarantees R (ss_Disable (s_serviceAccountStore s) i n);
  cb_account_rotate i c h n :
    guarantees R (ss_RotateCredential (s_serviceAccountStore s) i c h n);
}.

Context (s : Service) (Hc : collaborators s).
Context (Hrevocable : ∀ tok c e, jwt_verify tok (tc_PublicKey (s_tokenCfg s)) = Ok c →
  sc_ExpiresAt c = Some e → revocable (sc_TokenID c) e).

#[local] Hint Resolve clock_R NewTokenPair_clock NewServiceToken_clock : go.

#[local] Hint Resolve cb_set cb_code cb_add cb_state cb_revoke cb_revoked cb_mail cb_user_id
  cb_user_email cb_user_list cb_user_create cb_user_update cb_user_password cb_user_delete
  cb_identity_create cb_identity_id cb_identity_user cb_account_auth cb_account_id cb_account_list
  cb_account_create cb_account_disable cb_account_rotate : go.

Lemma limiter_gate limiter keys : limiter_ok limiter → guarantees R (allowed_or_open limiter keys).
Proof.
  intros Hl. unfold allowed_or_open. destruct limiter as [l|]; [|constructor].
  apply guarantees_mbind; [|constructor].
  apply rateLimitAllowed_guarantees. intros k. apply (Hl l eq_refl k).
Qed.

Lemma limiter_record limiter keys : limiter_ok limiter → guarantees R (record_failure limiter keys).
Proof.
  intros Hl. unfold record_failure. destruct limiter as [l|]; [|constructor].
  apply guarantees_mbind; [|constructor].
  apply recordRateLimit_guarantees. intros k. apply (Hl l eq_refl k).
Qed.

Lemma limiter_reset limiter key : limiter_ok limiter → guarantees R (reset_failures limiter key).
Proof.
  intros Hl. unfold reset_failures. destruct limiter as [l|]; [|constructor].
  apply guarantees_mbind; [apply (Hl l eq_refl key)|constructor].
Qed.

Lemma send_allowed_within keys : guarantees R (send_allowed s keys).
Proof.
  unfold send_allowed. pose proof (cb_send s Hc) as Hl.
  destruct (s_sendCodeRateLimiter s) as [l|]; [|constructor].
  pose proof (rateLimitAllowed_guarantees R l keys (λ k, proj1 (Hl l eq_refl k))).
  pose proof (recordRateLimit_guarantees R l keys (λ k, proj1 (proj2 (Hl l eq_refl k)))).
  guarantees_tac.
Qed.

Lemma exchange_within key :
  guarantees R (exchange_allowed s key) ∧ guarantees R (exchange_record s key).
Proof.
  unfold exchange_allowed, exchange_record. pose proof (cb_exchange s Hc) as Hl.
  destruct (s_serviceTokenRateLimiter s) as [l|]; [|by split; constructor].
  destruct (Hl l eq_refl key) as (? & ? & _). split; guarantees_tac.
Qed.

#[local] Hint Resolve limiter_gate limiter_record limiter_reset send_allowed_within cb_login cb_send
  cb_exchange : go.

Lemma ValidateToken_within tok pk : guarantees R (ValidateToken tok pk).
Proof. unfold ValidateToken. guarantees_tac. Qed.
#[local] Hint Resolve ValidateToken_within : go.

Lemma authorize_within ctx req : guarantees R (authorizeServiceAccount s ctx req).
Proof. unfold authorizeServiceAccount, ValidateServiceToken, fail. guarantees_tac. Qed.

Lemma HashPassword_within p : guarantees R (HashPassword p).
Proof. unfold HashPassword. guarantees_tac. Qed.

Lemma recordLogin_within m : guarantees R (recordLogin s m).
Proof. unfold recordLogin. guarantees_tac. Qed.

Lemma ensureRefreshTokenActive_within c : guarantees R (ensureRefreshTokenActive s c).
Proof. unfold ensureRefreshTokenActive, fail. guarantees_tac. Qed.

Lemma revokeRefreshClaims_within tok c :
  jwt_verify tok (tc_PublicKey (s_tokenCfg s)) = Ok c → guarantees R (revokeRefreshClaims s c).
Proof.
  intros Hver. unfold revokeRefreshClaims, fail.
  destruct (s_refreshTokenRevocations s) as [rr|] eqn:Hrr; [|constructor].
  destruct (sc_ExpiresAt c) as [e|] eqn:He; [|constructor].
  pose proof (cb_revoke s Hc rr (sc_TokenID c) e Hrr (Hrevocable tok c e Hver He)). guarantees_tac.
Qed.

(** What follows a validation can rely on the signature. *)
Lemma validated_within {A} tok (h : error → M A) (k : StandardClaims → M A) :
  (∀ e, guarantees R (h e)) →
  (∀ c, jwt_verify tok (tc_PublicKey (s_tokenCfg s)) = Ok c → guarantees R (k c)) →
  guarantees R (prog_catch (ValidateRefreshToken tok (tc_PublicKey (s_tokenCfg s))) h k).
Proof.
  intros Hh Hk. change (ValidateRefreshToken tok) with (validate KindRefresh tok).
  destruct (validate_action KindRefresh tok (tc_PublicKey (s_tokenCfg s))) as (v & -> & Hv). constructor; [intros w; apply R_tick|].
  intros now. destruct (Hv now) as ([c|e] & Hr & Hc'); cbn; rewrite Hr; [|apply Hh].
  by apply Hk, Hc'.
Qed.

#[local] Hint Resolve authorize_within HashPassword_within recordLogin_within
  ensureRefreshTokenActive_within : go.

#[local] Ltac within_tac := unfold fail in *; guarantees_tac.

Lemma user_of_email_within e : guarantees R (user_of_email s e).
Proof. unfold user_of_email. within_tac. Qed.

Lemma ensureOAuthUser_within info : guarantees R (ensureOAuthUser s info).
Proof.
  unfold ensureOAuthUser, link_existing_user, create_oauth_user, updateEmailIfNeeded. within_tac.
Qed.

Lemma link_identity_within u p i : guarantees R (link_identity s u p i).
Proof. unfold link_identity. within_tac. Qed.

Lemma randomValue_within p k : guarantees R (randomValue p k).
Proof. unfold randomValue. within_tac. Qed.
#[local] Hint Resolve randomValue_within : go.

Lemma newRecord_within n sc : guarantees R (newRecord n sc).
Proof. unfold newRecord. within_tac. Qed.
#[local] Hint Resolve newRecord_within : go.

Lemma Create_within n sc : guarantees R (Create (s_serviceAccountStore s) n sc).
Proof. unfold Create. within_tac. Qed.

Lemma RotateCredential_within i : guarantees R (RotateCredential (s_serviceAccountStore s) i).
Proof. unfold RotateCredential. within_tac. Qed.

Lemma Authenticate_within i sec : guarantees R (Authenticate (s_serviceAccountStore s) i sec).
Proof. unfold Authenticate. within_tac. Qed.

Lemma exchange_allowed_within key : guarantees R (exchange_allowed s key).
Proof. apply exchange_within. Qed.
Lemma exchange_record_within key : guarantees R (exchange_record s key).
Proof. apply exchange_within. Qed.

#[local] Hint Resolve user_of_email_within ensureOAuthUser_within link_identity_within Create_within
  RotateCredential_within Authenticate_within exchange_allowed_within exchange_record_within : go.

(** ** The handlers *)

Lemma reply_within {A} (c : A → Response) (m : M (result A)) :
  guarantees R m → guarantees R (reply c m).
Proof. intros Hm. unfold reply. within_tac. Qed.

Lemma LoginWithOAuth_within ctx req : guarantees R (LoginWithOAuth s ctx req).
Proof.
  unfold LoginWithOAuth. case_bool_decide; [constructor|]. case_bool_decide; [constructor|].
  apply guarantees_mbind; [by apply cb_state|]. intros [[st|]|]; [|constructor..].
  apply fetch_guarantees; [intros w; apply tick_closed| |constructor]. intros p t i Hp.
  pose proof (clock_R _ (maybeFill_clock s _ p t i Hp)). within_tac.
Qed.

Lemma LinkOAuthAccount_within ctx req : guarantees R (LinkOAuthAccount s ctx req).
Proof.
  unfold LinkOAuthAccount, ValidateAccessToken. pose proof (fetch_clock s). within_tac.
Qed.

Lemma RefreshSession_within ctx req : guarantees R (RefreshSession s ctx req).
Proof.
  unfold RefreshSession. case_bool_decide; [constructor|].
  apply validated_within; [intros e; apply guarantees_ret|]. intros c Hver.
  pose proof (revokeRefreshClaims_within _ c Hver). within_tac.
Qed.

Lemma RevokeSession_within ctx req : guarantees R (RevokeSession s ctx req).
Proof.
  unfold RevokeSession. case_bool_decide; [constructor|].
  apply validated_within; [intros e; apply guarantees_ret|]. intros c Hver.
  pose proof (revokeRefreshClaims_within _ c Hver). within_tac.
Qed.

(** The calls that revoke tokens. *)
Definition session_call (req : Request) : bool :=
  match req with ReqRefreshSession _ | ReqRevokeSession _ => true | _ => false end.

Lemma session_within auditStore ctx req :
  session_call req = true → guarantees R (handle s auditStore ctx req).
Proof.
  destruct req; intros Hr; try discriminate Hr; apply reply_within;
    [apply RefreshSession_within|apply RevokeSession_within].
Qed.

(** The mutating management calls record an audit event besides. *)
Variable auditStore : AuditStore.
Hypothesis Hlist : ∀ o l, guarantees R (as_List auditStore o l).

Definition mutating (req : Request) : bool :=
  match req with
  | ReqCreateServiceAccount _ | ReqDisableServiceAccount _ | ReqRotateServiceAccountSecret _
  | ReqCreatePasswordUser _ | ReqDeleteUser _ | ReqResetUserPassword _ => true
  | _ => false
  end.

Lemma handle_within ctx req :
  (mutating req = true → ∀ actor a rt rid, guarantees R (recordManagementAudit s actor a rt rid)) →
  (session_call req = true → guarantees R (handle s auditStore ctx req)) →
  guarantees R (handle s auditStore ctx req).
Proof.
  intros Hrec Hsession. pose proof LoginWithOAuth_within. pose proof LinkOAuthAccount_within.
  destruct req; try exact (Hsession eq_refl);
    cbn [handle]; apply reply_within; auto; try specialize (Hrec eq_refl);
    unfold RegisterWithPassword, LoginWithPassword, RequestEmailLoginCode, sendVerificationCode,
      generateEmailCode, LoginWithEmailCode, StartOAuthLogin, generateOAuthState, GetCurrentUser,
      ValidateAccessToken, ListSigningKeys, ExchangeServiceToken, CreateServiceAccount, create_error, ListServiceAccounts,
      DisableServiceAccount, RotateServiceAccountSecret, ListUsers, CreatePasswordUser, DeleteUser,
      ResetUserPassword, ListAuditEvents; within_tac.
  apply guarantees_op. intros w. destruct w. exact (R_tick _).
Qed.
End frame.

(** ** What happens to the database *)

Section within.
Context `{P : Platform}.
Context (Q : relation DB) `{!PreOrder Q}.

Record within (w w' : World) : Prop := mk_within {
  wi_db : Q (w_db w) (w_db w');
  wi_keys : w_keys w' = w_keys w;
}.

#[export] Instance within_preorder : PreOrder within.
Proof.
  split; [by intros w; split|]. intros w1 w2 w3 [] []. split; [by etrans|congruence].
Qed.
#[export] Instance within_tick : TickClosed within.
Proof. by intros w. Qed.

Lemma clock_only_within w w' : clock_only w w' → within w w'.
Proof. intros H. split; [by rewrite (co_db _ _ H)|apply H]. Qed.

Lemma clock_within {A} (m : M A) : guarantees clock_only m → guarantees within m.
Proof. apply guarantees_mono, clock_only_within. Qed.

Lemma redis_within_db pre {A} (m : M A) : guarantees (redis_only pre) m → guarantees within m.
Proof. apply guarantees_mono. intros w w' H. split; [by rewrite (ro_db _ _ _ H)|apply H]. Qed.

End within.

(** ** The deployed service

    What internal/app builds: the SQLite stores, the Redis stores and limiters,
    and a mailer, which changes nothing but the mail that was sent. *)

Section deployed.
Context `{P : Platform}.

Inductive deployed : Service → Prop :=
  | deployed_intro redisCfg oauth redis tokens mailer info s :
      buildRedisDependencies redisCfg oauth = Ok redis →
      NewService (assemble sqlite_stores redis oauth tokens mailer info) = Ok s →
      (∀ m msg, mailer = Some m → guarantees mail_only (em_SendEmail m msg)) →
      deployed s.

Lemma deployed_cleanup s : deployed s → s_userStoreCleanup s = Some db_Close.
Proof.
  destruct 1 as [redisCfg oauth redis tokens mailer info s _ Hs _]. revert Hs.
  unfold NewService, assemble. cbn. destruct (token_keys_present tokens); [|done]. by intros [= <-].
Qed.

(** Its stores are those the model of the database has. *)
Lemma deployed_stores s :
  deployed s → s_userStore s = sqlite_users ∧ s_externalIdentityStore s = sqlite_identities ∧
    s_serviceAccountStore s = sqlite_accounts ∧ s_auditStore s = Some sqlite_audit.
Proof.
  destruct 1 as [redisCfg oauth redis tokens mailer info s _ Hs _]. revert Hs.
  unfold NewService, assemble. simpl. destruct (negb _); [done|]. by intros [= <-].
Qed.

Lemma buildRedisDependencies_inv redisCfg oauth redis :
  buildRedisDependencies redisCfg oauth = Ok redis → redis = server_redis oauth.
Proof.
  intros Hb. assert (rc_Urls redisCfg ≠ []) as Hne
    by (intros Hn; unfold buildRedisDependencies, NewRDB in Hb; by rewrite Hn in Hb).
  rewrite buildRedisDependencies_ok in Hb by done. by injection Hb.
Qed.

#[local] Ltac cbn_service :=
  cbn [s_loginRateLimiter s_sendCodeRateLimiter s_serviceTokenRateLimiter s_emailCodeStore
    s_oauthStateStore s_refreshTokenRevocations s_mailer s_userStore s_externalIdentityStore
    s_serviceAccountStore rd_loginRateLimiter rd_sendCodeRateLimiter rd_serviceTokenRateLimiter
    rd_emailCodeStore rd_oauthStateStore rd_refreshTokenRevocations server_redis] in *.

Section frames.
Context (Q : relation DB) `{!PreOrder Q}.

Lemma redis_call_within {B} (f : Z → rstate → result B * rstate) :
  guarantees (within Q) (redis_call f).
Proof. apply redis_call_guarantees; [apply _|]. intros w. by split. Qed.

Lemma db_call_within {B} (f : DB → result B * DB) :
  (∀ d, Q d (f d).2) → guarantees (within Q) (db_call f).
Proof. intros Hf. apply db_call_guarantees; [apply _|]. intros w. split; [apply Hf|done]. Qed.

(** Neither the uncommitted nor the committed database leaves what [Q] allows. *)
Definition tx_within (t t' : TxState) : Prop :=
  ∀ d, Q d (tx_db t) → Q d (tx_committed t) → Q d (tx_db t') ∧ Q d (tx_committed t').

#[export] Instance tx_within_preorder : PreOrder tx_within.
Proof.
  split; [by intros t d|]. intros t1 t2 t3 H1 H2 d Hd Hc. destruct (H1 d Hd Hc). by apply H2.
Qed.

Lemma tx_stmt_within {B} (f : DB → result B * DB) :
  (∀ d, Q d (f d).2) → guarantees tx_within (tx_stmt f).
Proof.
  intros Hf. apply guarantees_op. intros t d Hd Hc. destruct (env_fault (tx_step t)); [done|].
  specialize (Hf (tx_db t)). destruct (f (tx_db t)) as [r d']. simpl in *. split; [by etrans; [exact Hd|]|done].
Qed.
Lemma tx_BeginTx_within : guarantees tx_within tx_BeginTx.
Proof. by apply guarantees_op. Qed.
Lemma tx_Commit_within : guarantees tx_within tx_Commit.
Proof.
  apply guarantees_op. intros t d Hd Hc. by destruct (env_fault (tx_step t)) as [[m []]|].
Qed.

Lemma transaction_within {B} (m : prog TxState B) :
  guarantees tx_within m → guarantees (within Q) (transaction m).
Proof.
  intros Hm. apply guarantees_op. intros w.
  pose proof (guarantees_run _ _ (mkTxState (w_step w) (w_db w) (w_db w)) Hm) as H.
  destruct (run m _) as [b t]. simpl in *. split; [|done]. by apply (H (w_db w)).
Qed.

(** What the statements of the stores do. *)
Record statements : Prop := {
  sm_createUser a b c d e f g x : Q x (createUser a b c d e f g x).2;
  sm_updateUser a b c d e f x : Q x (updateUser a b c d e f x).2;
  sm_setUserPassword a b c x : Q x (setUserPassword a b c x).2;
  sm_softDeleteUser a b c x : Q x (softDeleteUser a b c x).2;
  sm_createExternalIdentity a b c d e f x : Q x (createExternalIdentity a b c d e f x).2;
  sm_insert_service_account a b c d e x : Q x (insert_service_account a b c d e x).2;
  sm_insert_credential a b c d x : Q x (insert_credential a b c d x).2;
  sm_update_disabled_at a b x : Q x (update_disabled_at a b x).2;
  sm_update_revoked_at a b x : Q x (update_revoked_at a b x).2;
}.

Lemma mail_within {A} (m : M A) : guarantees mail_only m → guarantees (within Q) m.
Proof. apply guarantees_mono. intros w w' H. split; [by rewrite (mo_db _ _ H)|apply H]. Qed.

Lemma redis_limiter_within r : limiter_ok (within Q) (Some (redisRateLimiter_iface r)).
Proof.
  intros l [= <-] k. cbn [rl_IsAllowed rl_Record rl_Reset redisRateLimiter_iface].
  unfold IsAllowed, Record_, Reset. pose proof (@redis_call_within). split_and!; guarantees_tac.
Qed.

#[local] Hint Resolve redis_call_within db_call_within tx_stmt_within tx_BeginTx_within
  tx_Commit_within clock_within sm_createUser sm_updateUser sm_setUserPassword sm_softDeleteUser
  sm_createExternalIdentity sm_insert_service_account sm_insert_credential sm_update_disabled_at
  sm_update_revoked_at : go.

Context (Hst : statements).

Lemma audit_List_within o l : guarantees (within Q) (audit_List o l).
Proof. eauto with go nocore. Qed.

Lemma reads_within :
  (∀ i, guarantees (within Q) (users_GetByID i)) ∧ (∀ e, guarantees (within Q) (users_GetByEmail e)) ∧
  (∀ o l, guarantees (within Q) (users_List o l)) ∧
  (∀ p u, guarantees (within Q) (identities_GetByProviderID p u)) ∧
  (∀ u, guarantees (within Q) (identities_GetByUserID u)) ∧
  (∀ i h n, guarantees (within Q) (accounts_Authenticate i h n)) ∧
  (∀ i, guarantees (within Q) (accounts_GetByID i)) ∧ guarantees (within Q) accounts_List.
Proof. split_and!; eauto with go nocore. Qed.

#[local] Ltac within_tac := unfold wrapped, mapped; guarantees_tac.

Lemma users_Create_within u : guarantees (within Q) (users_Create u).
Proof. unfold users_Create. within_tac. Qed.
Lemma users_Update_within u : guarantees (within Q) (users_Update u).
Proof. unfold users_Update. within_tac. Qed.
Lemma users_SetPassword_within i h : guarantees (within Q) (users_SetPassword i h).
Proof. unfold users_SetPassword. within_tac. Qed.
Lemma users_Delete_within i : guarantees (within Q) (users_Delete i).
Proof. unfold users_Delete. within_tac. Qed.
Lemma identities_Create_within i : guarantees (within Q) (identities_Create i).
Proof. unfold identities_Create. within_tac. Qed.

Lemma accounts_Create_within r : guarantees (within Q) (accounts_Create r).
Proof. apply transaction_within. unfold insertServiceAccount. within_tac. Qed.

Lemma select_live_account_within c x : Q x (select_live_account c x).2.
Proof. reflexivity. Qed.
#[local] Hint Resolve select_live_account_within : go.

Lemma accounts_RotateCredential_within c i h n :
  guarantees (within Q) (accounts_RotateCredential c i h n).
Proof. apply transaction_within. within_tac. Qed.

Lemma accounts_Disable_within c n : guarantees (within Q) (accounts_Disable c n).
Proof. unfold accounts_Disable. within_tac. Qed.

Lemma codes_within c e code :
  guarantees (within Q) (Set_ c e code) ∧ guarantees (within Q) (Consume c e code).
Proof. unfold Set_, Consume. split; within_tac. Qed.

Lemma redis_Add_within st a p r : guarantees (within Q) (redis_Add st a p r).
Proof. unfold redis_Add. within_tac. Qed.
Lemma adapter_Consume_within st a : guarantees (within Q) (adapter_Consume (redis_Consume st) a).
Proof. unfold adapter_Consume, redis_Consume. within_tac. Qed.
Lemma Revoke_within rr i x : guarantees (within Q) (Revoke rr i x).
Proof. unfold Revoke. within_tac. Qed.
Lemma IsRevoked_within rr i : guarantees (within Q) (IsRevoked rr i).
Proof. unfold IsRevoked. within_tac. Qed.

Lemma deployed_collaborators s : deployed s → collaborators (within Q) (λ _ _, True) s.
Proof.
  intros [redisCfg oauth redis tokens mailer info s' Hb Hs Hm].
  apply buildRedisDependencies_inv in Hb as ->.
  revert Hs. unfold NewService, assemble. simpl. destruct (negb _); [done|]. intros [= <-].
  destruct reads_within as (? & ? & ? & ? & ? & ? & ? & ?).
  split; intros; cbn_service;
    try apply redis_limiter_within; try apply codes_within; simplify_eq; eauto using
      mail_within, users_Create_within, users_Update_within, users_SetPassword_within,
      users_Delete_within, identities_Create_within, accounts_Create_within,
      accounts_RotateCredential_within, accounts_Disable_within, redis_Add_within,
      Revoke_within, IsRevoked_within;
    first [apply redis_Add_within | apply adapter_Consume_within | apply Revoke_within
          | apply IsRevoked_within].
Qed.
End frames.

(** *** Anything the stores and the foreign keys of Redis leave alone *)

Definition revocations_prefix : string := "identra:revoked_refresh:".
Definition other_prefixes : list string :=
  ["identra:rl:login:"; "identra:rl:send_code:"; "identra:rl:service_token:";
   "identra:email_code:"; "identra:oauth_state:"].

Lemma deployed_revocations s :
  deployed s →
  s_refreshTokenRevocations s = Some (redisRefreshTokenRevocationStore revocations_prefix).
Proof.
  intros [redisCfg oauth redis tokens mailer info s' ->%buildRedisDependencies_inv Hs _].
  revert Hs. unfold NewService, assemble. simpl. destruct (negb _); [done|]. by intros [= <-].
Qed.

Section outside_revocations.
Context (R : relation World) `{!PreOrder R} (revocable : string → Z → Prop).
Context (Hclock : ∀ w w', clock_only w w' → R w w') (Hdb : ∀ w w', db_effect w w' → R w w').
Context (Hmail : ∀ w w', mail_only w w' → R w w').
Context (Hredis : ∀ pre w w', pre ∈ other_prefixes → redis_only pre w w' → R w w').
Context (Hrevoke : ∀ id e, revocable id e → guarantees R (Revoke revocations_prefix id e)).

Lemma by_clock {A} (m : M A) : guarantees clock_only m → guarantees R m.
Proof. apply guarantees_mono, Hclock. Qed.
Lemma by_db {A} (m : M A) : guarantees db_effect m → guarantees R m.
Proof. apply guarantees_mono, Hdb. Qed.
Lemma by_redis {A} (m : M A) pre : pre ∈ other_prefixes → guarantees (redis_only pre) m → guarantees R m.
Proof. intros Hp. apply guarantees_mono. intros w w'. by apply Hredis. Qed.

Lemma limiter_by_redis r :
  rrl_prefix r ∈ other_prefixes → limiter_ok R (Some (redisRateLimiter_iface r)).
Proof.
  intros Hp l [= <-] k. pose proof (redis_limiter_spec r) as [H1 H2 H3].
  split; [by apply by_clock|]. split; by eapply by_redis.
Qed.

Lemma adapter_Consume_only st a :
  guarantees (redis_only (ros_prefix st)) (adapter_Consume (redis_Consume st) a).
Proof. apply guarantees_try; [apply redis_Consume_only|constructor]. Qed.

Lemma deployed_frame s : deployed s → collaborators R revocable s.
Proof.
  intros [redisCfg oauth redis tokens mailer info s' Hb Hs Hm].
  apply buildRedisDependencies_inv in Hb as ->.
  revert Hs. unfold NewService, assemble. simpl. destruct (negb _); [done|]. intros [= <-].
  assert (∀ pre, bool_decide (pre ∈ other_prefixes) = true → pre ∈ other_prefixes) as Hpre
    by (intros pre; apply bool_decide_eq_true).
  split; cbn_service.
  1-3: by apply limiter_by_redis, Hpre; vm_compute.
  all: intros; cbn_service; simplify_eq.
  all: try solve [apply by_clock; eauto with go nocore | apply by_db; eauto with go nocore].
  - eapply by_redis; [|apply Set_only]. by apply Hpre; vm_compute.
  - eapply by_redis; [|apply Consume_only]. by apply Hpre; vm_compute.
  - eapply by_redis; [|apply redis_Add_only]. by apply Hpre; vm_compute.
  - eapply by_redis; [|apply adapter_Consume_only]. by apply Hpre; vm_compute.
  - by apply Hrevoke.
  - apply by_clock, IsRevoked_clock_only.
  - eapply guarantees_mono; [apply Hmail|]. by apply Hm.
Qed.

(** A call to the server, whichever it is. *)
Lemma served_frame s call :
  deployed s →
  (session_call call.2 = true → guarantees R (handle s sqlite_audit call.1 call.2)) →
  guarantees R (serve s sqlite_audit call).
Proof.
  intros Hd Hses. pose proof (deployed_frame s Hd) as Hc. destruct call as [ctx req].
  destruct (deployed_stores s Hd) as (_ & _ & _ & Haud). apply guarantees_mbind.
  { unfold request_id. pose proof (by_clock _ (uuid_guarantees clock_only)). guarantees_tac. }
  intros id. apply guarantees_mbind; [|constructor].
  apply (handle_within R Hclock revocable s Hc sqlite_audit); [..|done].
  - intros o l. apply by_clock, audit_List_clock.
  - intros _ actor a rt rid. by apply by_db, recordManagementAudit_effect.
Qed.
End outside_revocations.
End deployed.

Lemma db_evolves_statements `{P : Platform} : statements db_evolves.
Proof.
  split; intros; first [apply createUser_evolves | apply updateUser_evolves
    | apply setUserPassword_evolves | apply softDeleteUser_evolves
    | apply createExternalIdentity_evolves | apply insert_service_account_evolves
    | apply insert_credential_evolves | apply update_disabled_at_evolves
    | apply update_revoked_at_evolves].
Qed.

(** The tables and the keys while the server runs. *)
Lemma served_evolves `{P : Platform} s call :
  deployed s → guarantees (within db_evolves) (serve s sqlite_audit call).
Proof.
  intros Hd. apply (served_frame (within db_evolves) (λ _ _, True)); [..|done|].
  - exact (clock_only_within db_evolves).
  - intros w w' H. split; [apply (de_grows _ _ H)|apply (do_keys _ _ (de_only _ _ H))].
  - intros w w' H. split; [by rewrite (mo_db _ _ H)|apply H].
  - intros pre w w' _ H. split; [by rewrite (ro_db _ _ _ H)|apply H].
  - intros id e _. exact (redis_within_db db_evolves _ _ (Revoke_redis_only _ id e)).
  - apply (session_within _ (clock_only_within db_evolves) (λ _ _, True) s
      (deployed_collaborators db_evolves db_evolves_statements s Hd) (λ _ _ _ _ _, I)).
Qed.

(** ** The audit trail *)

Section trail.
Context `{P : Platform}.

Definition same_audit (d d' : DB) : Prop := db_audit_events d' = db_audit_events d.

#[export] Instance same_audit_preorder : PreOrder same_audit.
Proof. split; [by intros d|]. unfold same_audit. intros d1 d2 d3. congruence. Qed.

Lemma same_audit_statements : statements same_audit.
Proof.
  split; intros; unfold same_audit, createUser, updateUser, setUserPassword, softDeleteUser,
    createExternalIdentity, insert_service_account, insert_credential, update_disabled_at,
    update_revoked_at, update_rows; by repeat case_match; simplify_eq/=.
Qed.

(** An answer and the audit events it leaves: a successful call one event of
    its actor, unless the insert fails, an unsuccessful one none. *)
Definition one_event (actor : Account) (action rt : string) (d d' : DB) : Prop :=
  ∃ rid id now, db_audit_events d' = db_audit_events d ++
    [audit_row (mkAuditEvent id now AuditActorServiceAccount (ac_ID actor) action rt rid ∅)].

Definition no_failure (d : DB) : Prop :=
  (∀ i, env_fault i = None) ∧ ∀ i, env_uuid i ∉ ar_ID <$> db_audit_events d.

Definition trail {A} (actor : Account) (action rt : string) (m : M (result A)) : Prop :=
  ∀ w, let '(r, w') := run m w in
    match r with
    | Ok _ => (same_audit (w_db w) (w_db w') ∨ one_event actor action rt (w_db w) (w_db w')) ∧
              (no_failure (w_db w) → one_event actor action rt (w_db w) (w_db w'))
    | Err _ => same_audit (w_db w) (w_db w')
    end.

Lemma trail_err {A} actor action rt e : trail (A:=A) actor action rt (Ret (Err e)).
Proof. by intros w. Qed.

Lemma trail_bind {A B} actor action rt (m : M B) (k : B → M (result A)) :
  guarantees (within same_audit) m → (∀ b, trail actor action rt (k b)) →
  trail actor action rt (m ≫= k).
Proof.
  intros Hm Hk w. rewrite run_mbind. pose proof (guarantees_run _ _ w Hm) as [Hd _].
  destruct (run m w) as [b w1]. cbn [snd] in Hd. specialize (Hk b w1).
  destruct (run (k b) w1) as [[a|e] w2]; unfold same_audit, one_event, no_failure in *;
    rewrite Hd in Hk; done.
Qed.

Lemma trail_catch {A B} actor action rt (m : M (result B)) (h : error → M (result A)) k :
  guarantees (within same_audit) m → (∀ e, trail actor action rt (h e)) →
  (∀ b, trail actor action rt (k b)) → trail actor action rt (prog_catch m h k).
Proof. intros Hm Hh Hk. apply trail_bind; [done|]. intros []; auto. Qed.

Lemma trail_record {A} s actor action rt rid (a : A) :
  s_auditStore s = Some sqlite_audit →
  trail actor action rt (recordManagementAudit s actor action rt rid ≫= λ _, Ret (Ok a)).
Proof.
  intros Ha w. rewrite run_mbind.
  destruct (recordManagementAudit_run s Ha actor action rt rid w) as [Hd Hn].
  destruct (run (recordManagementAudit _ _ _ _ _) w) as [u w1]. cbn [run snd] in *.
  destruct Hd as [Hd|(id & now & Hd)]; rewrite Hd; split; auto.
  - by left.
  - intros [Hf Hu]. destruct Hn; auto.
  - right. by exists rid, id, now.
  - intros _. by exists rid, id, now.
Qed.

(** What a management call requires and records. *)
Definition management (req : Request) : option (list string * string * string) :=
  match req with
  | ReqCreateServiceAccount _ =>
      Some ([ScopeServiceAccountsManage], "service_account.create", "service_account")
  | ReqDisableServiceAccount _ =>
      Some ([ScopeServiceAccountsManage], "service_account.disable", "service_account")
  | ReqRotateServiceAccountSecret _ =>
      Some ([ScopeServiceAccountsManage], "service_account.rotate_secret", "service_account")
  | ReqCreatePasswordUser _ => Some ([ScopeUsersManage], "user.create", "user")
  | ReqDeleteUser _ => Some ([ScopeUsersManage], "user.delete", "user")
  | ReqResetUserPassword _ => Some ([ScopeUsersManage], "user.reset_password", "user")
  | _ => None
  end.

Context (s : Service) (Hd : deployed s).

Lemma reply_trail {A} actor action rt (c : A → Response) (m : M (result A)) :
  trail actor action rt m → trail actor action rt (reply c m).
Proof.
  intros Hm w. unfold reply. rewrite run_try. specialize (Hm w). by destruct (run m w) as [[] ?].
Qed.

Lemma reply_try {A B} (c : A → Response) (m : M (result B)) k w :
  run (reply c (prog_try m k)) w = run (prog_try m (λ b, reply c (k b))) w.
Proof. unfold reply. rewrite !run_try. destruct (run m w) as [[b|e] w1]; [by rewrite run_try|done]. Qed.

(** A management call is an authorisation, and then a body that leaves its
    trail. *)
Lemma management_shape ctx req scopes action rt :
  management req = Some (scopes, action, rt) →
  ∃ body, (∀ w, run (handle s sqlite_audit ctx req) w =
             run (try actor := authorizeServiceAccount s ctx scopes in body actor) w) ∧
    ∀ actor, trail actor action rt (body actor).
Proof.
  pose proof (deployed_collaborators same_audit same_audit_statements s Hd) as Hc.
  destruct (deployed_stores s Hd) as (_ & _ & _ & Haud).
  pose proof (clock_only_within same_audit) as Hcl.
  pose proof (Create_within _ Hcl _ s Hc). pose proof (RotateCredential_within _ Hcl _ s Hc).
  pose proof (cb_account_disable _ _ s Hc). pose proof (HashPassword_within _ Hcl).
  pose proof (cb_user_create _ _ s Hc). pose proof (cb_user_delete _ _ s Hc).
  pose proof (cb_user_password _ _ s Hc). pose proof (cb_user_id _ _ s Hc).
  pose proof (time_Now_guarantees (within same_audit)).
  destruct req; intros [= <- <- <-]; cbn [handle];
    unfold CreateServiceAccount, DisableServiceAccount, RotateServiceAccountSecret,
      CreatePasswordUser, DeleteUser, ResetUserPassword;
    eexists; (split; [intros w; apply reply_try|]); intros actor; apply reply_trail.
  all: unfold prog_try, fail, create_error; repeat first
    [ apply trail_record; done | apply trail_err | apply trail_catch; [auto|intros ?|intros ?]
    | apply trail_bind; [auto|intros ?] | case_match ].
Qed.

(** Everything else leaves the audit log alone. *)
Lemma not_management ctx req :
  management req = None → guarantees (within same_audit) (handle s sqlite_audit ctx req).
Proof.
  intros Hm. pose proof (deployed_collaborators same_audit same_audit_statements s Hd) as Hc.
  apply (handle_within _ (clock_only_within same_audit) _ s Hc sqlite_audit); [|by destruct req|].
  - intros o l. apply (audit_List_within same_audit).
  - by apply (session_within _ (clock_only_within same_audit) _ s Hc (λ _ _ _ _ _, I)).
Qed.
End trail.

(** ** Properties *)

Section properties.
Context `{P : Platform}.

(** C3.  The server's invariant.  However many requests of whatever kinds run
    concurrently on the service that internal/app builds, under any interleaving
    of their atomic actions and with any failures of the database, Redis, the
    mail server and GitHub: the tables keep their primary keys, unique columns
    and foreign keys; no row is ever removed, a user's deletion, an account's
    disabling and a credential's revocation are never undone, and audit events
    and identities never change; and the key ring stays as it is. *)
Theorem server_invariant s calls w ms w'
    (Hd : deployed s) (Hok : db_ok (w_db w))
    (Hrun : rtc pool_step (serve s sqlite_audit <$> calls, w) (ms, w')) :
  db_ok (w_db w') ∧ db_le (w_db w) (w_db w') ∧ w_keys w' = w_keys w.
Proof.
  assert (Forall (guarantees (within db_evolves)) (serve s sqlite_audit <$> calls)) as Hall
    by (apply Forall_fmap, Forall_true; intros call; by apply served_evolves).
  pose proof (pool_guarantees (within db_evolves) _ _ Hrun Hall) as [[Hle Hok'] Hk]. auto.
Qed.

(** C4.  Management is authorised and audited.  A request that creates, disables
    or rotates a service account, or creates, deletes or resets a user, succeeds
    only for a caller whose account grants the scope it requires, and then leaves
    exactly one audit event, of that caller and action, unless recording the
    event fails (which is only logged); when it does not succeed, and for every
    other request, the audit log stays as it is. *)
Theorem management_audited s ctx req w r w'
    (Hd : deployed s) (Hrun : run (handle s sqlite_audit ctx req) w = (r, w')) :
  match management req, r with
  | Some (scopes, action, rt), Ok _ =>
      ∃ actor, authorized s ctx scopes w actor ∧
        (same_audit (w_db w) (w_db w') ∨ one_event actor action rt (w_db w) (w_db w')) ∧
        (no_failure (w_db w) → one_event actor action rt (w_db w) (w_db w'))
  | _, _ => same_audit (w_db w) (w_db w')
  end.
Proof.
  destruct (deployed_stores s Hd) as (_ & _ & Hsa & _).
  destruct (management req) as [[[scopes action] rt]|] eqn:Hm.
  - destruct (management_shape s Hd ctx req scopes action rt Hm) as (body & Hshape & Htrail).
    rewrite Hshape, run_try in Hrun.
    destruct (run (authorizeServiceAccount s ctx scopes) w) as [[actor|e] w1] eqn:Hau.
    + apply (authorize_Ok_inv s Hsa) in Hau as [Hau ->]. specialize (Htrail actor (tick (tick w))).
      rewrite Hrun in Htrail. destruct r; [by exists actor|done].
    + injection Hrun as <- <-. pose proof (guarantees_run _ _ w (authorize_clock s Hsa ctx scopes)) as Hck.
      rewrite Hau in Hck. apply (f_equal db_audit_events (co_db _ _ Hck)).
  - pose proof (guarantees_run _ _ w (not_management s Hd ctx req Hm)) as [H _].
    by rewrite Hrun in H.
Qed.
End properties.

(** ** Closed instances *)

Section instances.
#[local] Existing Instance calm.

Lemma sample_deployed : deployed sample_service.
Proof.
  apply (deployed_intro (mkRedisConfig ["localhost:6379"] "") sample_oauth (server_redis sample_oauth) sample_config
    (Some sample_mailer) (buildServerInfo "dev" "none" "unknown")).
  - by apply buildRedisDependencies_ok.
  - assert (token_keys_present sample_config = true) as Hkeys by (by vm_compute).
    unfold NewService. cbn [assemble d_EmailCodeStore d_OAuthStateStore d_UserStore
      d_ExternalIdentityStore d_ServiceAccountStore d_AuditStore d_KeyManager d_TokenConfig
      d_GithubOAuthConfig negb]. by rewrite Hkeys.
  - intros m msg [= <-]. apply guarantees_op. intros w. apply mail_only_sent.
Qed.

(** Two requests of the operator and a registration, at once. *)
Definition busy : list (Ctx * Request) :=
  [(ops_ctx, ReqCreatePasswordUser (mkCreatePasswordUserRequest "dave@example.org" "pass"));
   (no_ctx, ReqRegisterWithPassword (mkRegisterWithPasswordRequest "dave@example.org" "word"));
   (ops_ctx, ReqCreateServiceAccount (mkCreateServiceAccountRequest "ci" ["ci.read"]))].
Definition busy_run : list (M (string * result Response)) * World :=
  schedule (concat (repeat [0; 1; 2]%nat 20)) (serve sample_service sqlite_audit <$> busy, with_token).

Lemma server_invariant_witness :
  db_ok (w_db busy_run.2) ∧ length (db_users (w_db busy_run.2)) = 1%nat.
Proof.
  assert (length (db_users (w_db busy_run.2)) = 1%nat) as Hone by (by vm_compute).
  assert (rtc pool_step (serve sample_service sqlite_audit <$> busy, with_token) (busy_run.1, busy_run.2))
    as Hrun by (rewrite <-surjective_pairing; apply schedule_steps).
  generalize dependent busy_run. intros c Hone Hrun. split; [|exact Hone].
  exact (proj1 (server_invariant sample_service busy with_token c.1 c.2 sample_deployed with_token_ok Hrun)).
Defined.

#[local] Notation create_ci := (ReqCreateServiceAccount (mkCreateServiceAccountRequest "ci" ["ci.read"])).
#[local] Notation create_ci_run := (run (handle sample_service sqlite_audit ops_ctx create_ci) with_token).

Lemma management_audited_witness :
  is_Ok create_ci_run.1 = true ∧
  ∃ actor, one_event actor "service_account.create" "service_account" (w_db with_token)
    (w_db create_ci_run.2) ∨ same_audit (w_db with_token) (w_db create_ci_run.2).
Proof.
  assert (is_Ok create_ci_run.1 = true) as Hok by (by vm_compute). split; [exact Hok|].
  generalize dependent with_token. intros w Hok.
  destruct (run (handle _ _ _ _) w) as [[rsp|] w'] eqn:Hrun; [|discriminate Hok].
  destruct (management_audited sample_service ops_ctx create_ci w (Ok rsp) w' sample_deployed Hrun)
    as (actor & _ & [H|H] & _); exists actor; [right|left]; exact H.
Defined.
End instances.
