(* ===== verification/Lasting.v ===== *)
(** * What a successful call puts an end to

    A session that was renewed or revoked stays so: whatever else the server
    does concurrently, before, during or after that call, no call that starts
    later succeeds with the same refresh token. *)

From S2P Require Import Prelude GoStrings Prog Data Messages Platform RefPlatform SqliteQueries.
From S2P Require Import KeyManager World Tokens Interfaces RateLimiter Revocation SqliteStores.
From S2P Require Import App ServiceAccount SqliteAccounts SqliteAudit Handlers Authorization.
From S2P Require Import PasswordLogin EmailLogin OAuthLogin Session UserManagement.
From S2P Require Import ServiceAccountsApi UserLifecycle Server.
#[local] Open Scope Z_scope.

(** The refresh token a request presents. *)
Definition session_token (req : Request) : option string :=
  match req with
  | ReqRefreshSession r => Some (TrimSpace (rsq_RefreshToken r))
  | ReqRevokeSession r => Some (TrimSpace (rvq_RefreshToken r))
  | _ => None
  end.

(** A call answered, and with what success. *)
Definition answered_ok (r : string * result Response) : Prop := is_Ok r.2 = true.

(** ** Shared rules *)

Section rules.
Context `{P : Platform}.

(** A statement that cannot succeed. *)
Lemma barred_db_call {B} (ψ : World → Prop) (f : DB → result B * DB) :
  (∀ w, ψ w → is_Ok (f (w_db w)).1 = false) → barred ψ succeeds (db_call f).
Proof.
  intros Hf. apply barred_act. intros w Hw. apply barred_ret. specialize (Hf w Hw).
  destruct (f (w_db w)) as [r d]. unfold with_fault. cbn [fst] in Hf.
  destruct (env_fault _); cbn [fst]; [done|by rewrite Hf].
Qed.

(** What a validation is followed by only matters while the token is valid. *)
Lemma validated_barred {A} kd s (ψ : World → Prop) tok c (h : error → M (result A))
    (k : StandardClaims → M (result A)) :
  jwt_verify tok (tc_PublicKey (s_tokenCfg s)) = Ok c → (∀ er, barred ψ succeeds (h er)) →
  ((∃ w, ψ w ∧ jwt_times_valid (w_now w) c = true) → barred ψ succeeds (k c)) →
  barred ψ succeeds (prog_catch (validate kd tok (tc_PublicKey (s_tokenCfg s))) h k).
Proof.
  intros Hver Hh Hk. destruct (validate_action kd tok (tc_PublicKey (s_tokenCfg s))) as (v & -> & Hv).
  apply barred_act. intros w Hw. cbn [fst].
  destruct (Hv (w_now w)) as ([c'|er] & -> & Hc'); [|apply Hh].
  destruct (Hc' c' eq_refl) as [Hver' Ht]. rewrite Hver in Hver'. injection Hver' as <-.
  apply Hk. by exists w.
Qed.
End rules.

#[local] Ltac barred_tac :=
  unfold fail; repeat first [by apply barred_ret | apply barred_bind; intros ? | case_match].

#[local] Ltac establishes_tac :=
  unfold fail; repeat first [by apply establishes_ret | apply establishes_bind; intros ? ? | case_match].

(** ** Refresh tokens *)

Section sessions.
Context `{P : Platform}.
Context (s : Service) (Hd : deployed s).
Context (c : StandardClaims) (e : Z) (Hexp : sc_ExpiresAt c = Some e) (Hid : sc_TokenID c ≠ "").
Implicit Types (w : World) (n : nat).

#[local] Abbreviation pub := (tc_PublicKey (s_tokenCfg s)).
#[local] Abbreviation revoked_at w := (revoked revocations_prefix w (sc_TokenID c) e).

(** A revocation is kept. *)
Record kept w w' : Prop := mk_kept {
  kp_step : (w_step w ≤ w_step w')%nat;
  kp_revoked : revoked_at w → revoked_at w';
}.

#[export] Instance kept_preorder : PreOrder kept.
Proof. split; [by split|]. intros w1 w2 w3 [] []. split; [lia|auto]. Qed.

Lemma kept_entry w w' :
  (w_step w ≤ w_step w')%nat →
  redis_entry (w_redis w') (revocation_key revocations_prefix (sc_TokenID c)) =
    redis_entry (w_redis w) (revocation_key revocations_prefix (sc_TokenID c)) → kept w w'.
Proof. intros Hst He. split; [done|]. by apply revoked_agree. Qed.

Lemma kept_clock w w' : clock_only w w' → kept w w'.
Proof. intros []. apply kept_entry; [done|by f_equal]. Qed.

Lemma db_kept w w' : db_effect w w' → kept w w'.
Proof. intros [[] _]. apply kept_entry; [done|by f_equal]. Qed.

Lemma kept_tick w : kept w (tick w).
Proof. apply kept_clock, tick_closed. Qed.

Lemma deployed_kept : collaborators kept (λ _ _, False) s.
Proof.
  apply deployed_frame; [exact kept_clock|..|done|done].
  - exact db_kept.
  - intros w w' []. apply kept_entry; [done|by f_equal].
  - intros pre w w' Hpre []. apply kept_entry; [done|]. apply ro_redis.
    repeat (apply elem_of_cons in Hpre as [->|Hpre]; [by vm_compute|]). by apply elem_of_nil in Hpre.
Qed.

(** Revoking, with the time read just before. *)
Lemma Revoke_timed n id' e' :
  (id' = sc_TokenID c → e ≤ e') → timed w_step kept n (Revoke revocations_prefix id' e').
Proof.
  intros He. unfold Revoke. case_bool_decide; [apply timed_ret|].
  apply timed_act. intros w _. split; [apply kept_tick|]. cbn [fst snd prog_bind].
  destruct (Z.leb_spec (e' - w_now w) 0) as [|Hpos]; [apply timed_ret|].
  apply timed_act. intros w1 Hw1. split; [|apply timed_ret].
  pose proof (w_now_le _ _ Hw1) as Hnow. pose proof (w_now_tick w).
  unfold with_fault. set (s1 := redis_SET _ _ _ _ _).
  assert (kept w1 (tick (set_redis s1 w1))) as Hset.
  { split; [simpl; lia|]. intros Hr. destruct (decide (id' = sc_TokenID c)) as [->|Hne].
    - unfold revoked, s1. simpl. apply revoked_SET; [lia|]. specialize (He eq_refl). lia.
    - eapply revoked_agree; [|exact Hr]. unfold s1. simpl. rewrite redis_SET_spec. apply decide_False.
      unfold revocation_key. by intros ?%string_app_inj_r. }
  destruct (env_fault (w_step w1)) as [[m []]|]; [exact Hset|apply kept_tick|exact Hset].
Qed.

Lemma revokeRefreshClaims_timed n c' :
  (∀ e', sc_TokenID c' = sc_TokenID c → sc_ExpiresAt c' = Some e' → e ≤ e') →
  timed w_step kept n (revokeRefreshClaims s c').
Proof.
  intros Hc. unfold revokeRefreshClaims. rewrite (deployed_revocations s Hd).
  destruct (sc_ExpiresAt c') as [e'|] eqn:He; [|apply timed_ret].
  apply timed_bind; [exact kp_step|by apply Revoke_timed; auto|].
  intros [] n' _; apply timed_ret.
Qed.

(** What a validation is followed by knows the claims. *)
Lemma validated_timed {A} n tok (h : error → M A) (k : StandardClaims → M A) :
  (∀ er n', timed w_step kept n' (h er)) →
  (∀ c' n', jwt_verify tok pub = Ok c' → timed w_step kept n' (k c')) →
  timed w_step kept n (prog_catch (ValidateRefreshToken tok pub) h k).
Proof.
  intros Hh Hk. change (ValidateRefreshToken tok) with (validate KindRefresh tok).
  destruct (validate_action KindRefresh tok pub) as (v & -> & Hv).
  apply timed_act. intros w _. split; [apply kept_tick|]. cbn [fst].
  destruct (Hv (w_now w)) as ([c'|er] & -> & Hc'); [by apply Hk, Hc'|apply Hh].
Qed.

(** Every call keeps the revocation, as long as it does not present another
    token with the same identifier and an earlier expiry. *)
Definition respects (req : Request) : Prop :=
  ∀ tok c' e', session_token req = Some tok → jwt_verify tok pub = Ok c' →
    sc_TokenID c' = sc_TokenID c → sc_ExpiresAt c' = Some e' → e ≤ e'.

Lemma respects_same req tok :
  session_token req = Some tok → jwt_verify tok pub = Ok c → respects req.
Proof.
  intros Ht Hver tok' c' e' Ht'. rewrite Ht in Ht'. injection Ht' as <-. rewrite Hver.
  intros [= <-] _. rewrite Hexp. by intros [= <-].
Qed.

Lemma respects_none req : session_token req = None → respects req.
Proof. by intros Ht tok c' e'; rewrite Ht. Qed.

#[local] Ltac timed_tac :=
  repeat first
    [ apply timed_ret
    | solve [apply guarantees_timed; eauto using cb_user_id, guarantees_mono, kept_clock,
        NewTokenPair_clock, deployed_kept, ensureRefreshTokenActive_within with typeclass_instances]
    | apply timed_bind; [exact kp_step| |intros [?|?] ? _] | case_match ].

Lemma session_timed n ctx req :
  session_call req = true → respects req → timed w_step kept n (handle s sqlite_audit ctx req).
Proof.
  intros Hs Hreq. destruct req as [| | | | | | |r|r| | | | | | | | | | | | | |]; try discriminate Hs;
    cbn [handle]; (apply timed_bind; [exact kp_step| |intros [?|?] ? _; apply timed_ret]);
    unfold RefreshSession, RevokeSession, prog_try, fail; (case_bool_decide; [apply timed_ret|]);
    (apply validated_timed; [intros; apply timed_ret|]); intros c' n' Hver;
    pose proof (λ n'', revokeRefreshClaims_timed n'' c' (λ e', Hreq _ c' e' eq_refl Hver)) as Hrev;
    timed_tac; apply Hrev.
Qed.

Lemma request_id_clock ctx : guarantees clock_only (request_id ctx).
Proof. unfold request_id. pose proof (uuid_guarantees clock_only). guarantees_tac. Qed.

Lemma call_timed n call : respects call.2 → timed w_step kept n (serve s sqlite_audit call).
Proof.
  intros Hreq. unfold serve. apply timed_bind; [exact kp_step| |intros id n1 _].
  { apply guarantees_timed, (guarantees_mono clock_only), request_id_clock. exact kept_clock. }
  apply timed_bind; [exact kp_step| |intros; apply timed_ret].
  destruct (session_call call.2) eqn:Hs; [by apply session_timed|].
  apply guarantees_timed, (handle_within kept kept_clock (λ _ _, False) s deployed_kept sqlite_audit).
  - intros o l. apply (guarantees_mono clock_only); [exact kept_clock|apply audit_List_clock].
  - intros _ actor a rt rid. apply (guarantees_mono db_effect); [exact db_kept|].
    apply recordManagementAudit_effect, deployed_stores, Hd.
  - by rewrite Hs.
Qed.

(** *** The call that ends the session *)

Definition ended w : Prop := e ≤ w_now w ∨ revoked_at w.

Lemma revoke_establishes n :
  establishes w_step ended succeeds n (revokeRefreshClaims s c).
Proof.
  unfold revokeRefreshClaims. rewrite (deployed_revocations s Hd), Hexp.
  cbn [rr_Revoke redisRefreshTokenRevocationStore]. unfold Revoke.
  rewrite bool_decide_eq_false_2 by done. apply establishes_act. intros w _. cbn [fst snd prog_bind].
  destruct (Z.leb_spec (e - w_now w) 0) as [Hle|Hpos].
  { right. left. pose proof (w_now_tick w). lia. }
  left. apply establishes_act. intros w1 Hw1. cbn [fst snd].
  pose proof (w_now_le _ _ Hw1) as Hnow. pose proof (w_now_tick w). unfold with_fault.
  assert (ended (tick (set_redis (redis_SET (w_now w1)
    (revocation_key revocations_prefix (sc_TokenID c)) "1" (e - w_now w) (w_redis w1)) w1))) as Hset.
  { right. unfold revoked. simpl. apply revoked_SET; lia. }
  destruct (env_fault (w_step w1)) as [[m []]|]; [by right| |by right].
  left. by apply establishes_ret.
Qed.

Lemma validated_establishes {A} n tok (h : error → M (result A)) (k : StandardClaims → M (result A)) :
  jwt_verify tok pub = Ok c → (∀ er n', establishes w_step ended succeeds n' (h er)) →
  (∀ n', establishes w_step ended succeeds n' (k c)) →
  establishes w_step ended succeeds n (prog_catch (ValidateRefreshToken tok pub) h k).
Proof.
  intros Hver Hh Hk. change (ValidateRefreshToken tok) with (validate KindRefresh tok).
  destruct (validate_action KindRefresh tok pub) as (v & -> & Hv).
  apply establishes_act. intros w _. left. cbn [fst].
  destruct (Hv (w_now w)) as ([c'|er] & -> & Hc'); [|apply Hh].
  destruct (Hc' c' eq_refl) as [Hver' _]. rewrite Hver in Hver'. injection Hver' as <-. apply Hk.
Qed.

Lemma session_establishes n ctx req tok :
  session_token req = Some tok → jwt_verify tok pub = Ok c →
  establishes w_step ended succeeds n (handle s sqlite_audit ctx req).
Proof.
  intros Ht Hver. destruct req as [| | | | | | |r|r| | | | | | | | | | | | | |]; try discriminate Ht;
    injection Ht as Ht; cbn [handle];
    apply establishes_try; unfold RefreshSession, RevokeSession, prog_try, fail; rewrite Ht;
    (case_bool_decide; [by apply establishes_ret|]);
    (apply validated_establishes; [done|intros; by apply establishes_ret|]); intros n1;
    repeat first [by apply establishes_ret
      | apply establishes_try, revoke_establishes
      | apply establishes_bind; intros ? ? | case_match].
Qed.

Lemma call_establishes n call tok :
  session_token call.2 = Some tok → jwt_verify tok pub = Ok c →
  establishes w_step ended answered_ok n (serve s sqlite_audit call).
Proof.
  intros Ht Hver. apply establishes_bind. intros id n1.
  eapply establishes_then; [by eapply session_establishes|]. intros r n2 Hr. by apply establishes_ret.
Qed.

(** *** The calls it bars *)

(** The revocation is there, or the token has expired. *)
Definition standing w : Prop := revoked_at w ∧ w_now w < e - time_Millisecond.
Definition expired w : Prop := e ≤ w_now w.

Lemma ensure_barred : barred standing succeeds (ensureRefreshTokenActive s c).
Proof.
  unfold ensureRefreshTokenActive. rewrite (deployed_revocations s Hd).
  cbn [rr_IsRevoked redisRefreshTokenRevocationStore]. unfold IsRevoked.
  rewrite bool_decide_eq_false_2 by done. apply barred_act.
  intros w [(v & d & He & Hd') Hlt]. cbn [fst snd]. unfold with_fault.
  destruct (env_fault (w_step w)); [by apply barred_ret|]. unfold redis_EXISTS.
  rewrite redis_GET_spec, He. cbn [redis_live].
  destruct (Z.ltb_spec (w_now w) d); [by apply barred_ret|lia].
Qed.

Lemma call_barred ψ call tok :
  ψ = standing ∨ ψ = expired → session_token call.2 = Some tok → jwt_verify tok pub = Ok c →
  barred ψ answered_ok (serve s sqlite_audit call).
Proof.
  intros Hψ Ht Hver. apply barred_bind. intros id.
  apply (barred_then ψ succeeds); [|intros r Hr; by apply barred_ret].
  destruct call as [ctx req]. cbn [fst snd] in *.
  destruct req as [| | | | | | |r|r| | | | | | | | | | | | | |]; try discriminate Ht;
    injection Ht as Ht; cbn [handle]; apply barred_try;
    unfold RefreshSession, RevokeSession, fail; rewrite Ht;
    (case_bool_decide; [by apply barred_ret|]);
    (apply (validated_barred KindRefresh s ψ tok c); [done|intros; by apply barred_ret|]);
    (intros (w & Hw & Hval); destruct Hψ as [->| ->]; [apply barred_try, ensure_barred|]);
    unfold expired, jwt_times_valid in *; rewrite Hexp in Hval;
    apply andb_true_iff in Hval as [Hlt%Z.ltb_lt _]; lia.
Qed.
End sessions.

(** ** Rows of the database *)

Section rows.
Context `{P : Platform}.
Context (s : Service) (Hd : deployed s).

#[local] Abbreviation pub := (tc_PublicKey (s_tokenCfg s)).
#[local] Abbreviation no_clock := (λ _ : World, 0%nat).

(** A fact of the database that a successful call establishes, and that
    everything keeps. *)
Lemma pool_makes (φ : DB → Prop) calls i call w ms w' answer :
  (∀ d d', db_evolves d d' → φ d → φ d') → calls !! i = Some call →
  (∀ n, establishes no_clock (λ w, φ (w_db w)) answered_ok n (serve s sqlite_audit call)) →
  rtc pool_step (serve s sqlite_audit <$> calls, w) (ms, w') → ms !! i = Some (Ret answer) →
  answered_ok answer → φ (w_db w').
Proof.
  intros Hφ Hi He Hrun Ha Hok.
  refine (pool_establishes no_clock (within db_evolves) _ (λ w, φ (w_db w)) answered_ok _ i _ _ _ _ _
    Hrun _ _ Ha Hok).
  - done.
  - intros v v' []. by apply Hφ.
  - apply Forall_fmap, Forall_true. intros x. by apply guarantees_timed, served_evolves.
  - intros m Hm. left. rewrite list_lookup_fmap, Hi in Hm. injection Hm as <-. apply He.
Qed.

Lemma pool_db_ok calls w ms w' :
  db_ok (w_db w) → rtc pool_step (serve s sqlite_audit <$> calls, w) (ms, w') → db_ok (w_db w').
Proof.
  intros Hok Hrun. refine (proj2 (wi_db _ _ _ (pool_guarantees (within db_evolves) _ _ Hrun _)) Hok).
  apply Forall_fmap, Forall_true. intros call. by apply served_evolves.
Qed.

(** A fact that everything keeps bars a later call. *)
Lemma pool_bars (ψ : DB → Prop) calls more j call w ms1 w1 ms2 w2 answer :
  (∀ d d', db_evolves d d' → ψ d → ψ d') → more !! j = Some call →
  barred (λ w, ψ (w_db w)) answered_ok (serve s sqlite_audit call) →
  rtc pool_step (serve s sqlite_audit <$> calls, w) (ms1, w1) → ψ (w_db w1) →
  rtc pool_step (ms1 ++ (serve s sqlite_audit <$> more), w1) (ms2, w2) →
  ms2 !! (length ms1 + j)%nat = Some (Ret answer) → ¬ answered_ok answer.
Proof.
  intros Hψ Hj Hb Hrun Hw1 Hrest.
  assert (∀ cs, Forall (timed no_clock (within db_evolves) 0) (serve s sqlite_audit <$> cs)) as Hall.
  { intros cs. apply Forall_fmap, Forall_true. intros x. by apply guarantees_timed, served_evolves. }
  destruct (pool_timed no_clock (within db_evolves) (λ _ _ _, le_n _) _ _ Hrun (Hall _)) as [_ Hms1].
  refine (pool_barred no_clock (within db_evolves) _ (λ w, ψ (w_db w)) answered_ok _ _ _ _ _ _
    Hrest _ _ _).
  - done.
  - by apply Forall_app_2.
  - intros m Hm. rewrite lookup_app_r, Nat.add_comm, Nat.add_sub in Hm by lia.
    rewrite list_lookup_fmap, Hj in Hm. by injection Hm as <-.
  - intros v [Hv _] _. by eapply Hψ.
Qed.

Lemma served_establishes n φ call :
  (∀ n', establishes no_clock φ succeeds n' (handle s sqlite_audit call.1 call.2)) →
  establishes no_clock φ answered_ok n (serve s sqlite_audit call).
Proof.
  intros H. apply establishes_bind. intros id n1. eapply establishes_then; [apply H|].
  intros r n2 Hr. by apply establishes_ret.
Qed.

Lemma served_barred ψ call :
  barred ψ succeeds (handle s sqlite_audit call.1 call.2) →
  barred ψ answered_ok (serve s sqlite_audit call).
Proof.
  intros H. apply barred_bind. intros id. eapply barred_then; [apply H|].
  intros r Hr. by apply barred_ret.
Qed.

(** *** Deleted users *)

Definition deleted (v : User) (d : DB) : Prop := db_ok d ∧ v ∈ db_users d.

Lemma deleted_kept v d d' :
  user_live v = false → db_evolves d d' → deleted v d → deleted v d'.
Proof.
  intros Hv [Hle Hok] [Hd0 Hin]. split; [auto|].
  destruct (rows_le_elem _ _ _ _ (le_users _ _ Hle) Hin) as (v' & Hv' & _ & _ & Hfr).
  by rewrite (Hfr Hv) in Hv'.
Qed.

(** A request for the user, by email or with a token. *)
Definition for_user (v : User) (call : Ctx * Request) : Prop :=
  match call.2 with
  | ReqRegisterWithPassword r => TrimSpace (rwp_Email r) = u_Email v
  | ReqLoginWithPassword r => TrimSpace (lwp_Email r) = u_Email v
  | ReqLoginWithEmailCode r => TrimSpace (lwec_Email r) = u_Email v
  | ReqRefreshSession r =>
      ∃ c, jwt_verify (TrimSpace (rsq_RefreshToken r)) pub = Ok c ∧ sc_UserID c = u_ID v
  | ReqGetCurrentUser _ =>
      ∃ c, jwt_verify (accessTokenFromMetadata call.1) pub = Ok c ∧ sc_UserID c = u_ID v
  | _ => False
  end.

Section deleted_user.
Context (v : User) (Hv : user_live v = false).
#[local] Abbreviation gone := (λ w, deleted v (w_db w)).

Lemma GetByEmail_barred : barred gone succeeds (users_GetByEmail (u_Email v)).
Proof.
  apply barred_catch; [|intros; by apply barred_ret]. apply barred_db_call. intros w [Hok Hin]. cbn.
  unfold query_row. by rewrite (proj2 (tombstone_hides _ v Hok Hin Hv)).
Qed.

Lemma GetByID_barred : barred gone succeeds (users_GetByID (u_ID v)).
Proof.
  apply barred_catch; [|intros; by apply barred_ret]. apply barred_db_call. intros w [Hok Hin]. cbn.
  unfold query_row. by rewrite (proj1 (tombstone_hides _ v Hok Hin Hv)).
Qed.

Lemma Create_barred hp h ll :
  barred gone succeeds (users_Create (mkUserModel "" time_zero time_zero (u_Email v) hp h ll)).
Proof.
  apply barred_bind. intros now. apply barred_bind. intros id.
  apply barred_catch; [|intros; by apply barred_ret]. apply barred_db_call. intros w [_ Hin].
  unfold createUser. destruct (existsb _ _); [done|].
  rewrite (proj2 (existsb_true _ _)); [done|]. exists v. by rewrite bool_decide_eq_true_2.
Qed.

Lemma for_user_barred call : for_user v call → barred gone succeeds (handle s sqlite_audit call.1 call.2).
Proof.
  destruct (deployed_stores s Hd) as (Hus & _).
  pose proof GetByEmail_barred as He. pose proof GetByID_barred as Hi. pose proof Create_barred as Hcr.
  destruct call as [ctx req]. cbn [fst snd]. destruct req; cbn [for_user fst snd]; intros Hreq; try done;
    cbn [handle]; apply barred_try.
  - unfold RegisterWithPassword. rewrite Hreq, Hus. case_match; [barred_tac|].
    apply barred_bind. intros [u|er]; [barred_tac|]. case_match; [barred_tac|].
    apply barred_bind. intros [h|er']; [|barred_tac]. apply barred_catch; [apply Hcr|barred_tac].
    intros er'; barred_tac.
  - unfold LoginWithPassword. rewrite Hreq, Hus. case_match; [barred_tac|].
    apply barred_bind. intros []; cbn [negb]; [|barred_tac]. apply barred_catch; [apply He|].
    intros er; barred_tac.
  - unfold LoginWithEmailCode. rewrite Hreq. case_match; [barred_tac|].
    apply barred_bind. intros []; cbn [negb]; [|barred_tac]. apply barred_bind.
    intros [[]|er]; [|barred_tac..]. apply barred_try. unfold user_of_email. rewrite Hus.
    eapply barred_then; [apply He|]. intros [u|er] Hr; [by destruct Hr|]. case_match; [|barred_tac].
    apply barred_catch; [apply Hcr|intros er'; barred_tac].
  - unfold RefreshSession. case_match; [barred_tac|]. destruct Hreq as (c & Hver & Hc).
    apply (validated_barred KindRefresh s _ _ c); [done|intros; barred_tac|]. intros _.
    rewrite Hus, Hc. apply barred_bind. intros [u|er]; [|barred_tac].
    apply barred_catch; [apply Hi|intros er; barred_tac].
  - unfold GetCurrentUser. case_match; [barred_tac|]. destruct Hreq as (c & Hver & Hc).
    apply (validated_barred KindAccess s _ _ c); [done|intros; barred_tac|]. intros _.
    rewrite Hus, Hc. apply barred_catch; [apply Hi|intros er; barred_tac].
Qed.
End deleted_user.

(** DeleteUser leaves a deleted row. *)
Definition some_deleted (id : string) (d : DB) : Prop :=
  ∃ v, v ∈ db_users d ∧ u_ID v = id ∧ user_live v = false.

Lemma some_deleted_kept id d d' : db_evolves d d' → some_deleted id d → some_deleted id d'.
Proof.
  intros [Hle _] (v & Hv & Hid & Hdead).
  destruct (rows_le_elem _ _ _ _ (le_users _ _ Hle) Hv) as (v' & Hv' & _ & _ & Hfr).
  exists v'. by rewrite (Hfr Hdead) in *.
Qed.

Lemma users_Delete_establishes n id :
  establishes no_clock (λ w, some_deleted id (w_db w)) succeeds n (users_Delete id).
Proof.
  apply establishes_bind. intros now n1. apply establishes_act. intros w _.
  unfold softDeleteUser, update_rows, with_fault.
  destruct (existsb (live_with_id id) (db_users (w_db w))) eqn:Hex.
  - apply existsb_true in Hex as (u & Hu & Hl). pose proof (live_with_id_inv _ _ Hl) as [_ Hid].
    assert (∀ w0, some_deleted id (w_db (tick (set_db (set_users (map_if (live_with_id id)
      (λ u, mkUser (u_ID u) (u_CreatedAt u) now (Some now) (u_Email u) (u_HashedPassword u) (u_Hash u)
              (u_LastLoginAt u)) (db_users (w_db w))) (w_db w)) w0)))) as Hφ.
    { intros w0. eexists. split; [apply elem_of_map_if; exists u; by rewrite Hl|done]. }
    destruct (env_fault (w_step w)) as [[m []]|]; [right; exact (Hφ w)| |right; exact (Hφ w)].
    left. by apply establishes_ret.
  - left. cbn. destruct (env_fault (w_step w)); cbn; [by apply establishes_ret|].
    destruct (Z.eqb_spec (Z.of_nat (length (List.filter (live_with_id id) (db_users (w_db w))))) 0)
      as [|Hne]; [by apply establishes_ret|].
    assert (existsb (live_with_id id) (db_users (w_db w)) = true) by (apply filter_pos; lia). congruence.
Qed.

Lemma DeleteUser_establishes n ctx req :
  establishes no_clock (λ w, some_deleted (TrimSpace (duq_UserId req)) (w_db w)) succeeds n
    (handle s sqlite_audit ctx (ReqDeleteUser req)).
Proof.
  destruct (deployed_stores s Hd) as (Hus & _). cbn [handle]. apply establishes_try.
  unfold DeleteUser. apply establishes_bind. intros [actor|er] n1; [|establishes_tac].
  case_match; [establishes_tac|]. rewrite Hus.
  apply establishes_catch; [apply users_Delete_establishes|]. intros er n2. establishes_tac.
Qed.

(** *** Disabled service accounts *)

Definition some_disabled (id : string) (d : DB) : Prop :=
  ∃ a, a ∈ db_service_accounts d ∧ sa_ID a = id ∧ account_live a = false.

Lemma some_disabled_kept id d d' : db_evolves d d' → some_disabled id d → some_disabled id d'.
Proof.
  intros [Hle _] (a & Ha & Hid & Hl).
  destruct (account_later _ _ _ Hle Ha) as (a' & Ha' & _ & _ & _ & _ & Hfr).
  exists a'. by rewrite (Hfr Hl) in *.
Qed.

Definition account_disabled (id : string) (d : DB) : Prop := db_ok d ∧ some_disabled id d.

Lemma account_disabled_kept id d d' : db_evolves d d' → account_disabled id d → account_disabled id d'.
Proof. intros He [Hok Hs]. split; [by apply He|by eapply some_disabled_kept]. Qed.

Lemma account_disabled_row id d a :
  account_disabled id d → a ∈ db_service_accounts d → sa_ID a = id → account_live a = false.
Proof.
  intros (Hok & b & Hb & Hid & Hl) Ha Hida.
  by rewrite (NoDup_fmap_inj sa_ID (db_service_accounts d) a b (ok_accounts_id d Hok) Ha Hb) by congruence.
Qed.

(** A request with the account's credential, or with a service token of it. *)
Definition by_account (id : string) (call : Ctx * Request) : Prop :=
  match call.2 with
  | ReqExchangeServiceToken r => TrimSpace (est_ClientId r) = id
  | ReqCreateServiceAccount _ | ReqListServiceAccounts _ | ReqDisableServiceAccount _
  | ReqRotateServiceAccountSecret _ | ReqListUsers _ | ReqCreatePasswordUser _ | ReqDeleteUser _
  | ReqResetUserPassword _ | ReqListAuditEvents _ =>
      ∃ c, jwt_verify (accessTokenFromMetadata call.1) pub = Ok c ∧ sc_ServiceAccountID c = id
  | _ => False
  end.

Section disabled_account.
Context (id : string).
#[local] Abbreviation off := (λ w, account_disabled id (w_db w)).

Lemma Authenticate_barred secret now : barred off succeeds (accounts_Authenticate id secret now).
Proof.
  apply barred_catch; [|intros er; by case_match; apply barred_ret]. apply barred_db_call.
  intros w Hoff. cbn. unfold query_row. destruct (find _ _) as [a|] eqn:Hf; [|done].
  apply find_Some_elem in Hf as [Ha [[Hid%bool_decide_eq_true Hl]%andb_true_iff _]%andb_true_iff].
  by rewrite (account_disabled_row id _ a Hoff Ha Hid) in Hl.
Qed.

Lemma authorize_barred ctx scopes c :
  jwt_verify (accessTokenFromMetadata ctx) pub = Ok c → sc_ServiceAccountID c = id →
  barred off succeeds (authorizeServiceAccount s ctx scopes).
Proof.
  intros Hver Hc. destruct (deployed_stores s Hd) as (_ & _ & Hsa & _). unfold authorizeServiceAccount.
  case_match; [barred_tac|]. apply (validated_barred KindService s _ _ c); [done|intros; barred_tac|].
  intros _. rewrite Hsa, Hc. cbn [ss_GetByID sqlite_accounts].
  apply (barred_then _ (λ r, ∃ a, r = Ok a ∧ ac_DisabledAt a = None)).
  - apply (barred_then _ (λ r, ∃ a : ServiceAccount, r = Ok a ∧ account_live a = true)).
    + apply barred_act. intros w Hoff. apply barred_ret. intros (a & Hr & Hl). revert Hr. unfold with_fault. cbn.
      destruct (env_fault (w_step w)); [done|]. unfold query_row. cbn.
      destruct (find _ _) as [b|] eqn:Hf; [|done]. intros [= ->].
      apply find_Some_elem in Hf as [Hb Hid%bool_decide_eq_true].
      by rewrite (account_disabled_row id _ a Hoff Hb Hid) in Hl.
    + intros [a|er] Ha; [|case_match; apply barred_ret; naive_solver].
      apply barred_ret. intros (acc & Hdec & Hnone).
      apply decode_account_ID in Hdec as (_ & _ & Hdis). destruct Ha. exists a. split; [done|].
      unfold account_live. by rewrite <-Hdis, Hnone.
  - intros [acc|er] Hacc; [|barred_tac]. case_match; [barred_tac|]. destruct Hacc. by exists acc.
Qed.

Lemma by_account_barred call :
  by_account id call → barred off succeeds (handle s sqlite_audit call.1 call.2).
Proof.
  destruct (deployed_stores s Hd) as (_ & _ & Hsa & _).
  destruct call as [ctx req]. cbn [fst snd]. destruct req; cbn [by_account fst snd]; intros Hreq;
    try done; cbn [handle]; apply barred_try.
  2-10: destruct Hreq as (c & Hver & Hc); apply barred_try; by eapply authorize_barred.
  unfold ExchangeServiceToken. apply barred_bind. intros [[]|er]; cbn [negb]; [|barred_tac..].
  rewrite Hsa. apply barred_catch; [|intros er; barred_tac].
  unfold Authenticate. rewrite Hreq. case_match; [barred_tac|]. apply barred_bind. intros now.
  apply Authenticate_barred.
Qed.
End disabled_account.

(** DisableServiceAccount leaves a disabled row. *)
Lemma accounts_Disable_establishes n id now :
  establishes no_clock (λ w, some_disabled id (w_db w)) succeeds n (accounts_Disable id now).
Proof.
  apply establishes_act. intros w _. unfold update_disabled_at, update_rows, with_fault.
  set (p := λ a, bool_decide (sa_ID a = id) && account_live a).
  destruct (existsb p (db_service_accounts (w_db w))) eqn:Hex.
  - apply existsb_true in Hex as (a & Ha & Hl).
    assert (∀ w0, some_disabled id (w_db (tick (set_db (set_service_accounts (map_if p
      (λ a, mkServiceAccount (sa_ID a) (sa_Name a) (sa_Scopes a) (sa_CreatedAt a) now (Some now))
      (db_service_accounts (w_db w))) (w_db w)) w0)))) as Hφ.
    { intros w0. eexists. split; [apply elem_of_map_if; exists a; by rewrite Hl|].
      by apply andb_true_iff in Hl as [Hid%bool_decide_eq_true _]. }
    destruct (env_fault (w_step w)) as [[m []]|]; [right; exact (Hφ w)| |right; exact (Hφ w)].
    left. by apply establishes_ret.
  - left. cbn. destruct (env_fault (w_step w)); cbn; [by apply establishes_ret|].
    destruct (Z.eqb_spec (Z.of_nat (length (List.filter p (db_service_accounts (w_db w))))) 0)
      as [|Hne]; [by apply establishes_ret|].
    assert (existsb p (db_service_accounts (w_db w)) = true) by (apply filter_pos; lia). congruence.
Qed.

Lemma Disable_establishes n ctx req :
  establishes no_clock (λ w, some_disabled (TrimSpace (dsa_ClientId req)) (w_db w)) succeeds n
    (handle s sqlite_audit ctx (ReqDisableServiceAccount req)).
Proof.
  destruct (deployed_stores s Hd) as (_ & _ & Hsa & _). cbn [handle]. apply establishes_try.
  unfold DisableServiceAccount. apply establishes_bind. intros [actor|er] n1; [|establishes_tac].
  do 2 (case_match; [establishes_tac|]). apply establishes_bind. intros now n2. rewrite Hsa.
  apply establishes_catch; [apply accounts_Disable_establishes|]. intros er n3. establishes_tac.
Qed.
End rows.

(** ** Properties *)

Section properties.
Context `{P : Platform}.

(** C1.  A refresh token ends with its use.  On the service that internal/app
    builds, once a RefreshSession or RevokeSession call with a refresh token has
    answered with success, while any number of other calls of any kinds run
    concurrently, no RefreshSession or RevokeSession call with the same token
    that starts afterwards answers with success, under any interleaving with
    the calls still running and the calls that start later, and with any
    failures of the database and of Redis.  It holds when the later call is
    answered more than the millisecond Redis measures expiry in before the token
    expires, by the revocation, and when it starts after the expiry; and unless
    a token with the same identifier that expires earlier is presented too. *)
Theorem session_ends s calls more c e tok w ms1 w1 ms2 w2 i j call call' answer answer'
    (Hd : deployed s)
    (Hver : jwt_verify tok (tc_PublicKey (s_tokenCfg s)) = Ok c)
    (Hexp : sc_ExpiresAt c = Some e) (Hid : sc_TokenID c ≠ "")
    (Hunique : Forall (λ call, respects s c e call.2) (calls ++ more))
    (Hfirst : calls !! i = Some call) (Htok : session_token call.2 = Some tok)
    (Hlater : more !! j = Some call') (Htok' : session_token call'.2 = Some tok)
    (Hrun : rtc pool_step (serve s sqlite_audit <$> calls, w) (ms1, w1))
    (Hended : ms1 !! i = Some (Ret answer)) (Hok : answered_ok answer)
    (Hrest : rtc pool_step (ms1 ++ (serve s sqlite_audit <$> more), w1) (ms2, w2))
    (Hanswer : ms2 !! (length ms1 + j)%nat = Some (Ret answer'))
    (Htime : w_now w2 < e - time_Millisecond ∨ e ≤ w_now w1) :
  ¬ answered_ok answer'.
Proof.
  apply Forall_app in Hunique as [Hu1 Hu2].
  assert (∀ n cs, Forall (λ call, respects s c e call.2) cs →
    Forall (timed w_step (kept c e) n) (serve s sqlite_audit <$> cs)) as Htimed.
  { intros n cs Hcs. apply Forall_fmap. eapply Forall_impl; [exact Hcs|]. intros x. by apply call_timed. }
  assert (ended c e w1) as Hend.
  { refine (pool_establishes w_step (kept c e) (kp_step c e) (ended c e) answered_ok _ i _ _ _ _ _
      Hrun (Htimed _ _ Hu1) _ Hended Hok).
    - intros v v' [Hst Hrev] [Hle|Hr]; [left|right; auto]. pose proof (w_now_le _ _ Hst). lia.
    - intros m Hm. left. rewrite list_lookup_fmap, Hfirst in Hm. injection Hm as <-.
      by eapply call_establishes. }
  destruct (pool_timed w_step (kept c e) (kp_step c e) _ _ Hrun (Htimed _ _ Hu1)) as [_ Hms1].
  set (ψ := if decide (e ≤ w_now w1) then expired e else standing c e).
  refine (pool_barred w_step (kept c e) (kp_step c e) ψ answered_ok (length ms1 + j)%nat _ _ _ _ _
    Hrest _ _ _ Hanswer).
  - by apply Forall_app_2; [exact Hms1|apply Htimed].
  - intros m Hm. rewrite lookup_app_r, Nat.add_comm, Nat.add_sub in Hm by lia.
    rewrite list_lookup_fmap, Hlater in Hm. injection Hm as <-.
    eapply call_barred; try done. unfold ψ. destruct (decide _); [by right|by left].
  - intros v [Hst1 Hrev] [Hst2 _]. apply w_now_le in Hst1, Hst2. unfold ψ.
    destruct (decide (e ≤ w_now w1)); unfold expired, standing; [lia|].
    destruct Hend as [|Hr]; [done|]. destruct Htime; [|done]. split; [by apply Hrev|lia].
Qed.
(** C9.  A deletion is for good.  On the service that internal/app builds, once
    a DeleteUser call has answered with success, while any number of other calls
    run concurrently: the user's row is a tombstone, and no call that starts
    afterwards answers with success if it registers the user's address, logs in
    to it with a password or an emailed code, renews a session with a refresh
    token of the user, or reads the profile with an access token of the user,
    under any interleaving and any failures. *)
Theorem deletion_lasts s calls ctx req w ms1 w1 i answer
    (Hd : deployed s) (Hok : db_ok (w_db w))
    (Hfirst : calls !! i = Some (ctx, ReqDeleteUser req))
    (Hrun : rtc pool_step (serve s sqlite_audit <$> calls, w) (ms1, w1))
    (Hended : ms1 !! i = Some (Ret answer)) (Hdone : answered_ok answer) :
  ∃ v, v ∈ db_users (w_db w1) ∧ user_live v = false ∧ u_ID v = TrimSpace (duq_UserId req) ∧
    ∀ more j call ms2 w2 answer', more !! j = Some call → for_user s v call →
      rtc pool_step (ms1 ++ (serve s sqlite_audit <$> more), w1) (ms2, w2) →
      ms2 !! (length ms1 + j)%nat = Some (Ret answer') → ¬ answered_ok answer'.
Proof.
  pose proof (pool_db_ok s Hd _ _ _ _ Hok Hrun) as Hok1.
  destruct (pool_makes s Hd (some_deleted (TrimSpace (duq_UserId req))) calls i _ w ms1 w1 answer
    (some_deleted_kept _) Hfirst (λ n, served_establishes s n _ (ctx, ReqDeleteUser req)
      (λ n', DeleteUser_establishes s Hd n' ctx req)) Hrun Hended Hdone) as (v & Hv & Hid & Hdead).
  exists v. do 3 (split; [done|]). intros more j call ms2 w2 answer' Hj Hfor Hrest Ha.
  eapply (pool_bars s Hd (deleted v)); try done.
  - intros d d'. by apply deleted_kept.
  - by apply served_barred, for_user_barred.
Qed.

(** C10.  Disabling a service account is for good.  Once a DisableServiceAccount
    call has answered with success, while any number of other calls run
    concurrently, no call that starts afterwards answers with success if it
    exchanges a secret of the account for a token, or is a management call with
    a token of the account, one that was issued before included. *)
Theorem disabling_lasts s calls more ctx req w ms1 w1 ms2 w2 i j call answer answer'
    (Hd : deployed s) (Hok : db_ok (w_db w))
    (Hfirst : calls !! i = Some (ctx, ReqDisableServiceAccount req))
    (Hrun : rtc pool_step (serve s sqlite_audit <$> calls, w) (ms1, w1))
    (Hended : ms1 !! i = Some (Ret answer)) (Hdone : answered_ok answer)
    (Hlater : more !! j = Some call) (Hby : by_account s (TrimSpace (dsa_ClientId req)) call)
    (Hrest : rtc pool_step (ms1 ++ (serve s sqlite_audit <$> more), w1) (ms2, w2))
    (Hanswer : ms2 !! (length ms1 + j)%nat = Some (Ret answer')) :
  ¬ answered_ok answer'.
Proof.
  pose proof (pool_db_ok s Hd _ _ _ _ Hok Hrun) as Hok1.
  pose proof (pool_makes s Hd (some_disabled (TrimSpace (dsa_ClientId req))) calls i _ w ms1 w1 answer
    (some_disabled_kept _) Hfirst (λ n, served_establishes s n _ (ctx, ReqDisableServiceAccount req)
      (λ n', Disable_establishes s Hd n' ctx req)) Hrun Hended Hdone) as Hoff.
  eapply (pool_bars s Hd (account_disabled (TrimSpace (dsa_ClientId req)))); try done.
  - intros d d'. apply account_disabled_kept.
  - by apply served_barred, by_account_barred.
Qed.
End properties.

(** ** Closed instances *)

Section instances.
#[local] Existing Instance calm.

#[local] Abbreviation refresh_alice :=
  (no_ctx, ReqRefreshSession (mkRefreshSessionRequest alice_refresh)).
#[local] Abbreviation revoke_alice :=
  (no_ctx, ReqRevokeSession (mkRevokeSessionRequest alice_refresh)).
#[local] Abbreviation register_bob :=
  (no_ctx, ReqRegisterWithPassword (mkRegisterWithPasswordRequest "bob@example.org" "hunter2")).

(** Alice renews her session while Bob registers; then the token is presented
    again, twice at once, before Bob's registration is answered. *)
Definition first_calls : list (Ctx * Request) := [refresh_alice; register_bob].
Definition later_calls : list (Ctx * Request) := [revoke_alice; refresh_alice].

Definition alice_renewed : list (M (string * result Response)) * World :=
  schedule (concat (repeat [0; 1]%nat 5) ++ repeat 0%nat 20)
    (serve sample_service sqlite_audit <$> first_calls, with_session).
Definition alice_again : list (M (string * result Response)) * World :=
  schedule (concat (repeat [1; 2; 3]%nat 20))
    (alice_renewed.1 ++ (serve sample_service sqlite_audit <$> later_calls), alice_renewed.2).

(** How a call was answered. *)
Definition status (m : M (string * result Response)) : option bool :=
  match m with Ret r => Some (is_Ok r.2) | _ => None end.

Lemma status_answer (ms : list (M (string * result Response))) i b :
  status <$> ms !! i = Some (Some b) →
  ∃ answer, ms !! i = Some (Ret answer) ∧ is_Ok answer.2 = b.
Proof. destruct (ms !! i) as [[r|]|]; cbn; intros [= <-]. by exists r. Qed.

Lemma session_ends_witness :
  status <$> alice_renewed.1 !! 0%nat = Some (Some true) ∧
  ∃ answer, alice_again.1 !! 3%nat = Some (Ret answer) ∧ ¬ answered_ok answer.
Proof.
  assert (status <$> alice_renewed.1 !! 0%nat = Some (Some true)) as Hfst by (by vm_compute).
  assert (status <$> alice_again.1 !! 3%nat = Some (Some false)) as Hsnd by (by vm_compute).
  assert (length alice_renewed.1 = 2%nat) as Hlen by (by vm_compute).
  assert (w_now alice_again.2 < 1700604800000000000 - time_Millisecond) as Htime by (by vm_compute).
  assert (jwt_verify alice_refresh (tc_PublicKey (s_tokenCfg sample_service)) = Ok alice_claims) as Hver
    by (by vm_compute).
  assert (sc_ExpiresAt alice_claims = Some 1700604800000000000) as Hexp by (by vm_compute).
  assert (sc_TokenID alice_claims ≠ "") as Hid by (by vm_compute).
  assert (TrimSpace alice_refresh = alice_refresh) as Htrim by (by vm_compute).
  assert (rtc pool_step (serve sample_service sqlite_audit <$> first_calls, with_session)
    (alice_renewed.1, alice_renewed.2)) as Hrun by (rewrite <-surjective_pairing; apply schedule_steps).
  assert (rtc pool_step (alice_renewed.1 ++ (serve sample_service sqlite_audit <$> later_calls),
    alice_renewed.2) (alice_again.1, alice_again.2)) as Hrest
    by (rewrite <-surjective_pairing; apply schedule_steps).
  split; [exact Hfst|]. apply status_answer in Hfst as (a1 & Ha1 & Hok).
  apply status_answer in Hsnd as (a2 & Ha2 & _). exists a2. split; [exact Ha2|].
  refine (session_ends sample_service first_calls later_calls alice_claims _ alice_refresh _ _ _ _ _
    0 1 refresh_alice refresh_alice a1 a2 sample_deployed Hver Hexp Hid _ eq_refl _ eq_refl _
    Hrun Ha1 Hok Hrest _ (or_introl Htime)); [|exact (f_equal Some Htrim)..|by rewrite Hlen].
  repeat constructor;
    [|by apply respects_none|..]; eapply respects_same; first [exact Hexp|exact (f_equal Some Htrim)|exact Hver].
Defined.

(** The operator deletes Bob while Carol registers; then Bob logs in. *)
Definition deleting : list (Ctx * Request) :=
  [(ops_ctx, ReqDeleteUser (mkDeleteUserRequest bob_id));
   (no_ctx, ReqRegisterWithPassword (mkRegisterWithPasswordRequest "carol@example.org" "swordfish"))].
Definition bob_again : list (Ctx * Request) := [(no_ctx, ReqLoginWithPassword (bob_login "hunter2"))].
Definition bob_deleted : list (M (string * result Response)) * World :=
  schedule (repeat 1%nat 3 ++ concat (repeat [0; 1]%nat 4) ++ repeat 0%nat 20)
    (serve sample_service sqlite_audit <$> deleting, bob_and_ops).
Definition bob_refused : list (M (string * result Response)) * World :=
  schedule (concat (repeat [1; 2]%nat 20))
    (bob_deleted.1 ++ (serve sample_service sqlite_audit <$> bob_again), bob_deleted.2).

Lemma deletion_lasts_witness :
  status <$> bob_deleted.1 !! 0%nat = Some (Some true) ∧
  ∃ answer, bob_refused.1 !! 2%nat = Some (Ret answer) ∧ ¬ answered_ok answer.
Proof.
  assert (status <$> bob_deleted.1 !! 0%nat = Some (Some true)) as Hfst by (by vm_compute).
  assert (status <$> bob_refused.1 !! 2%nat = Some (Some false)) as Hsnd by (by vm_compute).
  assert (length bob_deleted.1 = 2%nat) as Hlen by (by vm_compute).
  assert (forallb (λ u, negb (u_ID u == TrimSpace bob_id)%go || (u_Email u == "bob@example.org")%go)
    (db_users (w_db bob_deleted.2)) = true) as Hbob by (by vm_compute).
  assert (rtc pool_step (serve sample_service sqlite_audit <$> deleting, bob_and_ops)
    (bob_deleted.1, bob_deleted.2)) as Hrun by (rewrite <-surjective_pairing; apply schedule_steps).
  assert (rtc pool_step (bob_deleted.1 ++ (serve sample_service sqlite_audit <$> bob_again),
    bob_deleted.2) (bob_refused.1, bob_refused.2)) as Hrest
    by (rewrite <-surjective_pairing; apply schedule_steps).
  split; [exact Hfst|]. apply status_answer in Hfst as (a1 & Ha1 & Hok).
  apply status_answer in Hsnd as (a2 & Ha2 & _). exists a2. split; [exact Ha2|].
  destruct (deletion_lasts sample_service deleting ops_ctx _ bob_and_ops _ _ 0 a1 sample_deployed
    bob_and_ops_ok eq_refl Hrun Ha1 Hok) as (v & Hv & _ & Hid & H).
  refine (H bob_again 0%nat _ _ _ a2 eq_refl _ Hrest _); [|by rewrite Hlen].
  apply list_elem_of_In in Hv. apply (proj1 (forallb_forall _ _) Hbob) in Hv.
  cbn [duq_UserId] in Hid. rewrite (bool_decide_eq_true_2 _ Hid) in Hv.
  apply bool_decide_eq_true in Hv. cbn. by rewrite Hv.
Defined.

(** A service account that can be disabled, and its secret. *)
Definition ci_account : result CreateServiceAccountResponse * World :=
  run (CreateServiceAccount sample_service ops_ctx (mkCreateServiceAccountRequest "ci" ["ci.read"]))
    with_token.
Definition ci_credential : string * string :=
  match ci_account.1 with
  | Ok resp => (sacp_ClientId (csar_Credential resp), sacp_ClientSecret (csar_Credential resp))
  | Err _ => ("", "")
  end.

(** It is disabled while it exchanges its secret, and exchanges it again. *)
Definition exchange_ci : Ctx * Request :=
  (no_ctx, ReqExchangeServiceToken (mkExchangeServiceTokenRequest ci_credential.1 ci_credential.2)).
Definition disabling : list (Ctx * Request) :=
  [(ops_ctx, ReqDisableServiceAccount (mkDisableServiceAccountRequest ci_credential.1)); exchange_ci].
Definition ci_disabled : list (M (string * result Response)) * World :=
  schedule (repeat 1%nat 6 ++ repeat 0%nat 20 ++ repeat 1%nat 20)
    (serve sample_service sqlite_audit <$> disabling, ci_account.2).
Definition ci_refused : list (M (string * result Response)) * World :=
  schedule (repeat 2%nat 20)
    (ci_disabled.1 ++ (serve sample_service sqlite_audit <$> [exchange_ci]), ci_disabled.2).

Lemma ci_account_ok : db_ok (w_db ci_account.2).
Proof.
  exact (proj2 (de_grows _ _ (guarantees_run _ _ with_token (CreateServiceAccount_effect sample_service
    eq_refl eq_refl ops_ctx (mkCreateServiceAccountRequest "ci" ["ci.read"])))) with_token_ok).
Qed.

Lemma disabling_lasts_witness :
  (status <$> ci_disabled.1) = [Some true; Some true] ∧
  ∃ answer, ci_refused.1 !! 2%nat = Some (Ret answer) ∧ ¬ answered_ok answer.
Proof.
  assert ((status <$> ci_disabled.1) = [Some true; Some true]) as Hfst by (by vm_compute).
  assert (status <$> ci_refused.1 !! 2%nat = Some (Some false)) as Hsnd by (by vm_compute).
  assert (length ci_disabled.1 = 2%nat) as Hlen by (by vm_compute).
  assert (rtc pool_step (serve sample_service sqlite_audit <$> disabling, ci_account.2)
    (ci_disabled.1, ci_disabled.2)) as Hrun by (rewrite <-surjective_pairing; apply schedule_steps).
  assert (rtc pool_step (ci_disabled.1 ++ (serve sample_service sqlite_audit <$> [exchange_ci]),
    ci_disabled.2) (ci_refused.1, ci_refused.2)) as Hrest
    by (rewrite <-surjective_pairing; apply schedule_steps).
  split; [exact Hfst|].
  assert (status <$> ci_disabled.1 !! 0%nat = Some (Some true)) as Hone
    by (by rewrite <-list_lookup_fmap, Hfst).
  apply status_answer in Hone as (a1 & Ha1 & Hok).
  apply status_answer in Hsnd as (a2 & Ha2 & _). exists a2. split; [exact Ha2|].
  refine (disabling_lasts sample_service disabling [exchange_ci] ops_ctx _ ci_account.2 _ _ _ _ 0 0 _ a1
    a2 sample_deployed ci_account_ok eq_refl Hrun Ha1 Hok eq_refl eq_refl Hrest _).
  by rewrite Hlen.
Defined.
End instances.
