(* ===== verification/Startup.v ===== *)
(** * Starting the server, internal/app

    From a configuration to a running service: opening and migrating the
    database, bootstrapping the configured account, loading the signing key,
    connecting the Redis stores and the mailer, and closing the database again when
    a later step fails. *)

From S2P Require Import Prelude GoStrings Paths Prog Host Data Config Messages Platform.
From S2P Require Import RefPlatform SqliteQueries Migrations Smtp KeyManager World Machine Tokens.
From S2P Require Import TokenKeys Interfaces RateLimiter Revocation EmailCode OAuthStates.
From S2P Require Import SqliteStores ServiceAccount SqliteAccounts SqliteAudit App Server.
#[local] Open Scope Z_scope.

Section startup.
Context `{P : Platform} `{O : OS} `{SM : SMTP}.

(** ** The mailer, internal/app/mailer.go *)

(** The mail server took the message: it answered the text with success. *)
Definition is_message (c : smtp_command) : bool :=
  match c with CmdMessage _ => true | _ => false end.
Definition delivered (n : nat) (s : Session) : bool :=
  existsb (λ ic, is_message ic.2.2 && is_None (smtp_reply ic.1))
    (zip (seq n (length (se_log s))) (se_log s)).

(** smtpMailerAdapter: one dialogue with the mail server. *)
Definition smtpMailerAdapter (config : SmtpConfig) : EmailSender :=
  mkEmailSender (λ message, act (λ w,
    let '(r, s) := run (SendEmail config message) (new_session (w_step w)) in
    (r, tick (if delivered (w_step w) s then set_mail (message :: w_mail w) w else w)))).

Definition buildMailer (cfg : SmtpConfig) : option EmailSender :=
  if blank (mc_Host cfg) then None else Some (smtpMailerAdapter cfg).

(** ** sqlite.Open, internal/store/sqlite/database.go *)

Definition sqlite_Open (cfg : SqliteConfig) : MM (result unit) :=
  try _ := Ret (SqliteConfig_Validate cfg) in
  let dir := Dir (sl_Path cfg) in
  try _ := if (dir == ".")%go then Ret (Ok tt) else on_host (os_MkdirAll dir)
    catch wrap_with "create sqlite database directory" in
  try _ := sql_Open catch wrap_with "open sqlite database" in
  try _ := db_Ping catch λ err, _ ← db_Close; wrap_with "ping sqlite database" err in
  try _ := on_file (applyMigrations migrationFiles) catch λ err, _ ← db_Close; Ret (Err err) in
  Ret (Ok tt).

(** ** internal/app/stores.go *)

Definition buildStores (cfg : PersistenceConfig) : MM (result Stores) :=
  if negb (repository_supported (pc_Type cfg))
  then Ret (Err (errors_New ("unsupported user repository type: " +:+ pc_Type cfg))) else
  try _ := sqlite_Open (pc_SQLite cfg) catch wrap_with "failed to initialize sqlite database" in
  Ret (Ok sqlite_stores).

(** ** internal/app/identra.go

    The version, commit and date of the build are parameters (internal/buildinfo
    has them set by the linker). *)

Context (version commit date : string).

Definition buildIdentraDependencies (cfg : GRPCConfig) : MM (result Dependencies) :=
  let mailer := buildMailer (gc_SmtpMailer cfg) in
  try stores := buildStores (gc_Persistence cfg) in
  try _ := on_world (bootstrapServiceAccount (gc_Bootstrap cfg) (st_accounts stores))
    catch λ err, _ ← st_cleanup stores; Ret (Err err) in
  try keys := on_host (buildTokenKeys (gc_Auth cfg))
    catch λ err, _ ← st_cleanup stores; Ret (Err err) in
  (* the service will share the manager *)
  _ ← on_world (act (λ w, (tt, set_keys (tk_manager keys) w)));
  try redisDeps := Ret (buildRedisDependencies (gc_Redis cfg) (auc_OAuth (gc_Auth cfg)))
    catch λ err, _ ← st_cleanup stores; Ret (Err err) in
  Ret (Ok (assemble stores redisDeps (auc_OAuth (gc_Auth cfg)) (tk_tokenConfig keys) mailer
             (buildServerInfo version commit date))).

Definition app_NewService (cfg : GRPCConfig) : MM (result Service) :=
  try _ := Ret (GRPCConfig_Validate cfg) catch wrap_with "invalid gRPC config" in
  try deps := buildIdentraDependencies cfg in
  Ret (NewService deps).
End startup.

(** ** What a start establishes *)

Section spec.
Context `{P : Platform} `{O : OS} `{SM : SMTP}.

Lemma wp_on_host {A} (p : HostM A) Q m : wp p (λ a h, Q a (set_host h m)) (ma_host m) → wp (on_host p) Q m.
Proof. apply wp_zoom; [done|done|by intros []]. Qed.
Lemma wp_on_file {A} (p : prog DbFile A) Q m :
  wp p (λ a d, Q a (set_file d m)) (ma_file m) → wp (on_file p) Q m.
Proof. apply wp_zoom; [done|done|by intros []]. Qed.
Lemma wp_on_world {A} (p : M A) Q m :
  wp p (λ a w, Q a (set_world w m)) (ma_world m) → wp (on_world p) Q m.
Proof. apply wp_zoom; [done|done|by intros []]. Qed.

Lemma wp_any {W A} (p : prog W A) Q w : (∀ a w', run p w = (a, w') → Q a w') → wp p Q w.
Proof. intros H. unfold wp. destruct (run p w) as [a w'] eqn:Hr. by apply H. Qed.

(** What migrating does to a file at any version. *)
Definition upgrades (d d' : DbFile) : Prop :=
  ∀ v, 0 ≤ v ≤ CurrentSchemaVersion → at_version v d → between v d'.
Definition upgraded (d d' : DbFile) : Prop :=
  ∀ v, 0 ≤ v ≤ CurrentSchemaVersion → at_version v d → at_version CurrentSchemaVersion d'.

#[export] Instance upgrades_refl : Reflexive upgrades.
Proof. intros d v Hv Hd. exists v. split; [lia|done]. Qed.

Lemma upgraded_upgrades d d' : upgraded d d' → upgrades d d'.
Proof. intros H v Hv Hd. exists CurrentSchemaVersion. split; [lia|by apply (H v)]. Qed.

Lemma upgrades_same d d1 d2 : upgrades d d1 → same_file d1 d2 → upgrades d d2.
Proof.
  intros H Hs v Hv Hd. destruct (H v Hv Hd) as (v' & Hv' & Hat).
  exists v'. split; [done|by eapply at_version_same].
Qed.

Lemma wp_migrations d :
  wp (applyMigrations migrationFiles)
    (λ r d', upgrades d d' ∧ (is_Ok r = true → upgraded d d')) d.
Proof.
  apply wp_any. intros r d' Hr.
  assert (∀ v, 0 ≤ v ≤ CurrentSchemaVersion → at_version v d → match r with
    | Ok _ => at_version CurrentSchemaVersion d' | Err _ => between v d' ∧ ¬ calm_file end) as H.
  { intros v Hv Hd. pose proof (proj2 (wpc_applyMigrations v d Hv Hd)) as Hw.
    unfold wp in Hw. by rewrite Hr in Hw. }
  destruct r as [u|e]; (split; [|try done]).
  - by apply upgraded_upgrades.
  - intros v Hv Hd. by apply (H v).
Qed.

(** Connections and the file after the steps that open the database. *)
Definition opens {A} (m : Machine) (r : result A) (m' : Machine) : Prop :=
  upgrades (ma_file m) (ma_file m') ∧
  match r with
  | Ok _ => ma_open m' = ma_open m + 1 ∧ upgraded (ma_file m) (ma_file m')
  | Err _ => ma_open m' = ma_open m
  end.

Lemma wp_sql_Open m :
  wp sql_Open (λ r m', same_file (ma_file m) (ma_file m') ∧
    ma_open m' = ma_open m + (if is_Ok r then 1 else 0)) m.
Proof.
  unfold sql_Open. apply wp_act. destruct (env_fault _); cbn; (split; [done|lia]).
Qed.

Lemma wp_db_Ping m :
  wp db_Ping (λ r m', same_file (ma_file m) (ma_file m') ∧ ma_open m' = ma_open m) m.
Proof.
  apply wp_on_file. unfold file_call. apply wp_act. destruct (env_fault _) as [ft|]; [|done].
  by destruct (fault_applied ft).
Qed.

Lemma wp_sqlite_Open cfg m : wp (sqlite_Open cfg) (λ r m', opens m r m') m.
Proof.
  unfold sqlite_Open. apply wp_try, wp_ret. destruct (SqliteConfig_Validate cfg) as [_|e]; [|by split].
  apply wp_catch. apply (wp_mono _ (λ _ m1, ma_file m1 = ma_file m ∧ ma_open m1 = ma_open m)).
  { destruct (bool_decide _); [by apply wp_ret|]. apply wp_on_host, wp_any. done. }
  intros [_|e] m1 [Hf1 Ho1]; [|apply wp_ret; split; [by rewrite Hf1|done]].
  apply wp_catch. eapply wp_mono; [apply wp_sql_Open|]. rewrite Hf1, Ho1.
  intros [u|e] m2 [Hs2 Ho2]; cbn [is_Ok] in Ho2.
  2: { apply wp_ret. split; [by eapply upgrades_same|by rewrite Ho2, Z.add_0_r]. }
  apply wp_catch. eapply wp_mono; [apply wp_db_Ping|]. intros [_|e] m3 [Hs3 Ho3].
  2: { apply wp_mbind. unfold db_Close. apply wp_act, wp_ret. cbn. split.
       - eapply upgrades_same; [|exact Hs3]. by eapply upgrades_same.
       - cbn. lia. }
  assert (same_file (ma_file m) (ma_file m3)) as Hs by (destruct Hs2, Hs3; split; congruence).
  apply wp_catch, wp_on_file. eapply wp_mono; [apply wp_migrations|].
  assert (∀ d v, at_version v (ma_file m) → at_version v (ma_file m3)) as Hat
    by (intros; by eapply at_version_same).
  intros [u'|e] d [Hup Hok].
  - apply wp_ret. assert (upgraded (ma_file m) d) as Hu.
    { intros v Hv Hd. apply (Hok eq_refl v Hv). by eapply at_version_same. }
    split; [by apply upgraded_upgrades|]. split; [cbn; lia|done].
  - apply wp_mbind. unfold db_Close. apply wp_act, wp_ret. cbn. split.
    + intros v Hv Hd. apply (Hup v Hv). by eapply at_version_same.
    + cbn. lia.
Qed.

Lemma wp_buildStores cfg m :
  wp (buildStores cfg) (λ r m', opens m r m' ∧ match r with
    | Ok st => st = sqlite_stores
    | Err _ => True end) m.
Proof.
  unfold buildStores. destruct (repository_supported _); [|by apply wp_ret].
  apply wp_catch. eapply wp_mono; [apply wp_sqlite_Open|]. intros [u|e] m1 H; by apply wp_ret.
Qed.

(** A step that fails once the database is open closes it again. *)
Lemma wp_close_and_fail {A} m m1 (err : error) (Q : result A → Machine → Prop) :
  opens m (Ok tt) m1 → (∀ m', opens (A:=A) m (Err err) m' → Q (Err err) m') →
  wp (_ ← db_Close; Ret (Err err)) Q m1.
Proof.
  intros (Hup & Ho & _) HQ. apply wp_mbind. unfold db_Close. apply wp_act, wp_ret, HQ.
  split; [by eapply upgrades_same|cbn; lia].
Qed.

Lemma adapter_mail_only config msg :
  guarantees mail_only (em_SendEmail (smtpMailerAdapter config) msg).
Proof.
  apply guarantees_op. intros w. destruct (run (SendEmail config msg) _) as [r s]. cbn.
  destruct (delivered _ _); [apply mail_only_sent|apply tick_closed].
Qed.

Context (version commit date : string).

(** The token configuration of a started server: the key the manager serves,
    and the lifetimes of the configuration. *)
Definition tokens_of (cfg : GRPCConfig) (km : KeyManager) : Tokens.TokenConfig :=
  let token := auc_Token (gc_Auth cfg) in
  mkTokenConfig (GetPrivateKey km) (GetPublicKey km) (GetKeyID km) (tkc_Issuer token)
    (tkc_AccessTokenExpiration token) (tkc_RefreshTokenExpiration token)
    (tkc_ServiceTokenExpiration token).

Definition assembled (cfg : GRPCConfig) (deps : Dependencies) (m : Machine) : Prop :=
  let oauth := auc_OAuth (gc_Auth cfg) in
  ∃ redis keys, buildRedisDependencies (gc_Redis cfg) oauth = Ok redis ∧
    deps = assemble sqlite_stores redis oauth keys (buildMailer (gc_SmtpMailer cfg))
             (buildServerInfo version commit date) ∧
    keys = tokens_of cfg (w_keys (ma_world m)) ∧ token_keys_present keys = true.

Lemma wp_buildIdentraDependencies cfg m :
  wp (buildIdentraDependencies version commit date cfg)
    (λ r m', opens m r m' ∧ match r with Ok deps => assembled cfg deps m' | Err _ => True end) m.
Proof.
  unfold buildIdentraDependencies. apply wp_try. eapply wp_mono; [apply wp_buildStores|].
  intros [st|e] m1 [Hm1 Hst]; [|done]. subst st. cbn [st_accounts st_cleanup].
  assert (∀ m2, ma_file m2 = ma_file m1 → ma_open m2 = ma_open m1 → opens m (Ok tt) m2) as Hopen.
  { intros m2 Hf Ho. destruct Hm1 as (Hup & Hopen & Hu). unfold opens. by rewrite Hf, Ho. }
  apply wp_catch, wp_on_world, wp_any. intros [_|e] w1 _.
  2: { eapply wp_close_and_fail; [by apply Hopen|done]. }
  apply wp_catch, wp_on_host, wp_any. intros [keys|e] h1 Hkeys.
  2: { eapply wp_close_and_fail; [by apply Hopen|done]. }
  apply buildTokenKeys_Ok_inv in Hkeys as (sk & pk & Hsk & Hpk & Hcfg).
  apply wp_mbind, wp_on_world, wp_act. cbn [fst snd]. set (m2 := set_world _ _).
  apply wp_catch, wp_ret. destruct (buildRedisDependencies _ _) as [redis|e] eqn:Hredis.
  2: { eapply wp_close_and_fail; [by apply Hopen|done]. }
  apply wp_ret. split; [by apply (Hopen m2)|]. exists redis, (tk_tokenConfig keys).
  split; [done|]. split; [done|]. split; [by rewrite Hcfg|].
  unfold token_keys_present. by rewrite Hsk, Hpk.
Qed.

Lemma NewService_assemble redis oauth keys mailer info :
  token_keys_present keys = true →
  ∃ s, NewService (assemble sqlite_stores redis oauth keys mailer info) = Ok s ∧ s_tokenCfg s = keys.
Proof. intros Hk. unfold NewService, assemble. cbn. rewrite Hk. by eexists. Qed.

(** What starting the service does. *)
Definition started (cfg : GRPCConfig) (m : Machine) (r : result Service) (m' : Machine) : Prop :=
  upgrades (ma_file m) (ma_file m') ∧
  match r with
  | Ok s =>
      valid_config cfg ∧ deployed s ∧ s_tokenCfg s = tokens_of cfg (w_keys (ma_world m')) ∧
      ma_open m' = ma_open m + 1 ∧ upgraded (ma_file m) (ma_file m')
  | Err _ => ma_open m' = ma_open m
  end.

Lemma wp_app_NewService cfg m :
  wp (app_NewService version commit date cfg) (started cfg m) m.
Proof.
  unfold app_NewService. apply wp_catch, wp_ret.
  destruct (GRPCConfig_Validate cfg) as [[]|e] eqn:Hv; [|by apply wp_ret].
  apply wp_try. eapply wp_mono; [apply wp_buildIdentraDependencies|].
  intros [deps|e] m' [[Hup Ho] Hd]; [|done].
  destruct Hd as (redis & keys & Hredis & -> & Hkeys & Hpresent). apply wp_ret.
  destruct (NewService_assemble redis (auc_OAuth (gc_Auth cfg)) keys (buildMailer (gc_SmtpMailer cfg))
    (buildServerInfo version commit date) Hpresent) as (s & Hs & Htok). rewrite Hs.
  split; [done|]. destruct Ho as [Ho Hu]. split_and!; [|econstructor; [done|done|]|congruence|done|done].
  - by apply GRPCConfig_valid.
  - intros mailer msg. unfold buildMailer. destruct (blank _); [done|]. intros [= <-].
    apply adapter_mail_only.
Qed.

(** Closing a started service gives its connection back. *)
Lemma Close_run s m :
  deployed s → ∃ m', run (Close s) m = (Ok tt, m') ∧ ma_open m' = ma_open m - 1.
Proof.
  intros Hd. unfold Close. rewrite (deployed_cleanup s Hd). by eexists.
Qed.
End spec.

(** ** Properties *)

Section properties.
Context `{P : Platform} `{O : OS} `{SM : SMTP}.
Context (version commit date : string).

(** C7.  Starting the server either gives a service, or leaves the database closed.
    A service is only started for a configuration that is valid; it is then the
    deployed service of the model (so what is proved of every request applies to
    it), it signs with the key its key manager serves and the configured
    lifetimes, one connection is open, and the database is at the current schema
    version; whatever happens, a file at a known version stays at one. *)
Theorem app_NewService_spec cfg m :
  let '(r, m') := run (app_NewService version commit date cfg) m in
  upgrades (ma_file m) (ma_file m') ∧
  match r with
  | Ok s =>
      valid_config cfg ∧ deployed s ∧ s_tokenCfg s = tokens_of cfg (w_keys (ma_world m')) ∧
      ma_open m' = ma_open m + 1 ∧ upgraded (ma_file m) (ma_file m')
  | Err _ => ma_open m' = ma_open m
  end.
Proof. exact (wp_app_NewService version commit date cfg m). Qed.
End properties.
