(* ===== verification/Cli.v ===== *)
(** * The identra command, cmd/identra

    Its sub-commands, from the arguments to what is printed: the server, the
    offline bootstrap, and the clients of the service-account, audit and system
    RPCs.  A call over a gRPC connection, the rendering of a response as JSON, the
    help text of package flag and what happens to the listening server are operations
    of the class [Outside]. *)

From S2P Require Import Prelude GoStrings Paths Flags Prog Host Data Config AppInit Messages.
From S2P Require Import Platform RefPlatform SqliteQueries Migrations Smtp KeyManager World.
From S2P Require Import Machine Tokens TokenKeys Interfaces SqliteStores ServiceAccount.
From S2P Require Import SqliteAccounts SqliteAudit App ConfiguredBootstrap Server Startup.
#[local] Open Scope Z_scope.

(** A call a client makes. *)
Record Call := mkCall {
  call_Endpoint : string;
  call_TLS : bool;
  call_Timeout : Z;
  call_Authorization : option string;
  call_Request : Request;
}.

(** What a serving process waits for: grpcServer.Serve returns, a signal
    arrives, GracefulStop returns, its ten seconds are over.  The order of events is
    the one in which the selects of the main loop take them. *)
Inductive ServeEvent :=
  | EvServeReturned (err : option error)
  | EvSignal
  | EvGracefulStopped
  | EvTimeout.

Definition ErrServerStopped : error := errors_New "grpc: the server has been stopped".

Class Outside `{P : Platform} := {
  os_Getwd : result string;
  grpc_NewClient : string → bool → result unit;
  grpc_Invoke : Call → prog Machine (result Response);
  protojson_Marshal : Response → result string;
  json_Encode_result : BootstrapResult → string;
  flag_Usage : string → FlagSet → string;
  net_Listen : Z → result unit;
  serve_events : list ServeEvent;
}.

(** ** The serving loop of main.go's serve *)

(** The outcome, and whether the server had to be stopped by force. *)
Definition served (forced : bool) (err : option error) : result unit * bool :=
  (match err with
   | None => Ok tt
   | Some e => if errors_Is e ErrServerStopped then Ok tt else Err (fmt_Errorf "serve gRPC" e)
   end, forced).

(** <-serveErr, a channel with room for one value. *)
Fixpoint await_serve (forced : bool) (pending : option (option error)) (events : list ServeEvent)
    : option (result unit * bool) :=
  match pending, events with
  | Some err, _ => Some (served forced err)
  | None, [] => None
  | None, EvServeReturned err :: _ => Some (served forced err)
  | None, _ :: events => await_serve forced None events
  end.

(** After a signal: until GracefulStop is done or its time is up. *)
Fixpoint draining (pending : option (option error)) (events : list ServeEvent)
    : option (result unit * bool) :=
  match events with
  | [] => None
  | EvGracefulStopped :: events => await_serve false pending events
  | EvTimeout :: events => await_serve true pending events
  | EvServeReturned err :: events =>
      draining (match pending with Some p => Some p | None => Some err end) events
  | EvSignal :: events => draining pending events
  end.

(** [None]: still serving. *)
Fixpoint serving (events : list ServeEvent) : option (result unit * bool) :=
  match events with
  | [] => None
  | EvServeReturned err :: _ => Some (served false err)
  | EvSignal :: events => draining None events
  | _ :: events => serving events
  end.

Section cli.
Context `{P : Platform} `{HO : OS} `{SM : SMTP} `{V : !Viper} `{FT : FlagText} `{X : !Outside}.
Context (version commit date : string).


Definition stdout (text : string) : MM (result unit) := on_host (write_stdout text).
Definition stderr (text : string) : MM (result unit) := on_host (write_stderr text).
Definition newline : string := String (Ascii.ascii_of_nat 10) "".

Definition usage : string :=
  "Usage:
  identra serve
  identra bootstrap service-account --name NAME --scope SCOPE [--scope SCOPE...]
  identra token service --client-id ID [--client-secret-file FILE]
  identra service-account create|list|disable|rotate [options]
  identra audit list [options]
  identra server-info [options]
  identra version
".

Definition printUsage (write : string → MM (result unit)) : MM (result unit) := write usage.

(** ** Flags *)

Definition flag_string (fs : FlagSet) (name : string) : string :=
  match fs !! name with Some (FString s) => s | _ => "" end.
Definition flag_bool (fs : FlagSet) (name : string) : bool :=
  match fs !! name with Some (FBool b) => b | _ => false end.
Definition flag_uint (fs : FlagSet) (name : string) : Z :=
  match fs !! name with Some (FUint z) => z | _ => 0 end.
Definition flag_duration (fs : FlagSet) (name : string) : Z :=
  match fs !! name with Some (FDuration z) => z | _ => 0 end.
Definition flag_list (fs : FlagSet) (name : string) : list string :=
  match fs !! name with Some (FList l) => l | _ => [] end.

(** flags.Parse with ContinueOnError: an error and the usage go to the
    standard error. *)
Definition parse_flags (name : string) (flags : FlagSet) (args : list string)
    : MM (result (FlagSet * list string)) :=
  match Parse flags args with
  | Ok r => Ret (Ok r)
  | Err err =>
      _ ← stderr ((if decide (err = ErrHelp) then "" else error_Error err +:+ newline) +:+
                  flag_Usage name flags);
      Ret (Err err)
  end.

Definition no_arguments (rest : list string) : result unit :=
  match rest with
  | [] => Ok tt
  | _ => Err (errors_New ("unexpected arguments: " +:+ Join rest " "))
  end.

(** ** service_account_commands.go *)

Definition defaultEndpoint : string := "localhost:50051".

Definition addGRPCClientFlags : FlagSet :=
  let endpointDefault := TrimSpace (os_env "IDENTRA_ENDPOINT") in
  {["endpoint" := FString (if (endpointDefault == "")%go then defaultEndpoint else endpointDefault);
    "tls" := FBool false;
    "timeout" := FDuration (15 * time_Second)]}.

Definition connect (fs : FlagSet) : result unit :=
  if blank (flag_string fs "endpoint") then Err (errors_New "endpoint is required")
  else wrapped_result "create gRPC client"
         (grpc_NewClient (flag_string fs "endpoint") (flag_bool fs "tls")).

(** A call on the connection of [fs]. *)
Definition invoke (fs : FlagSet) (authorization : option string) (req : Request)
    : MM (result Response) :=
  grpc_Invoke (mkCall (flag_string fs "endpoint") (flag_bool fs "tls") (flag_duration fs "timeout")
                 authorization req).

Definition writeProtoJSON (message : Response) : MM (result unit) :=
  match protojson_Marshal message with
  | Err err => wrap_with "encode response" err
  | Ok value => stdout (value +:+ newline)
  end.

Definition readSecret (path environmentName : string) : MM (result string) :=
  if negb (blank path) then
    try value := on_host (os_ReadFile path) catch wrap_with "read secret file" in
    let secret := TrimSpace value in
    Ret (if negb (secret == "")%go then Ok secret else Err (errors_New "secret file is empty"))
  else
    let secret := TrimSpace (os_env environmentName) in
    Ret (if negb (secret == "")%go then Ok secret
         else Err (errors_New ("secret is required through --token-file/--client-secret-file or " +:+
                               environmentName))).

Definition runTokenCommand (args : list string) : MM (result unit) :=
  let usage_error := Ret (Err (errors_New "usage: identra token service --client-id ID [--client-secret-file FILE]")) in
  match args with
  | [] => usage_error
  | command :: rest =>
      if negb (command == "service")%go then usage_error else
      let flags := <["client-id" := FString (TrimSpace (os_env "IDENTRA_CLIENT_ID"))]>
                     (<["client-secret-file" := FString ""]> addGRPCClientFlags) in
      try (fs, extra) := parse_flags "token service" flags rest in
      try _ := Ret (no_arguments extra) in
      try secret := readSecret (flag_string fs "client-secret-file") "IDENTRA_CLIENT_SECRET" in
      if blank (flag_string fs "client-id") then Ret (Err (errors_New "client ID is required")) else
      try _ := Ret (connect fs) in
      try response := invoke fs None (ReqExchangeServiceToken
          (mkExchangeServiceTokenRequest (flag_string fs "client-id") secret))
        catch wrap_with "exchange service token" in
      writeProtoJSON response
  end.

Definition bearer (token : string) : string := "Bearer " +:+ token.

Definition callServiceAccountRPC (fs : FlagSet) (extra : list string) (req : Request)
    : MM (result Response) :=
  try _ := Ret (no_arguments extra) in
  try token := readSecret (flag_string fs "token-file") "IDENTRA_SERVICE_TOKEN" in
  try _ := Ret (connect fs) in
  try response := invoke fs (Some (bearer token)) req catch wrap_with "service-account RPC" in
  Ret (Ok response).

Definition token_file_flags : FlagSet := <["token-file" := FString ""]> addGRPCClientFlags.

Definition runServiceAccountCreate (args : list string) : MM (result unit) :=
  let flags := <["name" := FString ""]> (<["scope" := FList []]> token_file_flags) in
  try (fs, extra) := parse_flags "service-account create" flags args in
  try response := callServiceAccountRPC fs extra (ReqCreateServiceAccount
    (mkCreateServiceAccountRequest (flag_string fs "name") (flag_list fs "scope"))) in
  writeProtoJSON response.

Definition runServiceAccountList (args : list string) : MM (result unit) :=
  try (fs, extra) := parse_flags "service-account list" token_file_flags args in
  try response := callServiceAccountRPC fs extra (ReqListServiceAccounts mkListServiceAccountsRequest) in
  writeProtoJSON response.

Definition runServiceAccountByID (command : string) (args : list string) (req : string → Request)
    : MM (result unit) :=
  let flags := <["client-id" := FString ""]> token_file_flags in
  try (fs, extra) := parse_flags ("service-account " +:+ command) flags args in
  try response := callServiceAccountRPC fs extra (req (TrimSpace (flag_string fs "client-id"))) in
  writeProtoJSON response.

Definition runServiceAccountDisable (args : list string) : MM (result unit) :=
  runServiceAccountByID "disable" args
    (λ clientID, ReqDisableServiceAccount (mkDisableServiceAccountRequest clientID)).

Definition runServiceAccountRotate (args : list string) : MM (result unit) :=
  runServiceAccountByID "rotate" args
    (λ clientID, ReqRotateServiceAccountSecret (mkRotateServiceAccountSecretRequest clientID)).

Definition runServiceAccountCommand (args : list string) : MM (result unit) :=
  match args with
  | [] => Ret (Err (errors_New "usage: identra service-account create|list|disable|rotate"))
  | command :: rest =>
      if (command == "create")%go then runServiceAccountCreate rest
      else if (command == "list")%go then runServiceAccountList rest
      else if (command == "disable")%go then runServiceAccountDisable rest
      else if (command == "rotate")%go then runServiceAccountRotate rest
      else Ret (Err (errors_New ("unknown service-account command " +:+ Quote command)))
  end.

(** ** management_commands.go *)

Definition runAuditCommand (args : list string) : MM (result unit) :=
  let usage_error := Ret (Err (errors_New "usage: identra audit list [--page-size N] [--page-token TOKEN]")) in
  match args with
  | [] => usage_error
  | command :: rest =>
      if negb (command == "list")%go then usage_error else
      let flags := <["page-size" := FUint 50]> (<["page-token" := FString ""]> token_file_flags) in
      try (fs, extra) := parse_flags "audit list" flags rest in
      try _ := Ret (no_arguments extra) in
      try token := readSecret (flag_string fs "token-file") "IDENTRA_SERVICE_TOKEN" in
      try _ := Ret (connect fs) in
      try response := invoke fs (Some (bearer token)) (ReqListAuditEvents
          (mkListAuditEventsRequest (flag_uint fs "page-size" mod 2 ^ 32)
             (TrimSpace (flag_string fs "page-token"))))
        catch wrap_with "list audit events" in
      writeProtoJSON response
  end.

Definition runServerInfoCommand (args : list string) : MM (result unit) :=
  try (fs, extra) := parse_flags "server-info" addGRPCClientFlags args in
  try _ := Ret (no_arguments extra) in
  try _ := Ret (connect fs) in
  try response := invoke fs None (ReqGetServerInfo mkGetServerInfoRequest)
    catch wrap_with "get server info" in
  writeProtoJSON response.

(** ** main.go *)

(** The text after a bootstrap, by output format. *)
Definition bootstrap_text (output : string) (result : BootstrapResult) : string :=
  let account := bs_Account result in
  if (output == "json")%go then json_Encode_result result
  else if negb (bs_Created result)
  then "Service account " +:+ Quote (ac_Name account) +:+ " already exists (client_id: " +:+
       ac_ID account +:+ "); no new secret was created." +:+ newline
  else "Service account created. Store the client secret now; it will not be shown again." +:+
       newline +:+ newline +:+
       "client_id:     " +:+ ac_ID account +:+ newline +:+
       "client_secret: " +:+ bs_ClientSecret result +:+ newline +:+
       "scopes:        " +:+ Join (ac_Scopes account) ", " +:+ newline.

Definition bootstrap_flags : FlagSet :=
  {["name" := FString ""; "if-not-exists" := FBool false; "force" := FBool false;
    "output" := FString "human"; "scope" := FList []]}.

Definition bootstrap_request (fs : FlagSet) : BootstrapRequest :=
  mkBootstrapRequest (flag_string fs "name") (flag_list fs "scope") "" ""
    (flag_bool fs "if-not-exists") (flag_bool fs "force").

(** From the open database on; the deferred Close follows. *)
Definition bootstrap_and_print (fs : FlagSet) : MM (result unit) :=
  try result := on_world (Bootstrap sqlite_accounts (bootstrap_request fs)) in
  stdout (bootstrap_text (flag_string fs "output") result).

(** defer: [after] runs whatever [m] gives. *)
Definition deferred {A} (after : MM (result unit)) (m : MM A) : MM A :=
  a ← m; _ ← after; Ret a.

Definition runBootstrap (args : list string) : MM (result unit) :=
  let usage_error := Ret (Err (errors_New "usage: identra bootstrap service-account --name NAME --scope SCOPE")) in
  match args with
  | [] => usage_error
  | command :: rest =>
      if negb (command == "service-account")%go then usage_error else
      try (fs, extra) := parse_flags "bootstrap service-account" bootstrap_flags rest in
      try _ := Ret (no_arguments extra) in
      if negb (flag_string fs "output" == "human")%go && negb (flag_string fs "output" == "json")%go
      then Ret (Err (errors_New "output must be human or json")) else
      try app := on_host (InitE os_Getwd "bootstrap") catch wrap_with "initialize application" in
      let persistence := LoadPersistence (app_config app) in
      try _ := Ret (PersistenceConfig_Validate persistence)
        catch wrap_with "invalid persistence config" in
      try _ := sqlite_Open (pc_SQLite persistence) in
      deferred db_Close (bootstrap_and_print fs)
  end.

(** [None] while the server is running.  The requests it answers meanwhile are
    those of Server.v. *)
Definition listen_and_serve (cfg : GRPCConfig) : option (result unit) :=
  match net_Listen (gc_GRPCPort cfg) with
  | Err err => Some (Err (fmt_Errorf "listen on gRPC port" err))
  | Ok _ => fst <$> serving serve_events
  end.

Definition run_server (cfg : GRPCConfig) (authService : Service) : MM (option (result unit)) :=
  match listen_and_serve cfg with
  | None => Ret None
  | Some res => deferred (Close authService) (Ret (Some res))
  end.

Definition done {A} (m : MM A) : MM (option A) := a ← m; Ret (Some a).

Definition serve_command : MM (option (result unit)) :=
  try app := on_host (InitE os_Getwd "serve") catch λ err, done (wrap_with "initialize application" err) in
  let cfg := LoadGRPC (app_config app) in
  try _ := Ret (GRPCConfig_Validate cfg) catch λ err, done (wrap_with "invalid gRPC config" err) in
  try authService := app_NewService version commit date cfg
    catch λ err, done (wrap_with "create identra service" err) in
  run_server cfg authService.

Definition version_text : string :=
  "identra " +:+ version +:+ " (commit " +:+ commit +:+ ", built " +:+ date +:+ ")" +:+ newline.

Definition run_command (args : list string) : MM (option (result unit)) :=
  match args with
  | [] =>
      done (try _ := printUsage stderr in Ret (Err (errors_New "a command is required")))
  | command :: rest =>
      let is_cmd s := (command == s)%go in
      if is_cmd "serve" then
        match rest with
        | [] => serve_command
        | _ => done (Ret (Err (errors_New "serve does not accept arguments")))
        end
      else if is_cmd "bootstrap" then done (runBootstrap rest)
      else if is_cmd "token" then done (runTokenCommand rest)
      else if is_cmd "service-account" then done (runServiceAccountCommand rest)
      else if is_cmd "audit" then done (runAuditCommand rest)
      else if is_cmd "server-info" then done (runServerInfoCommand rest)
      else if is_cmd "version" || is_cmd "--version" || is_cmd "-v" then done (stdout version_text)
      else if is_cmd "help" || is_cmd "--help" || is_cmd "-h" then done (printUsage stdout)
      else done (try _ := printUsage stderr in
                 Ret (Err (errors_New ("unknown command " +:+ Quote command))))
  end.

(** What the process exits with, once it does. *)
Definition main (args : list string) : MM (option Z) :=
  res ← run_command args;
  match res with
  | None => Ret None
  | Some (Ok _) => Ret (Some 0)
  | Some (Err err) => _ ← stderr ("identra: " +:+ error_Error err +:+ newline); Ret (Some 1)
  end.
End cli.

(** ** The serving loop *)

(** What Serve returned first. *)
Definition returned (e : ServeEvent) : option (option error) :=
  match e with EvServeReturned err => Some err | _ => None end.
Definition first_return (events : list ServeEvent) : option (option error) :=
  head (omap returned events).

(** A signal, and the ten seconds over before GracefulStop was done. *)
Definition overdue (events : list ServeEvent) : Prop :=
  ∃ before wait after, events = before ++ EvSignal :: wait ++ EvTimeout :: after ∧
    EvGracefulStopped ∉ wait.

Lemma served_forced f f' err : (served f err).1 = (served f' err).1.
Proof. by destruct err. Qed.

(** What is received: the value already sent, else the first one to come. *)
Definition received (pending : option (option error)) (events : list ServeEvent) :=
  match pending with Some err => Some err | None => first_return events end.

Lemma await_serve_spec forced pending events :
  await_serve forced pending events = served forced <$> received pending events.
Proof.
  revert pending. induction events as [|e events IH]; intros [err|]; try done.
  destruct e; cbn [await_serve]; rewrite ?IH; done.
Qed.

Lemma draining_spec pending events r forced :
  draining pending events = Some (r, forced) →
  ∃ err, received pending events = Some err ∧ (r, forced) = served forced err ∧
    (forced = true → ∃ wait after, events = wait ++ EvTimeout :: after ∧ EvGracefulStopped ∉ wait).
Proof.
  revert pending. induction events as [|e events IH]; intros pending; [done|].
  assert (∀ f, served f <$> received pending events = Some (r, forced) →
    f = forced ∧ ∃ err, received pending events = Some err ∧ (r, forced) = served forced err) as Hs.
  { intros f Hf. destruct (received pending events) as [err|]; [|done].
    apply (inj Some) in Hf. pose proof (f_equal snd Hf) as Hff. cbn [served snd] in Hff. subst f.
    split; [done|]. by exists err. }
  destruct e; cbn [draining]; rewrite ?await_serve_spec.
  - intros (err' & Hr & Hf & Hw)%IH. exists err'. split; [by destruct pending|]. split; [done|].
    intros ->. destruct Hw as (wait & after & -> & Hw); [done|]. eexists (_ :: wait), after.
    split; [done|]. rewrite not_elem_of_cons. by split.
  - intros (err' & Hr & Hf & Hw)%IH. exists err'. split; [by destruct pending|]. split; [done|].
    intros ->. destruct Hw as (wait & after & -> & Hw); [done|]. eexists (_ :: wait), after.
    split; [done|]. rewrite not_elem_of_cons. by split.
  - intros [<- (err & Hr & Hf)]%Hs. exists err. split; [by destruct pending|]. done.
  - intros [<- (err & Hr & Hf)]%Hs. exists err. split; [by destruct pending|]. split; [done|].
    intros _. exists [], events. split; [done|]. by apply not_elem_of_nil.
Qed.

Lemma draining_ends pending events :
  is_Some (received pending events) → EvGracefulStopped ∈ events ∨ EvTimeout ∈ events →
  is_Some (draining pending events).
Proof.
  revert pending. induction events as [|e events IH]; intros pending Hr Hd.
  { destruct Hd as [Hd|Hd]; by apply not_elem_of_nil in Hd. }
  rewrite !elem_of_cons in Hd. destruct e; cbn [draining]; rewrite ?await_serve_spec, ?fmap_is_Some.
  3,4: by destruct pending.
  1: apply IH; [by destruct pending|naive_solver].
  apply IH; [by destruct pending|naive_solver].
Qed.

Lemma first_return_some err events : EvServeReturned err ∈ events → is_Some (first_return events).
Proof.
  intros Hin. assert (err ∈ omap returned events) as Hom by (apply list_elem_of_omap; by eexists).
  unfold first_return. destruct (omap returned events); [by apply not_elem_of_nil in Hom|done].
Qed.

(** C28.  The server's main loop.  serve returns only once grpcServer.Serve has, with the
    outcome of its first return, and forces a stop only after a signal was followed
    by ten seconds in which GracefulStop did not finish; and it does return once a
    signal has arrived, Serve has returned and GracefulStop has finished or run out
    of time. *)
Theorem serving_spec events :
  (∀ r forced, serving events = Some (r, forced) →
     ∃ err, first_return events = Some err ∧ (r, forced) = served forced err ∧
       (forced = true → overdue events)) ∧
  (∀ before after err, events = before ++ EvSignal :: after → EvServeReturned err ∈ after →
     EvGracefulStopped ∈ after ∨ EvTimeout ∈ after → is_Some (serving events)).
Proof.
  induction events as [|e events [IH1 IH2]].
  { split; [done|]. intros before after err H. by destruct before. }
  split.
  - intros r forced. destruct e; cbn [serving].
    + intros [= <- <-]. by exists err.
    + intros (err & Hr & Hf & Hw)%draining_spec. exists err. split; [done|]. split; [done|].
      intros Ht. destruct (Hw Ht) as (wait & after & -> & Hwait). by exists [], wait, after.
    + intros (err & Hr & Hf & Hw)%IH1. exists err. split; [done|]. split; [done|].
      intros (before & wait & after & -> & Hwait)%Hw. by eexists (_ :: before), wait, after.
    + intros (err & Hr & Hf & Hw)%IH1. exists err. split; [done|]. split; [done|].
      intros (before & wait & after & -> & Hwait)%Hw. by eexists (_ :: before), wait, after.
  - intros before after err He Hret Hd. destruct e; cbn [serving]; [done| | |].
    2,3: (destruct before as [|b before]; [done|]; simplify_eq/=; by eapply IH2).
    destruct before as [|b before]; simplify_eq/=.
    + apply draining_ends; [by eapply first_return_some|done].
    + apply draining_ends.
      * eapply first_return_some. apply elem_of_app. right. by right.
      * rewrite !elem_of_app, !elem_of_cons. naive_solver.
Qed.

(** ** The commands *)

Section commands.
Context `{P : Platform} `{HO : OS} `{SM : SMTP} `{V : !Viper} `{FT : FlagText} `{X : !Outside}.
Context (version commit date : string).

Definition same_conns : relation Machine := λ m m', ma_open m' = ma_open m.
#[local] Instance same_conns_preorder : PreOrder same_conns.
Proof. split; [by intros m|]. intros m1 m2 m3 H1 H2. unfold same_conns in *. congruence. Qed.

Lemma on_host_conns {A} (p : prog Host A) : guarantees same_conns (on_host p).
Proof. by apply guarantees_zoom. Qed.
Lemma on_world_conns {A} (p : prog World A) : guarantees same_conns (on_world p).
Proof. by apply guarantees_zoom. Qed.
#[local] Hint Resolve on_host_conns on_world_conns : go.

(** *** The bootstrap command *)

Definition same_stdout : relation Host := λ h h', h_stdout h' = h_stdout h.
#[local] Instance same_stdout_preorder : PreOrder same_stdout.
Proof. split; [by intros h|]. intros h1 h2 h3 H1 H2. unfold same_stdout in *. congruence. Qed.

Lemma InitE_stdout workdir cmd : guarantees same_stdout (InitE workdir cmd).
Proof.
  assert (∀ fuel start dir, guarantees same_stdout (find_root fuel start dir)) as Hfind.
  { induction fuel as [|fuel IH]; intros start dir; cbn [find_root]; [constructor|].
    apply guarantees_mbind; [by apply guarantees_syscall|]. intros []; [constructor|].
    case_match; [constructor|apply IH]. }
  unfold InitE, initConfig. apply guarantees_try; [constructor|]. intros dir.
  apply guarantees_mbind; [apply Hfind|]. intros [root|]; [|constructor].
  apply guarantees_try; [|constructor]. apply guarantees_mbind; [by apply guarantees_op|].
  intros [[] v]; constructor.
Qed.

(** A step on the files: output, connections and the shared state stay. *)
Definition quiet (m m' : Machine) : Prop :=
  h_stdout (ma_host m') = h_stdout (ma_host m) ∧ ma_world m' = ma_world m.

Lemma wp_on_host_quiet {A} (p : prog Host A) m :
  guarantees same_stdout p →
  wp (on_host p) (λ _ m', quiet m m' ∧ ma_file m' = ma_file m ∧ ma_open m' = ma_open m) m.
Proof.
  intros Hp. apply wp_on_host, wp_any. intros a h Hr. pose proof (guarantees_run _ _ (ma_host m) Hp) as H.
  by rewrite Hr in H.
Qed.

#[local] Instance quiet_preorder : PreOrder quiet.
Proof. split; [by intros m|]. intros m1 m2 m3 [H1 H2] [H3 H4]. split; congruence. Qed.

Lemma sqlite_Open_quiet cfg : guarantees quiet (sqlite_Open cfg).
Proof.
  assert (∀ A (p : prog DbFile A), guarantees quiet (on_file p)) as Hfile by (intros; by apply guarantees_zoom).
  assert (guarantees quiet db_Close) as Hclose by by apply guarantees_op.
  unfold sqlite_Open. apply guarantees_try; [constructor|]. intros _.
  apply guarantees_catch; [|constructor|intros _].
  { case_match; [constructor|]. apply (guarantees_zoom_rel _ _ _ same_stdout); [|by split].
    apply guarantees_syscall; [|done]. intros h. by destruct (existsb _ _). }
  apply guarantees_catch; [|constructor|intros _].
  { apply guarantees_op. intros m. cbn. by destruct (env_fault _). }
  apply guarantees_catch; [apply Hfile|intros e; apply guarantees_mbind; [done|constructor]|intros _].
  apply guarantees_catch; [apply Hfile|intros e; apply guarantees_mbind; [done|constructor]|constructor].
Qed.

(** What [bootstrap_and_print] prints was in the result of Bootstrap. *)
Lemma bootstrap_and_print_Ok fs m m' :
  run (bootstrap_and_print fs) m = (Ok tt, m') →
  ∃ result w, run (Bootstrap sqlite_accounts (bootstrap_request fs)) (ma_world m) = (Ok result, w) ∧
    ma_world m' = w ∧ ma_open m' = ma_open m ∧
    h_stdout (ma_host m') = h_stdout (ma_host m) +:+ bootstrap_text (flag_string fs "output") result.
Proof.
  unfold bootstrap_and_print. rewrite run_try. unfold on_world. rewrite run_zoom by (done || by intros []).
  destruct (run (Bootstrap _ _) (ma_world m)) as [[result|] w]; [|done]. cbn [fst snd].
  unfold stdout, on_host. rewrite run_zoom by (done || by intros []). unfold write_stdout, syscall.
  cbn. destruct (os_fault _); [done|]. intros [= <-]. by exists result, w.
Qed.

(** A bootstrap that gave a result: a new account whose secret works, or the
    old one and no secret. *)
Definition bootstrap_outcome (name : string) (scopes : list string) (ifNotExists force : bool)
    (result : BootstrapResult) (d d1 : DB) : Prop :=
  let acc := bs_Account result in
  let issued := bs_ClientSecret result in
  if bs_Created result then
    (force = true ∨ ¬ marked d) ∧ (∀ row, row ∈ db_service_accounts d → sa_Name row ≠ TrimSpace name) ∧
    ac_Name acc = TrimSpace name ∧ normalizeScopes scopes = Ok (ac_Scopes acc) ∧
    account_kept acc (secretHash issued) d1 ∧
    ∀ secret w2, TrimSpace secret ≠ "" → db_ok (w_db w2) → account_kept acc (secretHash issued) (w_db w2) →
      env_fault (S (w_step w2)) = None →
      (run (Authenticate sqlite_accounts (ac_ID acc) secret) w2).1 =
        if (secretHash (TrimSpace secret) == secretHash issued)%go then Ok acc
        else Err sa_ErrInvalidCredential
  else ifNotExists = true ∧ issued = "" ∧ d1 = d ∧
    ∃ row, row ∈ db_service_accounts d ∧ sa_Name row = TrimSpace name ∧ decode_account row None = Ok acc.

Lemma Bootstrap_Ok_inv req w result w1 :
  db_ok (w_db w) → bq_ClientID req = "" → bq_ClientSecret req = "" →
  run (Bootstrap sqlite_accounts req) w = (Ok result, w1) →
  bootstrap_outcome (bq_Name req) (bq_Scopes req) (bq_IfNotExists req) (bq_Force req) result
    (w_db w) (w_db w1) ∧ db_ok (w_db w1) ∧
  (bs_Created result = true → TrimSpace (bs_ClientSecret result) = bs_ClientSecret result ∧
     bs_ClientSecret result ≠ "").
Proof.
  intros Hok Hid Hsec. unfold Bootstrap. rewrite run_try. unfold newBootstrapRecord. rewrite Hid, Hsec.
  change (TrimSpace "") with "". rewrite bool_decide_eq_true_2 by done. cbn [andb].
  destruct (run (newRecord _ _) w) as [[[record secret]|] w0] eqn:Hrec; [|done].
  apply newRecord_inv in Hrec as (Hck & Hn & Hsc & Hdis & Hhash & Hst & Hsne & Hit & Hine).
  apply checked_name_inv in Hn. rewrite run_try. cbn [ss_Bootstrap sqlite_accounts].
  destruct (run (accounts_Bootstrap _ _ _) w0) as [[[acc created]|] w1'] eqn:H1; [|done].
  cbn [run]. intros [= <- <-]. unfold bootstrap_outcome. cbn [bs_Created bs_Account bs_ClientSecret].
  assert (w_db w0 = w_db w) as Hdb0 by apply (co_db _ _ Hck).
  pose proof (proj2 (de_grows _ _ (guarantees_run _ _ w0
    (accounts_Bootstrap_effect record (bq_IfNotExists req) (bq_Force req))))) as Hg.
  rewrite H1, Hdb0 in Hg. specialize (Hg Hok). cbn [snd] in Hg.
  destruct (accounts_Bootstrap_inv _ _ _ _ _ _ H1) as (_ & Hnew & Hold). rewrite Hdb0, Hn in *.
  destruct created.
  - destruct (Hnew acc eq_refl) as (-> & Hboot & Hmark & Hfree). rewrite <-Hhash.
    split; [|by split]. do 4 (split; [done|]). split.
    + destruct Hboot as (_ & _ & Ha & Hc & _). apply (added_kept record (w_db w) (w_db w1')); try done.
      by eexists.
    + intros secret' w2 Hsecret Hok2 Hkept Hf. rewrite Hhash in Hkept. unfold Authenticate.
      rewrite Hit, !bool_decide_eq_false_2 by done. cbn [orb]. rewrite run_mbind.
      cbn [run act time_Now ss_Authenticate sqlite_accounts].
      rewrite <-Hhash in Hkept. by rewrite (kept_Authenticate _ _ _ _ (tick w2) Hok2 Hkept Hf).
  - destruct (Hold acc eq_refl) as (-> & -> & Hrow). split; [done|]. by split.
Qed.

Lemma parse_flags_run name flags args m :
  run (parse_flags name flags args) m =
    match Parse flags args with
    | Ok r => (Ok r, m)
    | Err err => (Err err, (run (parse_flags name flags args) m).2)
    end.
Proof.
  unfold parse_flags. destruct (Parse flags args) as [r|err]; [done|]. rewrite run_mbind.
  by destruct (run _ m) as [a m'].
Qed.

Lemma parse_flags_conns name flags args : guarantees same_conns (parse_flags name flags args).
Proof. unfold parse_flags, stderr. destruct (Parse flags args); guarantees_tac. Qed.
#[local] Hint Resolve parse_flags_conns : go.

Lemma runBootstrap_Ok_inv args m m' :
  run (runBootstrap args) m = (Ok tt, m') →
  ∃ rest fs m1, args = "service-account" :: rest ∧ Parse bootstrap_flags rest = Ok (fs, []) ∧
    quiet m m1 ∧ ma_open m1 = ma_open m + 1 ∧
    run (deferred db_Close (bootstrap_and_print fs)) m1 = (Ok tt, m').
Proof.
  destruct args as [|a rest]; [done|]. unfold runBootstrap. case_bool_decide as Ha; [|done].
  subst a. cbn [negb].
  rewrite run_try, parse_flags_run. destruct (Parse _ rest) as [[fs extra]|] eqn:Hp; [|done]. rewrite run_try.
  destruct extra as [|]; [|done]. cbn [run no_arguments]. destruct (_ && _); [done|]. rewrite run_catch.
  pose proof (wp_on_host_quiet _ m (InitE_stdout os_Getwd "bootstrap")) as Hinit. unfold wp in Hinit.
  destruct (run (on_host _) m) as [[app|] m1]; [|done]. destruct Hinit as (Hq1 & _ & Ho1).
  rewrite run_catch. cbn [run]. destruct (PersistenceConfig_Validate _); [|done]. rewrite run_try.
  pose proof (wp_sqlite_Open (pc_SQLite (LoadPersistence (app_config app))) m1) as Hopen.
  pose proof (guarantees_run _ _ m1 (sqlite_Open_quiet (pc_SQLite (LoadPersistence (app_config app))))) as Hq2.
  unfold wp in Hopen. destruct (run (sqlite_Open _) m1) as [[u|] m2]; [|done]. intros Hrun.
  destruct Hopen as (_ & Ho2 & _). exists rest, fs, m2. split_and!; try done; [exact (transitivity Hq1 Hq2)|lia].
Qed.

(** C26.  `identra bootstrap service-account` succeeds only for arguments the flag set
    accepts, closes the database it opened, and prints exactly one text.  Either the
    text is that of a new account with the name and scopes asked for, made while no
    account had that name and no installation had been bootstrapped (or with --force),
    and stored alive with the printed secret as its only credential: as long as the
    database keeps that account and credential, whatever happens to other rows, the
    printed identifier authenticates with the printed secret and with no secret of
    another digest.  Or --if-not-exists was given, the text is that of the account
    the database has under that name, no secret is printed and the database is
    unchanged. *)
Theorem bootstrap_command args m m' (Hok : db_ok (w_db (ma_world m)))
    (Hrun : run (runBootstrap args) m = (Ok tt, m')) :
  ∃ rest fs result, args = "service-account" :: rest ∧ Parse bootstrap_flags rest = Ok (fs, []) ∧
    ma_open m' = ma_open m ∧
    h_stdout (ma_host m') =
      h_stdout (ma_host m) +:+ bootstrap_text (flag_string fs "output") result ∧
    bootstrap_outcome (flag_string fs "name") (flag_list fs "scope") (flag_bool fs "if-not-exists")
      (flag_bool fs "force") result (w_db (ma_world m)) (w_db (ma_world m')) ∧
    db_ok (w_db (ma_world m')) ∧
    (bs_Created result = true → TrimSpace (bs_ClientSecret result) = bs_ClientSecret result ∧
       bs_ClientSecret result ≠ "").
Proof.
  destruct (runBootstrap_Ok_inv _ _ _ Hrun) as (rest & fs & m1 & -> & Hparse & [Hout Hw] & Ho & Hrun1).
  unfold deferred in Hrun1. rewrite run_mbind in Hrun1.
  destruct (run (bootstrap_and_print fs) m1) as [r m2] eqn:Hbp.
  unfold db_Close in Hrun1. cbn in Hrun1. injection Hrun1 as -> <-.
  apply bootstrap_and_print_Ok in Hbp as (result & w & Hb & Hw2 & Ho2 & Hout2).
  exists rest, fs, result. cbn. rewrite Hw in Hb.
  split; [done|]. split; [done|]. split; [lia|]. split; [by rewrite Hout2, Hout|].
  rewrite Hw2. apply (Bootstrap_Ok_inv (bootstrap_request fs) _ _ _ Hok eq_refl eq_refl Hb).
Qed.

(** *** Every command *)

Context (Hinvoke : ∀ call, guarantees same_conns (grpc_Invoke call)).

Lemma invoke_conns fs auth req : guarantees same_conns (invoke fs auth req).
Proof. apply Hinvoke. Qed.
Lemma writeProtoJSON_conns rsp : guarantees same_conns (writeProtoJSON rsp).
Proof. unfold writeProtoJSON, stdout. destruct (protojson_Marshal rsp); guarantees_tac. Qed.
Lemma readSecret_conns path env : guarantees same_conns (readSecret path env).
Proof. unfold readSecret. guarantees_tac. Qed.
#[local] Hint Resolve invoke_conns writeProtoJSON_conns readSecret_conns : go.

Lemma callServiceAccountRPC_conns fs extra req :
  guarantees same_conns (callServiceAccountRPC fs extra req).
Proof. unfold callServiceAccountRPC. guarantees_tac. Qed.
#[local] Hint Resolve callServiceAccountRPC_conns : go.

Lemma clients_conns args :
  guarantees same_conns (runTokenCommand args) ∧
  guarantees same_conns (runServiceAccountCommand args) ∧
  guarantees same_conns (runAuditCommand args) ∧ guarantees same_conns (runServerInfoCommand args).
Proof.
  split_and!.
  - unfold runTokenCommand. guarantees_tac.
  - unfold runServiceAccountCommand, runServiceAccountCreate, runServiceAccountList,
      runServiceAccountDisable, runServiceAccountRotate, runServiceAccountByID. guarantees_tac.
  - unfold runAuditCommand. guarantees_tac.
  - unfold runServerInfoCommand. guarantees_tac.
Qed.

Lemma wp_conns {A} (p : MM A) m : guarantees same_conns p → wp p (λ _ m', ma_open m' = ma_open m) m.
Proof. intros Hp. apply wp_any. intros a m' Hr. pose proof (guarantees_run _ _ m Hp) as H. by rewrite Hr in H. Qed.

Lemma wp_done {A} (p : MM A) (Q : option A → Machine → Prop) m :
  wp p (λ a m', Q (Some a) m') m → wp (done p) Q m.
Proof. intros H. apply wp_mbind. eapply wp_mono; [exact H|]. intros a m' Ha. by apply wp_ret. Qed.

(** The connections of a command that returned, or that is serving. *)
Definition balanced (m : Machine) (r : option (result unit)) (m' : Machine) : Prop :=
  ma_open m' = ma_open m + (if is_None r then 1 else 0) ∧
  (r = None → serving serve_events = None).

Lemma wp_done_conns (p : MM (result unit)) m :
  wp p (λ _ m', ma_open m' = ma_open m) m → wp (done p) (balanced m) m.
Proof.
  intros H. apply wp_done. eapply wp_mono; [exact H|]. intros r m' Hr. cbv beta in Hr. split; [cbn; lia|done].
Qed.

Lemma wp_serve_command m : wp (serve_command version commit date) (balanced m) m.
Proof.
  unfold serve_command. apply wp_catch.
  eapply wp_mono; [apply (wp_conns (on_host _)), on_host_conns|]. intros [app|e] m1 Ho1; cbv beta in Ho1.
  2: { apply wp_done, wp_ret. split; [cbn; lia|done]. }
  apply wp_catch, wp_ret. destruct (GRPCConfig_Validate _) as [u|e].
  2: { apply wp_done, wp_ret. split; [cbn; lia|done]. }
  apply wp_catch. eapply wp_mono; [apply wp_app_NewService|]. intros [s|e] m2 [_ Hm2].
  2: { apply wp_done, wp_ret. split; [cbn; lia|done]. }
  destruct Hm2 as (_ & Hd & _ & Ho2 & _). unfold run_server, listen_and_serve.
  assert (∀ res, wp (deferred (Close s) (Ret (Some res))) (balanced m) m2) as Hclose.
  { intros res. unfold deferred. apply wp_mbind, wp_ret, wp_mbind. unfold wp.
    destruct (Close_run s m2 Hd) as (m3 & -> & Ho3). split; [cbn; lia|done]. }
  destruct (net_Listen _); [|apply Hclose].
  destruct (serving serve_events) as [[res f]|] eqn:Hs; cbn [fst fmap option_fmap option_map]; [apply Hclose|].
  apply wp_ret. split; [cbn; lia|done].
Qed.

Lemma wp_runBootstrap args m : wp (runBootstrap args) (λ _ m', ma_open m' = ma_open m) m.
Proof.
  unfold runBootstrap. destruct args as [|a rest]; [by apply wp_ret|].
  destruct (negb _); [by apply wp_ret|].
  apply wp_try. eapply wp_mono; [apply wp_conns, parse_flags_conns|].
  intros [[fs extra]|e] m1 Ho1; [|exact Ho1].
  apply wp_try, wp_ret. destruct (no_arguments extra); [|exact Ho1].
  destruct (_ && _); [by apply wp_ret|].
  apply wp_catch. eapply wp_mono; [apply (wp_conns (on_host _)), on_host_conns|].
  intros [app|e] m2 Ho2; cbv beta in Ho1, Ho2; [|apply wp_ret; congruence].
  apply wp_catch, wp_ret. destruct (PersistenceConfig_Validate _); [|apply wp_ret; congruence].
  apply wp_try. eapply wp_mono; [apply wp_sqlite_Open|]. intros [u|e] m3 [_ Ho3]; [|congruence].
  unfold deferred. apply wp_mbind. eapply wp_mono.
  { apply wp_conns. unfold bootstrap_and_print, stdout. guarantees_tac. }
  intros r m4 Ho4. cbv beta in Ho4. apply wp_mbind. unfold db_Close. apply wp_act, wp_ret. cbn.
  destruct Ho3 as [Ho3 _]. lia.
Qed.

(** C27.  Every command, whatever its arguments and whatever fails on the way, leaves as
    many connections to the database open as it found, once it returns; only
    `identra serve` can go on, with its one connection, and only while its main loop
    does. *)
Theorem run_command_closes args m :
  let '(r, m') := run (run_command version commit date args) m in
  ma_open m' = ma_open m + (if is_None r then 1 else 0) ∧
  (r = None → serving serve_events = None).
Proof.
  change (wp (run_command version commit date args) (balanced m) m). unfold run_command, stderr, stdout.
  destruct (clients_conns (tail args)) as (H1 & H2 & H3 & H4).
  destruct args as [|command rest]; cbn [tail] in *.
  { apply wp_done_conns, wp_conns. guarantees_tac. }
  repeat match goal with |- wp (if ?b then _ else _) _ _ =>
    lazymatch type of b with bool => destruct b end end.
  1: destruct rest; [apply wp_serve_command|by apply wp_done_conns, wp_ret].
  1: apply wp_done_conns, wp_runBootstrap.
  all: apply wp_done_conns, wp_conns; try done; unfold printUsage; guarantees_tac.
Qed.
End commands.

(** ** Closed instances *)

Section instances.
#[local] Existing Instances calm calm_os decimal_flags ref_viper.
#[local] Instance quiet_smtp : SMTP := {| smtp_reply _ := None |}.

(** The server is on this machine: a call is handled on the shared state. *)
Definition loopback (call : Call) : prog Machine (result Response) :=
  on_world (handle sample_service sqlite_audit
    (mkCtx (match call_Authorization call with Some a => [("authorization", [a])] | None => [] end))
    (call_Request call)).

(** A server that is told to stop once it runs, and does. *)
Definition local : Outside := {|
  os_Getwd := Ok "/srv/identra";
  grpc_NewClient _ _ := Ok tt;
  grpc_Invoke := loopback;
  protojson_Marshal r := Ok (match r with RspExchangeServiceToken _ => "token" | _ => "{}" end);
  json_Encode_result r := ac_ID (bs_Account r);
  flag_Usage name _ := "Usage of " +:+ name;
  net_Listen _ := Ok tt;
  serve_events := [EvSignal; EvServeReturned (Some ErrServerStopped); EvTimeout; EvGracefulStopped];
|}.
#[local] Existing Instance local.

Definition new_machine : Machine :=
  mkMachine empty_host (mkDbFile 0 0 (default empty_schema (schema_at 0)) None) 0 calm_world.

Definition bootstrap_args : list string :=
  ["service-account"; "--name"; "platform-admin"; "--scope=identra.admin"; "-scope"; "ci.read"].
#[local] Notation bootstrap_run := (run (runBootstrap bootstrap_args) new_machine).

(** The first bootstrap of an installation prints a secret that works. *)
Lemma bootstrap_command_witness :
  ∃ acc secret, (run (Authenticate sqlite_accounts (ac_ID acc) secret) (ma_world bootstrap_run.2)).1 = Ok acc.
Proof.
  assert (is_Ok bootstrap_run.1 &&
    negb (length (db_service_accounts (w_db (ma_world bootstrap_run.2))) =? 0)%nat = true)
    as Hok by (by vm_compute).
  pose proof (empty_db_ok : db_ok (w_db (ma_world new_machine))) as Hdb.
  pose proof (eq_refl : w_db (ma_world new_machine) = empty_db) as Hempty.
  generalize dependent new_machine. intros m Hok Hdb Hempty.
  destruct (run (runBootstrap bootstrap_args) m) as [[[]|] m'] eqn:Hrun; [|discriminate Hok].
  cbn [is_Ok fst snd andb] in *.
  destruct (bootstrap_command bootstrap_args m m' Hdb Hrun)
    as (rest & fs & result & _ & _ & _ & _ & Hres & Hdb' & Hsecret).
  unfold bootstrap_outcome in Hres. destruct (bs_Created result).
  - destruct (Hsecret eq_refl) as [Htrim Hne]. destruct Hres as (_ & _ & _ & _ & Hkept & H).
    exists (bs_Account result), (bs_ClientSecret result).
    rewrite (H _ (ma_world m')); [by rewrite Htrim, bool_decide_eq_true_2| |exact Hdb'|exact Hkept|exact eq_refl].
    by rewrite Htrim.
  - destruct Hres as (_ & _ & Hsame & _). rewrite Hsame, Hempty in Hok. discriminate Hok.
Defined.

(** serve, from the defaults, on a fresh machine: it starts, is told to stop,
    and ends with the database closed. *)
Lemma run_command_closes_witness :
  (run (run_command "dev" "none" "unknown" ["serve"]) new_machine).1 = Some (Ok tt) ∧
  ma_open (run (run_command "dev" "none" "unknown" ["serve"]) new_machine).2 = 0.
Proof.
  assert ((run (run_command "dev" "none" "unknown" ["serve"]) new_machine).1 = Some (Ok tt)) as Hr
    by (by vm_compute).
  split; [exact Hr|].
  assert (∀ call, guarantees same_conns (grpc_Invoke call)) as Hinvoke by (intros call; apply on_world_conns).
  pose proof (run_command_closes "dev" "none" "unknown" Hinvoke ["serve"] new_machine) as H.
  pose proof (eq_refl : ma_open new_machine = 0) as Hz. generalize dependent new_machine. intros m Hr H Hz.
  destruct (run (run_command "dev" "none" "unknown" ["serve"]) m) as [r m']. cbn [fst snd] in *.
  subst r. destruct H as [H _]. rewrite H, Hz. reflexivity.
Defined.
End instances.
